(* ===== verification/_CoqProject ===== *)
-Q . S2P
Prelude.v
PyStr.v
PyFloat.v
FloatError.v
PyValue.v
JsonLoads.v
BaseGroups.v
Modifiers.v
Commute.v
Percentages.v
Consolidate.v
PercentSum.v
Dump.v
Document.v
Main.v
