(* ===== verification/Prelude.v ===== *)
(** * A verification development for CraftAssistant's data scrapper

    The program verified here is the single Python module
    [src/CraftAssistant/data/scrapper.py].  It downloads two JSON
    documents of the Craft of Exile service (the game data [poec_data] and
    the localisation table [poec_lang]), joins them by their numeric
    identifiers into one record per item base ("base group"), derives the
    tier statistics of every affix and writes the result as one JSON file.

    ** The parts of the program and how they interact

    The module is a straight-line pipeline; [consolidate_data] (lines
    195-210) calls, in this order, each stage on the dictionary built by
    the previous one:

    - [fetch_json] (lines 34-52): HTTP GET, strip of the [poecd=] /
      [poecl=] wrapper, [json.loads];
    - [parse_base_groups] (lines 54-63) with the rename table
      [custom_base_groups] (lines 4-33): one group per entry of
      [poec_lang["base"]];
    - [parse_items] (65-69) and [parse_bases_and_groups] (71-76): append
      item names, set [base_type] and [bgroup] in place;
    - [parse_modifiers_and_tiers] (78-157) with [parse_value] (160-161):
      build the affixes and their tiers; this is the core of the program;
    - [calculate_percentages] (171-193): write [affix_percent] and
      [weight_percent] on every tier in place;
    - the final [json.dump] of [{"base_groups": [...]}] (line 208), whose
      text the program's user reads back with [json.loads].

    The stages communicate only through the shared [base_groups]
    dictionary, which each stage mutates.  No group, affix or tier object
    is ever reachable from two places (every dictionary and list stored in
    it is created fresh by the stage that stores it, and [nvalues] is
    re-decoded before it is mutated), so the development models the
    dictionary as a value passed from stage to stage: a stage is a
    function from the old dictionary to the new one, in the exception
    monad, since every stage can raise.

    ** Files

    - [Prelude] (this file): the exception monad [result] and its notation
      in [py_scope], the monadic loops [res_fold], [res_map] that model
      Python [for] loops which can raise, generic lemmas on them and on
      integer sums and association lists (the model of a [dict]: insertion
      ordered, [assoc_set] keeps a key's first position), the tactics
      [res_inv], [case_opt], [destruct_match_in] and the hint database
      [craft].
    - [PyStr]: the [str] methods the program calls ([strip],
      [lstrip(chars)], [lower], [endswith]), [int(str)] and the decimal
      rendering of an [int] (f-string).
    - [PyFloat]: Python [float] as IEEE binary64 through the Standard
      Library's [SpecFloat] ([prec = 53], [emax = 1024]): conversion from
      [int] and from decimal literals, [int / int], [*], [int(float)],
      [round(x, n)]; the lemmas that bound [SpecFloat]'s rounding from
      above ([binary_round_aux_le], [b64_true_div_unit],
      [b64_round_100]).
    - [FloatError]: the exact rational value [b64_val] of a finite
      binary64 number and the error bounds of the three operations of a
      percentage: the quotient of [int / int] within [2^-50]
      ([b64_true_div_val]), the product by [100] within [2^-44]
      ([b64_mul_100_val]), [round(y, 4)] within [0.00005 + 2^-44]
      ([b64_round_100_val]).
    - [PyValue]: decoded JSON values as Python sees them ([None], [bool],
      [int], [float], [str], [list], [dict]), Python's exceptions, and
      the dynamic operations the program applies to them ([d[k]],
      [d.get], [in], [==], [isinstance], [int()], [float()], iteration,
      truthiness).
    - [JsonLoads]: [json.loads] as a decoder of strings into values.
    - [BaseGroups]: [custom_base_groups], the [BaseGroup] record and the
      stages [parse_base_groups], [parse_items], [parse_bases_and_groups].
    - [Modifiers]: [parse_value], the tier and affix records and
      [parse_modifiers_and_tiers].
    - [Commute]: the enrichment stages of lines 200-202 rewritten as
      effects on the groups computed from the keys ([alter_all]); the
      interface of a stage is the class [EffectStage], with the three
      stages as instances, and stages whose effects commute
      ([StagesDisjoint]) commute ([stages_commute]).
    - [Percentages]: [calculate_percentages], its relational
      specification [group_percents] and the range of the percentages.
    - [Consolidate]: [fetch_json] against a modelled HTTP response, the
      serialisation to the output document and [consolidate_data].
    - [PercentSum]: the error of one percentage against the exact
      [100 * w / total] and the sums of the percentages of a group.
    - [Dump]: the text [json.dump(..., indent=4, ensure_ascii=False)]
      writes: CPython's indented encoder ([dump_value]), the string
      escapes ([py_encode_basestring]) and [float.__repr__]
      ([float_repr]: the shortest digits that read back, formatted as
      CPython's [format_float_short]).
    - [Document]: every object of the written document has distinct
      keys ([groups_kd] through every stage), so the file reads back.
    - [Main]: the effects of the script as an interaction tree (ITree):
      [requests.get], the [open]/[json.dump] of the output file and the
      [print] are events, interpreted by [h_io] over a [World] of server
      responses, files and an action trace; [consolidate_data_io] is
      lines 195-210 and [main] the module-level call of lines 212-215.

    ** What the theorems show

    The properties are numbered C1, C2, ... in the order of their
    importance; each is stated in the file of the stage it is about.

    - Invariants of the written data ([Consolidate], [PercentSum]): no
      tier of weighting <= 1 survives (C1, C2); every kept tier gets
      float percentages (C2, C10) between 0 and 100 (C3); in every group
      the prefix [affix_percent]s, the suffix [affix_percent]s and all
      [weight_percent]s sum to 100 within [n * 0.0000501] for [n] tiers
      (C4); the groups are exactly the entries of [poec_lang["base"]], in
      order, with their renamed names (C15); every [mod_groups] tag is
      lower-case and stripped (C28); the document has the shape of
      section 6 of the spec, with the keys the program may leave out
      (C31).
    - The percentage stage: under the weighting invariant it never
      raises and gives floats in [0, 100] (C5) whose sums are close to
      100 (C6); one percentage is in [0, 100] (C7) and within
      [0.0000501] of the exact rational [100 * w / total] (C8); the
      stage against its relational specification (C9) and its frame
      (C16); a tier carrying the whole weight gets exactly [100.0] (C20).
    - Functional behaviour of the other stages: [parse_base_groups]
      (C26), [parse_items] (C24), [parse_bases_and_groups], last record
      wins (C25); the value scaling and its float flag (C13, C17); the
      exact scaling of integral values below [2^53 / 60] (C36); the tier
      labels (C18, C19); the skipping of unknown base ids (C21); the
      modifier lookup as Python's [next] (C29); the restriction of the
      tier table to the current base (C30); [is_float_affix] is the float
      test of the last tier (C11); [json.loads] of an object with a
      repeated key: first position, last value (C27).
    - Error behaviour: an undecodable [nvalues] aborts the run (C12); the
      [try] block of loop 2, with the exceptions it catches and those
      that escape (C14); a failed fetch (C22).
    - The fetcher: the [lstrip] of a character set refines the removal of
      the wrapper prefix on every body whose content decodes (C23).
    - Ordering: any two of [parse_items], [parse_bases_and_groups] and
      [parse_modifiers_and_tiers] commute (C35).
    - Round trip ([Dump]): the text [json.dump] writes loads back with
      [json.loads] to the same value, for every value whose dicts have
      distinct keys and whose floats print (C32); [Document] shows that
      every object of the written document has distinct keys, so the
      written file reads back to the document.
    - Effects ([Main]): a run of the script ends with the pure model's
      result, requests the two URLs in order, and writes the file and
      prints only after every stage succeeded; a failed run creates or
      truncates no file (C33); a successful run of the module leaves
      [poe.json] holding a text that reads back to the document (C34).
    - The spec's end-to-end example ([Consolidate.ex_get]: one base, one
      item, one prefix modifier with tiers weighing 10, 5 and 1) is the
      witness of C2, C3, C4, C15, C22, C28 and C31; it computes the
      document of [Consolidate.ex_expected], with the percentages
      [66.6667] and [33.3333].

    The findings (code against spec) are those of C10, C11, C12, C13,
    C14, C19, C23 and C25, and two that evaluation shows:
    [is_float_affix] reflects the last tier only, a decoding error in
    loop 1 is fatal, the float flag of scalar tiers, the exceptions the
    [try] lets escape, duplicate tier labels, the character set stripped
    by [lstrip], the missing [base_type]/[bgroup] defaults, the
    unreachable [else 0] branches, the truncation of [int(float * 60)]
    (4.1 is stored as 245) and the scaling of integral floats ([2.0]).

    ** Bounds and fuel

    Integers are unbounded [Z], as Python's [int]; floats are binary64
    with overflow to an [OverflowError] where Python raises it
    ([int(inf)], [float(int)] too large).  The only fuel is the JSON
    decoder's, [4 * length + 4]; [JsonLoads.decode_fuel] shows that
    [3 * length + 2] always suffices.  [float_repr] tries 1 to 17
    significant digits, the most binary64 needs; the round trip assumes
    of each float that one of them reads back ([repr_found]), which
    evaluation decides for any given float.

    ** Not modelled

    The HTTP transport (a request is an event answered by the world's
    [Response]), the exceptions [requests] raises, the operating-system
    errors of [open] and of the write, the UTF-8 encoding of the file,
    characters above code point 255 (strings are Latin-1: [\u] escapes
    above 255 decode as an error, and the encoder never sees such a
    character), and the theorem of binary64 that 17 significant digits
    always read back.

    ** Floating-point error

    The tolerance of the sums is the one the rounding to four decimals
    forces: each percentage is within [0.00005] of the binary64 value it
    rounds, and the binary64 operations before it add less than
    [10^-12]; [percent_tolerance = 0.0000501] covers both, so a group of
    [n] tiers sums to 100 within [n * 0.0000501].  The bounds are proved
    on [SpecFloat]'s own rounding functions ([FloatError]), not on an
    axiomatised float model.
    *)

From stdpp Require Export base list strings decidable.
From Stdlib Require Export ZArith Lia.
From Stdlib Require Export Floats.SpecFloat.

Declare Scope py_scope.
Delimit Scope py_scope with py.
Open Scope py_scope.

(** ** The exception monad

    A Python computation either returns a value or raises an exception;
    [result E A] is that outcome, [E] the type of exceptions. *)

Inductive result (E A : Type) : Type :=
  | Ok (a : A)
  | Exc (e : E).
Arguments Ok {E A} a.
Arguments Exc {E A} e.

Definition res_bind {E A B} (m : result E A) (k : A -> result E B) : result E B :=
  match m with
  | Ok a => k a
  | Exc e => Exc e
  end.

Notation "'let*' x ':=' m 'in' k" := (res_bind m (fun x => k))
  (at level 10, x name, m at level 100, k at level 200) : py_scope.
Notation "'let*' ' p ':=' m 'in' k" := (res_bind m (fun x => match x with p => k end))
  (at level 10, p pattern, m at level 100, k at level 200) : py_scope.
Notation "'raise' e" := (Exc e) (at level 10, e at level 9) : py_scope.

(** The Python exceptions the program can raise.  [JSONDecodeError] is a
    subclass of [ValueError]: [is_value_error] is the test of
    [except (ValueError, json.JSONDecodeError)].  [FetchError] is the
    [Exception] raised by [fetch_json] with its URL and HTTP status. *)
Inductive exn :=
  | KeyError
  | IndexError
  | TypeError
  | ValueError
  | JSONDecodeError
  | AttributeError
  | OverflowError
  | ZeroDivisionError
  | FetchError (url : string) (status : Z).

Definition is_value_error (e : exn) : bool :=
  match e with ValueError | JSONDecodeError => true | _ => false end.

(** A Python computation returning an [A]. *)
Abbreviation py A := (result exn A).

(** [for x in xs: body] threading a state through the iterations; the
    first exception stops the loop and escapes. *)
Fixpoint res_fold {E S A} (f : S -> A -> result E S) (s : S) (xs : list A)
    : result E S :=
  match xs with
  | [] => Ok s
  | x :: xs' => let* s' := f s x in res_fold f s' xs'
  end.

(** [[f x for x in xs]] when [f] can raise. *)
Fixpoint res_map {E A B} (f : A -> result E B) (xs : list A) : result E (list B) :=
  match xs with
  | [] => Ok []
  | x :: xs' => let* y := f x in let* ys := res_map f xs' in Ok (y :: ys)
  end.

(** [sum(...)] of Python integers. *)
Definition sumZ (xs : list Z) : Z := foldr Z.add 0%Z xs.

(** ** Python dictionaries with [str] keys

    A [dict] keeps its keys in insertion order; assigning to an existing
    key replaces the value in place, assigning to a new key appends it.
    [assoc_lookup] is [d[k]] / [k in d], [assoc_set] is [d[k] = v],
    [assoc_alter] mutates the value stored under [k] in place. *)

Fixpoint assoc_lookup {V} (k : string) (d : list (string * V)) : option V :=
  match d with
  | [] => None
  | (k', v) :: d' => if String.eqb k k' then Some v else assoc_lookup k d'
  end.

Fixpoint assoc_set {V} (k : string) (v : V) (d : list (string * V)) : list (string * V) :=
  match d with
  | [] => [(k, v)]
  | (k', v') :: d' => if String.eqb k k' then (k', v) :: d' else (k', v') :: assoc_set k v d'
  end.

Fixpoint assoc_alter {V} (f : V -> V) (k : string) (d : list (string * V)) : list (string * V) :=
  match d with
  | [] => []
  | (k', v') :: d' => if String.eqb k k' then (k', f v') :: d' else (k', v') :: assoc_alter f k d'
  end.

(** ** Generic lemmas *)

Lemma res_bind_Ok {E A B} (m : result E A) (k : A -> result E B) b :
  res_bind m k = Ok b <-> exists a, m = Ok a /\ k a = Ok b.
Proof.
  destruct m as [a|e]; simpl; split.
  - intros H. eauto.
  - intros (a' & [= ->] & H). exact H.
  - discriminate.
  - intros (? & ? & _). discriminate.
Qed.

Lemma res_bind_Exc {E A B} (m : result E A) (k : A -> result E B) e :
  res_bind m k = Exc e <-> m = Exc e \/ exists a, m = Ok a /\ k a = Exc e.
Proof.
  destruct m as [a|e']; simpl; split.
  - eauto.
  - intros [[=] | (a' & [= ->] & H)]. exact H.
  - intros [= ->]. auto.
  - intros [[= ->] | (? & [=] & _)]. reflexivity.
Qed.

Ltac res_inv :=
  repeat match goal with
  | H : res_bind _ _ = Ok _ |- _ =>
      let x := fresh "x" in let Hx := fresh "Hx" in
      apply res_bind_Ok in H; destruct H as (x & Hx & H)
  | H : match ?x with pair _ _ => _ end = Ok _ |- _ => destruct x
  | H : Ok _ = Ok _ |- _ => injection H as H
  | H : Some _ = Some _ |- _ => injection H as H
  | H : Exc _ = Ok _ |- _ => discriminate H
  | H : Ok _ = Exc _ |- _ => discriminate H
  end.

(** Case analysis on the option a hypothesis [match o with ... end = _]
    scrutinises. *)
Ltac case_opt H :=
  match type of H with
  | (match ?o with Some _ => _ | None => _ end) = _ => destruct o
  end.

(** Case analysis on every [match] (and [if], and [let '(_, _)]) whose
    scrutinee is closed in [H], keeping an equation for each, and again
    in those equations. *)
Ltac destruct_match_in H :=
  repeat match type of H with
  | context [match ?x with _ => _ end] =>
      let E := fresh "E" in
      destruct x eqn:E; cbn beta iota in H; try destruct_match_in E
  end.

(** Lengths of appended and consed lists as sums, everywhere. *)
Ltac len_simpl := repeat (rewrite ?length_app in *; cbn [List.length] in * ).

Lemma res_fold_app {E S A} (f : S -> A -> result E S) s xs ys :
  res_fold f s (xs ++ ys) = let* s' := res_fold f s xs in res_fold f s' ys.
Proof.
  revert s. induction xs as [|x xs IH]; intros s; simpl; [reflexivity|].
  destruct (f s x); simpl; [apply IH|reflexivity].
Qed.

(** The loop rule: a property kept by every iteration holds after the
    whole loop. *)
Lemma res_fold_invariant {E S A} (P : S -> Prop) (f : S -> A -> result E S) s xs s' :
  (forall s x s', P s -> In x xs -> f s x = Ok s' -> P s') ->
  P s -> res_fold f s xs = Ok s' -> P s'.
Proof.
  revert s. induction xs as [|x xs IH]; intros s Hstep Hs Hrun; simpl in Hrun.
  - injection Hrun as <-. exact Hs.
  - apply res_bind_Ok in Hrun as (s1 & Hf & Hrun).
    eapply IH; [| eapply Hstep; [exact Hs | left; reflexivity | exact Hf] | exact Hrun].
    intros. eapply Hstep; eauto. right; assumption.
Qed.

(** A loop whose body never raises never raises. *)
(** A loop whose body keeps a projection of the state keeps it. *)
Lemma res_fold_preserve {E S A B} (p : S -> B) (f : S -> A -> result E S) s xs s' :
  (forall s x s', f s x = Ok s' -> p s' = p s) -> res_fold f s xs = Ok s' -> p s' = p s.
Proof.
  intros Hf. revert s. induction xs as [|x xs IH]; intros s H; simpl in H; [now injection H as <-|].
  destruct (f s x) as [s1|] eqn:E1; [|discriminate]. cbn [res_bind] in H.
  rewrite (IH _ H). exact (Hf _ _ _ E1).
Qed.

Lemma res_fold_total {E S A} (f : S -> A -> result E S) (g : S -> A -> S) s xs :
  (forall s x, In x xs -> f s x = Ok (g s x)) ->
  res_fold f s xs = Ok (fold_left g xs s).
Proof.
  revert s. induction xs as [|x xs IH]; intros s H; simpl; [reflexivity|].
  rewrite H by (left; reflexivity). simpl. apply IH.
  intros. apply H. right; assumption.
Qed.

Lemma res_map_Ok_length {E A B} (f : A -> result E B) xs ys :
  res_map f xs = Ok ys -> length ys = length xs.
Proof.
  revert ys. induction xs as [|x xs IH]; intros ys H; simpl in H.
  - injection H as <-. reflexivity.
  - res_inv. subst. simpl. f_equal. auto.
Qed.

Lemma res_map_Forall2 {E A B} (f : A -> result E B) xs ys :
  res_map f xs = Ok ys -> Forall2 (fun x y => f x = Ok y) xs ys.
Proof.
  revert ys. induction xs as [|x xs IH]; intros ys H; simpl in H.
  - injection H as <-. constructor.
  - res_inv. subst. constructor; auto.
Qed.

Lemma res_map_Ok_iff {E A B} (f : A -> result E B) xs ys :
  res_map f xs = Ok ys <-> Forall2 (fun x y => f x = Ok y) xs ys.
Proof.
  split; [apply res_map_Forall2|]. induction 1 as [|x y xs ys Hxy _ IH]; [reflexivity|].
  cbn [res_map]. now rewrite Hxy, IH.
Qed.

(** A [res_map] whose body meets a relation element by element. *)
Lemma res_map_spec {E A B} (f : A -> result E B) (R : A -> B -> Prop) xs ys :
  (forall x y, f x = Ok y <-> R x y) -> res_map f xs = Ok ys <-> Forall2 R xs ys.
Proof.
  intros Hf. rewrite res_map_Ok_iff.
  split; apply Forall2_impl; intros x y; apply Hf.
Qed.

(** A [res_map] whose body succeeds on every element succeeds. *)
Lemma res_map_total {E A B} (f : A -> result E B) (Q : B -> Prop) xs :
  (forall x, In x xs -> exists y, f x = Ok y /\ Q y) -> exists ys, res_map f xs = Ok ys /\ Forall Q ys.
Proof.
  induction xs as [|x xs IH]; intros H; [exists []; split; constructor|].
  destruct (H x (or_introl eq_refl)) as (y & Hy & Qy).
  destruct IH as (ys & Hys & Qys); [intros x' Hx'; apply H; now right|].
  exists (y :: ys). cbn [res_map]. rewrite Hy, Hys. split; [reflexivity | now constructor].
Qed.

Lemma Forall2_map_r {A B C} (R : A -> C -> Prop) (f : B -> C) xs ys :
  Forall2 (fun x y => R x (f y)) xs ys -> Forall2 R xs (map f ys).
Proof. induction 1; simpl; constructor; auto. Qed.

Lemma Forall2_In_r {A B} (R : A -> B -> Prop) xs ys y :
  Forall2 R xs ys -> In y ys -> exists x, In x xs /\ R x y.
Proof.
  induction 1 as [|x y' xs ys Hxy HF IH]; [intros []|].
  intros [->|Hin]; [exists x; simpl; auto|].
  destruct (IH Hin) as (x' & Hx' & HR). exists x'. simpl. auto.
Qed.

Lemma last_map_Forall2 {A B C} (R : A -> B -> Prop) (f : A -> C) (h : B -> C) xs ys d :
  Forall2 R xs ys -> (forall x y, R x y -> f x = h y) -> last (map f xs) d = last (map h ys) d.
Proof.
  intros HF Hfh. induction HF as [|x y xs ys Hxy HF IH]; [reflexivity|].
  simpl. destruct HF; simpl in *; [apply Hfh; exact Hxy | exact IH].
Qed.

(** What a successful [res_map] keeps of each element. *)
Lemma res_map_preserve {E A B C} (f : A -> result E B) (h : B -> C) (g : A -> C) xs ys :
  (forall x y, In x xs -> f x = Ok y -> h y = g x) -> res_map f xs = Ok ys -> map h ys = map g xs.
Proof.
  revert ys. induction xs as [|x xs IH]; intros ys Hfg H; simpl in H.
  - injection H as <-. reflexivity.
  - res_inv. subst. simpl. f_equal; [apply Hfg; [left|]; auto|].
    apply IH; [intros; apply Hfg; [right|]; auto | assumption].
Qed.

Lemma res_map_map {E A B C} (f : B -> result E C) (g : A -> B) xs :
  res_map f (map g xs) = res_map (fun x => f (g x)) xs.
Proof. induction xs as [|x xs IH]; simpl; [reflexivity|]. now rewrite IH. Qed.

Lemma res_map_ext {E A B} (f g : A -> result E B) xs :
  (forall x, f x = g x) -> res_map f xs = res_map g xs.
Proof. intros Hfg. induction xs as [|x xs IH]; simpl; [reflexivity|]. now rewrite Hfg, IH. Qed.

Lemma res_map_Forall {E A B} (f : A -> result E B) (Q : B -> Prop) xs ys :
  (forall x y, In x xs -> f x = Ok y -> Q y) -> res_map f xs = Ok ys -> Forall Q ys.
Proof.
  intros HQ H. apply res_map_Forall2 in H. apply Forall_forall. intros y Hy.
  destruct (Forall2_In_r _ _ _ _ H Hy) as (x & Hx & Hxy). eauto.
Qed.

Lemma Forall_In {A} (P : A -> Prop) xs x : Forall P xs -> In x xs -> P x.
Proof. rewrite Forall_forall. auto. Qed.

Lemma Forall2_fun_unique {A B E} (f : A -> result E B) xs ys zs :
  Forall2 (fun x n => f x = Ok n) xs ys -> Forall2 (fun x n => f x = Ok n) xs zs -> ys = zs.
Proof.
  intros H1. revert zs. induction H1 as [|x y xs ys Hy _ IH]; intros zs H2; inversion H2; subst; [reflexivity|].
  f_equal; [congruence | auto].
Qed.

Lemma sumZ_app xs ys : sumZ (xs ++ ys) = (sumZ xs + sumZ ys)%Z.
Proof. induction xs as [|x xs IH]; simpl; [reflexivity|]. unfold sumZ in *. simpl. lia. Qed.

Lemma sumZ_nonneg xs : Forall (fun x => 0 <= x)%Z xs -> (0 <= sumZ xs)%Z.
Proof. induction 1; unfold sumZ in *; simpl; lia. Qed.

Lemma sumZ_pos xs : Forall (fun x => 0 < x)%Z xs -> xs <> [] -> (0 < sumZ xs)%Z.
Proof.
  induction 1 as [|x xs Hx Hxs IH]; intros Hne; [congruence|].
  unfold sumZ in *; simpl. destruct xs; simpl in *; [lia|].
  assert (0 < foldr Z.add 0 (z :: xs))%Z by (apply IH; discriminate). simpl in *. lia.
Qed.

Create HintDb craft.
Create Rewrite HintDb craft_rw.
#[export] Hint Rewrite @res_fold_app sumZ_app : craft_rw.

Lemma sumZ_In_le xs x : Forall (fun y => 0 <= y)%Z xs -> In x xs -> (x <= sumZ xs)%Z.
Proof.
  induction 1 as [|y xs Hy Hxs IH]; [intros []|].
  intros [->|Hin]; unfold sumZ in *; simpl;
    [pose proof (sumZ_nonneg xs Hxs); unfold sumZ in *; lia | specialize (IH Hin); lia].
Qed.

Lemma assoc_lookup_In {V} k (d : list (string * V)) v :
  assoc_lookup k d = Some v -> In (k, v) d.
Proof.
  induction d as [|[k' v'] d IH]; simpl; [discriminate|].
  destruct (String.eqb_spec k k') as [->|]; [intros [= ->]; auto | auto].
Qed.

Lemma assoc_lookup_set_eq {V} k v (d : list (string * V)) : assoc_lookup k (assoc_set k v d) = Some v.
Proof.
  induction d as [|[k' v'] d IH]; cbn; [now rewrite String.eqb_refl|].
  destruct (String.eqb_spec k k') as [->|]; cbn; [now rewrite String.eqb_refl|].
  destruct (String.eqb_spec k k'); [contradiction | exact IH].
Qed.

Lemma assoc_lookup_set_ne {V} k k2 v (d : list (string * V)) :
  k2 <> k -> assoc_lookup k2 (assoc_set k v d) = assoc_lookup k2 d.
Proof.
  intros Hne. induction d as [|[k' v'] d IH]; cbn.
  - destruct (String.eqb_spec k2 k); [contradiction | reflexivity].
  - destruct (String.eqb_spec k k') as [<-|]; cbn.
    + destruct (String.eqb_spec k2 k); [contradiction | reflexivity].
    + destruct (String.eqb_spec k2 k'); [reflexivity | exact IH].
Qed.


Lemma assoc_lookup_app {V} k (d1 d2 : list (string * V)) :
  assoc_lookup k (d1 ++ d2) = match assoc_lookup k d1 with Some v => Some v | None => assoc_lookup k d2 end.
Proof. induction d1 as [|[k' v'] d1 IH]; cbn; [reflexivity|]. now destruct (String.eqb k k'). Qed.

Lemma existsb_eqb_In k (l : list string) : existsb (String.eqb k) l = true <-> In k l.
Proof.
  rewrite existsb_exists. split; [intros (k' & Hin & ->%String.eqb_eq); exact Hin|].
  intros Hin. exists k. split; [exact Hin | apply String.eqb_refl].
Qed.

Lemma assoc_lookup_None {V} k (d : list (string * V)) :
  assoc_lookup k d = None <-> ~ In k (map fst d).
Proof.
  induction d as [|[k' v'] d IH]; simpl; [tauto|].
  destruct (String.eqb_spec k k') as [->|Hne]; [split; [discriminate|tauto]|].
  rewrite IH. split; [intros H [->|Hin]; tauto | tauto].
Qed.

Lemma assoc_ext {V} (d1 d2 : list (string * V)) :
  map fst d1 = map fst d2 -> List.NoDup (map fst d1) ->
  (forall k, assoc_lookup k d1 = assoc_lookup k d2) -> d1 = d2.
Proof.
  revert d2. induction d1 as [|[k v] d1 IH]; intros [|[k2 v2] d2] Hk Hnd Hl; try discriminate; [reflexivity|].
  cbn in Hk. injection Hk as <- Hk. inversion Hnd as [|? ? Hn Hnd']; subst.
  pose proof (Hl k) as Hv. cbn in Hv. rewrite String.eqb_refl in Hv. injection Hv as <-.
  f_equal. apply IH; [exact Hk | exact Hnd' |]. intros k'.
  destruct (String.eqb_spec k' k) as [->|Hne].
  - rewrite (proj2 (assoc_lookup_None k d1) Hn). rewrite Hk in Hn. now rewrite (proj2 (assoc_lookup_None k d2) Hn).
  - specialize (Hl k'). cbn in Hl. now rewrite (proj2 (String.eqb_neq k' k) Hne) in Hl.
Qed.

Lemma assoc_alter_keys {V} f k (d : list (string * V)) :
  map fst (assoc_alter f k d) = map fst d.
Proof.
  induction d as [|[k' v'] d IH]; simpl; [reflexivity|].
  destruct (String.eqb k k'); simpl; [reflexivity | by rewrite IH].
Qed.

Lemma assoc_set_keys_in {V} k v (d : list (string * V)) :
  In k (map fst d) -> map fst (assoc_set k v d) = map fst d.
Proof.
  induction d as [|[k' v'] d IH]; simpl; [tauto|].
  destruct (String.eqb_spec k k') as [->|Hne]; simpl; [reflexivity|].
  intros [->|Hin]; [congruence | by rewrite IH].
Qed.

(** Setting a key that is not there appends the entry. *)
Lemma assoc_set_new {V} k v (d : list (string * V)) :
  ~ In k (map fst d) -> assoc_set k v d = d ++ [(k, v)].
Proof.
  induction d as [|[k' v'] d IH]; simpl; [reflexivity|].
  destruct (String.eqb_spec k k') as [->|Hne]; simpl; [tauto|].
  intros Hn. rewrite IH; [reflexivity | tauto].
Qed.

Lemma assoc_set_keys_new {V} k v (d : list (string * V)) :
  ~ In k (map fst d) -> map fst (assoc_set k v d) = map fst d ++ [k].
Proof.
  induction d as [|[k' v'] d IH]; simpl; [reflexivity|].
  destruct (String.eqb_spec k k') as [->|Hne]; simpl; [tauto|].
  intros Hn. rewrite IH; [reflexivity | tauto].
Qed.

(** [dict] assignment keeps the keys distinct. *)
Lemma assoc_set_NoDup {V} k v (d : list (string * V)) :
  List.NoDup (map fst d) -> List.NoDup (map fst (assoc_set k v d)).
Proof.
  intros Hnd. destruct (in_dec String.string_dec k (map fst d)) as [Hin|Hn].
  - now rewrite assoc_set_keys_in.
  - rewrite assoc_set_keys_new by exact Hn.
    eapply Permutation_NoDup; [apply Permutation_cons_append | constructor; assumption].
Qed.

Lemma assoc_lookup_alter {V} f k k2 (d : list (string * V)) :
  assoc_lookup k2 (assoc_alter f k d) =
  if String.eqb k2 k then option_map f (assoc_lookup k2 d) else assoc_lookup k2 d.
Proof.
  induction d as [|[k' v'] d IH]; simpl.
  - destruct (String.eqb k2 k); reflexivity.
  - destruct (String.eqb_spec k k') as [->|Hne]; simpl.
    + destruct (String.eqb k2 k'); reflexivity.
    + rewrite IH. destruct (String.eqb_spec k2 k') as [->|]; [|reflexivity].
      destruct (String.eqb_spec k' k); congruence.
Qed.

(** [assoc_alter] with a function that keeps a projection keeps the
    keys with their projections. *)
Lemma assoc_alter_proj {V W} (p : V -> W) f k (d : list (string * V)) :
  (forall v, p (f v) = p v) ->
  map (fun kv => (fst kv, p (snd kv))) (assoc_alter f k d) = map (fun kv => (fst kv, p (snd kv))) d.
Proof.
  intros Hp. induction d as [|[k' v'] d IH]; simpl; [reflexivity|].
  destruct (String.eqb k k'); simpl; now rewrite ?Hp, ?IH.
Qed.

Lemma assoc_alter_Forall {V} (P : V -> Prop) f k (d : list (string * V)) :
  (forall v, P v -> P (f v)) ->
  Forall (fun kv => P (snd kv)) d -> Forall (fun kv => P (snd kv)) (assoc_alter f k d).
Proof.
  intros Hf. induction 1 as [|[k' v'] d Hv Hd IH]; simpl; [constructor|].
  destruct (String.eqb k k'); constructor; simpl in *; auto.
Qed.

Lemma assoc_set_Forall {V} (P : V -> Prop) k v (d : list (string * V)) :
  P v -> Forall (fun kv => P (snd kv)) d -> Forall (fun kv => P (snd kv)) (assoc_set k v d).
Proof.
  intros Hv. induction 1 as [|[k' v'] d Hv' Hd IH]; simpl; [constructor; auto; constructor|].
  destruct (String.eqb k k'); constructor; simpl in *; auto.
Qed.

#[export] Hint Rewrite @assoc_alter_keys : craft_rw.
