(* ===== verification/PyStr.v ===== *)
(** * Python [str] operations used by the scrapper

    A Python [str] is modelled as a Rocq [string]: a sequence of code
    points below 256 (the Latin-1 range, one [ascii] each).  The data the
    program handles is ASCII; code points above 255 are outside the model.

    - [py_isspace] is [str.isspace] on that range ([\t\n\v\f\r], the
      separators [\x1c]-[\x1f], space, [\x85] and [\xa0]);
    - [strip], [lstrip_ws], [rstrip_ws] are [str.strip()] and its halves;
    - [lstrip_chars] is [str.lstrip(chars)], which removes the longest
      prefix made of characters of [chars] (a set of characters, not a
      prefix string: this is what [fetch_json] calls with ["poecd="]);
    - [lower] is [str.lower()] on the Latin-1 range;
    - [endswith] is [str.endswith];
    - [str_of_Z] is [str(n)] / [f"{n}"] of an [int];
    - [parse_int_str] is [int(s)] for a [str] [s] (base 10: surrounding
      whitespace, a sign, digits with single underscores between them);
    - [parse_float_str] is the grammar of [float(s)] for a [str] [s]; it
      returns the decimal literal, which [PyFloat] rounds to binary64.

    Lemmas: [lstrip] and [rstrip] commute and are idempotent,
    [lower] is idempotent and commutes with them; [strip_unwrap] is what
    [lstrip(chars)] does to [chars + s] when [strip(s)] does not start
    with a character of [chars]. *)

From S2P Require Import Prelude.
From Stdlib Require Import Ascii String DecimalString.

Open Scope char_scope.

Definition code (c : ascii) : nat := nat_of_ascii c.

Definition py_isspace (c : ascii) : bool :=
  let n := code c in
  ((9 <=? n) && (n <=? 13))%nat || ((28 <=? n) && (n <=? 32))%nat
  || (n =? 133)%nat || (n =? 160)%nat.

Fixpoint lstrip_ws (s : string) : string :=
  match s with
  | EmptyString => EmptyString
  | String c s' => if py_isspace c then lstrip_ws s' else s
  end.

(** [s.rstrip()]: a character is kept when it is not whitespace or when
    something is kept after it. *)
Fixpoint rstrip_ws (s : string) : string :=
  match s with
  | EmptyString => EmptyString
  | String c s' =>
      let r := rstrip_ws s' in
      if py_isspace c && String.eqb r EmptyString then EmptyString else String c r
  end.

(** [s.strip()] *)
Definition strip (s : string) : string := rstrip_ws (lstrip_ws s).

Fixpoint str_mem (c : ascii) (chars : string) : bool :=
  match chars with
  | EmptyString => false
  | String c' chars' => if Ascii.eqb c c' then true else str_mem c chars'
  end.

(** [s.lstrip(chars)] *)
Fixpoint lstrip_chars (chars s : string) : string :=
  match s with
  | EmptyString => EmptyString
  | String c s' => if str_mem c chars then lstrip_chars chars s' else s
  end.

Definition lower_char (c : ascii) : ascii :=
  let n := code c in
  if ((65 <=? n) && (n <=? 90))%nat || ((192 <=? n) && (n <=? 222) && negb (n =? 215))%nat
  then ascii_of_nat (n + 32) else c.

(** [s.lower()] *)
Fixpoint lower (s : string) : string :=
  match s with
  | EmptyString => EmptyString
  | String c s' => String (lower_char c) (lower s')
  end.

(** [s.endswith(suffix)] *)
Definition endswith (s suffix : string) : bool :=
  let n := String.length s in
  let k := String.length suffix in
  (k <=? n)%nat && String.eqb (substring (n - k) k s) suffix.

(** [str(n)] for an [int] [n]. *)
Definition str_of_Z (n : Z) : string := NilZero.string_of_int (Z.to_int n).

(** ** Numeric literals *)

Definition is_digit (c : ascii) : bool := ((48 <=? code c) && (code c <=? 57))%nat.
Definition digit_val (c : ascii) : Z := Z.of_nat (code c - 48).

(** Continue a digit run: [acc] is the value so far, [n] the number of
    digits; an underscore is consumed only when a digit follows it. *)
Fixpoint digits_tail (acc : Z) (n : nat) (cs : list ascii) : Z * nat * list ascii :=
  match cs with
  | c :: cs' =>
      if is_digit c then digits_tail (acc * 10 + digit_val c)%Z (S n) cs'
      else if Ascii.eqb c "_" then
        match cs' with
        | d :: cs'' => if is_digit d then digits_tail (acc * 10 + digit_val d)%Z (S n) cs''
                       else (acc, n, cs)
        | [] => (acc, n, cs)
        end
      else (acc, n, cs)
  | [] => (acc, n, [])
  end.

(** A non-empty digit run ([digitpart] of Python's grammar). *)
Definition digitpart (cs : list ascii) : option (Z * nat * list ascii) :=
  match cs with
  | c :: cs' => if is_digit c then Some (digits_tail (digit_val c) 1 cs') else None
  | [] => None
  end.

Definition take_sign (cs : list ascii) : bool * list ascii :=
  match cs with
  | "-" :: cs' => (true, cs')
  | "+" :: cs' => (false, cs')
  | _ => (false, cs)
  end.

(** [int(s)] for a [str]; [None] is the [ValueError]. *)
Definition parse_int_str (s : string) : option Z :=
  let '(neg, cs) := take_sign (list_ascii_of_string (strip s)) in
  match digitpart cs with
  | Some (v, _, []) => Some (if neg then Z.opp v else v)
  | _ => None
  end.

(** A decimal floating literal [(-1)^neg * mant * 10^exp10], or an
    infinity, or a NaN. *)
Inductive float_lit :=
  | FLNum (neg : bool) (mant : Z) (exp10 : Z)
  | FLInf (neg : bool)
  | FLNan.

Definition lower_list (cs : list ascii) : list ascii := map lower_char cs.

(** The exponent part [(e|E) [sign] digitpart], if any. *)
Definition exponent_part (cs : list ascii) : option (Z * list ascii) :=
  match cs with
  | c :: cs' =>
      if Ascii.eqb c "e" || Ascii.eqb c "E" then
        let '(eneg, ds) := take_sign cs' in
        match digitpart ds with
        | Some (v, _, rest) => Some (if eneg then Z.opp v else v, rest)
        | None => None
        end
      else Some (0%Z, cs)
  | [] => Some (0%Z, [])
  end.

(** The number part: [digitpart ["." [digitpart]] | "." digitpart]. *)
Definition mantissa_part (cs : list ascii) : option (Z * Z * list ascii) :=
  match digitpart cs with
  | Some (ip, _, rest) =>
      match rest with
      | "." :: rest' =>
          match digitpart rest' with
          | Some (fp, k, rest'') => Some (ip * 10 ^ Z.of_nat k + fp, - Z.of_nat k, rest'')%Z
          | None => Some (ip, 0%Z, rest')
          end
      | _ => Some (ip, 0%Z, rest)
      end
  | None =>
      match cs with
      | "." :: rest' =>
          match digitpart rest' with
          | Some (fp, k, rest'') => Some (fp, - Z.of_nat k, rest'')%Z
          | None => None
          end
      | _ => None
      end
  end.

(** [float(s)] for a [str], up to the rounding to binary64; [None] is the
    [ValueError]. *)
Definition parse_float_str (s : string) : option float_lit :=
  let '(neg, cs) := take_sign (list_ascii_of_string (strip s)) in
  let l := string_of_list_ascii (lower_list cs) in
  if String.eqb l "inf" || String.eqb l "infinity" then Some (FLInf neg)
  else if String.eqb l "nan" then Some FLNan
  else
    match mantissa_part cs with
    | Some (m, e, rest) =>
        match exponent_part rest with
        | Some (e', []) => Some (FLNum neg m (e + e')%Z)
        | _ => None
        end
    | None => None
    end.

(** * Lemmas on stripping *)

Lemma rstrip_ws_cons_nonspace c s :
  py_isspace c = false -> rstrip_ws (String c s) = String c (rstrip_ws s).
Proof. intros H. simpl. now rewrite H. Qed.

Lemma rstrip_ws_idem s : rstrip_ws (rstrip_ws s) = rstrip_ws s.
Proof.
  induction s as [|c s IH]; [reflexivity|]. simpl.
  destruct (py_isspace c && String.eqb (rstrip_ws s) "") eqn:E; [reflexivity|].
  simpl. now rewrite IH, E.
Qed.

(** [lstrip] and [rstrip] commute, so [strip] may strip either end first. *)
Lemma lstrip_rstrip_comm s : lstrip_ws (rstrip_ws s) = rstrip_ws (lstrip_ws s).
Proof.
  induction s as [|c s IH]; [reflexivity|]. simpl.
  destruct (py_isspace c) eqn:Hc; simpl.
  - destruct (String.eqb (rstrip_ws s) "") eqn:E; simpl.
    + apply String.eqb_eq in E. rewrite <- IH, E. reflexivity.
    + rewrite Hc. exact IH.
  - now rewrite Hc.
Qed.

Lemma strip_rstrip s : strip s = lstrip_ws (rstrip_ws s).
Proof. unfold strip. now rewrite lstrip_rstrip_comm. Qed.

Lemma lstrip_chars_stop chars c s :
  str_mem c chars = false -> lstrip_chars chars (String c s) = String c s.
Proof. intros H. simpl. now rewrite H. Qed.

Lemma lstrip_chars_app chars p s :
  (forall c, str_mem c p = true -> str_mem c chars = true) ->
  lstrip_chars chars (p ++ s)%string = lstrip_chars chars s.
Proof.
  induction p as [|c p IH]; intros H; [reflexivity|]. simpl.
  rewrite (H c) by (simpl; now rewrite Ascii.eqb_refl).
  apply IH. intros d Hd. apply H. simpl. now destruct (Ascii.eqb d c).
Qed.

Lemma rstrip_ws_first c t s : rstrip_ws s = String c t -> exists u, s = String c u.
Proof.
  destruct s as [|d s]; simpl; [discriminate|].
  destruct (py_isspace d && String.eqb (rstrip_ws s) ""); [discriminate|].
  intros [= -> _]. eauto.
Qed.

(** Stripping a set [chars] of non-whitespace characters off the right-stripped
    text and then stripping whitespace gives [strip s], as long as the first
    character of [strip s] is not one of [chars]. *)
Lemma strip_lstrip_chars_rstrip chars s :
  (forall c, str_mem c chars = true -> py_isspace c = false) ->
  (forall c t, strip s = String c t -> str_mem c chars = false) ->
  strip (lstrip_chars chars (rstrip_ws s)) = strip s.
Proof.
  intros Hsp Hfirst. rewrite (strip_rstrip s).
  destruct (rstrip_ws s) as [|c t] eqn:R; [reflexivity|].
  assert (Hc : str_mem c chars = false).
  { destruct (py_isspace c) eqn:Hs.
    - destruct (str_mem c chars) eqn:M; [|reflexivity].
      now rewrite (Hsp c M) in Hs.
    - apply (Hfirst c t). rewrite strip_rstrip, R. simpl. now rewrite Hs. }
  rewrite lstrip_chars_stop by exact Hc.
  rewrite strip_rstrip, <- R, rstrip_ws_idem. reflexivity.
Qed.

(** A prefix ending in a non-space survives [rstrip]. *)
Lemma rstrip_ws_app_nonspace p s :
  (forall c, str_mem c p = true -> py_isspace c = false) ->
  rstrip_ws (p ++ s)%string = (p ++ rstrip_ws s)%string.
Proof.
  induction p as [|c p IH]; intros H; [reflexivity|]. simpl.
  rewrite (H c) by (simpl; now rewrite Ascii.eqb_refl).
  change (String c (rstrip_ws (p ++ s)) = String c (p ++ rstrip_ws s)).
  f_equal. apply IH. intros d Hd. apply H. simpl. now destruct (Ascii.eqb d c).
Qed.

Lemma lstrip_ws_first s c t : lstrip_ws s = String c t -> py_isspace c = false.
Proof.
  induction s as [|d s IH]; simpl; [discriminate|].
  destruct (py_isspace d) eqn:H; [exact IH|]. now intros [= <- _].
Qed.

(** The first character of a stripped text is not whitespace. *)
Lemma strip_first s c t : strip s = String c t -> py_isspace c = false.
Proof.
  unfold strip. intros H. apply rstrip_ws_first in H as [u Hu].
  exact (lstrip_ws_first _ _ _ Hu).
Qed.

(** [strip(lstrip(strip(p + s), p))] with [p] a non-empty text of
    non-whitespace characters is [strip(s)], unless [strip(s)] itself
    starts with a character of [p]. *)
Lemma strip_unwrap p s :
  p <> EmptyString ->
  (forall c, str_mem c p = true -> py_isspace c = false) ->
  (forall c t, strip s = String c t -> str_mem c p = false) ->
  strip (lstrip_chars p (strip (p ++ s)%string)) = strip s.
Proof.
  intros Hne Hsp Hfirst.
  assert (Hl : lstrip_ws (p ++ s)%string = (p ++ s)%string).
  { destruct p as [|c p]; [contradiction|]. simpl.
    now rewrite (Hsp c) by (simpl; now rewrite Ascii.eqb_refl). }
  unfold strip at 2. rewrite Hl, rstrip_ws_app_nonspace by exact Hsp.
  rewrite lstrip_chars_app by auto.
  now apply strip_lstrip_chars_rstrip.
Qed.

Lemma str_mem_In c chars : str_mem c chars = true -> In c (list_ascii_of_string chars).
Proof.
  induction chars as [|d chars IH]; simpl; [discriminate|].
  destruct (Ascii.eqb_spec c d) as [->|]; auto.
Qed.

Lemma list_ascii_of_string_length s : List.length (list_ascii_of_string s) = String.length s.
Proof. induction s; simpl; auto. Qed.

(** ** [lower] and [strip] *)

Lemma lower_char_idem c : lower_char (lower_char c) = lower_char c.
Proof. destruct c as [[] [] [] [] [] [] [] []]; reflexivity. Qed.

Lemma lower_char_isspace c : py_isspace (lower_char c) = py_isspace c.
Proof. destruct c as [[] [] [] [] [] [] [] []]; reflexivity. Qed.

Lemma lower_idem s : lower (lower s) = lower s.
Proof. induction s as [|c s IH]; simpl; [reflexivity|]. now rewrite lower_char_idem, IH. Qed.

Lemma lower_empty s : String.eqb (lower s) "" = String.eqb s "".
Proof. now destruct s. Qed.

Lemma lower_lstrip s : lower (lstrip_ws s) = lstrip_ws (lower s).
Proof.
  induction s as [|c s IH]; simpl; [reflexivity|].
  rewrite lower_char_isspace. now destruct (py_isspace c).
Qed.

Lemma lower_rstrip s : lower (rstrip_ws s) = rstrip_ws (lower s).
Proof.
  induction s as [|c s IH]; simpl; [reflexivity|].
  rewrite lower_char_isspace, <- IH, lower_empty.
  now destruct (py_isspace c && String.eqb (rstrip_ws s) "").
Qed.

Lemma lower_strip s : lower (strip s) = strip (lower s).
Proof. unfold strip. now rewrite lower_rstrip, lower_lstrip. Qed.

Lemma lstrip_ws_idem s : lstrip_ws (lstrip_ws s) = lstrip_ws s.
Proof.
  induction s as [|c s IH]; simpl; [reflexivity|].
  destruct (py_isspace c) eqn:H; [exact IH|]. simpl. now rewrite H.
Qed.

Lemma strip_idem s : strip (strip s) = strip s.
Proof.
  unfold strip. rewrite (lstrip_rstrip_comm (lstrip_ws s)), lstrip_ws_idem.
  apply rstrip_ws_idem.
Qed.

(** [s.lower().strip()] is lower-case and stripped. *)
Lemma lower_strip_normal s :
  lower (strip (lower s)) = strip (lower s) /\ strip (strip (lower s)) = strip (lower s).
Proof. split; [now rewrite lower_strip, lower_idem | apply strip_idem]. Qed.

Lemma list_ascii_of_string_app s1 s2 :
  list_ascii_of_string (s1 ++ s2)%string = (list_ascii_of_string s1 ++ list_ascii_of_string s2)%list.
Proof. induction s1 as [|c s1 IH]; simpl; [reflexivity | now rewrite IH]. Qed.
