(* ===== verification/PyFloat.v ===== *)
(** * Python [float]: IEEE binary64

    CPython's [float] is an IEEE 754 binary64 number and every operation
    the program uses rounds to nearest, ties to even.  The model uses the
    Standard Library's executable specification [SpecFloat] with
    [prec = 53] and [emax = 1024]; a value is a [spec_float]
    ([S754_zero], [S754_infinity], [S754_nan] or [S754_finite s m e] for
    [(-1)^s * m * 2^e]).

    - [b64_of_Z] is [float(n)] of an [int] (correctly rounded; Python
      raises [OverflowError] when the result is infinite);
    - [b64_of_lit] rounds a decimal literal ([json.loads], [float(str)]),
      as CPython's correctly rounded [strtod] does;
    - [b64_true_div] is [a / b] of two [int]s: CPython's
      [long_true_divide] is correctly rounded for all operands, which is
      the [SpecFloat] division core applied to the exact integers;
    - [b64_mul] is [x * y];
    - [b64_trunc] is [int(x)] (towards zero, [OverflowError] on an
      infinity, [ValueError] on a NaN);
    - [b64_round] is [round(x, n)]: CPython rounds the exact binary value
      to [n] decimal places with ties to even ([_Py_dg_dtoa], mode 3) and
      converts the resulting decimal back to the nearest double;
    - [b64_eq], [b64_eq_Z] are [==] between floats and between a float
      and an [int] (exact comparison).

    The lemmas at the end compute [SpecFloat]'s rounding on integers:
    an integer below [2^53] is exact ([b64_of_Z_raw_pos]) and a product
    of integers below [2^53] is exact ([b64_scale_int]). *)

From S2P Require Import Prelude PyStr.

Open Scope Z_scope.

Definition prec : Z := 53.
Definition emax : Z := 1024.

Definition b64_finite (x : spec_float) : bool :=
  match x with S754_zero _ | S754_finite _ _ _ => true | _ => false end.

Definition b64_is_inf (x : spec_float) : bool :=
  match x with S754_infinity _ => true | _ => false end.

(** The binary64 number nearest to the exact integer [n]. *)
Definition b64_of_Z_raw (n : Z) : spec_float := binary_normalize prec emax n 0 false.

(** [float(n)] *)
Definition b64_of_Z (n : Z) : py spec_float :=
  let x := b64_of_Z_raw n in
  if b64_is_inf x then raise OverflowError else Ok x.

(** The binary64 number nearest to [(-1)^neg * a / (b * 2^eb)] for
    positive [a], [b]. *)
Definition b64_div_pos (neg : bool) (a b : positive) (eb : Z) : spec_float :=
  let '(m, e, l) := SFdiv_core_binary prec emax (Zpos a) 0 (Zpos b) eb in
  binary_round_aux prec emax neg m e l.

(** Rounding of a decimal literal [(-1)^neg * m * 10^k]. *)
Definition b64_of_decimal (neg : bool) (m k : Z) : spec_float :=
  match m with
  | Zpos p =>
      if 0 <=? k then binary_normalize prec emax ((if neg then Z.opp else id) (Zpos p * 10 ^ k)) 0 neg
      else b64_div_pos neg p (Z.to_pos (5 ^ (- k))) (- k)
  | _ => S754_zero neg
  end.

Definition b64_of_lit (l : float_lit) : spec_float :=
  match l with
  | FLNum neg m k => b64_of_decimal neg m k
  | FLInf neg => S754_infinity neg
  | FLNan => S754_nan
  end.

(** [a / b] for Python [int]s [a], [b]. *)
Definition b64_true_div (a b : Z) : py spec_float :=
  let neg := xorb (a <? 0) (b <? 0) in
  match a, Z.abs b with
  | _, Z0 => raise ZeroDivisionError
  | Z0, _ => Ok (S754_zero neg)
  | _, Zpos pb =>
      let x := b64_div_pos neg (Z.to_pos (Z.abs a)) pb 0 in
      if b64_is_inf x then raise OverflowError else Ok x
  | _, Zneg _ => raise ZeroDivisionError
  end.

(** [x * y] *)
Definition b64_mul (x y : spec_float) : spec_float := SFmul prec emax x y.

(** [int(x)] *)
Definition b64_trunc (x : spec_float) : py Z :=
  match x with
  | S754_zero _ => Ok 0
  | S754_infinity _ => raise OverflowError
  | S754_nan => raise ValueError
  | S754_finite s m e =>
      let v := if 0 <=? e then Zpos m * 2 ^ e else Zpos m / 2 ^ (- e) in
      Ok (if s then - v else v)
  end.

(** Division of naturals rounded to nearest, ties to even. *)
Definition rne_div (n d : Z) : Z :=
  let q := n / d in
  let r := n mod d in
  match Z.compare (2 * r) d with
  | Lt => q
  | Gt => q + 1
  | Eq => if Z.even q then q else q + 1
  end.

(** [round(x, n)] for a float [x] and an [int] [n]. *)
Definition b64_round (x : spec_float) (n : Z) : py spec_float :=
  match x with
  | S754_finite s m e =>
      if 323 <? n then Ok x
      else if n <? -308 then Ok (S754_zero s)
      else
        let num := Zpos m * 10 ^ Z.max n 0 * 2 ^ Z.max e 0 in
        let den := 10 ^ Z.max (- n) 0 * 2 ^ Z.max (- e) 0 in
        let q := rne_div num den in
        let y := b64_of_decimal s q (- n) in
        if b64_is_inf y then raise OverflowError else Ok y
  | _ => Ok x
  end.

(** [x == y] for floats. *)
Definition b64_eq (x y : spec_float) : bool := SFeqb x y.

(** [x == n] for a float [x] and an [int] [n]: an exact comparison. *)
Definition b64_eq_Z (x : spec_float) (n : Z) : bool :=
  match x with
  | S754_zero _ => n =? 0
  | S754_finite s m e =>
      let v := if s then Zneg m else Zpos m in
      if 0 <=? e then v * 2 ^ e =? n else v =? n * 2 ^ (- e)
  | _ => false
  end.

(** [x <= n] and [n <= x] for a float [x] and an [int] [n]: exact
    comparisons, as CPython compares a float with an int. *)
Definition b64_le_Z (x : spec_float) (n : Z) : bool :=
  match x with
  | S754_zero _ => 0 <=? n
  | S754_finite s m e =>
      let v := if s then Zneg m else Zpos m in
      if 0 <=? e then v * 2 ^ e <=? n else v <=? n * 2 ^ (- e)
  | S754_infinity s => s
  | S754_nan => false
  end.

Definition b64_ge_Z (x : spec_float) (n : Z) : bool :=
  match x with
  | S754_zero _ => n <=? 0
  | S754_finite s m e =>
      let v := if s then Zneg m else Zpos m in
      if 0 <=? e then n <=? v * 2 ^ e else n * 2 ^ (- e) <=? v
  | S754_infinity s => negb s
  | S754_nan => false
  end.

(** The significand of the binary64 number of a positive integer. *)
Definition canon (n : positive) : positive := Nat.iter (53 - Pos.to_nat (Pos.size n)) xO n.

(** ** Lemmas *)

Lemma div_eucl_pair a b : Z.div_eucl a b = (a / b, a mod b).
Proof. unfold Z.div, Z.modulo. destruct (Z.div_eucl a b). reflexivity. Qed.

(** The quotient of a positive integer by itself is exactly [1.0]. *)
Lemma b64_div_pos_self p : b64_div_pos false p p 0 = b64_of_Z_raw 1.
Proof.
  unfold b64_div_pos, SFdiv_core_binary.
  rewrite !Z.add_0_r, (Z.sub_diag (Zdigits2 (Z.pos p))).
  change (Z.min (fexp prec emax 0) (0 - 0)) with (-53).
  change (0 - 0 - -53) with 53.
  cbv zeta.
  rewrite div_eucl_pair, Z.shiftl_mul_pow2 by lia.
  rewrite (Z.mul_comm (Z.pos p)), Z.div_mul, Z.mod_mul by lia.
  replace (new_location (Z.pos p) 0) with loc_Exact
    by (unfold new_location; destruct (Z.even (Z.pos p)); reflexivity).
  vm_compute. reflexivity.
Qed.

Lemma b64_true_div_self w : 0 < w -> b64_true_div w w = Ok (b64_of_Z_raw 1).
Proof.
  intros Hw. destruct w as [|p|p]; try lia.
  unfold b64_true_div. simpl. rewrite b64_div_pos_self. reflexivity.
Qed.

(** ** Exact products of integers

    A positive integer [n] below [2^53] is the binary64 number
    [canon n * 2^(size n - 53)]; the product of two such numbers is
    computed exactly while it stays below [2^53]. *)

Lemma digits2_pos_size p : digits2_pos p = Pos.size p.
Proof. induction p as [p IH|p IH|]; cbn; [rewrite IH| rewrite IH|]; reflexivity. Qed.

Lemma iter_pos_nat {A} (f : A -> A) p x : iter_pos f p x = Nat.iter (Pos.to_nat p) f x.
Proof.
  revert x. induction p as [p IH|p IH|]; intros x; cbn [iter_pos].
  - rewrite Pos2Nat.inj_xI, !IH, <- Nat.iter_succ_r, <- Nat.iter_add. f_equal. lia.
  - rewrite Pos2Nat.inj_xO, !IH, <- Nat.iter_add. f_equal. lia.
  - reflexivity.
Qed.

Lemma shifts_nat m (j : nat) : Nat.iter j shr_1 (Build_shr_record (Zpos (Nat.iter j xO m)) false false)
  = Build_shr_record (Zpos m) false false.
Proof.
  induction j as [|j IH]; [reflexivity|].
  rewrite Nat.iter_succ_r. cbn [Nat.iter]. exact IH.
Qed.

Lemma size_iter_xO m (j : nat) : Zpos (Pos.size (Nat.iter j xO m)) = Zpos (Pos.size m) + Z.of_nat j.
Proof. induction j as [|j IH]; [cbn; lia|]. rewrite Nat.iter_succ. cbn [Pos.size]. rewrite Pos2Z.inj_succ, IH. lia. Qed.

(** [SpecFloat] computes with [IntDef.Z]; [lia] knows [Z]. *)
Ltac spec_z :=
  change IntDef.Z.sub with Z.sub in *; change IntDef.Z.add with Z.add in *;
  change IntDef.Z.max with Z.max in *; change IntDef.Z.leb with Z.leb in *;
  change IntDef.Z.min with Z.min in *; change IntDef.Z.shiftl with Z.shiftl in *;
  change IntDef.Z.div_eucl with Z.div_eucl in *.

Lemma fexp_normal e : emin prec emax <= e -> fexp prec emax (53 + e) = e.
Proof. intros He. unfold fexp, emin, prec, emax in *. spec_z. lia. Qed.

Lemma shr_fexp_exact m (k : nat) e :
  Pos.size m = 53%positive -> emin prec emax <= e ->
  shr_fexp prec emax (Zpos (Nat.iter k xO m)) (e - Z.of_nat k) loc_Exact = (Build_shr_record (Zpos m) false false, e).
Proof.
  intros Hm He. unfold shr_fexp. cbn [Zdigits2 shr_record_of_loc]. rewrite digits2_pos_size, size_iter_xO, Hm.
  replace (Z.pos 53 + Z.of_nat k + (e - Z.of_nat k)) with (53 + e) by lia. rewrite fexp_normal by exact He.
  replace (e - (e - Z.of_nat k)) with (Z.of_nat k) by lia.
  destruct k as [|k]; [change (Z.of_nat 0) with 0%Z; unfold shr; f_equal; lia|]. change (Z.of_nat (S k)) with (Zpos (Pos.of_succ_nat k)). unfold shr.
  rewrite iter_pos_nat, SuccNat2Pos.id_succ, shifts_nat. f_equal. lia.
Qed.

Lemma round_exact s m (k : nat) e :
  Pos.size m = 53%positive -> emin prec emax <= e <= emax - prec ->
  binary_round_aux prec emax s (Zpos (Nat.iter k xO m)) (e - Z.of_nat k) loc_Exact = S754_finite s m e.
Proof.
  intros Hm He. unfold binary_round_aux. rewrite shr_fexp_exact by (assumption || lia). cbn [shr_m loc_of_shr_record round_nearest_even].
  pose proof (shr_fexp_exact m 0 e Hm ltac:(lia)) as H0.
  replace (e - Z.of_nat 0) with e in H0 by lia. change (Nat.iter 0 xO m) with m in H0.
  rewrite H0. cbn [shr_m].
  replace (Z.leb e (emax - prec)) with true by (symmetry; apply Z.leb_le; lia). reflexivity.
Qed.

Lemma Pos_iter_nat {A} (f : A -> A) x p : Pos.iter f x p = Nat.iter (Pos.to_nat p) f x.
Proof.
  induction p as [|p IH] using Pos.peano_ind; [reflexivity|].
  rewrite Pos.iter_succ, Pos2Nat.inj_succ, Nat.iter_succ, IH. reflexivity.
Qed.

Lemma iter_xO_Z m (k : nat) : Zpos (Nat.iter k xO m) = Zpos m * 2 ^ Z.of_nat k.
Proof.
  induction k as [|k IH]; [cbn; lia|]. rewrite Nat.iter_succ, Pos2Z.inj_xO, IH, Nat2Z.inj_succ, Z.pow_succ_r by lia. lia.
Qed.

Lemma iter_xO_mul m c (k : nat) : (Nat.iter k xO m * c)%positive = Nat.iter k xO (m * c)%positive.
Proof.
  induction k as [|k IH]; [reflexivity|]. rewrite !Nat.iter_succ.
  change ((Nat.iter k xO m)~0 * c)%positive with ((Nat.iter k xO m * c)~0)%positive. now rewrite IH.
Qed.

Lemma iter_xO_add m (j k : nat) : Nat.iter j xO (Nat.iter k xO m) = Nat.iter (j + k) xO m.
Proof. now rewrite Nat.iter_add. Qed.

Lemma size_log2 p : Zpos (Pos.size p) = Z.log2 (Zpos p) + 1.
Proof. destruct p as [p|p|]; cbn; lia. Qed.


Lemma canon_size n : (Pos.to_nat (Pos.size n) <= 53)%nat -> Pos.size (canon n) = 53%positive.
Proof.
  intros Hn. apply Pos2Z.inj. unfold canon. rewrite size_iter_xO, Nat2Z.inj_sub by exact Hn.
  rewrite positive_nat_Z. lia.
Qed.

Lemma round_exact0 s m e :
  Pos.size m = 53%positive -> emin prec emax <= e <= emax - prec ->
  binary_round_aux prec emax s (Zpos m) e loc_Exact = S754_finite s m e.
Proof.
  intros Hm He. pose proof (round_exact s m 0 e Hm He) as H.
  replace (e - Z.of_nat 0) with e in H by lia. exact H.
Qed.

Lemma binary_round_int s n : (Pos.to_nat (Pos.size n) <= 53)%nat ->
  binary_round prec emax s n 0 = S754_finite s (canon n) (Zpos (Pos.size n) - 53).
Proof.
  intros Hn. assert (Hz : 1 <= Zpos (Pos.size n) <= 53) by lia.
  assert (Hc := canon_size n Hn).
  unfold binary_round, shl_align. rewrite digits2_pos_size.
  replace (fexp prec emax (Zpos (Pos.size n) + 0)) with (Zpos (Pos.size n) - 53)
    by (unfold fexp, emin, prec, emax; spec_z; lia).
  destruct (Z.eq_dec (Zpos (Pos.size n)) 53) as [E|E].
  - replace (Zpos (Pos.size n) - 53 - 0) with 0 by (spec_z; lia). cbv iota beta.
    unfold canon in *. replace (53 - Pos.to_nat (Pos.size n))%nat with 0%nat in * by lia.
    rewrite E. apply round_exact0; [exact Hc | unfold emin, prec, emax; lia].
  - replace (Zpos (Pos.size n) - 53 - 0) with (Zneg (Pos.of_nat (53 - Pos.to_nat (Pos.size n))))
      by (spec_z; rewrite <- Pos2Z.opp_pos, <- positive_nat_Z, Nat2Pos.id by lia;
          rewrite Nat2Z.inj_sub, positive_nat_Z by lia; lia).
    cbv iota beta. rewrite Pos_iter_nat, Nat2Pos.id by lia. fold (canon n).
    apply round_exact0; [exact Hc | unfold emin, prec, emax; lia].
Qed.

Lemma size_mul_ge a b : Zpos (Pos.size a) + Zpos (Pos.size b) - 1 <= Zpos (Pos.size (a * b)).
Proof.
  rewrite !size_log2, Pos2Z.inj_mul. pose proof (Z.log2_mul_below (Zpos a) (Zpos b) ltac:(lia) ltac:(lia)). lia.
Qed.

Lemma size_mul_le a b : Zpos (Pos.size a) <= Zpos (Pos.size (a * b)).
Proof. pose proof (size_mul_ge a b). lia. Qed.

Lemma canon_mul a b (j : nat) :
  (Pos.to_nat (Pos.size (a * b)) <= 53)%nat ->
  Z.of_nat j = 53 + Zpos (Pos.size (a * b)) - Zpos (Pos.size a) - Zpos (Pos.size b) ->
  (canon a * canon b)%positive = Nat.iter j xO (canon (a * b)).
Proof.
  intros Hab Hj. pose proof (size_mul_le a b) as Ha. pose proof (size_mul_le b a) as Hb.
  rewrite (Pos.mul_comm b a) in Hb. unfold canon.
  rewrite iter_xO_mul, (Pos.mul_comm a (Nat.iter _ xO b)), iter_xO_mul, (Pos.mul_comm b a), !iter_xO_add.
  f_equal. apply Nat2Z.inj. rewrite !Nat2Z.inj_add, !Nat2Z.inj_sub, !positive_nat_Z; lia.
Qed.

Lemma size_le_53 p : Zpos p < 2 ^ 53 -> (Pos.to_nat (Pos.size p) <= 53)%nat.
Proof.
  intros Hp. enough (Zpos (Pos.size p) <= 53) by lia.
  rewrite size_log2. enough (Z.log2 (Zpos p) < 53) by lia. apply Z.log2_lt_pow2; lia.
Qed.

Lemma b64_mul_int sa sb a b : (Pos.to_nat (Pos.size (a * b)) <= 53)%nat ->
  b64_mul (S754_finite sa (canon a) (Zpos (Pos.size a) - 53)) (S754_finite sb (canon b) (Zpos (Pos.size b) - 53))
  = S754_finite (xorb sa sb) (canon (a * b)) (Zpos (Pos.size (a * b)) - 53).
Proof.
  intros H. pose proof (size_mul_ge a b) as Hge. pose proof (size_mul_le a b) as Ha.
  pose proof (size_mul_le b a) as Hb. rewrite (Pos.mul_comm b a) in Hb.
  set (j := Z.to_nat (53 + Zpos (Pos.size (a * b)) - Zpos (Pos.size a) - Zpos (Pos.size b))).
  assert (Hj : Z.of_nat j = 53 + Zpos (Pos.size (a * b)) - Zpos (Pos.size a) - Zpos (Pos.size b))
    by (unfold j; rewrite Z2Nat.id; lia).
  unfold b64_mul, SFmul. rewrite (canon_mul a b j H Hj). spec_z.
  replace (Zpos (Pos.size a) - 53 + (Zpos (Pos.size b) - 53)) with (Zpos (Pos.size (a * b)) - 53 - Z.of_nat j) by lia.
  apply round_exact; [now apply canon_size | unfold emin, prec, emax; lia].
Qed.

Lemma b64_trunc_int s n : (Pos.to_nat (Pos.size n) <= 53)%nat ->
  b64_trunc (S754_finite s (canon n) (Zpos (Pos.size n) - 53)) = Ok (if s then Zneg n else Zpos n).
Proof.
  intros Hn. unfold b64_trunc, canon. rewrite iter_xO_Z, Nat2Z.inj_sub, positive_nat_Z by exact Hn.
  change (Z.of_nat 53) with 53.
  destruct (0 <=? Zpos (Pos.size n) - 53) eqn:E.
  - apply Z.leb_le in E. replace (53 - Zpos (Pos.size n)) with 0 by lia.
    replace (Zpos (Pos.size n) - 53) with 0 by lia. destruct s; cbn; f_equal; lia.
  - apply Z.leb_gt in E. replace (- (Zpos (Pos.size n) - 53)) with (53 - Zpos (Pos.size n)) by lia.
    rewrite Z.div_mul by (apply Z.pow_nonzero; lia). destruct s; reflexivity.
Qed.

Lemma b64_of_Z_raw_pos n : (Pos.to_nat (Pos.size n) <= 53)%nat ->
  b64_of_Z_raw (Zpos n) = S754_finite false (canon n) (Zpos (Pos.size n) - 53).
Proof. apply binary_round_int. Qed.

Lemma b64_of_Z_raw_neg n : (Pos.to_nat (Pos.size n) <= 53)%nat ->
  b64_of_Z_raw (Zneg n) = S754_finite true (canon n) (Zpos (Pos.size n) - 53).
Proof. apply binary_round_int. Qed.

(** [int(float(z) * c)] is [z * c] while the product fits the 53 bits of
    the significand. *)
Lemma b64_scale_int z c :
  Zpos c < 2 ^ 53 -> Z.abs (z * Zpos c) < 2 ^ 53 ->
  b64_trunc (b64_mul (b64_of_Z_raw z) (b64_of_Z_raw (Zpos c))) = Ok (z * Zpos c).
Proof.
  intros Hc Hz. destruct z as [|n|n].
  - rewrite b64_of_Z_raw_pos by (apply size_le_53; exact Hc). reflexivity.
  - assert (Hs : (Pos.to_nat (Pos.size (n * c)) <= 53)%nat) by (apply size_le_53; lia).
    pose proof (size_mul_le n c). pose proof (size_mul_le c n). rewrite Pos.mul_comm in H0.
    rewrite b64_of_Z_raw_pos, b64_of_Z_raw_pos, b64_mul_int, b64_trunc_int by (exact Hs || lia). reflexivity.
  - assert (Hs : (Pos.to_nat (Pos.size (n * c)) <= 53)%nat) by (apply size_le_53; lia).
    pose proof (size_mul_le n c). pose proof (size_mul_le c n). rewrite Pos.mul_comm in H0.
    rewrite b64_of_Z_raw_neg, b64_of_Z_raw_pos, b64_mul_int, b64_trunc_int by (exact Hs || lia). reflexivity.
Qed.

Lemma b64_of_Z_small z : Z.abs z < 2 ^ 53 -> b64_of_Z z = Ok (b64_of_Z_raw z).
Proof.
  intros Hz. unfold b64_of_Z. destruct z as [|n|n]; [reflexivity| |].
  - rewrite b64_of_Z_raw_pos by (apply size_le_53; lia). reflexivity.
  - rewrite b64_of_Z_raw_neg by (apply size_le_53; lia). reflexivity.
Qed.

(** ** Rounding below a bound

    Rounding to nearest never crosses a representable number: when the
    exact value of a significand [m], exponent [e <= 0] and location [l]
    is at most the integer [B < 2^53], so is the rounded float, and it is
    finite.  This gives the bounds of the percentages of
    [calculate_percentages]. *)

Lemma shr_1_nonneg m r s : 0 <= m -> shr_1 (Build_shr_record m r s) = Build_shr_record (m / 2) (Z.odd m) (r || s).
Proof.
  intros Hm. rewrite <- Z.div2_div. destruct m as [|p|p]; [reflexivity| |lia].
  destruct p; reflexivity.
Qed.

Lemma iter_shr_1 (j : nat) m r s : 0 <= m ->
  shr_m (Nat.iter j shr_1 (Build_shr_record m r s)) = m / 2 ^ Z.of_nat j /\
  (m mod 2 ^ Z.of_nat j = 0 -> r = false -> s = false ->
   shr_r (Nat.iter j shr_1 (Build_shr_record m r s)) = false /\ shr_s (Nat.iter j shr_1 (Build_shr_record m r s)) = false).
Proof.
  intros Hm. induction j as [|j [IHm IHx]]; [cbn; rewrite Z.div_1_r; auto|].
  pose proof (Z.pow_pos_nonneg 2 (Z.of_nat j) ltac:(lia) ltac:(lia)) as Hpos.
  rewrite Nat.iter_succ. destruct (Nat.iter j shr_1 _) as [mj rj sj] eqn:E. cbn [shr_m shr_r shr_s] in *.
  assert (Hp : 2 ^ Z.of_nat (S j) = 2 ^ Z.of_nat j * 2) by (rewrite Nat2Z.inj_succ, Z.pow_succ_r; lia).
  rewrite shr_1_nonneg by (subst mj; apply Z.div_pos; lia). cbn [shr_m shr_r shr_s].
  split; [subst mj; rewrite Hp, Z.div_div; lia|].
  intros Hmod Hr Hs. rewrite Hp in Hmod.
  assert (Hj : m mod 2 ^ Z.of_nat j = 0).
  { apply Z.mod_divide in Hmod as [c Hc]; [|lia]. apply Z.mod_divide; [lia|]. exists (c * 2). lia. }
  destruct (IHx Hj Hr Hs) as [-> ->]. split; [|reflexivity].
  apply Z.mod_divide in Hmod as [c Hc]; [|lia]. subst mj.
  rewrite Hc. replace (c * (2 ^ Z.of_nat j * 2)) with (c * 2 * 2 ^ Z.of_nat j) by ring.
  rewrite Z.div_mul by (apply Z.pow_nonzero; lia). rewrite Z.odd_mul. cbn. apply andb_false_r.
Qed.

Lemma shr_fexp_iter m e l :
  shr_fexp prec emax m e l =
  (Nat.iter (Z.to_nat (fexp prec emax (Zdigits2 m + e) - e)) shr_1 (shr_record_of_loc m l),
   e + Z.max 0 (fexp prec emax (Zdigits2 m + e) - e)).
Proof.
  unfold shr_fexp, shr. spec_z. destruct (fexp prec emax (Zdigits2 m + e) - e) as [|p|p] eqn:E.
  - cbn. f_equal. lia.
  - rewrite iter_pos_nat. reflexivity.
  - cbn. f_equal; lia.
Qed.

Lemma Zdigits2_le m k : 0 <= m -> 0 <= k -> m < 2 ^ (53 + k) -> Zdigits2 m <= 53 + k.
Proof.
  intros Hm Hk Hlt. destruct m as [|p|p]; [cbn; lia| |lia]. cbn [Zdigits2].
  rewrite digits2_pos_size, size_log2. enough (Z.log2 (Zpos p) < 53 + k) by lia.
  apply Z.log2_lt_pow2; lia.
Qed.

Lemma fexp_nonpos m e B :
  0 <= m -> e <= 0 -> 0 < B < 2 ^ 53 -> m <= B * 2 ^ (- e) -> fexp prec emax (Zdigits2 m + e) <= 0.
Proof.
  intros Hm He HB Hle. assert (Hd : Zdigits2 m <= 53 + - e).
  { apply Zdigits2_le; [lia | lia |]. rewrite Z.pow_add_r by lia.
    pose proof (Z.pow_pos_nonneg 2 (- e) ltac:(lia) ltac:(lia)). nia. }
  unfold fexp, emin, prec, emax. spec_z. lia.
Qed.

Lemma loc_exact_record m : loc_of_shr_record (Build_shr_record m false false) = loc_Exact.
Proof. reflexivity. Qed.

Lemma round_nearest_even_le mx l : mx <= round_nearest_even mx l <= mx + 1.
Proof. destruct l as [|[]]; cbn; try destruct (Z.even mx); lia. Qed.

(** The first rounding of [binary_round_aux]: the significand at the new
    exponent stays at most the bound. *)
Lemma round_first_le m e l B :
  0 <= m -> e <= 0 -> 0 < B < 2 ^ 53 -> m <= B * 2 ^ (- e) -> (m = B * 2 ^ (- e) -> l = loc_Exact) ->
  let '(r1, e1) := shr_fexp prec emax m e l in
  e1 <= 0 /\ 0 <= round_nearest_even (shr_m r1) (loc_of_shr_record r1) <= B * 2 ^ (- e1).
Proof.
  intros Hm He HB Hle Hex. rewrite shr_fexp_iter.
  pose proof (fexp_nonpos m e B Hm He HB Hle) as Hf.
  set (n1 := fexp prec emax (Zdigits2 m + e) - e) in *.
  set (j := Z.max 0 n1). assert (Hj : Z.of_nat (Z.to_nat n1) = j) by (unfold j; lia).
  assert (Hpj : 0 < 2 ^ j) by (apply Z.pow_pos_nonneg; lia).
  assert (HB1 : B * 2 ^ (- e) = B * 2 ^ (- (e + j)) * 2 ^ j)
    by (rewrite <- Z.mul_assoc, <- Z.pow_add_r by lia; do 2 f_equal; lia).
  split; [lia|].
  assert (Hl : exists r s, shr_record_of_loc m l = Build_shr_record m r s /\ (l = loc_Exact -> r = false /\ s = false))
    by (destruct l as [|[]]; cbn; eexists _, _; (split; [reflexivity|]); intros H; [split; reflexivity | discriminate H..]).
  destruct Hl as (r & s & -> & Hrs).
  destruct (iter_shr_1 (Z.to_nat n1) m r s Hm) as [Hm1 Hx]. rewrite Hj in Hm1, Hx.
  destruct (Nat.iter _ shr_1 _) as [m1 r1 s1]. cbn [shr_m shr_r shr_s] in *. subst m1.
  pose proof (round_nearest_even_le (m / 2 ^ j) (loc_of_shr_record (Build_shr_record (m / 2 ^ j) r1 s1))) as Hr.
  assert (Hq : m / 2 ^ j <= B * 2 ^ (- (e + j))) by (apply Z.div_le_upper_bound; lia).
  assert (Hq0 : 0 <= m / 2 ^ j) by (apply Z.div_pos; lia).
  destruct (Z.eq_dec (m / 2 ^ j) (B * 2 ^ (- (e + j)))) as [Heq|Hne]; [|lia].
  assert (Hmm : m = B * 2 ^ (- e)).
  { pose proof (Z.mul_div_le m (2 ^ j) Hpj). lia. }
  destruct (Hrs (Hex Hmm)) as [-> ->].
  destruct (Hx ltac:(rewrite Hmm, HB1; apply Z.mod_mul; lia) eq_refl eq_refl) as [-> ->].
  rewrite loc_exact_record. cbn [round_nearest_even]. lia.
Qed.

(** The second pass of [binary_round_aux] only drops bits, so the bound
    is kept, and a nonzero result is below [2^53] hence not an overflow. *)
Lemma binary_round_aux_le m e l B :
  0 <= m -> e <= 0 -> 0 < B < 2 ^ 53 -> m <= B * 2 ^ (- e) -> (m = B * 2 ^ (- e) -> l = loc_Exact) ->
  b64_finite (binary_round_aux prec emax false m e l) = true /\
  b64_le_Z (binary_round_aux prec emax false m e l) B = true /\
  b64_ge_Z (binary_round_aux prec emax false m e l) 0 = true.
Proof.
  intros Hm He HB Hle Hex. pose proof (round_first_le m e l B Hm He HB Hle Hex) as H1.
  unfold binary_round_aux. destruct (shr_fexp prec emax m e l) as [r1 e1]. destruct H1 as [He1 Hm2].
  set (m2 := round_nearest_even (shr_m r1) (loc_of_shr_record r1)) in *. clearbody m2.
  rewrite shr_fexp_iter. cbn [shr_record_of_loc].
  set (j := Z.max 0 (fexp prec emax (Zdigits2 m2 + e1) - e1)).
  assert (Hj : Z.of_nat (Z.to_nat (fexp prec emax (Zdigits2 m2 + e1) - e1)) = j) by (unfold j; lia).
  destruct (iter_shr_1 (Z.to_nat (fexp prec emax (Zdigits2 m2 + e1) - e1)) m2 false false ltac:(lia)) as [Hq _].
  rewrite Hj in Hq. destruct (Nat.iter _ shr_1 _) as [q r s]. cbn [shr_m] in *. subst q.
  assert (Hj0 : 0 <= j) by (unfold j; lia). clearbody j.
  assert (Hpj : 0 < 2 ^ j) by (apply Z.pow_pos_nonneg; lia).
  pose proof (Z.mul_div_le m2 (2 ^ j) Hpj) as Hdl.
  assert (Hq0 : 0 <= m2 / 2 ^ j) by (apply Z.div_pos; lia).
  destruct (m2 / 2 ^ j) as [|p|p] eqn:Eq; [cbn; repeat split; apply Z.leb_le; lia| |lia].
  assert (Hp : Zpos p * 2 ^ j <= B * 2 ^ (- e1)) by lia.
  spec_z. destruct (Z.leb_spec 0 (e1 + j)) as [Hpos|Hneg].
  - assert (Hsplit : 2 ^ j = 2 ^ (e1 + j) * 2 ^ (- e1)) by (rewrite <- Z.pow_add_r by lia; f_equal; lia).
    assert (Hpe : 0 < 2 ^ (- e1)) by (apply Z.pow_pos_nonneg; lia).
    assert (Hb : Zpos p * 2 ^ (e1 + j) <= B) by nia.
    assert (H53 : e1 + j < 53).
    { destruct (Z.lt_ge_cases (e1 + j) 53) as [|Hge]; [assumption|].
      pose proof (Z.pow_le_mono_r 2 53 (e1 + j) ltac:(lia) Hge). nia. }
    replace (Z.leb (e1 + j) (emax - prec)) with true by (symmetry; apply Z.leb_le; unfold emax, prec; lia).
    cbn [b64_finite b64_le_Z b64_ge_Z]. rewrite (proj2 (Z.leb_le 0 (e1 + j)) Hpos).
    repeat split; apply Z.leb_le; lia.
  - assert (Hsplit : 2 ^ (- e1) = 2 ^ (- (e1 + j)) * 2 ^ j) by (rewrite <- Z.pow_add_r by lia; f_equal; lia).
    assert (Hb : Zpos p <= B * 2 ^ (- (e1 + j))) by nia.
    replace (Z.leb (e1 + j) (emax - prec)) with true by (symmetry; apply Z.leb_le; unfold emax, prec; lia).
    cbn [b64_finite b64_le_Z b64_ge_Z]. rewrite (proj2 (Z.leb_gt 0 (e1 + j)) Hneg).
    repeat split; apply Z.leb_le; lia.
Qed.

Lemma new_location_exact nb : new_location nb 0 = loc_Exact.
Proof. unfold new_location. destruct (Z.even nb); reflexivity. Qed.

(** The division core returns a significand and exponent at most [B]
    when the exact quotient [a * 2^ea / (b * 2^eb)] is, exactly when it
    is equal. *)
Lemma div_core_le a b ea eb B :
  ea <= eb -> 0 < B < 2 ^ 53 -> Zpos a <= B * Zpos b * 2 ^ (eb - ea) ->
  let '(q, e', l) := SFdiv_core_binary prec emax (Zpos a) ea (Zpos b) eb in
  0 <= q /\ e' <= 0 /\ q <= B * 2 ^ (- e') /\ (q = B * 2 ^ (- e') -> l = loc_Exact).
Proof.
  intros Hab HB Hle. unfold SFdiv_core_binary. spec_z.
  set (e' := Z.min (fexp prec emax (Zdigits2 (Zpos a) + ea - (Zdigits2 (Zpos b) + eb))) (ea - eb)).
  assert (He' : e' <= ea - eb) by apply Z.le_min_r.
  set (s := ea - eb - e').
  assert (Hm' : (match s with Zpos _ => Z.shiftl (Zpos a) s | Z0 => Zpos a | Zneg _ => 0 end) = Zpos a * 2 ^ s).
  { destruct s as [|p|p] eqn:Es; [lia | apply Z.shiftl_mul_pow2; lia | lia]. }
  rewrite Hm', div_eucl_pair. cbv zeta iota beta.
  assert (Hps : 0 < 2 ^ s) by (apply Z.pow_pos_nonneg; lia).
  assert (Hsplit : 2 ^ (- e') = 2 ^ (eb - ea) * 2 ^ s) by (rewrite <- Z.pow_add_r by lia; f_equal; lia).
  assert (Hpe : 0 < 2 ^ (eb - ea)) by (apply Z.pow_pos_nonneg; lia).
  split; [apply Z.div_pos; lia|]. split; [lia|].
  assert (Hq : Zpos a * 2 ^ s <= Zpos b * (B * 2 ^ (- e'))) by (rewrite Hsplit; nia).
  split; [apply Z.div_le_upper_bound; lia|].
  intros Heq. pose proof (Z.mul_div_le (Zpos a * 2 ^ s) (Zpos b) ltac:(lia)) as Hd.
  assert (Hr : (Zpos a * 2 ^ s) mod Zpos b = 0).
  { pose proof (Z.div_mod (Zpos a * 2 ^ s) (Zpos b) ltac:(lia)). rewrite Heq in *. nia. }
  rewrite Hr. apply new_location_exact.
Qed.

(** [a / b] of positive [int]s with the exact quotient at most [B] is a
    finite float at most [B]. *)
Lemma b64_div_pos_le a b eb B :
  0 <= eb -> 0 < B < 2 ^ 53 -> Zpos a <= B * Zpos b * 2 ^ eb ->
  b64_finite (b64_div_pos false a b eb) = true /\ b64_le_Z (b64_div_pos false a b eb) B = true /\
  b64_ge_Z (b64_div_pos false a b eb) 0 = true.
Proof.
  intros Heb HB Hle. unfold b64_div_pos.
  pose proof (div_core_le a b 0 eb B ltac:(lia) HB ltac:(rewrite Z.sub_0_r; exact Hle)) as H.
  destruct (SFdiv_core_binary prec emax (Zpos a) 0 (Zpos b) eb) as [[q e'] l].
  destruct H as (Hq & He & Hle' & Hex). now apply binary_round_aux_le.
Qed.

(** A float in [[0, B]]: finite, at least [0], at most [B]. *)
Lemma b64_range_finite x B :
  b64_finite x = true -> b64_ge_Z x 0 = true -> b64_le_Z x B = true ->
  (exists s, x = S754_zero s) \/
  exists m e, x = S754_finite false m e /\ (if 0 <=? e then Zpos m * 2 ^ e <= B else Zpos m <= B * 2 ^ (- e)).
Proof.
  destruct x as [s|s| |s m e]; cbn; try discriminate; intros _; [left; eauto|].
  intros Hge Hle. right. exists m, e.
  destruct s; [exfalso; destruct (Z.leb_spec 0 e); apply Z.leb_le in Hge;
               pose proof (Z.pow_pos_nonneg 2 (Z.abs e) ltac:(lia) ltac:(lia));
               rewrite ?Z.abs_eq, ?Z.abs_neq in * by lia; nia|].
  split; [reflexivity|]. destruct (0 <=? e); now apply Z.leb_le.
Qed.

(** [w / tot] for [0 <= w <= tot] is a float in [[0, 1]]. *)
Lemma b64_true_div_unit w tot :
  0 <= w <= tot -> 0 < tot ->
  exists x, b64_true_div w tot = Ok x /\ b64_finite x = true /\ b64_ge_Z x 0 = true /\ b64_le_Z x 1 = true.
Proof.
  intros Hw Ht. destruct tot as [|b|b]; try lia. destruct w as [|a|a]; try lia.
  - exists (S754_zero false). repeat split.
  - destruct (b64_div_pos_le a b 0 1 ltac:(lia) ltac:(lia) ltac:(lia)) as (Hf & Hle & Hge).
    exists (b64_div_pos false a b 0). split; [|auto].
    assert (Hi : b64_is_inf (b64_div_pos false a b 0) = false)
      by (destruct (b64_div_pos false a b 0); cbn in *; congruence).
    unfold b64_true_div. change (xorb (Zpos a <? 0) (Zpos b <? 0)) with false. cbv zeta.
    change (Z.abs (Zpos b)) with (Zpos b). cbv iota. change (Z.abs (Zpos a)) with (Zpos a).
    change (Z.to_pos (Zpos a)) with a. now rewrite Hi.
Qed.

(** [x * 100.0] for a float [x] in [[0, 1]] is a float in [[0, 100]]. *)
Lemma b64_mul_100 x :
  b64_finite x = true -> b64_ge_Z x 0 = true -> b64_le_Z x 1 = true ->
  let y := b64_mul x (b64_of_Z_raw 100) in
  b64_finite y = true /\ b64_ge_Z y 0 = true /\ b64_le_Z y 100 = true.
Proof.
  intros Hf Hge Hle. assert (H100 : b64_of_Z_raw 100 = S754_finite false 7036874417766400 (-46))
    by (vm_compute; reflexivity).
  cbv zeta. rewrite H100. unfold b64_mul.
  destruct (b64_range_finite x 1 Hf Hge Hle) as [(s & ->) | (m & e & -> & Hme)]; [cbn; auto|].
  cbn [SFmul xorb]. spec_z.
  assert (He : e <= 0).
  { destruct (Z.leb_spec 0 e) as [H0|]; [|lia]. pose proof (Z.pow_pos_nonneg 2 e ltac:(lia) H0).
    destruct (Z.eq_dec e 0) as [|Hne]; [lia|]. pose proof (Z.pow_le_mono_r 2 1 e ltac:(lia) ltac:(lia)). nia. }
  assert (Hm : Zpos m <= 2 ^ (- e)).
  { destruct (Z.leb_spec 0 e) as [H0|H0]; [|lia]. replace e with 0 in * by lia. cbn in *. lia. }
  destruct (binary_round_aux_le (Zpos (m * 7036874417766400)) (e + -46) loc_Exact 100 ltac:(lia) ltac:(lia) ltac:(lia))
    as (A & B & C); [| intros _; reflexivity | auto].
  replace (- (e + -46)) with (- e + 46) by lia. rewrite Z.pow_add_r by lia. rewrite Pos2Z.inj_mul. nia.
Qed.

(** Rounding to the nearest multiple of [d] stays at most [K] when the
    exact quotient does. *)
Lemma rne_div_le n d K : 0 <= n -> 0 < d -> n <= K * d -> 0 <= rne_div n d <= K.
Proof.
  intros Hn Hd Hle. unfold rne_div. pose proof (Z.div_pos n d Hn Hd).
  assert (Hq : n / d <= K) by (apply Z.div_le_upper_bound; lia).
  pose proof (Z.mod_pos_bound n d Hd). pose proof (Z.div_mod n d ltac:(lia)).
  destruct (Z.eq_dec (n / d) K) as [Heq|Hne].
  - assert (Hr : n mod d = 0) by (rewrite Heq in *; nia). rewrite Hr.
    replace (Z.compare (2 * 0) d) with Lt by (symmetry; apply Z.compare_lt_iff; lia). lia.
  - destruct (Z.compare _ _); try destruct (Z.even _); lia.
Qed.

(** [round(y, 4)] of a float [y] in [[0, 100]] is a float in [[0, 100]]. *)
Lemma b64_round_100 y :
  b64_finite y = true -> b64_ge_Z y 0 = true -> b64_le_Z y 100 = true ->
  exists z, b64_round y 4 = Ok z /\ b64_finite z = true /\ b64_ge_Z z 0 = true /\ b64_le_Z z 100 = true.
Proof.
  intros Hf Hge Hle. destruct (b64_range_finite y 100 Hf Hge Hle) as [(s & ->) | (m & e & -> & Hme)]; [eexists; split; [reflexivity | auto]|].
  unfold b64_round. change (323 <? 4) with false. change (4 <? -308) with false. cbv iota.
  change (Z.max 4 0) with 4. change (Z.max (- (4)) 0) with 0. change (- (4)) with (-4).
  set (num := Zpos m * 10 ^ 4 * 2 ^ Z.max e 0). set (den := 10 ^ 0 * 2 ^ Z.max (- e) 0).
  assert (Hden : 0 < den) by (unfold den; apply Z.mul_pos_pos; [lia | apply Z.pow_pos_nonneg; lia]).
  assert (Hnum : 0 <= num) by (unfold num; pose proof (Z.pow_pos_nonneg 2 (Z.max e 0) ltac:(lia) ltac:(lia)); nia).
  assert (Hle' : num <= 1000000 * den).
  { unfold num, den. destruct (Z.leb_spec 0 e) as [H0|H0].
    - rewrite Z.max_l, (Z.max_r (- e) 0) by lia. cbn. lia.
    - rewrite Z.max_r, (Z.max_l (- e) 0) by lia. cbn. lia. }
  destruct (rne_div_le num den 1000000 Hnum Hden Hle') as [Hq0 Hq].
  destruct (rne_div num den) as [|p|p]; [cbn; eexists; split; [reflexivity | auto] | | lia].
  unfold b64_of_decimal. change (0 <=? -4) with false. cbv iota.
  change (Z.to_pos (5 ^ (- (-4)))) with 625%positive. change (- (-4)) with 4.
  destruct (b64_div_pos_le p 625 4 100 ltac:(lia) ltac:(lia) ltac:(cbn; lia)) as (A & B & C).
  replace (b64_is_inf (b64_div_pos false p 625 4)) with false
    by (destruct (b64_div_pos false p 625 4); cbn in *; congruence).
  eexists; split; [reflexivity | auto].
Qed.
