(* ===== verification/FloatError.v ===== *)
(** * Rounding errors of the binary64 operations of the percentages

    The value of a finite float as a rational ([b64_val]) and the error
    of each rounding the percentage computation of lines 189-190 makes:
    [binary_round_aux], which every [SpecFloat] operation ends with, is
    within [2^(D + 2)] of the exact value it rounds, [D] the larger of
    the input exponent and the exponent of the last bit of a 53-bit
    significand at the size of the bound ([round_aux_err]).  From it, for
    [0 <= w <= tot]: [w / tot] is within [2^-50] of the exact quotient,
    [x * 100.0] within [2^-44] of [100 x], and [round(y, 4)] within
    [1/20000 + 2^-44] of [y]. *)

From S2P Require Import Prelude PyStr PyFloat.
From Stdlib Require Import QArith Qabs Qpower Lqa.

(** ** The value of a float *)

(** [2^e] as a rational. *)
Definition pow2 (e : Z) : Q := Qpower (inject_Z 2) e.

(** The exact value of a finite float; [0] for the others. *)
Definition b64_val (x : spec_float) : Q :=
  match x with
  | S754_finite s m e => inject_Z (if s then Zneg m else Zpos m) * pow2 e
  | _ => 0
  end.

(** The last step of [binary_round_aux]: a significand and an exponent
    become a float, infinite beyond the largest exponent. *)
Definition b64_fit (m e : Z) : spec_float :=
  match m with
  | Z0 => S754_zero false
  | Zpos p => if Z.leb e (emax - prec) then S754_finite false p e else S754_infinity false
  | Zneg _ => S754_nan
  end.

(** ** Lemmas *)

(** *** Powers of two as rationals *)

Lemma pow2_add a b : pow2 (a + b) == pow2 a * pow2 b.
Proof. unfold pow2. apply Qpower_plus. discriminate. Qed.

Lemma pow2_pos e : 0 < pow2 e.
Proof. unfold pow2. apply Qpower_0_lt. reflexivity. Qed.

Lemma pow2_Z k : (0 <= k)%Z -> pow2 k == inject_Z (2 ^ k).
Proof. intros Hk. unfold pow2. now setoid_rewrite Zpower_Qpower. Qed.

Lemma pow2_le a b : (a <= b)%Z -> pow2 a <= pow2 b.
Proof.
  intros Hab. replace b with (a + (b - a))%Z by lia. setoid_rewrite pow2_add. setoid_rewrite (pow2_Z (b - a)); [|lia].
  pose proof (pow2_pos a). setoid_rewrite <- (Qmult_1_r (pow2 a)) at 1.
  apply Qmult_le_l; [exact H|]. change (inject_Z 1 <= inject_Z (2 ^ (b - a))). rewrite <- Zle_Qle.
  pose proof (Z.pow_pos_nonneg 2 (b - a) ltac:(lia) ltac:(lia)). lia.
Qed.

Lemma b64_val_fit_pos p e : (e <= emax - prec)%Z -> b64_val (b64_fit (Zpos p) e) == inject_Z (Zpos p) * pow2 e.
Proof. intros He. unfold b64_fit. rewrite (proj2 (Z.leb_le _ _) He). reflexivity. Qed.

Lemma inject_Z_sub a b : inject_Z (a - b) == inject_Z a - inject_Z b.
Proof. unfold Qeq, Qminus, Qplus, Qopp, inject_Z. cbn [Qnum Qden]. lia. Qed.

(** *** The shape of [binary_round_aux] *)

Lemma binary_round_aux_shape m e l :
  (0 <= m)%Z ->
  exists j1 m2 j2, (0 <= j1)%Z /\ (0 <= j2)%Z /\
    (e + j1 = Z.max e (fexp prec emax (Zdigits2 m + e)))%Z /\
    (e + j1 + j2 = Z.max (e + j1) (fexp prec emax (Zdigits2 m2 + (e + j1))))%Z /\
    (m / 2 ^ j1 <= m2 <= m / 2 ^ j1 + 1)%Z /\
    (l = loc_Exact -> m mod 2 ^ j1 = 0 -> m2 = m / 2 ^ j1)%Z /\
    binary_round_aux prec emax false m e l = b64_fit (m2 / 2 ^ j2) (e + j1 + j2).
Proof.
  intros Hm. unfold binary_round_aux. rewrite shr_fexp_iter.
  set (n1 := (fexp prec emax (Zdigits2 m + e) - e)%Z).
  assert (Hl : exists r s, shr_record_of_loc m l = Build_shr_record m r s /\ (l = loc_Exact -> r = false /\ s = false))
    by (destruct l as [|[]]; cbn; eexists _, _; (split; [reflexivity|]); intros H; [split; reflexivity | discriminate H..]).
  destruct Hl as (r & s & -> & Hrs).
  destruct (iter_shr_1 (Z.to_nat n1) m r s Hm) as [Hm1 Hx].
  replace (Z.of_nat (Z.to_nat n1)) with (Z.max 0 n1) in Hm1, Hx by lia.
  destruct (Nat.iter _ shr_1 _) as [m1 r1 s1]. cbn [shr_m shr_r shr_s] in *. subst m1.
  set (m2 := round_nearest_even (m / 2 ^ Z.max 0 n1) (loc_of_shr_record (Build_shr_record (m / 2 ^ Z.max 0 n1) r1 s1))).
  pose proof (round_nearest_even_le (m / 2 ^ Z.max 0 n1) (loc_of_shr_record (Build_shr_record (m / 2 ^ Z.max 0 n1) r1 s1))) as Hr.
  assert (Hq0 : (0 <= m / 2 ^ Z.max 0 n1)%Z) by (apply Z.div_pos; [lia | apply Z.pow_pos_nonneg; lia]).
  rewrite shr_fexp_iter. cbn [shr_record_of_loc].
  set (n2 := (fexp prec emax (Zdigits2 m2 + (e + Z.max 0 n1)) - (e + Z.max 0 n1))%Z).
  destruct (iter_shr_1 (Z.to_nat n2) m2 false false ltac:(unfold m2; lia)) as [Hm3 _].
  replace (Z.of_nat (Z.to_nat n2)) with (Z.max 0 n2) in Hm3 by lia.
  destruct (Nat.iter _ shr_1 _) as [m3 r3 s3]. cbn [shr_m] in *. subst m3.
  exists (Z.max 0 n1), m2, (Z.max 0 n2). split; [lia|]. split; [lia|].
  split; [unfold n1; lia|]. split; [unfold n2; lia|]. split; [unfold m2; lia|]. split.
  - intros Hle Hmod. destruct (Hrs Hle) as [-> ->]. destruct (Hx Hmod eq_refl eq_refl) as [-> ->]. reflexivity.
  - unfold b64_fit. spec_z. reflexivity.
Qed.

(** *** The error of one rounding *)

Lemma Zdigits2_pos p : Zdigits2 (Zpos p) = (Z.log2 (Zpos p) + 1)%Z.
Proof. cbn [Zdigits2]. rewrite digits2_pos_size. apply size_log2. Qed.

Lemma Zdigits2_mono m B k : (0 <= m)%Z -> (0 < B)%Z -> (0 <= k)%Z -> (m <= B * 2 ^ k)%Z -> (Zdigits2 m <= Zdigits2 B + k)%Z.
Proof.
  intros Hm HB Hk Hle. destruct B as [|b|b]; try lia. rewrite Zdigits2_pos.
  destruct m as [|p|p]; [change (Zdigits2 0) with 0%Z; pose proof (Z.log2_nonneg (Zpos b)); lia| |lia].
  rewrite Zdigits2_pos. pose proof (Z.log2_mul_pow2 (Zpos b) k ltac:(lia) Hk). pose proof (Z.log2_le_mono _ _ Hle). lia.
Qed.

Lemma Zdigits2_le_53 B : (0 < B < 2 ^ 53)%Z -> (Zdigits2 B <= 53)%Z.
Proof. intros HB. destruct B as [|b|b]; try lia. rewrite Zdigits2_pos. pose proof (Z.log2_lt_pow2 (Zpos b) 53 ltac:(lia)). lia. Qed.

(** The first rounding keeps the bound (the arithmetic of [round_first_le]). *)
Lemma first_step_bound m e j1 m2 B (l : location) :
  (0 <= m)%Z -> (0 <= j1)%Z -> (e + j1 <= 0)%Z -> (0 < B)%Z -> (m <= B * 2 ^ (- e))%Z ->
  (m = B * 2 ^ (- e) -> l = loc_Exact)%Z -> (m / 2 ^ j1 <= m2 <= m / 2 ^ j1 + 1)%Z ->
  (l = loc_Exact -> m mod 2 ^ j1 = 0 -> m2 = m / 2 ^ j1)%Z -> (m2 <= B * 2 ^ (- (e + j1)))%Z.
Proof.
  intros Hm Hj He HB Hle Hex Hm2 Hexact.
  assert (Hpj : (0 < 2 ^ j1)%Z) by (apply Z.pow_pos_nonneg; lia).
  assert (HB1 : (B * 2 ^ (- e) = B * 2 ^ (- (e + j1)) * 2 ^ j1)%Z)
    by (rewrite <- Z.mul_assoc, <- Z.pow_add_r by lia; do 2 f_equal; lia).
  assert (Hq : (m / 2 ^ j1 <= B * 2 ^ (- (e + j1)))%Z) by (apply Z.div_le_upper_bound; lia).
  destruct (Z.eq_dec (m / 2 ^ j1) (B * 2 ^ (- (e + j1)))) as [Heq|]; [|lia].
  assert (Hmm : m = (B * 2 ^ (- e))%Z) by (pose proof (Z.mul_div_le m (2 ^ j1) Hpj); lia).
  rewrite (Hexact (Hex Hmm)); [lia|]. rewrite Hmm, HB1. apply Z.mod_mul. lia.
Qed.

(** The exponent [D] the error of a rounding below [B] is measured in. *)
Lemma fexp_le_D x B e :
  (x <= Zdigits2 B)%Z -> (fexp prec emax x <= Z.max e (Z.max (Zdigits2 B - 53) (emin prec emax)))%Z.
Proof. intros Hx. unfold fexp, emin, prec, emax in *. spec_z. lia. Qed.

Lemma round_aux_err m e l B :
  (0 <= m)%Z -> (e <= 0)%Z -> (0 < B < 2 ^ 53)%Z -> (m <= B * 2 ^ (- e))%Z -> (m = B * 2 ^ (- e) -> l = loc_Exact)%Z ->
  exists v, (0 <= v)%Z /\ b64_val (binary_round_aux prec emax false m e l) == inject_Z v * pow2 e /\
    (Z.abs (v - m) <= 2 ^ (Z.max e (Z.max (Zdigits2 B - 53) (emin prec emax)) - e + 1))%Z.
Proof.
  intros Hm He HB Hle Hex.
  destruct (binary_round_aux_shape m e l Hm) as (j1 & m2 & j2 & Hj1 & Hj2 & HE1 & HE2 & Hm2 & Hexact & ->).
  set (D := Z.max e (Z.max (Zdigits2 B - 53) (emin prec emax))).
  assert (HdB := Zdigits2_le_53 B HB).
  assert (Hdm : (Zdigits2 m + e <= Zdigits2 B)%Z) by (pose proof (Zdigits2_mono m B (- e) Hm ltac:(lia) ltac:(lia) Hle); lia).
  assert (HD1 : (e + j1 <= D)%Z) by (rewrite HE1; pose proof (fexp_le_D _ B e Hdm); unfold D; lia).
  assert (HD0 : (D <= 0)%Z) by (unfold D, emin, prec, emax; spec_z; lia).
  assert (Hb2 : (m2 <= B * 2 ^ (- (e + j1)))%Z) by (apply (first_step_bound m e j1 m2 B l); (assumption || lia)).
  assert (Hq1 : (0 <= m / 2 ^ j1)%Z) by (apply Z.div_pos; [lia | apply Z.pow_pos_nonneg; lia]).
  assert (Hdm2 : (Zdigits2 m2 + (e + j1) <= Zdigits2 B)%Z)
    by (pose proof (Zdigits2_mono m2 B (- (e + j1)) ltac:(lia) ltac:(lia) ltac:(lia) Hb2); lia).
  assert (HD2 : (e + j1 + j2 <= D)%Z) by (rewrite HE2; pose proof (fexp_le_D _ B e Hdm2); unfold D; lia).
  assert (Hp1 : (0 < 2 ^ j1)%Z) by (apply Z.pow_pos_nonneg; lia).
  assert (Hp2 : (0 < 2 ^ j2)%Z) by (apply Z.pow_pos_nonneg; lia).
  assert (Hp12 : (2 ^ (j1 + j2) = 2 ^ j1 * 2 ^ j2)%Z) by (apply Z.pow_add_r; lia).
  assert (HpD : (2 ^ (j1 + j2 + 1) <= 2 ^ (D - e + 1))%Z) by (apply Z.pow_le_mono_r; lia).
  rewrite Z.pow_add_r in HpD by lia. rewrite Hp12 in HpD.
  pose proof (Z.mul_div_le m (2 ^ j1) Hp1). pose proof (Z.mul_succ_div_gt m (2 ^ j1) Hp1).
  pose proof (Z.mul_div_le m2 (2 ^ j2) Hp2). pose proof (Z.mul_succ_div_gt m2 (2 ^ j2) Hp2).
  assert (Hq2 : (0 <= m2 / 2 ^ j2)%Z) by (apply Z.div_pos; lia).
  exists (m2 / 2 ^ j2 * 2 ^ (j1 + j2))%Z. split; [nia|]. split.
  - destruct (m2 / 2 ^ j2)%Z as [|p|p] eqn:Eq; [cbn [b64_fit b64_val]; rewrite Z.mul_0_l; ring | |lia].
    setoid_rewrite b64_val_fit_pos; [|unfold emax, prec; lia].
    replace (e + j1 + j2)%Z with ((j1 + j2) + e)%Z by lia. setoid_rewrite pow2_add.
    setoid_rewrite (pow2_Z (j1 + j2)); [|lia]. rewrite inject_Z_mult. ring.
  - rewrite Z.pow_add_r by lia. apply Z.abs_le. nia.
Qed.

(** In rationals: the rounded value is within [2^(D + 2)] of any [x]
    that the significand [m] at exponent [e] approximates from below by
    less than one unit. *)
Lemma round_aux_err_Q m e l B x :
  (0 <= m)%Z -> (e <= 0)%Z -> (0 < B < 2 ^ 53)%Z -> (m <= B * 2 ^ (- e))%Z -> (m = B * 2 ^ (- e) -> l = loc_Exact)%Z ->
  inject_Z m * pow2 e <= x <= inject_Z (m + 1) * pow2 e ->
  let eps := pow2 (Z.max e (Z.max (Zdigits2 B - 53) (emin prec emax)) + 2) in
  x - eps <= b64_val (binary_round_aux prec emax false m e l) <= x + eps.
Proof.
  intros Hm He HB Hle Hex [Hx1 Hx2]. cbv zeta.
  destruct (round_aux_err m e l B Hm He HB Hle Hex) as (v & Hv & Hval & Herr).
  set (D := Z.max e (Z.max (Zdigits2 B - 53) (emin prec emax))) in *.
  assert (HDe : (e <= D)%Z) by (unfold D; lia).
  assert (Heps : pow2 (D + 2) == inject_Z (2 * 2 ^ (D - e + 1)) * pow2 e).
  { replace (D + 2)%Z with ((D - e + 2) + e)%Z by lia. setoid_rewrite pow2_add.
    setoid_rewrite (pow2_Z (D - e + 2)); [|lia]. replace (D - e + 2)%Z with (Z.succ (D - e + 1)) by lia.
    rewrite Z.pow_succ_r by lia. reflexivity. }
  setoid_rewrite Heps. setoid_rewrite Hval. rewrite inject_Z_plus in Hx2. rewrite inject_Z_mult.
  pose proof (pow2_pos e). apply Z.abs_le in Herr.
  assert (HK : (1 <= 2 ^ (D - e + 1))%Z) by (apply (Z.pow_le_mono_r 2 0); lia).
  destruct Herr as [Hlo Hhi]. change (inject_Z 2) with 2. change (inject_Z 1) with 1 in *.
  set (P := pow2 e) in *. set (K := inject_Z (2 ^ (D - e + 1))) in *.
  assert (HK' : 1 <= K) by (unfold K; change 1 with (inject_Z 1); rewrite <- Zle_Qle; exact HK).
  assert (Hhi' : inject_Z v <= inject_Z m + K) by (unfold K; rewrite <- inject_Z_plus, <- Zle_Qle; lia).
  assert (Hlo' : inject_Z m <= inject_Z v + K) by (unfold K; rewrite <- inject_Z_plus, <- Zle_Qle; lia).
  split; nra.
Qed.

(** *** The division *)

Lemma pow2_neg k : (0 <= k)%Z -> pow2 (- k) == 1 # Z.to_pos (2 ^ k).
Proof.
  intros Hk. unfold pow2. setoid_rewrite Qpower_opp. setoid_rewrite <- Zpower_Qpower; [|exact Hk].
  pose proof (Z.pow_pos_nonneg 2 k ltac:(lia) Hk). destruct (2 ^ k)%Z as [|p|p]; try lia. reflexivity.
Qed.

Lemma div_core_spec a b ea eb :
  let '(q, e', l) := SFdiv_core_binary prec emax (Zpos a) ea (Zpos b) eb in
  exists s, (0 <= s)%Z /\ e' = (ea - eb - s)%Z /\ q = (Zpos a * 2 ^ s / Zpos b)%Z /\
    l = new_location (Zpos b) (Zpos a * 2 ^ s mod Zpos b)%Z /\
    (e' <= fexp prec emax (Zdigits2 (Zpos a) + ea - (Zdigits2 (Zpos b) + eb)))%Z.
Proof.
  unfold SFdiv_core_binary. spec_z.
  set (e' := Z.min (fexp prec emax (Zdigits2 (Zpos a) + ea - (Zdigits2 (Zpos b) + eb))) (ea - eb)).
  assert (He' : (e' <= ea - eb)%Z) by apply Z.le_min_r.
  set (s := (ea - eb - e')%Z).
  assert (Hm' : (match s with Zpos _ => Z.shiftl (Zpos a) s | Z0 => Zpos a | Zneg _ => 0%Z end) = (Zpos a * 2 ^ s)%Z).
  { destruct s as [|p|p] eqn:Es; [lia | apply Z.shiftl_mul_pow2; lia | lia]. }
  rewrite Hm', div_eucl_pair. exists s. repeat split; [lia | unfold s; lia | apply Z.le_min_l].
Qed.

(** [a / (b * 2^eb)] rounded, with the quotient at most [B]: within
    [2^(max(digits B - 53, emin) + 2)] of the exact quotient. *)
Lemma b64_div_pos_err a b eb B :
  (0 <= eb)%Z -> (0 < B < 2 ^ 53)%Z -> (Zpos a <= B * Zpos b * 2 ^ eb)%Z ->
  (Zdigits2 (Zpos a) <= Zdigits2 (Zpos b) + eb + Zdigits2 B)%Z ->
  let X := Zpos a # Z.to_pos (Zpos b * 2 ^ eb) in
  let eps := pow2 (Z.max (Zdigits2 B - 53) (emin prec emax) + 2) in
  X - eps <= b64_val (b64_div_pos false a b eb) <= X + eps.
Proof.
  intros Heb HB Hle Hd. cbv zeta. unfold b64_div_pos.
  pose proof (div_core_le a b 0 eb B ltac:(lia) HB ltac:(rewrite Z.sub_0_r; exact Hle)) as Hcore.
  pose proof (div_core_spec a b 0 eb) as Hspec.
  destruct (SFdiv_core_binary prec emax (Zpos a) 0 (Zpos b) eb) as [[q e'] l].
  destruct Hcore as (Hq & He & Hqle & Hex). destruct Hspec as (s & Hs & -> & -> & _ & Hfe).
  assert (HD : Z.max (0 - eb - s) (Z.max (Zdigits2 B - 53) (emin prec emax)) = Z.max (Zdigits2 B - 53) (emin prec emax)).
  { unfold fexp in Hfe. unfold emin, prec, emax in *. spec_z. lia. }
  pose proof (round_aux_err_Q (Zpos a * 2 ^ s / Zpos b) (0 - eb - s) l B (Zpos a # Z.to_pos (Zpos b * 2 ^ eb))
                ltac:(lia) He HB Hqle Hex) as Herr.
  rewrite HD in Herr. apply Herr. clear Herr.
  replace (0 - eb - s)%Z with (- (s + eb))%Z by lia. setoid_rewrite (pow2_neg (s + eb) ltac:(lia)).
  assert (Hps : (0 < 2 ^ s)%Z) by (apply Z.pow_pos_nonneg; lia).
  assert (Hpe : (0 < 2 ^ eb)%Z) by (apply Z.pow_pos_nonneg; lia).
  assert (Hpse : (2 ^ (s + eb) = 2 ^ s * 2 ^ eb)%Z) by (apply Z.pow_add_r; lia).
  pose proof (Z.mul_div_le (Zpos a * 2 ^ s) (Zpos b) ltac:(lia)).
  pose proof (Z.mul_succ_div_gt (Zpos a * 2 ^ s) (Zpos b) ltac:(lia)).
  unfold Qle, Qmult, inject_Z; cbn [Qnum Qden]. rewrite ?Z.mul_1_r, ?Pos.mul_1_l, !Z2Pos.id by lia.
  split; nia.
Qed.

(** [w / tot] for [0 <= w <= tot] is within [2^-50] of the exact quotient. *)
Lemma b64_true_div_val w tot x :
  (0 <= w <= tot)%Z -> (0 < tot)%Z -> b64_true_div w tot = Ok x ->
  (w # Z.to_pos tot) - pow2 (-50) <= b64_val x <= (w # Z.to_pos tot) + pow2 (-50).
Proof.
  intros Hw Ht Hx. pose proof (pow2_pos (-50)).
  destruct tot as [|b|b]; try lia. destruct w as [|a|a]; try lia.
  - unfold b64_true_div in Hx. cbn in Hx. change (Z.abs (Zpos b)) with (Zpos b) in Hx. injection Hx as <-. cbn [b64_val]. assert (H0 : (0 # Z.to_pos (Zpos b)) == 0) by reflexivity. split; lra.
  - unfold b64_true_div in Hx. change (Z.abs (Zpos b)) with (Zpos b) in Hx.
    cbv zeta iota in Hx. change (xorb (Zpos a <? 0)%Z (Zpos b <? 0)%Z) with false in Hx.
    change (Z.to_pos (Z.abs (Zpos a))) with a in Hx.
    destruct (b64_is_inf (b64_div_pos false a b 0)); [discriminate|]. injection Hx as <-.
    assert (Hd : (Zdigits2 (Zpos a) <= Zdigits2 (Zpos b) + 0 + Zdigits2 1)%Z)
      by (pose proof (Zdigits2_mono (Zpos a) (Zpos b) 0 ltac:(lia) ltac:(lia) ltac:(lia) ltac:(lia)); cbn [Zdigits2 digits2_pos] in *; lia).
    pose proof (b64_div_pos_err a b 0 1 ltac:(lia) ltac:(lia) ltac:(lia) Hd) as Herr. cbv zeta in Herr.
    change (Z.max (Zdigits2 1 - 53) (emin prec emax) + 2)%Z with (-50)%Z in Herr.
    change (Z.to_pos (Zpos b)) with b. now rewrite Z.pow_0_r, Z.mul_1_r in Herr.
Qed.

(** [x * 100.0] for [x] in [[0, 1]] is within [2^-44] of [100 x]. *)
Lemma b64_mul_100_val x :
  b64_finite x = true -> b64_ge_Z x 0 = true -> b64_le_Z x 1 = true ->
  100 * b64_val x - pow2 (-44) <= b64_val (b64_mul x (b64_of_Z_raw 100)) <= 100 * b64_val x + pow2 (-44).
Proof.
  intros Hf Hge Hle. pose proof (pow2_pos (-44)).
  assert (H100 : b64_of_Z_raw 100 = S754_finite false 7036874417766400 (-46)) by (vm_compute; reflexivity).
  rewrite H100. unfold b64_mul.
  destruct (b64_range_finite x 1 Hf Hge Hle) as [(s & ->) | (m & e & -> & Hme)]; [cbn [SFmul b64_val xorb]; lra|].
  cbn [SFmul xorb]. spec_z.
  assert (He : (e <= 0)%Z).
  { destruct (Z.leb_spec 0 e) as [H0|]; [|lia]. pose proof (Z.pow_pos_nonneg 2 e ltac:(lia) H0).
    destruct (Z.eq_dec e 0) as [|Hne]; [lia|]. pose proof (Z.pow_le_mono_r 2 1 e ltac:(lia) ltac:(lia)). nia. }
  assert (Hm : (Zpos m <= 2 ^ (- e))%Z).
  { destruct (Z.leb_spec 0 e) as [H0|H0]; [|lia]. replace e with 0%Z in * by lia. cbn in *. lia. }
  assert (Hb : (Zpos (m * 7036874417766400) <= 100 * 2 ^ (- (e + -46)))%Z).
  { replace (- (e + -46))%Z with (- e + 46)%Z by lia. rewrite Z.pow_add_r by lia. rewrite Pos2Z.inj_mul. nia. }
  pose proof (round_aux_err_Q (Zpos (m * 7036874417766400)) (e + -46) loc_Exact 100 (100 * b64_val (S754_finite false m e))
                ltac:(lia) ltac:(lia) ltac:(lia) Hb ltac:(reflexivity)) as Herr. cbv zeta in Herr.
  replace (Z.max (e + -46) (Z.max (Zdigits2 100 - 53) (emin prec emax)) + 2)%Z with (-44)%Z in Herr
    by (unfold emin, prec, emax; change (Zdigits2 100) with 7%Z; spec_z; lia).
  apply Herr. cbn [b64_val]. setoid_rewrite (pow2_add e (-46)).
  rewrite Pos2Z.inj_mul, !inject_Z_mult, inject_Z_plus, inject_Z_mult.
  assert (Hp46 : pow2 (-46) * inject_Z 7036874417766400 == 100)
    by (setoid_rewrite (pow2_neg 46 ltac:(lia)); reflexivity).
  pose proof (pow2_pos e). pose proof (pow2_pos (-46)).
  assert (E : inject_Z (Zpos m) * inject_Z 7036874417766400 * (pow2 e * pow2 (-46)) == 100 * (inject_Z (Zpos m) * pow2 e))
    by (setoid_rewrite <- Hp46; ring).
  assert (Hpp : 0 < pow2 e * pow2 (-46)) by (apply Qmult_lt_0_compat; assumption).
  change (inject_Z 1) with 1. split; [rewrite E; apply Qle_refl|]. rewrite Qmult_plus_distr_l, E. lra.
Qed.

(** *** [round(y, 4)] *)

Lemma rne_div_err n d : (0 <= n)%Z -> (0 < d)%Z -> (2 * Z.abs (rne_div n d * d - n) <= d)%Z.
Proof.
  intros Hn Hd. unfold rne_div. pose proof (Z.mod_pos_bound n d Hd). pose proof (Z.div_mod n d ltac:(lia)).
  destruct (Z.compare_spec (2 * (n mod d)) d) as [E|E|E]; [destruct (Z.even (n / d))|..];
    apply Z.abs_le; nia.
Qed.

(** The exact value of a finite nonnegative float times [10^4] is
    [num / den], the quotient [b64_round] rounds. *)
Lemma b64_val_scaled m e :
  inject_Z (Zpos m * 10 ^ 4 * 2 ^ Z.max e 0) ==
  b64_val (S754_finite false m e) * 10000 * inject_Z (10 ^ Z.max (- 4) 0 * 2 ^ Z.max (- e) 0).
Proof.
  cbn [b64_val]. change (10 ^ Z.max (-4) 0)%Z with 1%Z. rewrite Z.mul_1_l.
  destruct (Z.leb_spec 0 e) as [H0|H0].
  - rewrite (Z.max_l e 0), (Z.max_r (- e) 0) by lia. setoid_rewrite (pow2_Z e H0).
    rewrite !inject_Z_mult. change (inject_Z (10 ^ 4)) with 10000. change (inject_Z (2 ^ 0)) with 1. ring.
  - rewrite (Z.max_r e 0), (Z.max_l (- e) 0) by lia. replace e with (- (- e))%Z at 1 by lia.
    setoid_rewrite (pow2_neg (- e) ltac:(lia)). rewrite !inject_Z_mult. change (inject_Z (10 ^ 4)) with 10000.
    change (inject_Z (2 ^ 0)) with 1. pose proof (Z.pow_pos_nonneg 2 (- e) ltac:(lia) ltac:(lia)).
    unfold Qeq, Qmult, inject_Z; cbn [Qnum Qden]. rewrite !Pos.mul_1_r, Pos.mul_1_l, Z2Pos.id by lia. lia.
Qed.

(** [round(y, 4)] of [y] in [[0, 100]] is within [1/20000 + 2^-44] of [y]. *)
Lemma b64_round_100_val y z :
  b64_finite y = true -> b64_ge_Z y 0 = true -> b64_le_Z y 100 = true -> b64_round y 4 = Ok z ->
  b64_val y - (1 # 20000) - pow2 (-44) <= b64_val z <= b64_val y + (1 # 20000) + pow2 (-44).
Proof.
  intros Hf Hge Hle Hz. pose proof (pow2_pos (-44)).
  destruct (b64_range_finite y 100 Hf Hge Hle) as [(s & ->) | (m & e & -> & Hme)];
    [cbn [b64_round] in Hz; injection Hz as <-; cbn [b64_val]; split; lra|].
  pose proof (b64_val_scaled m e) as Hsc.
  unfold b64_round in Hz. change (323 <? 4)%Z with false in Hz. change (4 <? -308)%Z with false in Hz. cbv iota in Hz.
  change (Z.max 4 0) with 4%Z in Hz. change (Z.max (- (4)) 0) with 0%Z in Hz. change (Z.max (-4) 0) with 0%Z in Hsc.
  set (num := (Zpos m * 10 ^ 4 * 2 ^ Z.max e 0)%Z) in Hz, Hsc.
  set (den := (10 ^ 0 * 2 ^ Z.max (- e) 0)%Z) in Hz, Hsc.
  assert (Hden : (0 < den)%Z) by (unfold den; apply Z.mul_pos_pos; [lia | apply Z.pow_pos_nonneg; lia]).
  assert (Hnum : (0 <= num)%Z) by (unfold num; pose proof (Z.pow_pos_nonneg 2 (Z.max e 0) ltac:(lia) ltac:(lia)); nia).
  assert (Hle' : (num <= 1000000 * den)%Z).
  { unfold num, den. destruct (Z.leb_spec 0 e) as [H0|H0].
    - rewrite Z.max_l, (Z.max_r (- e) 0) by lia. cbn. lia.
    - rewrite Z.max_r, (Z.max_l (- e) 0) by lia. cbn. lia. }
  destruct (rne_div_le num den 1000000 Hnum Hden Hle') as [Hq0 Hq].
  pose proof (rne_div_err num den Hnum Hden) as Hr.
  set (V := b64_val (S754_finite false m e)) in *. set (D := inject_Z den) in *.
  assert (HD : 0 < D) by (unfold D; change 0 with (inject_Z 0); rewrite <- Zlt_Qlt; exact Hden).
  (* the decimal rounding: [q / 10^4] is within [1/20000] of [V] *)
  assert (Hdec : forall q, (2 * Z.abs (q * den - num) <= den)%Z ->
                 V - (1 # 20000) <= inject_Z q * (1 # 10000) <= V + (1 # 20000)).
  { intros q Hq'. assert (Hq'' : (- den <= 2 * (q * den - num) <= den)%Z) by lia. destruct Hq'' as [Hlo Hhi].
    rewrite Zle_Qle in Hlo, Hhi. rewrite inject_Z_opp in Hlo. rewrite inject_Z_mult in Hlo, Hhi.
    setoid_rewrite inject_Z_sub in Hlo. setoid_rewrite inject_Z_sub in Hhi.
    rewrite inject_Z_mult in Hlo, Hhi. setoid_rewrite Hsc in Hlo. setoid_rewrite Hsc in Hhi. fold D in Hlo, Hhi.
    change (inject_Z 2) with 2 in Hlo, Hhi.
    assert (A1 : 2 * (inject_Z q - V * 10000) <= 1) by (apply (Qmult_le_r _ _ D HD); lra).
    assert (A2 : -1 <= 2 * (inject_Z q - V * 10000)) by (apply (Qmult_le_r _ _ D HD); lra).
    split; lra. }
  destruct (rne_div num den) as [|p|p] eqn:Eq; [| |lia].
  - unfold b64_of_decimal in Hz. injection Hz as <-. cbn [b64_val].
    specialize (Hdec _ Hr). change (inject_Z 0) with 0 in Hdec. split; lra.
  - unfold b64_of_decimal in Hz. change (0 <=? - (4))%Z with false in Hz. cbv iota in Hz.
    change (Z.to_pos (5 ^ (- - (4)))) with 625%positive in Hz. change (- - (4))%Z with 4%Z in Hz.
    destruct (b64_is_inf (b64_div_pos false p 625 4)); [discriminate|]. injection Hz as <-.
    specialize (Hdec _ Hr).
    assert (Hd : (Zdigits2 (Zpos p) <= Zdigits2 (Zpos 625) + 4 + Zdigits2 100)%Z).
    { change (Zdigits2 (Zpos 625) + 4 + Zdigits2 100)%Z with 21%Z.
      pose proof (Zdigits2_mono (Zpos p) 1 20 ltac:(lia) ltac:(lia) ltac:(lia) ltac:(cbn; lia)).
      change (Zdigits2 1) with 1%Z in H0. lia. }
    pose proof (b64_div_pos_err p 625 4 100 ltac:(lia) ltac:(lia) ltac:(cbn; lia) Hd) as Herr. cbv zeta in Herr.
    replace (Z.max (Zdigits2 100 - 53) (emin prec emax) + 2)%Z with (-44)%Z in Herr
      by (unfold emin, prec, emax; change (Zdigits2 100) with 7%Z; spec_z; lia).
    assert (HX : (Zpos p # Z.to_pos (Zpos 625 * 2 ^ 4)) == inject_Z (Zpos p) * (1 # 10000))
      by (unfold Qeq, Qmult, inject_Z; cbn [Qnum Qden]; lia).
    setoid_rewrite HX in Herr. destruct Herr. split; lra.
Qed.
