(* ===== verification/PyValue.v ===== *)
(** * Decoded JSON values as Python objects

    [json.loads] returns [None], [bool], [int], [float], [str], [list] and
    [dict] objects; [json] is that universe, a [dict] being the list of
    its entries in insertion order (its keys are [str]s and, as in any
    [dict], distinct; [JsonLoads] produces only such dictionaries).

    The scrapper applies Python's dynamic operations to these values and
    each of them can raise; they are modelled one by one, with the
    exception CPython raises:

    - [getitem] is [v[k]]: on a [dict] a [KeyError] for a missing key
      and a [TypeError] for an unhashable key; on a [list] or [str] an
      [int] (or [bool]) index, negative indices counting from the end, and
      an [IndexError] out of range; a [TypeError] otherwise;
    - [dict_get] is [v.get(k, default)] ([AttributeError] on a non-[dict]);
    - [dict_items] is [v.items()];
    - [py_iter] is the sequence a [for] loop visits ([list] elements,
      [dict] keys, [str] characters; [TypeError] otherwise);
    - [str_key] is how a [dict] of [str] keys sees a key: unhashable
      ([list], [dict]) raises [TypeError]; only a [str] can be present;
    - [py_eq] is [==]; [py_eq_id] is the comparison [list.index] and
      container equality use ([PyObject_RichCompareBool]), which first
      tests identity: all NaNs [json.loads] returns are one shared object,
      so two decoded NaNs compare equal there;
    - [py_int] is [int(v)], [py_float] is [float(v)];
    - [truthy] is [bool(v)], the test of [if v:]. *)

From S2P Require Import Prelude PyStr PyFloat.
From Stdlib Require Import Ascii String.

Open Scope Z_scope.

Unset Elimination Schemes.
Inductive json :=
  | JNull
  | JBool (b : bool)
  | JInt (z : Z)
  | JFloat (f : spec_float)
  | JStr (s : string)
  | JArr (l : list json)
  | JObj (kvs : list (string * json)).
Set Elimination Schemes.

(** Induction through the nested lists. *)
Definition json_ind (P : json -> Prop)
    (fnull : P JNull) (fbool : forall b, P (JBool b)) (fint : forall z, P (JInt z))
    (ffloat : forall f, P (JFloat f)) (fstr : forall s, P (JStr s))
    (farr : forall l, Forall P l -> P (JArr l))
    (fobj : forall kvs, Forall (fun kv => P (snd kv)) kvs -> P (JObj kvs)) :
    forall j, P j :=
  fix F j :=
    match j with
    | JNull => fnull
    | JBool b => fbool b
    | JInt z => fint z
    | JFloat f => ffloat f
    | JStr s => fstr s
    | JArr l => farr l ((fix G l : Forall P l :=
                          match l with
                          | [] => Forall_nil _
                          | x :: l' => Forall_cons _ x l' (F x) (G l')
                          end) l)
    | JObj kvs => fobj kvs ((fix G kvs : Forall (fun kv => P (snd kv)) kvs :=
                              match kvs with
                              | [] => Forall_nil _
                              | kv :: kvs' => Forall_cons _ kv kvs' (F (snd kv)) (G kvs')
                              end) kvs)
    end.

(** ** Numbers *)

(** The numeric view of a value: [bool] is a subclass of [int]. *)
Inductive num := NInt (z : Z) | NFloat (f : spec_float).

Definition as_num (v : json) : option num :=
  match v with
  | JBool b => Some (NInt (if b then 1 else 0))
  | JInt z => Some (NInt z)
  | JFloat f => Some (NFloat f)
  | _ => None
  end.

Definition is_nan (f : spec_float) : bool := match f with S754_nan => true | _ => false end.

(** Numeric equality; [nan_id] says whether the two NaNs are the same
    object, compared with the identity shortcut. *)
Definition num_eq (nan_id : bool) (a b : num) : bool :=
  match a, b with
  | NInt x, NInt y => x =? y
  | NInt x, NFloat f | NFloat f, NInt x => b64_eq_Z f x
  | NFloat f, NFloat g => (nan_id && is_nan f && is_nan g) || b64_eq f g
  end.

Fixpoint py_eq_gen (nan_id : bool) (a b : json) {struct a} : bool :=
  match a, b with
  | JNull, JNull => true
  | JStr s, JStr t => String.eqb s t
  | JArr xs, JArr ys =>
      (fix go xs ys := match xs, ys with
                       | [], [] => true
                       | x :: xs', y :: ys' => py_eq_gen true x y && go xs' ys'
                       | _, _ => false
                       end) xs ys
  | JObj kxs, JObj kys =>
      (List.length kxs =? List.length kys)%nat &&
      (fix go kxs := match kxs with
                     | [] => true
                     | (k, x) :: kxs' =>
                         match assoc_lookup k kys with
                         | Some y => py_eq_gen true x y && go kxs'
                         | None => false
                         end
                     end) kxs
  | _, _ =>
      match as_num a, as_num b with
      | Some x, Some y => num_eq nan_id x y
      | _, _ => false
      end
  end.

(** [a == b] *)
Definition py_eq (a b : json) : bool := py_eq_gen false a b.
(** [PyObject_RichCompareBool(a, b, Py_EQ)] on decoded values. *)
Definition py_eq_id (a b : json) : bool := py_eq_gen true a b.

(** ** Subscription, [get], [items], iteration *)

(** The key a [dict] with [str] keys sees. *)
Definition str_key (k : json) : py (option string) :=
  match k with
  | JStr s => Ok (Some s)
  | JArr _ | JObj _ => raise TypeError
  | _ => Ok None
  end.

Definition py_index (len : nat) (k : json) : py nat :=
  let* i := match k with
            | JInt i => Ok i
            | JBool b => Ok (if b then 1 else 0)
            | _ => raise TypeError
            end in
  let j := if i <? 0 then i + Z.of_nat len else i in
  if (0 <=? j) && (j <? Z.of_nat len) then Ok (Z.to_nat j) else raise IndexError.

Definition str_chars (s : string) : list json :=
  map (fun c => JStr (String c EmptyString)) (list_ascii_of_string s).

(** [v[k]] *)
Definition getitem (v k : json) : py json :=
  match v with
  | JObj kvs =>
      let* ks := str_key k in
      match ks with
      | Some s => match assoc_lookup s kvs with Some x => Ok x | None => raise KeyError end
      | None => raise KeyError
      end
  | JArr xs =>
      let* i := py_index (List.length xs) k in
      match nth_error xs i with Some x => Ok x | None => raise IndexError end
  | JStr s =>
      let* i := py_index (String.length s) k in
      match nth_error (str_chars s) i with Some x => Ok x | None => raise IndexError end
  | _ => raise TypeError
  end.

(** [v[name]] with a literal [str] key. *)
Definition field (v : json) (name : string) : py json := getitem v (JStr name).

(** The attribute lookup [v.get] / [v.items]: only a [dict] has them. *)
Definition as_dict (v : json) : py (list (string * json)) :=
  match v with
  | JObj kvs => Ok kvs
  | _ => raise AttributeError
  end.

(** The call [d.get(k, default)] on the entries [kvs] of a [dict]. *)
Definition get_in (kvs : list (string * json)) (k default : json) : py json :=
  let* ks := str_key k in
  match ks with
  | Some s => Ok (match assoc_lookup s kvs with Some x => x | None => default end)
  | None => Ok default
  end.

(** [v.get(k, default)] when [k] is already evaluated. *)
Definition dict_get (v k default : json) : py json :=
  let* kvs := as_dict v in get_in kvs k default.

(** [v.items()] *)
Definition dict_items (v : json) : py (list (string * json)) := as_dict v.

(** [v[i] = x] on a [list] with an index known to be a natural. *)
Definition setitem_list (v : json) (i : nat) (x : json) : py json :=
  match v with
  | JArr xs => if (i <? List.length xs)%nat then Ok (JArr (<[i := x]> xs)) else raise IndexError
  | _ => raise TypeError
  end.

(** [for x in v] *)
Definition py_iter (v : json) : py (list json) :=
  match v with
  | JArr xs => Ok xs
  | JObj kvs => Ok (map (fun kv => JStr (fst kv)) kvs)
  | JStr s => Ok (str_chars s)
  | _ => raise TypeError
  end.

(** ** Conversions and tests *)

(** [int(v)] *)
Definition py_int (v : json) : py Z :=
  match v with
  | JBool b => Ok (if b then 1 else 0)
  | JInt z => Ok z
  | JFloat f => b64_trunc f
  | JStr s => match parse_int_str s with Some z => Ok z | None => raise ValueError end
  | _ => raise TypeError
  end.

(** [float(v)] *)
Definition py_float (v : json) : py spec_float :=
  match v with
  | JBool b => Ok (b64_of_Z_raw (if b then 1 else 0))
  | JInt z => b64_of_Z z
  | JFloat f => Ok f
  | JStr s => match parse_float_str s with Some l => Ok (b64_of_lit l) | None => raise ValueError end
  | _ => raise TypeError
  end.

(** [isinstance(v, float)] and [isinstance(v, list)] *)
Definition is_float (v : json) : bool := match v with JFloat _ => true | _ => false end.
Definition is_list (v : json) : bool := match v with JArr _ => true | _ => false end.

(** [bool(v)] *)
Definition truthy (v : json) : bool :=
  match v with
  | JNull => false
  | JBool b => b
  | JInt z => negb (z =? 0)
  | JFloat f => match f with S754_zero _ => false | _ => true end
  | JStr s => negb (String.eqb s EmptyString)
  | JArr xs => negb (Nat.eqb (List.length xs) 0)
  | JObj kvs => negb (Nat.eqb (List.length kvs) 0)
  end.

(** ** Lemmas *)

Lemma py_eq_id_refl_str s : py_eq_id (JStr s) (JStr s) = true.
Proof. apply String.eqb_refl. Qed.

Lemma field_obj kvs name :
  field (JObj kvs) name =
  match assoc_lookup name kvs with Some x => Ok x | None => raise KeyError end.
Proof. reflexivity. Qed.

Lemma dict_get_obj_str kvs s d :
  dict_get (JObj kvs) (JStr s) d = Ok (match assoc_lookup s kvs with Some x => x | None => d end).
Proof. reflexivity. Qed.

Lemma py_int_JInt z : py_int (JInt z) = Ok z.
Proof. reflexivity. Qed.

#[export] Hint Rewrite field_obj dict_get_obj_str py_int_JInt : craft_rw.
