(* ===== verification/JsonLoads.v ===== *)
(** * [json.loads]

    The decoder of CPython's [json] module ([json.decoder.JSONDecoder]
    with its default, strict settings), on a [str] of code points below
    256:

    - whitespace is any run of space, tab, LF and CR, before and after every token; after the
      top-level value only whitespace may follow (else "Extra data");
    - [null], [true], [false], and the extensions [NaN], [Infinity],
      [-Infinity] (all NaNs are one shared object, see [PyValue]);
    - numbers are an optional minus, then [0] or a non-zero digit and
      more digits, then an optional fraction (a dot and at least one
      digit), then an optional exponent ([e] or [E], an optional sign, at
      least one digit): an [int] when there is neither fraction nor
      exponent, else
      [float(literal)], correctly rounded ([b64_of_decimal]);
    - strings: a raw control character (below [0x20]) is an error, the
      escapes are the backslash followed by a double quote, a backslash,
      a slash, [b], [f], [n], [r], [t], or [u] and four hex digits; a [u] escape
      naming a code point above 255 (surrogates included) is outside the
      model and is decoded as an error;
    - arrays and objects; an object's keys are strings and a repeated key
      keeps its first position with its last value ([dict] insertion,
      [assoc_set]).

    Every failure is a [JSONDecodeError].  [decode_value] recurses on a
    fuel argument; [json_loads] gives it [4 * length + 4].  The lemmas
    show what the scanners consume and that on an input of [l] characters
    a value needs at most [3 * l + 2] fuel ([decode_fuel]), so the fuel
    given never cuts a decode short; every value decoded has distinct
    keys in each object ([loads_keys_distinct]).  How a repeated key is
    resolved (first position, last value) is shown in [Dump]
    ([json_loads_repeated_keys]). *)

From S2P Require Import Prelude PyStr PyFloat PyValue.
From Stdlib Require Import Ascii String.

Open Scope char_scope.

Definition dquote : ascii := ascii_of_nat 34.
Definition bslash : ascii := ascii_of_nat 92.

Definition is_json_ws (c : ascii) : bool :=
  Ascii.eqb c " " || Ascii.eqb c (ascii_of_nat 9) || Ascii.eqb c (ascii_of_nat 10)
  || Ascii.eqb c (ascii_of_nat 13).

Fixpoint skip_ws (cs : list ascii) : list ascii :=
  match cs with
  | c :: cs' => if is_json_ws c then skip_ws cs' else cs
  | [] => []
  end.

(** [Some rest] when [cs] starts with the character [c]. *)
Definition hd_is (c : ascii) (cs : list ascii) : option (list ascii) :=
  match cs with
  | d :: r => if Ascii.eqb d c then Some r else None
  | [] => None
  end.

(** [\d*] *)
Fixpoint plain_digits (acc : Z) (k : nat) (cs : list ascii) : Z * nat * list ascii :=
  match cs with
  | c :: cs' => if is_digit c then plain_digits (acc * 10 + digit_val c)%Z (S k) cs' else (acc, k, cs)
  | [] => (acc, k, [])
  end.

(** [\d+] *)
Definition plain_digits1 (cs : list ascii) : option (Z * nat * list ascii) :=
  match cs with
  | c :: cs' => if is_digit c then Some (plain_digits (digit_val c) 1 cs') else None
  | [] => None
  end.

(** The parts of the number token: an optional minus sign, [0] or a
    non-zero digit and more digits, an optional fraction, an optional
    exponent. *)
Definition scan_sign (cs : list ascii) : bool * list ascii :=
  match hd_is "-" cs with Some r => (true, r) | None => (false, cs) end.

Definition scan_int (cs : list ascii) : option (Z * list ascii) :=
  match hd_is "0" cs with
  | Some r => Some (0%Z, r)
  | None => match plain_digits1 cs with Some (v, _, r) => Some (v, r) | None => None end
  end.

Definition scan_frac (cs : list ascii) : option (Z * nat) * list ascii :=
  match hd_is "." cs with
  | Some r => match plain_digits1 r with
              | Some (fv, k, r') => (Some (fv, k), r')
              | None => (None, cs)
              end
  | None => (None, cs)
  end.

Definition scan_exp (cs : list ascii) : option Z * list ascii :=
  match cs with
  | c :: r =>
      if Ascii.eqb c "e" || Ascii.eqb c "E" then
        let '(eneg, r') := match hd_is "-" r with
                           | Some r'' => (true, r'')
                           | None => match hd_is "+" r with
                                     | Some r'' => (false, r'')
                                     | None => (false, r)
                                     end
                           end in
        match plain_digits1 r' with
        | Some (ev, _, r'') => (Some (if eneg then Z.opp ev else ev), r'')
        | None => (None, cs)
        end
      else (None, cs)
  | [] => (None, cs)
  end.

(** The number token: [Some (value, rest)] when the regular expression
    matches at the head of [cs]. *)
Definition scan_number (cs : list ascii) : option (json * list ascii) :=
  let '(neg, cs1) := scan_sign cs in
  match scan_int cs1 with
  | None => None
  | Some (iv, r1) =>
      let '(frac, r2) := scan_frac r1 in
      let '(ex, r3) := scan_exp r2 in
      match frac, ex with
      | None, None => Some (JInt (if neg then Z.opp iv else iv), r3)
      | _, _ =>
          let '(m, k) := match frac with
                         | Some (fv, n) => (iv * 10 ^ Z.of_nat n + fv, - Z.of_nat n)%Z
                         | None => (iv, 0%Z)
                         end in
          let e := match ex with Some e => e | None => 0%Z end in
          Some (JFloat (b64_of_decimal neg m (k + e)), r3)
      end
  end.

Definition hex_val (c : ascii) : option Z :=
  let n := code c in
  if ((48 <=? n) && (n <=? 57))%nat then Some (Z.of_nat (n - 48))
  else if ((97 <=? n) && (n <=? 102))%nat then Some (Z.of_nat (n - 87))
  else if ((65 <=? n) && (n <=? 70))%nat then Some (Z.of_nat (n - 55))
  else None.

Definition hex4 (a b c d : ascii) : option Z :=
  match hex_val a, hex_val b, hex_val c, hex_val d with
  | Some x, Some y, Some z, Some w => Some (((x * 16 + y) * 16 + z) * 16 + w)%Z
  | _, _, _, _ => None
  end.

(** The body of a string token after its opening quote; [acc] holds the
    characters read so far, reversed. *)
Fixpoint scan_string (acc : list ascii) (cs : list ascii) : option (string * list ascii) :=
  match cs with
  | [] => None
  | c :: r =>
      if Ascii.eqb c dquote then Some (string_of_list_ascii (rev acc), r)
      else if Ascii.eqb c bslash then
        match r with
        | e :: r' =>
            if Ascii.eqb e "u" then
              match r' with
              | a :: b :: c' :: d :: r'' =>
                  match hex4 a b c' d with
                  | Some v => if (v <? 256)%Z then scan_string (ascii_of_nat (Z.to_nat v) :: acc) r''
                              else None
                  | None => None
                  end
              | _ => None
              end
            else
              let esc := if Ascii.eqb e dquote then Some dquote
                         else if Ascii.eqb e bslash then Some bslash
                         else if Ascii.eqb e "/" then Some "/"
                         else if Ascii.eqb e "b" then Some (ascii_of_nat 8)
                         else if Ascii.eqb e "f" then Some (ascii_of_nat 12)
                         else if Ascii.eqb e "n" then Some (ascii_of_nat 10)
                         else if Ascii.eqb e "r" then Some (ascii_of_nat 13)
                         else if Ascii.eqb e "t" then Some (ascii_of_nat 9)
                         else None in
              match esc with
              | Some x => scan_string (x :: acc) r'
              | None => None
              end
        | [] => None
        end
      else if (code c <? 32)%nat then None
      else scan_string (c :: acc) r
  end.

Definition starts_with (lit : string) (cs : list ascii) : option (list ascii) :=
  let l := list_ascii_of_string lit in
  if list_eq_dec ascii_dec (firstn (List.length l) cs) l
  then Some (skipn (List.length l) cs) else None.

(** [json.loads]'s NaN and infinities. *)
Definition nan_value : json := JFloat S754_nan.

Fixpoint decode_value (fuel : nat) (cs : list ascii) {struct fuel} : option (json * list ascii) :=
  match fuel with
  | O => None
  | S f =>
      match cs with
      | c :: r =>
          if Ascii.eqb c dquote then
            match scan_string [] r with Some (s, r') => Some (JStr s, r') | None => None end
          else decode_token f cs
      | [] => None
      end
  end
(** The tokens other than strings. *)
with decode_token (fuel : nat) (cs : list ascii) {struct fuel} : option (json * list ascii) :=
  match fuel with
  | O => None
  | S f =>
      match hd_is "{" cs with
      | Some r =>
          match hd_is "}" (skip_ws r) with
          | Some r' => Some (JObj [], r')
          | None => decode_members f [] (skip_ws r)
          end
      | None =>
      match hd_is "[" cs with
      | Some r =>
          match hd_is "]" (skip_ws r) with
          | Some r' => Some (JArr [], r')
          | None => decode_elems f [] (skip_ws r)
          end
      | None =>
          match starts_with "null" cs with Some r => Some (JNull, r) | None =>
          match starts_with "true" cs with Some r => Some (JBool true, r) | None =>
          match starts_with "false" cs with Some r => Some (JBool false, r) | None =>
          match scan_number cs with Some res => Some res | None =>
          match starts_with "NaN" cs with Some r => Some (nan_value, r) | None =>
          match starts_with "Infinity" cs with Some r => Some (JFloat (S754_infinity false), r) | None =>
          match starts_with "-Infinity" cs with Some r => Some (JFloat (S754_infinity true), r) | None =>
          None end end end end end end end
      end
      end
  end
(** Array elements: a value, then a comma and more, or the closing
    bracket; [acc] is reversed. *)
with decode_elems (fuel : nat) (acc : list json) (cs : list ascii) {struct fuel}
    : option (json * list ascii) :=
  match fuel with
  | O => None
  | S f =>
      match decode_value f cs with
      | Some (v, r) =>
          match hd_is "," (skip_ws r) with
          | Some r' => decode_elems f (v :: acc) (skip_ws r')
          | None => match hd_is "]" (skip_ws r) with
                    | Some r' => Some (JArr (rev (v :: acc)), r')
                    | None => None
                    end
          end
      | None => None
      end
  end
(** Object members: ["key" : value], then [,] and more, or [}]. *)
with decode_members (fuel : nat) (acc : list (string * json)) (cs : list ascii) {struct fuel}
    : option (json * list ascii) :=
  match fuel with
  | O => None
  | S f =>
      match cs with
      | c :: r =>
          if negb (Ascii.eqb c dquote) then None else
          match scan_string [] r with
          | Some (k, r1) =>
              match hd_is ":" (skip_ws r1) with
              | Some r2 =>
                  match decode_value f (skip_ws r2) with
                  | Some (v, r3) =>
                      let acc' := assoc_set k v acc in
                      match hd_is "," (skip_ws r3) with
                      | Some r4 => decode_members f acc' (skip_ws r4)
                      | None => match hd_is "}" (skip_ws r3) with
                                | Some r4 => Some (JObj acc', r4)
                                | None => None
                                end
                      end
                  | None => None
                  end
              | None => None
              end
          | None => None
          end
      | _ => None
      end
  end.

(** [json.loads(s)] for a [str] [s]. *)
Definition json_loads_str (s : string) : py json :=
  let cs := list_ascii_of_string s in
  match decode_value (4 * List.length cs + 4) (skip_ws cs) with
  | Some (v, r) => match skip_ws r with [] => Ok v | _ => raise JSONDecodeError end
  | None => raise JSONDecodeError
  end.

(** [json.loads(v)] for any decoded value [v]: only a [str] is accepted. *)
Definition json_loads (v : json) : py json :=
  match v with
  | JStr s => json_loads_str s
  | _ => raise TypeError
  end.

(** What may follow a number token without being read as part of it. *)
Definition num_stop (rest : list ascii) : Prop :=
  match rest with
  | [] => True
  | c :: _ => is_digit c = false /\ c <> "." /\ c <> "e" /\ c <> "E" /\ c <> "-" /\ c <> "+"
  end.

(** The characters a JSON document can start with, after whitespace. *)
Definition json_start (c : ascii) : bool :=
  Ascii.eqb c dquote || Ascii.eqb c "{" || Ascii.eqb c "[" || Ascii.eqb c "n"
  || Ascii.eqb c "t" || Ascii.eqb c "f" || Ascii.eqb c "N" || Ascii.eqb c "I"
  || Ascii.eqb c "-" || is_digit c.

(** Every object in [v], at any depth, has distinct keys: a [dict]. *)
Fixpoint nodup_keys (l : list string) : bool :=
  match l with
  | [] => true
  | k :: l' => negb (existsb (String.eqb k) l') && nodup_keys l'
  end.

Fixpoint keys_distinct (v : json) : bool :=
  match v with
  | JArr xs => forallb keys_distinct xs
  | JObj kvs => nodup_keys (map fst kvs) && forallb (fun kv => keys_distinct (snd kv)) kvs
  | _ => true
  end.

(** The fuel each decoder needs on an input of length [l], and that what
    is left is no longer than the input: the invariant of the proof that
    [json_loads]'s fuel is enough. *)
Definition fuel_bound_value (m : nat) : Prop :=
  forall cs v r, decode_value m cs = Some (v, r) ->
  (List.length r <= List.length cs)%nat /\
  forall n, (3 * List.length cs + 2 <= n)%nat -> decode_value n cs = Some (v, r).

Definition fuel_bound_token (m : nat) : Prop :=
  forall cs v r, decode_token m cs = Some (v, r) ->
  (List.length r <= List.length cs)%nat /\
  forall n, (3 * List.length cs + 1 <= n)%nat -> decode_token n cs = Some (v, r).

Definition fuel_bound_elems (m : nat) : Prop :=
  forall acc cs v r, decode_elems m acc cs = Some (v, r) ->
  (List.length r <= List.length cs)%nat /\
  forall n, (3 * List.length cs + 3 <= n)%nat -> decode_elems n acc cs = Some (v, r).

Definition fuel_bound_members (m : nat) : Prop :=
  forall acc cs v r, decode_members m acc cs = Some (v, r) ->
  (List.length r <= List.length cs)%nat /\
  forall n, (3 * List.length cs + 3 <= n)%nat -> decode_members n acc cs = Some (v, r).

(** * Lemmas *)

Lemma hd_is_head d c cs r : hd_is d (c :: cs) = Some r -> c = d.
Proof. simpl. destruct (Ascii.eqb_spec c d); congruence. Qed.

Lemma starts_with_head d l c cs r : starts_with (String d l) (c :: cs) = Some r -> c = d.
Proof.
  unfold starts_with. destruct list_eq_dec as [E|]; [|discriminate].
  simpl in E. now injection E.
Qed.

Lemma plain_digits1_head c cs p : plain_digits1 (c :: cs) = Some p -> is_digit c = true.
Proof. simpl. now destruct (is_digit c). Qed.

Lemma scan_number_head c cs p :
  scan_number (c :: cs) = Some p -> (Ascii.eqb c "-" || is_digit c) = true.
Proof.
  unfold scan_number, scan_sign, scan_int.
  destruct (hd_is "-" (c :: cs)) eqn:E1.
  { apply hd_is_head in E1. subst. reflexivity. }
  destruct (hd_is "0" (c :: cs)) eqn:E2.
  { apply hd_is_head in E2. subst. reflexivity. }
  destruct (plain_digits1 (c :: cs)) as [[[v k] r]|] eqn:E3; [|discriminate].
  apply plain_digits1_head in E3. now rewrite E3, orb_true_r.
Qed.

Lemma decode_value_head n c cs p : decode_value n (c :: cs) = Some p -> json_start c = true.
Proof.
  unfold json_start.
  destruct n as [|[|n]]; cbn [decode_value decode_token]; [discriminate| |].
  all: destruct (Ascii.eqb c dquote); [reflexivity|]; cbn [orb]; try discriminate.
  destruct (hd_is "{" (c :: cs)) eqn:E; [apply hd_is_head in E; now subst|].
  destruct (hd_is "[" (c :: cs)) eqn:E'; [apply hd_is_head in E'; now subst|].
  repeat match goal with
  | |- context [starts_with (String ?d ?l) (c :: cs)] =>
      let E := fresh in
      destruct (starts_with (String d l) (c :: cs)) eqn:E;
      [apply starts_with_head in E; subst; intros _; reflexivity|]
  | |- context [scan_number (c :: cs)] =>
      let E := fresh in
      destruct (scan_number (c :: cs)) eqn:E;
      [apply scan_number_head in E; intros _;
       destruct (Ascii.eqb c "-"), (is_digit c); try discriminate; now rewrite ?orb_true_r|]
  end.
  discriminate.
Qed.

(** A text that [json.loads] accepts starts, after whitespace, with one of
    the characters of [json_start]. *)
Lemma json_loads_str_head c t v :
  is_json_ws c = false -> json_loads_str (String c t) = Ok v -> json_start c = true.
Proof.
  unfold json_loads_str. intros Hws. cbn [list_ascii_of_string skip_ws]. rewrite Hws.
  match goal with |- context [decode_value ?n (c :: ?r)] =>
    destruct (decode_value n (c :: r)) as [[w r']|] eqn:E; [|discriminate] end.
  intros _. eapply decode_value_head; exact E.
Qed.

Lemma is_json_ws_isspace c : is_json_ws c = true -> py_isspace c = true.
Proof.
  unfold is_json_ws.
  repeat match goal with
  | |- context [Ascii.eqb c ?d] => destruct (Ascii.eqb_spec c d) as [->|]; [intros _; reflexivity|]
  end.
  cbn. intros Hn; discriminate Hn.
Qed.

(** The first character of an accepted stripped text starts a JSON value. *)
Lemma json_loads_strip_head s c t v :
  strip s = String c t -> json_loads_str (strip s) = Ok v -> json_start c = true.
Proof.
  intros Hs Hv. rewrite Hs in Hv. apply json_loads_str_head with t v; [|exact Hv].
  destruct (is_json_ws c) eqn:E; [|reflexivity].
  apply is_json_ws_isspace in E. now rewrite (strip_first _ _ _ Hs) in E.
Qed.

(** ** What the scanners consume *)

Lemma skip_ws_length cs : (List.length (skip_ws cs) <= List.length cs)%nat.
Proof. induction cs as [|c cs IH]; simpl; [lia|]. destruct (is_json_ws c); simpl; lia. Qed.

Lemma hd_is_length c cs r : hd_is c cs = Some r -> List.length cs = S (List.length r).
Proof. destruct cs; simpl; [discriminate|]. destruct (Ascii.eqb a c); congruence. Qed.

Lemma plain_digits_length acc k cs a k' r :
  plain_digits acc k cs = (a, k', r) -> (List.length r <= List.length cs)%nat.
Proof.
  revert acc k. induction cs as [|c cs IH]; intros acc k; simpl.
  - intros H. injection H as _ _ <-. simpl. lia.
  - destruct (is_digit c); intros H; [apply IH in H; lia|].
    injection H as _ _ <-. simpl. lia.
Qed.

Lemma plain_digits1_length cs a k r :
  plain_digits1 cs = Some (a, k, r) -> (List.length r < List.length cs)%nat.
Proof.
  destruct cs as [|c cs]; simpl; [discriminate|]. destruct (is_digit c); [|discriminate].
  intros [= H]. apply plain_digits_length in H. lia.
Qed.

Lemma starts_with_length lit cs r :
  starts_with lit cs = Some r -> (List.length r + String.length lit = List.length cs)%nat.
Proof.
  unfold starts_with. destruct list_eq_dec as [E|]; [|discriminate]. intros [= <-].
  rewrite <- (firstn_skipn (List.length (list_ascii_of_string lit)) cs) at 2.
  rewrite E, List.length_app, list_ascii_of_string_length. lia.
Qed.

Lemma scan_string_length acc cs s r :
  scan_string acc cs = Some (s, r) -> (List.length r < List.length cs)%nat.
Proof.
  revert acc. induction cs as [cs IH] using (induction_ltof1 _ (@List.length ascii)).
  unfold ltof in IH. intros acc H. destruct cs as [|c cs]; simpl in H; [discriminate|].
  destruct_match_in H; try discriminate.
  all: try (injection H as _ <-; simpl; lia).
  all: subst; eapply IH in H; [simpl in *; lia | simpl; lia].
Qed.

Ltac scan_lengths :=
  repeat match goal with
  | H : hd_is _ _ = Some _ |- _ => apply hd_is_length in H
  | H : plain_digits1 _ = Some (_, _, _) |- _ => apply plain_digits1_length in H
  end.

Lemma scan_number_length cs v r :
  scan_number cs = Some (v, r) -> (List.length r < List.length cs)%nat.
Proof.
  unfold scan_number, scan_sign, scan_int, scan_frac, scan_exp. intros H.
  destruct_match_in H; try discriminate.
  all: simplify_eq; scan_lengths; simpl in *; lia.
Qed.

(** ** The fuel of [json_loads] is enough *)

Ltac skip_ws_fact r :=
  lazymatch goal with
  | _ : (List.length (skip_ws r) <= _)%nat |- _ => fail
  | _ => pose proof (skip_ws_length r)
  end.

Ltac lengths :=
  repeat match goal with
  | H : hd_is _ _ = Some _ |- _ => apply hd_is_length in H
  | H : starts_with _ _ = Some _ |- _ => apply starts_with_length in H
  | H : scan_number _ = Some (_, _) |- _ => apply scan_number_length in H
  | H : scan_string _ _ = Some (_, _) |- _ => apply scan_string_length in H
  | |- context [skip_ws ?r] => skip_ws_fact r
  | _ : context [skip_ws ?r] |- _ => skip_ws_fact r
  end; simpl in *.

(** Rewrite the scrutinees of a decoder's dispatch with their equations. *)
Ltac replay :=
  repeat match goal with
  | E : ?a = _ |- context [?a] => rewrite E
  end.

Section FuelStep.
Variable m : nat.

Lemma fuel_value_step : fuel_bound_token m -> fuel_bound_value (S m).
Proof.
  intros IHt [|c cs] v r H; [discriminate|]. cbn [decode_value] in H.
  destruct (Ascii.eqb c dquote) eqn:Q.
  - destruct (scan_string [] cs) as [[s r0]|] eqn:S; [|discriminate].
    injection H as <- <-. split; [lengths; lia|].
    intros [|n] Hn; [lia|]. cbn [decode_value]. now rewrite Q, S.
  - apply IHt in H as [Hl Hf]. split; [exact Hl|].
    intros [|n] Hn; [lia|]. cbn [decode_value]. rewrite Q. apply Hf. lia.
Qed.

Lemma fuel_token_step : fuel_bound_elems m -> fuel_bound_members m -> fuel_bound_token (S m).
Proof.
  intros IHe IHm cs v r H. cbn [decode_token] in H.
  destruct (hd_is "{" cs) as [r0|] eqn:E1.
  { destruct (hd_is "}" (skip_ws r0)) as [r1|] eqn:E2.
    - injection H as <- <-. split; [|intros [|n] Hn; [lia|]; cbn [decode_token]; now replay].
      lengths. lia.
    - apply IHm in H as [Hl Hf]. split; [lengths; lia|].
      intros [|n] Hn; [lia|]. cbn [decode_token]. replay. apply Hf. lengths. lia. }
  destruct (hd_is "[" cs) as [r0|] eqn:E3.
  { destruct (hd_is "]" (skip_ws r0)) as [r1|] eqn:E4.
    - injection H as <- <-. split; [|intros [|n] Hn; [lia|]; cbn [decode_token]; now replay].
      lengths. lia.
    - apply IHe in H as [Hl Hf]. split; [lengths; lia|].
      intros [|n] Hn; [lia|]. cbn [decode_token]. replay. apply Hf. lengths. lia. }
  destruct_match_in H; try discriminate; simplify_eq.
  all: split; [lengths; lia|intros [|n] Hn; [lia|]; cbn [decode_token]; now replay].
Qed.

Lemma fuel_elems_step : fuel_bound_value m -> fuel_bound_elems m -> fuel_bound_elems (S m).
Proof.
  intros IHv IHe acc cs v r H. cbn [decode_elems] in H.
  destruct (decode_value m cs) as [[w r0]|] eqn:D; [|discriminate].
  apply IHv in D as [L0 F0].
  destruct (hd_is "," (skip_ws r0)) as [r1|] eqn:E1.
  - apply IHe in H as [L1 F1]. split; [lengths; lia|].
    intros [|n] Hn; [lia|]. cbn [decode_elems]. rewrite (F0 n) by lia. replay.
    apply F1. lengths. lia.
  - destruct (hd_is "]" (skip_ws r0)) as [r1|] eqn:E2; [|discriminate].
    injection H as <- <-. split; [lengths; lia|].
    intros [|n] Hn; [lia|]. cbn [decode_elems]. rewrite (F0 n) by lia. now replay.
Qed.

Lemma fuel_members_step : fuel_bound_value m -> fuel_bound_members m -> fuel_bound_members (S m).
Proof.
  intros IHv IHm acc [|c cs] v r H; [discriminate|]. cbn [decode_members] in H.
  destruct (negb (Ascii.eqb c dquote)) eqn:Q; [discriminate|].
  destruct (scan_string [] cs) as [[k r1]|] eqn:S; [|discriminate].
  destruct (hd_is ":" (skip_ws r1)) as [r2|] eqn:E1; [|discriminate].
  destruct (decode_value m (skip_ws r2)) as [[w r3]|] eqn:D; [|discriminate].
  apply IHv in D as [L3 F3].
  destruct (hd_is "," (skip_ws r3)) as [r4|] eqn:E2.
  - apply IHm in H as [L4 F4]. split; [lengths; lia|].
    intros [|n] Hn; [lia|]. cbn [decode_members]. rewrite Q, S, E1.
    rewrite (F3 n) by (lengths; lia). replay. apply F4. lengths. lia.
  - destruct (hd_is "}" (skip_ws r3)) as [r4|] eqn:E3; [|discriminate].
    injection H as <- <-. split; [lengths; lia|].
    intros [|n] Hn; [lia|]. cbn [decode_members]. rewrite Q, S, E1.
    rewrite (F3 n) by (lengths; lia). now replay.
Qed.

End FuelStep.

Lemma decode_fuel m :
  fuel_bound_value m /\ fuel_bound_token m /\ fuel_bound_elems m /\ fuel_bound_members m.
Proof.
  induction m as [|m (IHv & IHt & IHe & IHm)].
  - repeat split; intros *; discriminate.
  - split; [|split; [|split]].
    + now apply fuel_value_step.
    + now apply fuel_token_step.
    + now apply fuel_elems_step.
    + now apply fuel_members_step.
Qed.

(** ** Decoded objects are dictionaries *)

Lemma nodup_keys_spec l : nodup_keys l = true <-> List.NoDup l.
Proof.
  induction l as [|k l IH]; simpl; [split; [constructor|reflexivity]|].
  rewrite andb_true_iff, negb_true_iff, IH. split.
  - intros [Hn Hd]. constructor; [|exact Hd]. intros Hin.
    assert (existsb (String.eqb k) l = true) by (apply existsb_exists; eauto using String.eqb_refl).
    congruence.
  - intros Hd. inversion Hd as [|? ? Hn Hd']; subst. split; [|exact Hd'].
    destruct (existsb (String.eqb k) l) eqn:E; [|reflexivity].
    apply existsb_exists in E as (k' & Hin & ->%String.eqb_eq). contradiction.
Qed.

Lemma keys_distinct_obj_set k v kvs :
  keys_distinct (JObj kvs) = true -> keys_distinct v = true ->
  keys_distinct (JObj (assoc_set k v kvs)) = true.
Proof.
  simpl. rewrite !andb_true_iff, !nodup_keys_spec, !forallb_forall. intros [Hnd Hf] Hv.
  split; [now apply assoc_set_NoDup|].
  assert (HF : Forall (fun kv => keys_distinct (snd kv) = true) (assoc_set k v kvs)).
  { apply (assoc_set_Forall (fun x => keys_distinct x = true)); [exact Hv|].
    apply Forall_forall. exact Hf. }
  rewrite Forall_forall in HF. exact HF.
Qed.

Lemma keys_distinct_arr_rev v acc :
  forallb keys_distinct acc = true -> keys_distinct v = true ->
  keys_distinct (JArr (rev (v :: acc))) = true.
Proof.
  intros Ha Hv. cbn [keys_distinct]. apply forallb_forall. intros x Hx.
  apply in_rev in Hx. destruct Hx as [<- | Hx]; [exact Hv|].
  exact (proj1 (forallb_forall _ _) Ha x Hx).
Qed.

Lemma scan_number_keys_distinct cs v r : scan_number cs = Some (v, r) -> keys_distinct v = true.
Proof.
  unfold scan_number, scan_sign, scan_int, scan_frac, scan_exp. intros H.
  destruct_match_in H; simplify_eq; reflexivity.
Qed.

Lemma decode_keys_distinct m :
  (forall cs v r, decode_value m cs = Some (v, r) -> keys_distinct v = true) /\
  (forall cs v r, decode_token m cs = Some (v, r) -> keys_distinct v = true) /\
  (forall acc cs v r, decode_elems m acc cs = Some (v, r) ->
     forallb keys_distinct acc = true -> keys_distinct v = true) /\
  (forall acc cs v r, decode_members m acc cs = Some (v, r) ->
     keys_distinct (JObj acc) = true -> keys_distinct v = true).
Proof.
  induction m as [|m (IHv & IHt & IHe & IHm)]; [repeat split; intros *; discriminate|].
  repeat split.
  - intros cs v r H. cbn [decode_value] in H. destruct_match_in H; simplify_eq; eauto.
  - intros cs v r H. cbn [decode_token] in H. destruct_match_in H; simplify_eq; eauto.
    all: first [reflexivity | now apply (IHm [] _ _ _ E1) | now apply (IHe [] _ _ _ E1)
               | eapply scan_number_keys_distinct; eassumption].
  - intros acc cs v r H Ha. cbn [decode_elems] in H. destruct_match_in H; simplify_eq.
    + apply (IHe _ _ _ _ H). simpl. rewrite (IHv _ _ _ E). exact Ha.
    + apply keys_distinct_arr_rev; [exact Ha | exact (IHv _ _ _ E)].
  - intros acc cs v r H Ha. cbn [decode_members] in H. destruct_match_in H; simplify_eq.
    all: match goal with E : decode_value _ _ = Some (_, _) |- _ => pose proof (IHv _ _ _ E) end.
    + eapply IHm; [exact H | now apply keys_distinct_obj_set].
    + now apply keys_distinct_obj_set.
Qed.

Lemma loads_keys_distinct s v : json_loads_str s = Ok v -> keys_distinct v = true.
Proof.
  unfold json_loads_str.
  destruct (decode_value _ _) as [[w r]|] eqn:D; [|discriminate].
  destruct (skip_ws r); [|discriminate]. intros [= <-].
  exact (proj1 (decode_keys_distinct _) _ _ _ D).
Qed.

(** ** The number scanner reads no further than the number *)

Lemma hd_is_app c cs rest :
  hd_is c rest = None -> hd_is c (cs ++ rest) = option_map (fun r => r ++ rest) (hd_is c cs).
Proof.
  destruct cs as [|d cs]; simpl; [intros ->; reflexivity|]. intros _.
  destruct (Ascii.eqb d c); reflexivity.
Qed.

Lemma num_stop_hd c rest :
  num_stop rest -> (c = "-" \/ c = "+" \/ c = "." \/ c = "0") -> hd_is c rest = None.
Proof.
  destruct rest as [|d r]; simpl; [reflexivity|]. intros (Hd & H1 & H2 & H3 & H4 & H5) Hc.
  destruct (Ascii.eqb_spec d c) as [->|]; [exfalso|reflexivity].
  destruct Hc as [-> | [-> | [-> | ->]]]; try contradiction. discriminate Hd.
Qed.

Ltac num_stop_hd := apply num_stop_hd; [assumption | tauto].

Lemma plain_digits_app a k cs rest :
  num_stop rest -> plain_digits a k (cs ++ rest) = let '(a', k', r) := plain_digits a k cs in (a', k', r ++ rest).
Proof.
  intros Hs. revert a k. induction cs as [|c cs IH]; intros a k; simpl.
  - destruct rest as [|d r]; [reflexivity|]. destruct Hs as [Hd _]. simpl. now rewrite Hd.
  - destruct (is_digit c); [apply IH | reflexivity].
Qed.

Lemma plain_digits1_app cs rest :
  num_stop rest -> plain_digits1 (cs ++ rest) = option_map (fun '(a, k, r) => (a, k, r ++ rest)) (plain_digits1 cs).
Proof.
  intros Hs. destruct cs as [|c cs]; simpl.
  - destruct rest as [|d r]; [reflexivity|]. destruct Hs as [Hd _]. simpl. now rewrite Hd.
  - destruct (is_digit c); [|reflexivity]. rewrite plain_digits_app by exact Hs.
    now destruct (plain_digits _ _ cs) as [[? ?] ?].
Qed.

Section NumStop.
Variable rest : list ascii.
Hypothesis Hs : num_stop rest.

Lemma scan_sign_app cs : scan_sign (cs ++ rest) = let '(n, c1) := scan_sign cs in (n, c1 ++ rest).
Proof. unfold scan_sign. rewrite hd_is_app by num_stop_hd. now destruct (hd_is "-" cs). Qed.

Lemma scan_int_app cs : scan_int (cs ++ rest) = option_map (fun '(v, r) => (v, r ++ rest)) (scan_int cs).
Proof.
  unfold scan_int. rewrite hd_is_app by num_stop_hd. rewrite plain_digits1_app by exact Hs.
  destruct (hd_is "0" cs); [reflexivity|]. now destruct (plain_digits1 cs) as [[[? ?] ?]|].
Qed.

Lemma scan_frac_app cs : scan_frac (cs ++ rest) = let '(fr, r) := scan_frac cs in (fr, r ++ rest).
Proof.
  unfold scan_frac. rewrite hd_is_app by num_stop_hd.
  destruct (hd_is "." cs) as [r|]; cbn [option_map]; [|reflexivity].
  rewrite plain_digits1_app by exact Hs. now destruct (plain_digits1 r) as [[[? ?] ?]|].
Qed.

Lemma scan_exp_app cs : scan_exp (cs ++ rest) = let '(ex, r) := scan_exp cs in (ex, r ++ rest).
Proof.
  destruct cs as [|c r]; simpl.
  - destruct rest as [|d r']; [reflexivity|]. destruct Hs as (_ & _ & He & HE & _). simpl.
    destruct (Ascii.eqb_spec d "e"); [contradiction|]. destruct (Ascii.eqb_spec d "E"); [contradiction|].
    reflexivity.
  - destruct (Ascii.eqb c "e" || Ascii.eqb c "E"); [|reflexivity].
    rewrite (hd_is_app "-"), (hd_is_app "+") by num_stop_hd.
    destruct (hd_is "-" r) as [r1|]; cbn [option_map];
      [|destruct (hd_is "+" r) as [r1|]; cbn [option_map]];
      rewrite plain_digits1_app by exact Hs; now destruct (plain_digits1 _) as [[[? ?] ?]|].
Qed.

Lemma scan_number_app cs :
  scan_number (cs ++ rest) = option_map (fun '(v, r) => (v, r ++ rest)) (scan_number cs).
Proof.
  unfold scan_number. rewrite scan_sign_app. destruct (scan_sign cs) as [neg cs1].
  rewrite scan_int_app. destruct (scan_int cs1) as [[iv r1]|]; [|reflexivity]. cbn [option_map].
  rewrite scan_frac_app. destruct (scan_frac r1) as [fr r2].
  rewrite scan_exp_app. destruct (scan_exp r2) as [ex r3].
  destruct fr as [[fv n]|], ex; reflexivity.
Qed.

End NumStop.
