(* ===== verification/BaseGroups.v ===== *)
(** * The group dictionary and its first three stages

    [base_groups] maps a base identifier (a [str] key of
    [poec_lang["base"]]) to a dictionary with the keys [base_group],
    [items], [prefixes], [suffixes] and, once a base record names it,
    [base_type] and [bgroup].  The stages fill the dictionaries in place;
    here a group is the record [BaseGroup] (an absent key is [None]) and
    the dictionary is [Groups], an association list in insertion order.
    Affixes and tiers, built by [Modifiers], are the records [Affix] and
    [Tier].

    Stages of this file (lines of [scrapper.py]):
    - [custom_base_groups] (4-33), the rename table, and [rename_base]
      (the conditional expression of line 58);
    - [parse_base_groups] (54-63): one fresh group per entry of
      [poec_lang["base"]];
    - [parse_items] (65-69) with its loop body [parse_items_step];
    - [parse_bases_and_groups] (71-76) with [parse_bases_step].

    [seq_of] is the sequence [d[name]["seq"]] both loops iterate.  The
    specification side names what a loop contributes: [of_base k] selects
    the records of group [k], [item_name] and [base_info] are the values
    lines 69 and 75-76 compute for a record, [renamed] the name line 58
    stores, [heads] the ids with their names.

    Theorems: [parse_base_groups] creates one fresh, renamed group per
    entry, in order ([parse_base_groups_functional]); [parse_items]
    appends to each group the names of exactly its items, in sequence
    order ([parse_items_functional]); [parse_bases_and_groups] takes the
    fields of the last record naming a group ([parse_bases_functional]);
    no stage of this file changes the ids or names ([heads]),
    and a record whose [id_base] is not a key is skipped without
    raising. *)

From S2P Require Import Prelude PyStr PyFloat PyValue JsonLoads.
From Stdlib Require Import String.

Open Scope string_scope.

(** ** Data *)

(** A tier dictionary: ["tier"], ["ilvl"], ["weighting"], ["values"] (the
    [{"Min", "Max"}] pairs), ["float"] (absent when no value was seen),
    and the two percentages written by [calculate_percentages]. *)
Record Tier := {
  tier : string;
  ilvl : Z;
  weighting : Z;
  values : list (json * json);
  float : option bool;
  affix_percent : option json;
  weight_percent : option json
}.

(** An affix dictionary: ["description"], ["mod_groups"], ["tiers"]. *)
Record Affix := {
  description : json;
  mod_groups : list json;
  tiers : list Tier
}.

(** A group dictionary. *)
Record BaseGroup := {
  base_group : json;
  items : list json;
  prefixes : list Affix;
  suffixes : list Affix;
  base_type : option json;
  bgroup : option json
}.

Abbreviation Groups := (list (string * BaseGroup)).

(** [base_id in base_groups] *)
Definition group_mem (gs : Groups) (base_id : json) : py (option string) :=
  let* k := str_key base_id in
  match k with
  | Some s => Ok (match assoc_lookup s gs with Some _ => Some s | None => None end)
  | None => Ok None
  end.

(** ** The rename table *)

Definition custom_base_groups : list (string * string) := [
  ("Gloves (DEX)", "glove_dex_armour");
  ("Gloves (DEX/INT)", "glove_dex_int_armour");
  ("Gloves (INT)", "glove_int_armour");
  ("Gloves (STR)", "glove_str_armour");
  ("Gloves (STR/DEX)", "glove_str_dex_armour");
  ("Gloves (STR/INT)", "glove_str_int_armour");
  ("Helmet (DEX)", "helmet_dex_armour");
  ("Helmet (DEX/INT)", "helmet_dex_int_armour");
  ("Helmet (INT)", "helmet_int_armour");
  ("Helmet (STR)", "helmet_str_armour");
  ("Helmet (STR/DEX)", "helmet_str_dex_armour");
  ("Helmet (STR/INT)", "helmet_str_int_armour");
  ("Shield (DEX)", "shield_dex_armour");
  ("Shield (STR)", "shield_str_armour");
  ("Shield (STR/DEX)", "shield_str_dex_armour");
  ("Shield (STR/INT)", "shield_str_int_armour");
  ("Body Armour (DEX)", "body_armour_dex_armour");
  ("Body Armour (DEX/INT)", "body_armour_dex_int_armour");
  ("Body Armour (INT)", "body_armour_int_armour");
  ("Body Armour (STR)", "body_armour_str_armour");
  ("Body Armour (STR/DEX)", "body_armour_str_dex_armour");
  ("Body Armour (STR/INT)", "body_armour_str_int_armour");
  ("Boots (DEX)", "boot_dex_armour");
  ("Boots (DEX/INT)", "boot_dex_int_armour");
  ("Boots (INT)", "boot_int_armour");
  ("Boots (STR)", "boot_str_armour");
  ("Boots (STR/DEX)", "boot_str_dex_armour");
  ("Boots (STR/INT)", "boot_str_int_armour")
].

(** [custom_base_groups[base_name] if base_name in custom_base_groups
    else base_name] *)
Definition rename_base (base_name : json) : py json :=
  let* k := str_key base_name in
  match k with
  | Some s => Ok (match assoc_lookup s custom_base_groups with
                  | Some r => JStr r
                  | None => base_name
                  end)
  | None => Ok base_name
  end.

(** ** [parse_base_groups] *)

Definition new_group (base_name : json) : py BaseGroup :=
  let* bg := rename_base base_name in
  Ok {| base_group := bg; items := []; prefixes := []; suffixes := [];
        base_type := None; bgroup := None |}.

Definition parse_base_groups (poec_lang : json) : py Groups :=
  let* base := field poec_lang "base" in
  let* entries := dict_items base in
  res_fold (fun gs '(base_id, base_name) =>
              let* g := new_group base_name in Ok (assoc_set base_id g gs))
           [] entries.

(** ** [parse_items] *)

(** The sequence [d[name]["seq"]] the loops of lines 66 and 72 iterate. *)
Definition seq_of (d : json) (name : string) : py (list json) :=
  let* b := field d name in
  let* sq := field b "seq" in
  py_iter sq.

Definition add_item (name : json) (g : BaseGroup) : BaseGroup :=
  {| base_group := base_group g; items := (items g ++ [name])%list; prefixes := prefixes g;
     suffixes := suffixes g; base_type := base_type g; bgroup := bgroup g |}.

Definition parse_items_step (poec_lang : json) (gs : Groups) (item : json) : py Groups :=
  let* base_id := field item "id_base" in
  let* k := group_mem gs base_id in
  match k with
  | Some s =>
      let* bitem := field poec_lang "bitem" in
      let* kvs := as_dict bitem in
      let* id_bitem := field item "id_bitem" in
      let* name := get_in kvs id_bitem (JStr "Unknown Item") in
      Ok (assoc_alter (add_item name) s gs)
  | None => Ok gs
  end.

Definition parse_items (poec_data poec_lang : json) (gs : Groups) : py Groups :=
  let* xs := seq_of poec_data "bitems" in
  res_fold (parse_items_step poec_lang) gs xs.

(** ** [parse_bases_and_groups] *)

Definition set_base_type (v : json) (g : BaseGroup) : BaseGroup :=
  {| base_group := base_group g; items := items g; prefixes := prefixes g;
     suffixes := suffixes g; base_type := Some v; bgroup := bgroup g |}.

Definition set_bgroup (v : json) (g : BaseGroup) : BaseGroup :=
  {| base_group := base_group g; items := items g; prefixes := prefixes g;
     suffixes := suffixes g; base_type := base_type g; bgroup := Some v |}.

Definition parse_bases_step (poec_lang : json) (gs : Groups) (base : json) : py Groups :=
  let* base_id := field base "id_base" in
  let* k := group_mem gs base_id in
  match k with
  | Some s =>
      let* bkvs := as_dict base in
      let* bt := get_in bkvs (JStr "base_type") (JStr "unknown") in
      let gs1 := assoc_alter (set_base_type bt) s gs in
      let* bgroups := field poec_lang "bgroup" in
      let* gkvs := as_dict bgroups in
      let* id_bgroup := field base "id_bgroup" in
      let* bg := get_in gkvs id_bgroup (JStr "Unknown Group") in
      Ok (assoc_alter (set_bgroup bg) s gs1)
  | None => Ok gs
  end.

Definition parse_bases_and_groups (poec_data poec_lang : json) (gs : Groups) : py Groups :=
  let* xs := seq_of poec_data "bases" in
  res_fold (parse_bases_step poec_lang) gs xs.

(** ** Specification side *)

(** The group name line 58 stores for a [base] entry named [n]. *)
Definition renamed (n : json) : json :=
  match n with
  | JStr s => match assoc_lookup s custom_base_groups with Some r => JStr r | None => n end
  | _ => n
  end.

(** A fresh group: the renamed name and nothing else. *)
Definition fresh_group_of (n : json) (g : BaseGroup) : Prop :=
  base_group g = renamed n /\ items g = [] /\ prefixes g = [] /\ suffixes g = []
  /\ base_type g = None /\ bgroup g = None.

(** The records (items, bases) whose [id_base] is the group id [k]. *)
Definition of_base (k : string) (x : json) : bool :=
  match field x "id_base" with Ok (JStr s) => String.eqb s k | _ => false end.

(** The name line 69 appends for an item. *)
Definition item_name (poec_lang x : json) : py json :=
  let* bitem := field poec_lang "bitem" in
  let* kvs := as_dict bitem in
  let* id_bitem := field x "id_bitem" in
  get_in kvs id_bitem (JStr "Unknown Item").

Definition with_items (l : list json) (g : BaseGroup) : BaseGroup :=
  {| base_group := base_group g; items := l; prefixes := prefixes g;
     suffixes := suffixes g; base_type := base_type g; bgroup := bgroup g |}.

(** What lines 75-76 assign for a base record. *)
Definition base_info (poec_lang x : json) : py (json * json) :=
  let* bkvs := as_dict x in
  let* bt := get_in bkvs (JStr "base_type") (JStr "unknown") in
  let* bgroups := field poec_lang "bgroup" in
  let* gkvs := as_dict bgroups in
  let* id_bgroup := field x "id_bgroup" in
  let* bg := get_in gkvs id_bgroup (JStr "Unknown Group") in
  Ok (bt, bg).

Definition ex_item (base bitem : string) : json := JObj [("id_base", JStr base); ("id_bitem", JStr bitem)].

Definition ex_items_data : json :=
  JObj [("bitems", JObj [("seq", JArr [ex_item "1" "10"; ex_item "2" "11"; ex_item "1" "12";
                                      ex_item "3" "13"])])].

Definition ex_items_lang : json :=
  JObj [("base", JObj [("1", JStr "Gloves (STR)"); ("2", JStr "Ring")]);
        ("bitem", JObj [("10", JStr "Iron Gauntlets"); ("11", JStr "Iron Ring")]);
        ("bgroup", JObj [("5", JStr "Armour"); ("6", JStr "Jewellery")])].

Definition ex_bases_data : json :=
  JObj [("bases", JObj [("seq", JArr [
    JObj [("id_base", JStr "1"); ("id_bgroup", JStr "6"); ("base_type", JStr "ring")];
    JObj [("id_base", JStr "2"); ("id_bgroup", JStr "6")];
    JObj [("id_base", JStr "1"); ("id_bgroup", JStr "5"); ("base_type", JStr "gloves")];
    JObj [("id_base", JStr "4"); ("id_bgroup", JStr "7")]])])].

(** ** Lemmas *)

Definition keys (gs : Groups) : list string := map fst gs.

(** The ids with the group names: what no stage after [parse_base_groups]
    changes. *)
Definition heads (gs : Groups) : list (string * json) :=
  map (fun kg => (fst kg, base_group (snd kg))) gs.

Lemma group_mem_Some gs v s : group_mem gs v = Ok (Some s) -> v = JStr s /\ In s (keys gs).
Proof.
  unfold group_mem. intros H. destruct v; simpl in H; try discriminate H.
  destruct (assoc_lookup s0 gs) as [g|] eqn:E; [injection H as <- | discriminate H].
  split; [reflexivity|]. apply assoc_lookup_In in E. unfold keys. apply in_map_iff.
  exists (s0, g). split; [reflexivity | exact E].
Qed.

Lemma group_mem_None gs s : ~ In s (keys gs) -> group_mem gs (JStr s) = Ok None.
Proof.
  unfold group_mem; simpl. intros Hn. rewrite (proj2 (assoc_lookup_None s gs) Hn). reflexivity.
Qed.

Lemma keys_heads gs : keys gs = map fst (heads gs).
Proof. unfold keys, heads. now rewrite map_map. Qed.

(** A step that keeps the names keeps the keys. *)
Lemma heads_keys gs gs' : heads gs' = heads gs -> keys gs' = keys gs.
Proof. rewrite !keys_heads. congruence. Qed.

Lemma parse_items_step_heads poec_lang gs item gs' :
  parse_items_step poec_lang gs item = Ok gs' -> heads gs' = heads gs.
Proof.
  unfold parse_items_step. intros H. res_inv.
  destruct x0; res_inv; subst; [apply assoc_alter_proj; reflexivity | reflexivity].
Qed.

Lemma parse_bases_step_heads poec_lang gs base gs' :
  parse_bases_step poec_lang gs base = Ok gs' -> heads gs' = heads gs.
Proof.
  unfold parse_bases_step. intros H. res_inv.
  destruct x0; res_inv; subst; [|reflexivity].
  unfold heads. rewrite !assoc_alter_proj by reflexivity. reflexivity.
Qed.

Lemma parse_items_step_keys poec_lang gs item gs' :
  parse_items_step poec_lang gs item = Ok gs' -> keys gs' = keys gs.
Proof. intros H. apply heads_keys. eapply parse_items_step_heads; eassumption. Qed.

Lemma parse_bases_step_keys poec_lang gs base gs' :
  parse_bases_step poec_lang gs base = Ok gs' -> keys gs' = keys gs.
Proof. intros H. apply heads_keys. eapply parse_bases_step_heads; eassumption. Qed.

(** A loop whose body keeps the key list keeps it. *)
Lemma res_fold_keys {A} (f : Groups -> A -> py Groups) gs xs gs' :
  (forall gs x gs', f gs x = Ok gs' -> keys gs' = keys gs) ->
  res_fold f gs xs = Ok gs' -> keys gs' = keys gs.
Proof.
  intros Hf. apply (res_fold_invariant (fun g => keys g = keys gs)); [|reflexivity].
  intros s x s' Hs _ Hx. rewrite <- Hs. eauto.
Qed.

#[export] Hint Resolve parse_items_step_keys parse_bases_step_keys : craft.

Lemma with_items_add_item l n g : with_items l (add_item n g) = with_items l g.
Proof. reflexivity. Qed.

Lemma with_items_self g : with_items (items g) g = g.
Proof. now destruct g. Qed.

(** One item: it appends its name to its own group and leaves the others. *)
Lemma parse_items_step_lookup poec_lang gs x gs1 k g :
  parse_items_step poec_lang gs x = Ok gs1 -> assoc_lookup k gs = Some g ->
  if of_base k x then exists n, item_name poec_lang x = Ok n /\ assoc_lookup k gs1 = Some (add_item n g)
  else assoc_lookup k gs1 = Some g.
Proof.
  unfold parse_items_step, of_base. intros H Hk.
  destruct (field x "id_base") as [b|] eqn:Hb; cbn [res_bind] in H; [|discriminate].
  destruct (group_mem gs b) as [[s|]|] eqn:Hg; cbn [res_bind] in H; [| |discriminate].
  - apply group_mem_Some in Hg as [-> _].
    destruct (field poec_lang "bitem") as [bi|] eqn:E1; cbn [res_bind] in H; [|discriminate].
    destruct (as_dict bi) as [kvs|] eqn:E2; cbn [res_bind] in H; [|discriminate].
    destruct (field x "id_bitem") as [id|] eqn:E3; cbn [res_bind] in H; [|discriminate].
    destruct (get_in kvs id _) as [n|] eqn:E4; cbn [res_bind] in H; [|discriminate].
    injection H as <-. rewrite assoc_lookup_alter.
    destruct (String.eqb_spec s k) as [->|Hne].
    + exists n. rewrite String.eqb_refl, Hk. split; [|reflexivity].
      unfold item_name. now rewrite E1; cbn [res_bind]; rewrite E2; cbn [res_bind]; rewrite E3.
    + now rewrite (proj2 (String.eqb_neq k s)) by congruence.
  - injection H as <-. destruct b; try exact Hk.
    destruct (String.eqb_spec s k) as [->|]; [|exact Hk].
    unfold group_mem in Hg. simpl in Hg. now rewrite Hk in Hg.
Qed.

(** The loop of [parse_items]: each group gets the names of its items, in
    the order of the sequence, after the items it had. *)
Lemma parse_items_loop poec_lang xs : forall gs gs',
  res_fold (parse_items_step poec_lang) gs xs = Ok gs' ->
  forall k g, assoc_lookup k gs = Some g ->
  exists names, Forall2 (fun x n => item_name poec_lang x = Ok n) (List.filter (of_base k) xs) names
    /\ assoc_lookup k gs' = Some (with_items (items g ++ names) g).
Proof.
  induction xs as [|x xs IH]; intros gs gs' H k g Hk; simpl in H.
  - injection H as <-. exists []. rewrite app_nil_r, with_items_self. auto.
  - apply res_bind_Ok in H as (gs1 & H1 & H).
    pose proof (parse_items_step_lookup _ _ _ _ k g H1 Hk) as Hs. simpl.
    destruct (of_base k x).
    + destruct Hs as (n & Hn & Hk1). destruct (IH _ _ H k _ Hk1) as (names & Hf & Hl).
      exists (n :: names). split; [now constructor|].
      rewrite Hl, with_items_add_item. simpl. now rewrite <- app_assoc.
    + exact (IH _ _ H k g Hs).
Qed.

(** C24: [parse_items] appends to every existing group the names of the
    items of [poec_data["bitems"]["seq"]] whose [id_base] is that group's
    id, in the order of the sequence: [poec_lang["bitem"]] of the item's
    [id_bitem], or "Unknown Item"; the group's other fields are unchanged
    and an item of an unknown base is skipped. *)
Theorem parse_items_functional poec_data poec_lang gs gs' :
  parse_items poec_data poec_lang gs = Ok gs' ->
  exists xs, seq_of poec_data "bitems" = Ok xs
  /\ forall k g, assoc_lookup k gs = Some g ->
     exists names, Forall2 (fun x n => item_name poec_lang x = Ok n) (List.filter (of_base k) xs) names
       /\ assoc_lookup k gs' = Some (with_items (items g ++ names) g).
Proof.
  unfold parse_items. intros (xs & E & H)%res_bind_Ok.
  exists xs. split; [exact E|]. exact (parse_items_loop _ _ _ _ H).
Qed.

Lemma parse_items_functional_witness :
  exists gs', parse_items ex_items_data ex_items_lang
                (match parse_base_groups ex_items_lang with Ok gs => gs | Exc _ => [] end) = Ok gs'
  /\ exists xs, seq_of ex_items_data "bitems" = Ok xs
  /\ forall k g, assoc_lookup k (match parse_base_groups ex_items_lang with Ok gs => gs | Exc _ => [] end)
                   = Some g ->
     exists names, Forall2 (fun x n => item_name ex_items_lang x = Ok n) (List.filter (of_base k) xs) names
       /\ assoc_lookup k gs' = Some (with_items (items g ++ names) g).
Proof.
  eexists. split; [vm_compute; reflexivity|].
  apply parse_items_functional. vm_compute. reflexivity.
Defined.

Lemma set_base_type_bgroup_twice bt bg bt' bg' g :
  set_bgroup bg' (set_base_type bt' (set_bgroup bg (set_base_type bt g)))
  = set_bgroup bg' (set_base_type bt' g).
Proof. reflexivity. Qed.

(** One base record: it sets the two fields of its own group. *)
Lemma parse_bases_step_lookup poec_lang gs x gs1 k g :
  parse_bases_step poec_lang gs x = Ok gs1 -> assoc_lookup k gs = Some g ->
  if of_base k x then exists bt bg, base_info poec_lang x = Ok (bt, bg)
                        /\ assoc_lookup k gs1 = Some (set_bgroup bg (set_base_type bt g))
  else assoc_lookup k gs1 = Some g.
Proof.
  unfold parse_bases_step, of_base. intros H Hk.
  destruct (field x "id_base") as [b|] eqn:Hb; cbn [res_bind] in H; [|discriminate].
  destruct (group_mem gs b) as [[s|]|] eqn:Hg; cbn [res_bind] in H; [| |discriminate].
  - apply group_mem_Some in Hg as [-> _].
    destruct (as_dict x) as [bkvs|] eqn:E1; cbn [res_bind] in H; [|discriminate].
    destruct (get_in bkvs _ _) as [bt|] eqn:E2; cbn [res_bind] in H; [|discriminate].
    destruct (field poec_lang "bgroup") as [bgs|] eqn:E3; cbn [res_bind] in H; [|discriminate].
    destruct (as_dict bgs) as [gkvs|] eqn:E4; cbn [res_bind] in H; [|discriminate].
    destruct (field x "id_bgroup") as [id|] eqn:E5; cbn [res_bind] in H; [|discriminate].
    destruct (get_in gkvs id _) as [bg|] eqn:E6; cbn [res_bind] in H; [|discriminate].
    injection H as <-. rewrite !assoc_lookup_alter.
    destruct (String.eqb_spec s k) as [->|Hne].
    + exists bt, bg. rewrite !String.eqb_refl, Hk. split; [|reflexivity].
      unfold base_info. rewrite E1; cbn [res_bind]. rewrite E2; cbn [res_bind].
      rewrite E3; cbn [res_bind]. rewrite E4; cbn [res_bind]. now rewrite E5; cbn [res_bind]; rewrite E6.
    + now rewrite (proj2 (String.eqb_neq k s)) by congruence.
  - injection H as <-. destruct b; try exact Hk.
    destruct (String.eqb_spec s k) as [->|]; [|exact Hk].
    unfold group_mem in Hg. simpl in Hg. now rewrite Hk in Hg.
Qed.

(** The loop of [parse_bases_and_groups]: the last record of a group sets
    its fields; a group without a record keeps them. *)
Lemma parse_bases_loop poec_lang xs : forall gs gs',
  res_fold (parse_bases_step poec_lang) gs xs = Ok gs' ->
  forall k g, assoc_lookup k gs = Some g ->
  match list.last (List.filter (of_base k) xs) with
  | Some y => exists bt bg, base_info poec_lang y = Ok (bt, bg)
                /\ assoc_lookup k gs' = Some (set_bgroup bg (set_base_type bt g))
  | None => assoc_lookup k gs' = Some g
  end.
Proof.
  induction xs as [|x xs IH]; intros gs gs' H k g Hk; simpl in H.
  - now injection H as <-.
  - apply res_bind_Ok in H as (gs1 & H1 & H).
    pose proof (parse_bases_step_lookup _ _ _ _ k g H1 Hk) as Hs. simpl.
    destruct (of_base k x); [|exact (IH _ _ H k g Hs)].
    destruct Hs as (bt & bg & Hi & Hk1). specialize (IH _ _ H k _ Hk1).
    destruct (List.filter (of_base k) xs) as [|y ys] eqn:F; simpl in IH |- *.
    + eauto.
    + replace (list.last (x :: y :: ys)) with (list.last (y :: ys)) by reflexivity.
      destruct (list.last (y :: ys)) eqn:L; [|apply last_None in L; discriminate].
      destruct IH as (bt' & bg' & Hi' & Hl). exists bt', bg'. split; [exact Hi'|].
      now rewrite Hl, set_base_type_bgroup_twice.
Qed.

(** C25: [parse_bases_and_groups] sets [base_type] and [bgroup] of a group
    from the last record of [poec_data["bases"]["seq"]] whose [id_base] is
    the group's id (an earlier record's values are overwritten): the
    record's [base_type] or "unknown", and [poec_lang["bgroup"]] of its
    [id_bgroup] or "Unknown Group"; a group no record names keeps both
    fields unset. *)
Theorem parse_bases_functional poec_data poec_lang gs gs' :
  parse_bases_and_groups poec_data poec_lang gs = Ok gs' ->
  exists xs, seq_of poec_data "bases" = Ok xs
  /\ forall k g, assoc_lookup k gs = Some g ->
     match list.last (List.filter (of_base k) xs) with
     | Some y => exists bt bg, base_info poec_lang y = Ok (bt, bg)
                   /\ assoc_lookup k gs' = Some (set_bgroup bg (set_base_type bt g))
     | None => assoc_lookup k gs' = Some g
     end.
Proof.
  unfold parse_bases_and_groups. intros (xs & E & H)%res_bind_Ok.
  exists xs. split; [exact E|]. exact (parse_bases_loop _ _ _ _ H).
Qed.

Lemma parse_bases_functional_witness :
  exists gs', parse_bases_and_groups ex_bases_data ex_items_lang
                (match parse_base_groups ex_items_lang with Ok gs => gs | Exc _ => [] end) = Ok gs'
  /\ exists xs, seq_of ex_bases_data "bases" = Ok xs
  /\ forall k g, assoc_lookup k (match parse_base_groups ex_items_lang with Ok gs => gs | Exc _ => [] end)
                   = Some g ->
     match list.last (List.filter (of_base k) xs) with
     | Some y => exists bt bg, base_info ex_items_lang y = Ok (bt, bg)
                   /\ assoc_lookup k gs' = Some (set_bgroup bg (set_base_type bt g))
     | None => assoc_lookup k gs' = Some g
     end.
Proof.
  eexists. split; [vm_compute; reflexivity|].
  apply parse_bases_functional. vm_compute. reflexivity.
Defined.

Lemma new_group_spec n g : new_group n = Ok g -> fresh_group_of n g.
Proof.
  unfold new_group, rename_base, fresh_group_of, renamed. intros H.
  destruct n; cbn in H; try discriminate H; injection H as <-; cbn; auto 7.
Qed.

(** The loop of [parse_base_groups] on distinct ids appends one fresh
    group per entry. *)
Lemma parse_base_groups_loop entries : forall acc gs,
  List.NoDup (map fst acc ++ map fst entries)%list ->
  res_fold (fun gs '(base_id, base_name) =>
              let* g := new_group base_name in Ok (assoc_set base_id g gs)) acc entries = Ok gs ->
  exists gs2, gs = (acc ++ gs2)%list /\
    Forall2 (fun kv kg => fst kg = fst kv /\ fresh_group_of (snd kv) (snd kg)) entries gs2.
Proof.
  induction entries as [|[k n] entries IH]; intros acc gs Hnd H; simpl in H.
  - injection H as <-. exists []. now rewrite app_nil_r.
  - destruct (new_group n) as [g|] eqn:Hg; cbn [res_bind] in H; [|discriminate].
    simpl in Hnd. pose proof (NoDup_remove_2 _ _ _ Hnd) as Hk. apply NoDup_remove_1 in Hnd.
    rewrite assoc_set_new in H by (rewrite in_app_iff in Hk; tauto).
    assert (Hnd' : List.NoDup (map fst (acc ++ [(k, g)]) ++ map fst entries)%list).
    { rewrite map_app, <- app_assoc. simpl.
      eapply Permutation_NoDup; [apply Permutation_middle | constructor; assumption]. }
    destruct (IH _ _ Hnd' H) as (gs2 & -> & HF).
    exists ((k, g) :: gs2). rewrite <- app_assoc. simpl. split; [reflexivity|].
    constructor; [split; [reflexivity | now apply new_group_spec] | exact HF].
Qed.

(** C26: [parse_base_groups] creates, in the order of
    [poec_lang["base"]] and when its ids are distinct, one group per entry
    under the entry's id: its [base_group] is the entry's name, replaced by
    the value of [custom_base_groups] when the name is one of its keys,
    with empty [items], [prefixes] and [suffixes] and no [base_type] or
    [bgroup]. *)
Theorem parse_base_groups_functional poec_lang kvs gs :
  field poec_lang "base" = Ok (JObj kvs) -> List.NoDup (map fst kvs) ->
  parse_base_groups poec_lang = Ok gs ->
  Forall2 (fun kv kg => fst kg = fst kv /\ fresh_group_of (snd kv) (snd kg)) kvs gs.
Proof.
  unfold parse_base_groups. intros Hb Hnd H. rewrite Hb in H. cbn [res_bind dict_items as_dict] in H.
  destruct (parse_base_groups_loop kvs [] gs Hnd H) as (gs2 & -> & HF). exact HF.
Qed.

Lemma parse_base_groups_functional_witness :
  exists gs, parse_base_groups ex_items_lang = Ok gs
  /\ Forall2 (fun kv kg => fst kg = fst kv /\ fresh_group_of (snd kv) (snd kg))
       [("1", JStr "Gloves (STR)"); ("2", JStr "Ring")] gs.
Proof.
  eexists. split; [vm_compute; reflexivity|].
  apply (parse_base_groups_functional ex_items_lang); [reflexivity | repeat constructor; simpl; intuition discriminate | vm_compute; reflexivity].
Defined.
