(* ===== verification/Modifiers.v ===== *)
(** * [parse_modifiers_and_tiers]: the modifier and tier enricher

    Lines 78-161 of [scrapper.py].  For every entry [base_id ->
    modifier_ids] of [poec_data["basemods"]] whose [base_id] is a group,
    and every [modifier_id] of it, the stage finds the modifier record
    ([find_modifier], the [next(...)] generator of line 84), decodes its
    [modgroups] ([mod_groups_of]), and for each entry of
    [poec_data["tiers"][modifier_id]] keyed by this [base_id] runs two
    loops over the tier records:

    - loop 1 ([float_loop], lines 96-107) sets [is_float_affix] for each
      tier in turn ([scan_float], with the [break]); after the loop the
      variable holds the value computed for the LAST tier only;
    - loop 2 ([tier_loop], lines 110-146) runs the [try] body
      ([tier_body]) on each tier: [int(ilvl)], [int(weighting)],
      [json.loads(nvalues)], the filter [weighting > 1], the label
      [T{len - index}] ([tier_label], with [list.index]'s first equal
      element, [first_index]), and the values loop ([tier_value],
      [values_loop]); a [ValueError] or [JSONDecodeError] skips the tier
      ([catch_value]); any other exception escapes.

    The affix ([Affix]) is appended to the group's prefixes or suffixes by
    [affix_type]; other types are dropped.  [parse_value] (line 160) is
    [int(float(value) * 60)].

    Theorems: every tier the stage creates has a weighting above 1
    ([parse_modifiers_and_tiers_weighting]), an instance of [parse_modifiers_and_tiers_all], which keeps any
    property [P] of the affixes that the affixes it builds satisfy (the
    section [Invariant]; the tags of [mod_groups] are another instance);
    the float scaling of every tier of a group is decided by the last
    tier's values ([float_loop_last]); a [nvalues] that does not decode
    aborts the stage ([tiers_for_base_undecodable]: the [except
    json.JSONDecodeError] of line 145 is never reached for it); the [try]
    block, with the exceptions it catches and those that escape
    ([tier_loop_except], against the specification [tier_handled]); the
    values loop ([values_loop_scaled], [values_loop_unscaled]) and the
    exact scaling of integral values ([parse_value_exact]); labels
    ([tier_label_distinct], [tier_label_duplicate]); unknown base ids
    ([unknown_base_id_skipped]); [find_modifier] is [next]
    ([find_modifier_first]); only the tier table of the current base is
    read ([tiers_restricted_to_base]); no group is renamed or added
    ([heads]). *)

From S2P Require Import Prelude PyStr PyFloat PyValue JsonLoads BaseGroups.
From Stdlib Require Import String.

Open Scope string_scope.

(** ** [parse_value] *)

(** [int(float(value) * 60)] *)
Definition parse_value (value : json) : py Z :=
  let* f := py_float value in
  b64_trunc (b64_mul f (b64_of_Z_raw 60)).

(** ** Loop 1: [is_float_affix] *)

(** The inner [for value in nvalues] of lines 99-107, with its [break]. *)
Fixpoint scan_float (vs : list json) : py bool :=
  match vs with
  | [] => Ok false
  | value :: vs' =>
      if is_list value then
        let* v0 := getitem value (JInt 0) in
        if is_float v0 then Ok true else
        let* v1 := getitem value (JInt 1) in
        if is_float v1 then Ok true else scan_float vs'
      else if is_float value then Ok true else scan_float vs'
  end.

(** The body of loop 1 for one tier: [is_float_affix] is reset, then set
    from this tier's values. *)
Definition float_step (_ : bool) (tier : json) : py bool :=
  let* nv := field tier "nvalues" in
  let* nvalues := json_loads nv in
  let* vs := py_iter nvalues in
  scan_float vs.

Definition float_loop (tier_values : list json) : py bool :=
  res_fold float_step false tier_values.

(** ** Loop 2: the tiers *)

(** [tier_values.index(tier)] for the tier at position [i]: the first
    position holding an element equal to it, or [i] itself. *)
Fixpoint first_index (xs : list json) (x : json) (i : nat) : nat :=
  match xs, i with
  | y :: xs', S i' => if py_eq_id y x then 0 else S (first_index xs' x i')
  | _, _ => 0
  end.

Definition tier_label (tier_values : list json) (tier : json) (i : nat) : string :=
  "T" ++ str_of_Z (Z.of_nat (List.length tier_values) - Z.of_nat (first_index tier_values tier i)).

(** One iteration of [for value in nvalues] (lines 124-143): the [Min] and
    [Max] stored and the value written to [tier_data["float"]]. *)
Definition tier_value (is_float_affix : bool) (value : json) : py (json * json * bool) :=
  if is_list value then
    if is_float_affix then
      let* v0 := getitem value (JInt 0) in
      let* p0 := parse_value v0 in
      let* value1 := setitem_list value 0 (JInt p0) in
      let* v1 := getitem value1 (JInt 1) in
      let* p1 := parse_value v1 in
      let* value2 := setitem_list value1 1 (JInt p1) in
      let* mn := getitem value2 (JInt 0) in
      let* mx := getitem value2 (JInt 1) in
      Ok (mn, mx, true)
    else
      let* mn := getitem value (JInt 0) in
      let* mx := getitem value (JInt 1) in
      Ok (mn, mx, false)
  else
    if is_float_affix then
      let* p := parse_value value in Ok (JInt p, JInt p, false)
    else Ok (value, value, false).

(** The values loop: the pairs, and the final [tier_data["float"]] (absent
    when the loop does not run). *)
Definition values_loop (is_float_affix : bool) (nvalues : json)
    : py (list (json * json) * option bool) :=
  match nvalues with
  | JArr vs =>
      let* rs := res_map (tier_value is_float_affix) vs in
      Ok (map fst rs, last (map (fun r => Some (snd r)) rs) None)
  | _ => Ok ([], None)
  end.

(** The [try] body (lines 112-144) for the tier at position [i]:
    [Some t] when the tier is appended, [None] when [weighting <= 1]. *)
Definition tier_body (is_float_affix : bool) (tier_values : list json) (i : nat) (tier : json)
    : py (option Tier) :=
  let* il := field tier "ilvl" in
  let* ilvl := py_int il in
  let* wt := field tier "weighting" in
  let* weighting := py_int wt in
  let* nv := field tier "nvalues" in
  let* nvalues := json_loads nv in
  if (1 <? weighting)%Z then
    let label := tier_label tier_values tier i in
    let* '(vals, fl) := values_loop is_float_affix nvalues in
    Ok (Some {| tier := label; ilvl := ilvl; weighting := weighting; values := vals;
                float := fl; affix_percent := None; weight_percent := None |})
  else Ok None.

(** [except (ValueError, json.JSONDecodeError): continue] *)
Definition catch_value {A} (m : py (option A)) : py (option A) :=
  match m with
  | Exc e => if is_value_error e then Ok None else Exc e
  | Ok r => Ok r
  end.

Fixpoint tier_loop (is_float_affix : bool) (tier_values : list json) (i : nat) (rest : list json)
    : py (list Tier) :=
  match rest with
  | [] => Ok []
  | tier :: rest' =>
      let* r := catch_value (tier_body is_float_affix tier_values i tier) in
      let* ts := tier_loop is_float_affix tier_values (S i) rest' in
      Ok (match r with Some t => t :: ts | None => ts end)
  end.

(** Lines 95-146 for one entry [base_type -> tier_values]: both loops run
    only when [base_type == base_id]. *)
Definition tiers_for_base (base_id : string) (entry : string * json) : py (list Tier) :=
  let '(base_type, tv) := entry in
  if String.eqb base_type base_id then
    let* tier_values := py_iter tv in
    let* is_float_affix := float_loop tier_values in
    tier_loop is_float_affix tier_values 0 tier_values
  else Ok [].

Fixpoint tiers_loop (base_id : string) (entries : list (string * json)) : py (list Tier) :=
  match entries with
  | [] => Ok []
  | e :: es =>
      let* ts := tiers_for_base base_id e in
      let* ts' := tiers_loop base_id es in
      Ok (ts ++ ts')%list
  end.

(** ** The modifier loop *)

(** [next((m for m in seq if m["id_modifier"] == modifier_id), None)] *)
Fixpoint find_modifier (sq : list json) (modifier_id : json) : py (option json) :=
  match sq with
  | [] => Ok None
  | m :: sq' =>
      let* idm := field m "id_modifier" in
      if py_eq idm modifier_id then Ok (Some m) else find_modifier sq' modifier_id
  end.

(** [[modgroup.lower().strip() for modgroup in mod_groups]]: a value that
    is not a [str] has no [lower] attribute. *)
Definition mod_group (v : json) : py json :=
  match v with
  | JStr s => Ok (JStr (strip (lower s)))
  | _ => raise AttributeError
  end.

Definition mod_groups_of (modifier_data : json) : py (list json) :=
  let* mg := field modifier_data "modgroups" in
  let* decoded := json_loads mg in
  let* xs := py_iter decoded in
  res_map mod_group xs.

Definition add_prefix (a : Affix) (g : BaseGroup) : BaseGroup :=
  {| base_group := base_group g; items := items g; prefixes := (prefixes g ++ [a])%list;
     suffixes := suffixes g; base_type := base_type g; bgroup := bgroup g |}.

Definition add_suffix (a : Affix) (g : BaseGroup) : BaseGroup :=
  {| base_group := base_group g; items := items g; prefixes := prefixes g;
     suffixes := (suffixes g ++ [a])%list; base_type := base_type g; bgroup := bgroup g |}.

(** Lines 84-157 for one [modifier_id] of the group [base_id]. *)
Definition modifier_step (poec_data : json) (base_id : string) (gs : Groups) (modifier_id : json)
    : py Groups :=
  let* mods := field poec_data "modifiers" in
  let* sqv := field mods "seq" in
  let* sq := py_iter sqv in
  let* found := find_modifier sq modifier_id in
  match found with
  | Some modifier_data =>
      if negb (truthy modifier_data) then Ok gs else
      let* modifier_name := field modifier_data "name_modifier" in
      let* affix_type := field modifier_data "affix" in
      let* mgs := mod_groups_of modifier_data in
      let* all_tiers := field poec_data "tiers" in
      let* tkvs := as_dict all_tiers in
      let* tiers_v := get_in tkvs modifier_id (JObj []) in
      let* entries := dict_items tiers_v in
      let* tier_list := tiers_loop base_id entries in
      let affix := {| description := modifier_name; mod_groups := mgs; tiers := tier_list |} in
      if py_eq affix_type (JStr "prefix") then Ok (assoc_alter (add_prefix affix) base_id gs)
      else if py_eq affix_type (JStr "suffix") then Ok (assoc_alter (add_suffix affix) base_id gs)
      else Ok gs
  | None => Ok gs
  end.

(** Lines 79-83 for one entry [base_id -> modifier_ids] of [basemods]. *)
Definition basemods_step (poec_data : json) (gs : Groups) (entry : string * json) : py Groups :=
  let '(base_id, modifier_ids) := entry in
  match assoc_lookup base_id gs with
  | Some _ =>
      let* ids := py_iter modifier_ids in
      res_fold (modifier_step poec_data base_id) gs ids
  | None => Ok gs
  end.

Definition parse_modifiers_and_tiers (poec_data : json) (gs : Groups) : py Groups :=
  let* basemods := field poec_data "basemods" in
  let* entries := dict_items basemods in
  res_fold (basemods_step poec_data) gs entries.

(** ** The weighting invariant *)

(** [P] holds of every affix of a group, of every group. *)
Definition group_all (P : Affix -> Prop) (g : BaseGroup) : Prop :=
  Forall P (prefixes g) /\ Forall P (suffixes g).
Definition groups_all (P : Affix -> Prop) (gs : Groups) : Prop :=
  Forall (fun kv => group_all P (snd kv)) gs.

Definition tiers_ok (ts : list Tier) : Prop := Forall (fun t => (1 < weighting t)%Z) ts.
Definition affixes_ok (afs : list Affix) : Prop := Forall (fun a => tiers_ok (tiers a)) afs.
Definition group_ok (g : BaseGroup) : Prop := affixes_ok (prefixes g) /\ affixes_ok (suffixes g).
Definition groups_ok (gs : Groups) : Prop := Forall (fun kv => group_ok (snd kv)) gs.

(** The tags of [mod_groups] as line 89 leaves them: lower-case, stripped
    strings. *)
Definition tag_ok (v : json) : Prop := exists s, v = JStr s /\ lower s = s /\ strip s = s.
Definition affix_tags_ok (a : Affix) : Prop := Forall tag_ok (mod_groups a).

(** ** Example inputs

    Records in the shape of [poec_data]: [ex_tier] is a tier record with
    its [ilvl], [weighting] and [nvalues] strings. *)

Definition ex_tier (il wt nv : string) : json :=
  JObj [("ilvl", JStr il); ("weighting", JStr wt); ("nvalues", JStr nv)].

(** A [str] in double quotes, to write JSON text. *)
Definition quoted (s : string) : string := String dquote (s ++ String dquote EmptyString).

(** The spec's synthetic input: base ["1"], one prefix modifier ["100"]
    with tiers of weighting 10, 5 and 1. *)
Definition ex_data : json := JObj [
  ("basemods", JObj [("1", JArr [JStr "100"])]);
  ("modifiers", JObj [("seq", JArr [JObj [
      ("id_modifier", JStr "100"); ("name_modifier", JStr "+# to maximum Life");
      ("affix", JStr "prefix"); ("modgroups", JStr ("[" ++ quoted "Life " ++ "]"))]])]);
  ("tiers", JObj [("100", JObj [("1", JArr [
      ex_tier "1" "10" "[[10, 19]]"; ex_tier "11" "5" "[[20, 29]]"; ex_tier "22" "1" "[[30, 39]]"])])])].

Definition ex_groups : Groups :=
  [("1", {| base_group := JStr "helmet_str_armour"; items := []; prefixes := [];
            suffixes := []; base_type := None; bgroup := None |})].

Definition ex_after : Groups :=
  match parse_modifiers_and_tiers ex_data ex_groups with Ok gs => gs | Exc _ => [] end.

(** ** Specifications of the values loop *)

(** What an entry of [nvalues] becomes when no scaling applies: a list
    gives its first two elements, a scalar is both bounds. *)
Definition minmax (v : json) : json * json :=
  match v with
  | JArr (a :: b :: _) => (a, b)
  | _ => (v, v)
  end.

(** The entries the unscaled loop accepts: scalars and lists of at least
    two elements (a shorter list raises [IndexError]). *)
Definition pair_or_scalar (v : json) : Prop :=
  match v with
  | JArr (_ :: _ :: _) => True
  | JArr _ => False
  | _ => True
  end.

(** What an entry becomes when the group is scaled: the bounds are the
    integers [parse_value] returns for the raw numbers. *)
Definition scaled_entry (v : json) (p : json * json) : Prop :=
  (exists a b rest z0 z1, v = JArr (a :: b :: rest) /\ parse_value a = Ok z0 /\
     parse_value b = Ok z1 /\ p = (JInt z0, JInt z1)) \/
  (is_list v = false /\ exists z, parse_value v = Ok z /\ p = (JInt z, JInt z)).

(** ** Specification of the [try] block *)

(** What the [try] of lines 111-146 makes of the tier record [t] at
    position [k]: the body's result, or nothing when the body raises
    [ValueError] or [JSONDecodeError], the two classes of line 145. *)
Definition tier_handled (isf : bool) (tvs : list json) (k : nat) (t : json) (r : option Tier) : Prop :=
  tier_body isf tvs k t = Ok r \/
  (r = None /\ (tier_body isf tvs k t = Exc ValueError \/ tier_body isf tvs k t = Exc JSONDecodeError)).

(** The records [rest], numbered from [i], are all handled with the
    outcomes [rs]. *)
Definition tiers_handled (isf : bool) (tvs : list json) (i : nat) (rest : list json) (rs : list (option Tier)) : Prop :=
  Forall2 (fun kt r => tier_handled isf tvs (fst kt) (snd kt) r) (combine (seq i (List.length rest)) rest) rs.

(** ** Lemmas *)

Lemma catch_value_Some {A} (m : py (option A)) a :
  catch_value m = Ok (Some a) -> m = Ok (Some a).
Proof. destruct m as [r|e]; simpl; [auto|]. destruct (is_value_error e); discriminate. Qed.

Lemma tier_body_weighting isf tvs i tier t :
  tier_body isf tvs i tier = Ok (Some t) -> (1 < weighting t)%Z.
Proof.
  unfold tier_body. intros H. res_inv.
  match type of H with context [if (1 <? ?w)%Z then _ else _] =>
    destruct (Z.ltb_spec 1 w) end; [|discriminate].
  res_inv. subst. assumption.
Qed.

Lemma tier_loop_ok isf tvs i rest ts : tier_loop isf tvs i rest = Ok ts -> tiers_ok ts.
Proof.
  revert i ts. induction rest as [|t rest IH]; intros i ts H; simpl in H; res_inv; subst.
  - constructor.
  - destruct x as [t'|]; [constructor|]; try (eapply IH; eassumption).
    eapply tier_body_weighting, catch_value_Some; eassumption.
Qed.

Lemma tiers_for_base_ok b e ts : tiers_for_base b e = Ok ts -> tiers_ok ts.
Proof.
  destruct e as [bt tv]; simpl. destruct (String.eqb bt b); intros H; res_inv; subst.
  - eapply tier_loop_ok; eassumption.
  - constructor.
Qed.

Lemma tiers_loop_ok b es ts : tiers_loop b es = Ok ts -> tiers_ok ts.
Proof.
  revert ts. induction es as [|e es IH]; intros ts H; simpl in H; res_inv; subst.
  - constructor.
  - apply Forall_app. split; [eapply tiers_for_base_ok | apply IH]; eassumption.
Qed.

Section Invariant.
Variable P : Affix -> Prop.
(** Every affix the stage can build satisfies [P]. *)
Hypothesis HP : forall md b es name mgs ts,
  mod_groups_of md = Ok mgs -> tiers_loop b es = Ok ts ->
  P {| description := name; mod_groups := mgs; tiers := ts |}.

Lemma add_prefix_all a g : P a -> group_all P g -> group_all P (add_prefix a g).
Proof. intros Ha [Hp Hs]. split; simpl; [apply Forall_app; split; [|constructor]|]; auto. Qed.

Lemma add_suffix_all a g : P a -> group_all P g -> group_all P (add_suffix a g).
Proof. intros Ha [Hp Hs]. split; simpl; [|apply Forall_app; split; [|constructor]]; auto. Qed.

Lemma modifier_step_all d b gs mid gs' :
  groups_all P gs -> modifier_step d b gs mid = Ok gs' -> groups_all P gs'.
Proof.
  unfold modifier_step. intros Hgs H. res_inv.
  destruct x2 as [md|]; [|res_inv; subst; assumption].
  destruct (negb (truthy md)); [res_inv; subst; assumption|]. res_inv.
  match goal with Hm : mod_groups_of _ = Ok _, Hl : tiers_loop _ _ = Ok _ |- _ =>
    pose proof (fun name => HP _ _ _ name _ _ Hm Hl) as Ha end.
  repeat match type of H with
  | (if ?c then _ else _) = _ => destruct c
  end; res_inv; subst; try assumption;
  apply (assoc_alter_Forall (group_all P)); auto; intros; [apply add_prefix_all | apply add_suffix_all]; auto.
Qed.

Lemma basemods_step_all d gs e gs' :
  groups_all P gs -> basemods_step d gs e = Ok gs' -> groups_all P gs'.
Proof.
  destruct e as [b ids]; simpl. intros Hgs H.
  destruct (assoc_lookup b gs); res_inv; subst; [|assumption].
  revert H. apply res_fold_invariant; [|assumption].
  intros. eapply modifier_step_all; eassumption.
Qed.

Lemma parse_modifiers_and_tiers_all d gs gs' :
  groups_all P gs -> parse_modifiers_and_tiers d gs = Ok gs' -> groups_all P gs'.
Proof.
  unfold parse_modifiers_and_tiers. intros Hgs H. res_inv.
  revert H. apply res_fold_invariant; [|assumption].
  intros. eapply basemods_step_all; eassumption.
Qed.

End Invariant.

Lemma mod_group_ok v t : mod_group v = Ok t -> tag_ok t.
Proof.
  destruct v; simpl; try discriminate. intros [= <-].
  eexists. split; [reflexivity | apply lower_strip_normal].
Qed.

Lemma mod_groups_of_ok md mgs : mod_groups_of md = Ok mgs -> Forall tag_ok mgs.
Proof.
  unfold mod_groups_of. intros H. res_inv.
  apply res_map_Forall2 in H. apply Forall_forall. intros t Ht.
  destruct (Forall2_In_r _ _ _ _ H Ht) as (v & _ & Hv). exact (mod_group_ok _ _ Hv).
Qed.

Lemma float_step_irrelevant s s' t : float_step s t = float_step s' t.
Proof. reflexivity. Qed.

Lemma res_fold_float_last s tvs b :
  res_fold float_step s tvs = Ok b -> tvs <> [] -> float_step false (last tvs JNull) = Ok b.
Proof.
  revert s. induction tvs as [|t tvs IH]; intros s H Hne; [congruence|].
  simpl in H. res_inv. destruct tvs as [|t' tvs'].
  - simpl in *. res_inv. subst. exact Hx.
  - apply (IH x); [exact H | discriminate].
Qed.

Lemma res_fold_float_decodes s tvs b :
  res_fold float_step s tvs = Ok b ->
  forall t, In t tvs -> exists nv v, field t "nvalues" = Ok nv /\ json_loads nv = Ok v.
Proof.
  revert s. induction tvs as [|t tvs IH]; intros s H u Hu; [destruct Hu|].
  simpl in H. res_inv. destruct Hu as [<-|Hu]; [|eapply IH; eassumption].
  unfold float_step in Hx. res_inv. eauto.
Qed.

(** *** The [try] block *)

Lemma catch_value_Ok {A} (m : py (option A)) r :
  catch_value m = Ok r <-> m = Ok r \/ (r = None /\ (m = Exc ValueError \/ m = Exc JSONDecodeError)).
Proof.
  destruct m as [r'|[]]; cbn; split; intros H;
    try solve [ intuition congruence | destruct H as [H|(-> & [H|H])]; congruence ].
Qed.

Lemma catch_value_Exc {A} (m : py (option A)) e :
  catch_value m = Exc e <-> m = Exc e /\ e <> ValueError /\ e <> JSONDecodeError.
Proof. destruct m as [r|[]]; cbn; split; intros H; intuition congruence. Qed.

Lemma tiers_handled_nil isf tvs i rs : tiers_handled isf tvs i [] rs <-> rs = [].
Proof. unfold tiers_handled. cbn. split; [intros H; now inversion H | intros ->; constructor]. Qed.

Lemma tiers_handled_cons isf tvs i t rest rs :
  tiers_handled isf tvs i (t :: rest) rs <->
  exists r rs', rs = r :: rs' /\ tier_handled isf tvs i t r /\ tiers_handled isf tvs (S i) rest rs'.
Proof.
  unfold tiers_handled. cbn [List.length seq combine]. split.
  - intros H. inversion H; subst. eauto.
  - intros (r & rs' & -> & H1 & H2). now constructor.
Qed.

Lemma tier_loop_cons isf tvs i t rest :
  tier_loop isf tvs i (t :: rest) =
  let* r := catch_value (tier_body isf tvs i t) in
  let* ts := tier_loop isf tvs (S i) rest in
  Ok (match r with Some t => t :: ts | None => ts end).
Proof. reflexivity. Qed.

Lemma tier_loop_Ok_iff isf tvs i rest ts :
  tier_loop isf tvs i rest = Ok ts <-> exists rs, tiers_handled isf tvs i rest rs /\ ts = omap id rs.
Proof.
  revert i ts. induction rest as [|t rest IH]; intros i ts.
  - cbn. setoid_rewrite tiers_handled_nil. split; [intros [= <-]; eauto | intros (rs & -> & ->); reflexivity].
  - rewrite tier_loop_cons. setoid_rewrite tiers_handled_cons. split.
    + intros H. destruct (catch_value _) as [r|e] eqn:C; cbn [res_bind] in H; [|discriminate].
      destruct (tier_loop _ _ _ rest) as [ts'|e] eqn:L; cbn [res_bind] in H; [|discriminate].
      injection H as <-. destruct (proj1 (IH _ _) L) as (rs' & Hrs & ->).
      exists (r :: rs'). split; [exists r, rs'; repeat split; [|exact Hrs]|].
      * now apply catch_value_Ok in C.
      * now destruct r.
    + intros (rs & (r & rs' & -> & Hr & Hrs) & ->).
      rewrite (proj2 (catch_value_Ok _ _) Hr). cbn [res_bind].
      rewrite (proj2 (IH _ _) (ex_intro _ rs' (conj Hrs eq_refl))). cbn [res_bind].
      now destruct r.
Qed.

Lemma tier_loop_Exc_iff isf tvs i rest e :
  tier_loop isf tvs i rest = Exc e <->
  exists pre t post rs, rest = (pre ++ t :: post)%list /\ tiers_handled isf tvs i pre rs /\
    tier_body isf tvs (i + List.length pre) t = Exc e /\ e <> ValueError /\ e <> JSONDecodeError.
Proof.
  revert i. induction rest as [|t rest IH]; intros i.
  - split; [discriminate|]. intros (pre & t & post & rs & H & _). now destruct pre.
  - rewrite tier_loop_cons. split.
    + intros H. destruct (catch_value _) as [r|e'] eqn:C; cbn [res_bind] in H.
      * destruct (tier_loop _ _ _ rest) as [ts'|e'] eqn:L; cbn [res_bind] in H; [discriminate|].
        injection H as ->. destruct (proj1 (IH _) L) as (pre & t' & post & rs & -> & Hrs & Hb & Hn).
        exists (t :: pre), t', post, (r :: rs). cbn [List.length app]. rewrite Nat.add_succ_r.
        split; [reflexivity|]. split; [|exact (conj Hb Hn)].
        apply tiers_handled_cons. exists r, rs. split; [reflexivity|]. split; [|exact Hrs].
        now apply catch_value_Ok in C.
      * injection H as ->. apply catch_value_Exc in C as (C & Hn).
        exists [], t, rest, []. rewrite Nat.add_0_r. split; [reflexivity|].
        split; [now apply tiers_handled_nil | exact (conj C Hn)].
    + intros ([|t0 pre] & t' & post & rs & Hr & Hrs & Hb & Hn).
      * injection Hr as <- <-. rewrite Nat.add_0_r in Hb.
        now rewrite (proj2 (catch_value_Exc _ _) (conj Hb Hn)).
      * injection Hr as <- ->. apply tiers_handled_cons in Hrs as (r & rs' & -> & Hr & Hrs).
        rewrite (proj2 (catch_value_Ok _ _) Hr). cbn [res_bind].
        cbn [List.length] in Hb. replace (i + S (List.length pre))%nat with (S i + List.length pre)%nat in Hb by lia.
        rewrite (proj2 (IH _) (ex_intro _ pre (ex_intro _ t' (ex_intro _ post (ex_intro _ rs' (conj eq_refl (conj Hrs (conj Hb Hn)))))))).
        reflexivity.
Qed.

(** ** Properties of the stage *)

Lemma parse_modifiers_and_tiers_ok d gs gs' :
  groups_ok gs -> parse_modifiers_and_tiers d gs = Ok gs' -> groups_ok gs'.
Proof.
  apply (parse_modifiers_and_tiers_all (fun a => tiers_ok (tiers a))).
  intros. simpl. eapply tiers_loop_ok; eassumption.
Qed.

Lemma parse_modifiers_and_tiers_tags d gs gs' :
  groups_all affix_tags_ok gs -> parse_modifiers_and_tiers d gs = Ok gs' -> groups_all affix_tags_ok gs'.
Proof.
  apply parse_modifiers_and_tiers_all.
  intros. unfold affix_tags_ok. simpl. eapply mod_groups_of_ok; eassumption.
Qed.

(** C1: every tier that [parse_modifiers_and_tiers] adds to a group has a
    weighting above 1: the invariant "no tier of weighting <= 1" holds
    after the stage when it held before. *)
Theorem parse_modifiers_and_tiers_weighting d gs gs' :
  groups_ok gs -> parse_modifiers_and_tiers d gs = Ok gs' -> groups_ok gs'.
Proof. apply parse_modifiers_and_tiers_ok. Qed.

Lemma parse_modifiers_and_tiers_weighting_witness : groups_ok ex_after.
Proof.
  apply (parse_modifiers_and_tiers_weighting ex_data ex_groups);
    [repeat constructor | vm_compute; reflexivity].
Defined.

(** C11: [is_float_affix], which decides the scaling of every tier of the
    group, is the value loop 1 computes for the last tier record alone. *)
Theorem float_loop_last tvs b :
  float_loop tvs = Ok b -> tvs <> [] -> float_step false (last tvs JNull) = Ok b.
Proof. apply res_fold_float_last. Qed.

Lemma float_loop_last_witness :
  float_step false (ex_tier "1" "10" "[[1, 2]]") = Ok false.
Proof.
  apply (float_loop_last [ex_tier "1" "10" "[[1.5, 2.5]]"; ex_tier "1" "10" "[[1, 2]]"]);
    [vm_compute; reflexivity | discriminate].
Defined.

(** C12: a tier record of the group whose [nvalues] does not decode makes
    the whole entry raise: loop 1 decodes outside the [try], so the
    [except json.JSONDecodeError] of loop 2 never catches a decoding
    error and the tier is not skipped. *)
Theorem tiers_for_base_undecodable b tvs t nv e :
  In t tvs -> field t "nvalues" = Ok nv -> json_loads nv = Exc e ->
  exists e', tiers_for_base b (b, JArr tvs) = Exc e'.
Proof.
  intros Hin Hf Hj. simpl. rewrite String.eqb_refl. simpl.
  destruct (float_loop tvs) as [isf|e'] eqn:Hl; simpl; [|eauto].
  destruct (res_fold_float_decodes _ _ _ Hl t Hin) as (nv' & v & Hf' & Hj').
  rewrite Hf in Hf'. injection Hf' as <-. congruence.
Qed.

Lemma tiers_for_base_undecodable_witness :
  exists e', tiers_for_base "1" ("1", JArr [ex_tier "1" "10" "[[1, 2]]"; ex_tier "5" "5" "[[3, 4]"]) = Exc e'.
Proof.
  apply (tiers_for_base_undecodable "1" _ (ex_tier "5" "5" "[[3, 4]") (JStr "[[3, 4]") JSONDecodeError);
    [right; left; reflexivity | reflexivity | vm_compute; reflexivity].
Defined.

(** ** The values loop *)

Lemma getitem_pair0 a b rest : getitem (JArr (a :: b :: rest)) (JInt 0) = Ok a.
Proof. reflexivity. Qed.

Lemma getitem_pair1 a b rest : getitem (JArr (a :: b :: rest)) (JInt 1) = Ok b.
Proof.
  unfold getitem, py_index. simpl.
  rewrite (proj2 (Z.ltb_lt 1 (Z.of_nat (S (S (List.length rest)))))) by lia.
  reflexivity.
Qed.

Lemma setitem_pair0 a b rest x : setitem_list (JArr (a :: b :: rest)) 0 x = Ok (JArr (x :: b :: rest)).
Proof. reflexivity. Qed.

Lemma setitem_pair1 a b rest x : setitem_list (JArr (a :: b :: rest)) 1 x = Ok (JArr (a :: x :: rest)).
Proof. reflexivity. Qed.

Lemma getitem_short1 a : getitem (JArr [a]) (JInt 1) = raise IndexError.
Proof. reflexivity. Qed.

Lemma tier_value_true v mn mx f :
  tier_value true v = Ok (mn, mx, f) -> scaled_entry v (mn, mx) /\ f = is_list v.
Proof.
  unfold tier_value. destruct (is_list v) eqn:Hl.
  - destruct v as [| | | | |xs|]; try discriminate Hl.
    destruct xs as [|a [|b rest]]; [discriminate| |].
    + intros H. res_inv. simpl in *. res_inv. subst. discriminate.
    + intros H. rewrite getitem_pair0 in H. cbn [res_bind] in H.
      destruct (parse_value a) as [z0|e] eqn:H0; [|discriminate].
      cbn [res_bind] in H. rewrite setitem_pair0 in H. cbn [res_bind] in H.
      rewrite getitem_pair1 in H. cbn [res_bind] in H.
      destruct (parse_value b) as [z1|e] eqn:H1; [|discriminate].
      cbn [res_bind] in H. rewrite setitem_pair1 in H. cbn [res_bind] in H.
      rewrite getitem_pair0 in H. cbn [res_bind] in H.
      rewrite getitem_pair1 in H. cbn [res_bind] in H. injection H as <- <- <-.
      split; [left; exists a, b, rest, z0, z1; auto | reflexivity].
  - intros H. res_inv. subst. split; [right; eauto | reflexivity].
Qed.

Lemma tier_value_false v mn mx f :
  tier_value false v = Ok (mn, mx, f) -> pair_or_scalar v /\ (mn, mx) = minmax v /\ f = false.
Proof.
  unfold tier_value. destruct (is_list v) eqn:Hl.
  - destruct v as [| | | | |xs|]; try discriminate Hl.
    destruct xs as [|a [|b rest]]; [discriminate|discriminate|].
    rewrite getitem_pair0, getitem_pair1. simpl. intros H. res_inv. subst. auto.
  - intros H. injection H as <- <- <-. destruct v; try discriminate Hl; simpl; auto.
Qed.

(** C13: in a scaled group every stored bound is the integer [parse_value]
    returns for the raw number (a list gives its first two elements, a
    scalar is both bounds), and [float] is [True] exactly when the LAST
    entry of [nvalues] is a list: a tier of scaled scalars, or one whose
    last entry is a scalar, is flagged [False]. *)
Theorem values_loop_scaled vs vals fl :
  values_loop true (JArr vs) = Ok (vals, fl) ->
  Forall2 scaled_entry vs vals /\ fl = last (map (fun v => Some (is_list v)) vs) None.
Proof.
  simpl. intros H. res_inv. subst.
  pose proof (res_map_Forall2 _ _ _ Hx) as HF.
  split.
  - apply Forall2_map_r. eapply Forall2_impl; [|exact HF].
    intros v [[mn mx] f] Hv. apply (tier_value_true _ _ _ _ Hv).
  - symmetry. eapply last_map_Forall2; [exact HF|].
    intros v [[mn mx] f] Hv. simpl. f_equal. symmetry. apply (tier_value_true _ _ _ _ Hv).
Qed.

Lemma values_loop_scaled_witness :
  Forall2 scaled_entry [JFloat (b64_of_decimal false 15 (-1))] [(JInt 90, JInt 90)] /\
  Some false = last (map (fun v => Some (is_list v)) [JFloat (b64_of_decimal false 15 (-1))]) None.
Proof. apply values_loop_scaled. vm_compute. reflexivity. Defined.

(** C17: without scaling the loop accepts exactly the entries that are
    scalars or lists of two or more elements, stores their first two
    elements (or the scalar twice) unchanged and flags [float = False]. *)
Theorem values_loop_unscaled vs vals fl :
  values_loop false (JArr vs) = Ok (vals, fl) <->
  Forall pair_or_scalar vs /\ vals = map minmax vs /\ fl = last (map (fun _ => Some false) vs) None.
Proof.
  simpl. split.
  - intros H. res_inv. subst. pose proof (res_map_Forall2 _ _ _ Hx) as HF.
    clear Hx. induction HF as [|v [[mn mx] f] vs' rs' Hv HF IH]; [auto|].
    destruct (tier_value_false _ _ _ _ Hv) as (Hp & Hm & ->).
    destruct IH as (IH1 & IH2 & IH3). simpl. rewrite <- Hm, IH2.
    split; [constructor; auto|]. split; [reflexivity|].
    destruct vs'; inversion HF; subst; simpl in *; [reflexivity|exact IH3].
  - intros (Hp & -> & ->). induction Hp as [|v vs' Hv Hp IH]; [reflexivity|].
    simpl. destruct (res_map (tier_value false) vs') as [rs|e] eqn:Hr; [|discriminate].
    replace (tier_value false v) with (Ok (minmax v, false) : py (json * json * bool)).
    + simpl. injection IH as IH1 IH2. rewrite IH1. f_equal. f_equal.
      destruct vs', rs; simpl in *; try discriminate; [reflexivity | exact IH2].
    + destruct v as [| | | | |[|a [|b rest]]|]; simpl in Hv; try contradiction; try reflexivity.
      unfold tier_value. cbn [is_list]. rewrite getitem_pair0. cbn [res_bind].
      rewrite getitem_pair1. reflexivity.
Qed.

Lemma values_loop_unscaled_witness :
  Forall pair_or_scalar [JArr [JInt 1; JInt 2]] /\ [(JInt 1, JInt 2)] = map minmax [JArr [JInt 1; JInt 2]] /\
  Some false = last (map (fun _ => Some false) [JArr [JInt 1; JInt 2]]) None.
Proof. apply values_loop_unscaled. reflexivity. Defined.

(** ** Tier labels *)

Lemma first_index_distinct xs x i :
  (i < List.length xs)%nat ->
  (forall j y, (j < i)%nat -> nth_error xs j = Some y -> py_eq_id y x = false) ->
  first_index xs x i = i.
Proof.
  revert i. induction xs as [|y xs IH]; intros i Hi Hne; simpl in Hi; [lia|].
  destruct i as [|i]; [reflexivity|]. simpl.
  rewrite (Hne 0%nat y) by (reflexivity || lia). f_equal. apply IH; [lia|].
  intros j z Hj Hz. apply (Hne (S j)); [lia | exact Hz].
Qed.

Lemma first_index_equal_before xs x i j y :
  (j < i)%nat -> nth_error xs j = Some y -> py_eq_id y x = true ->
  first_index xs x i = first_index xs x j.
Proof.
  revert i j. induction xs as [|y0 xs IH]; intros i j Hj Hy Heq; [destruct j; discriminate|].
  destruct i as [|i]; [lia|]. simpl.
  destruct (py_eq_id y0 x) eqn:H0; destruct j as [|j]; simpl in Hy |- *; try reflexivity.
  - injection Hy as ->. congruence.
  - f_equal. apply IH; [lia | exact Hy | exact Heq].
Qed.

(** C18: the tier record at position [i] (from 0) of a list of [n] records
    is labelled [T(n - i)] when no earlier record equals it: labels count
    down from the length of the unfiltered list, so a filtered tier
    leaves a gap. *)
Theorem tier_label_distinct xs x i :
  (i < List.length xs)%nat ->
  (forall j y, (j < i)%nat -> nth_error xs j = Some y -> py_eq_id y x = false) ->
  tier_label xs x i = "T" ++ str_of_Z (Z.of_nat (List.length xs) - Z.of_nat i).
Proof. intros Hi Hne. unfold tier_label. rewrite first_index_distinct; auto. Qed.

Lemma tier_label_distinct_witness :
  tier_label [ex_tier "1" "10" "[[10, 19]]"; ex_tier "11" "5" "[[20, 29]]"; ex_tier "22" "1" "[[30, 39]]"]
             (ex_tier "11" "5" "[[20, 29]]") 1 = "T" ++ str_of_Z (3 - 1).
Proof.
  apply tier_label_distinct; [simpl; lia|].
  intros j y Hj Hy. destruct j as [|j]; [|lia]. injection Hy as <-. vm_compute. reflexivity.
Defined.

(** C19: two equal tier records get the same label: [list.index] returns
    the first equal element, so a later duplicate is labelled as the
    earlier one. *)
Theorem tier_label_duplicate xs x i j :
  (j < i)%nat -> nth_error xs j = Some x -> py_eq_id x x = true ->
  tier_label xs x i = tier_label xs x j.
Proof.
  intros Hj Hx Heq. unfold tier_label. rewrite (first_index_equal_before xs x i j x); auto.
Qed.

Lemma tier_label_duplicate_witness :
  tier_label [ex_tier "1" "10" "[[1, 2]]"; ex_tier "1" "10" "[[1, 2]]"] (ex_tier "1" "10" "[[1, 2]]") 1 =
  tier_label [ex_tier "1" "10" "[[1, 2]]"; ex_tier "1" "10" "[[1, 2]]"] (ex_tier "1" "10" "[[1, 2]]") 0.
Proof. apply tier_label_duplicate; [lia | reflexivity | vm_compute; reflexivity]. Defined.

(** ** The [try] block *)

(** C14: the [try] block of lines 111-146: the loop returns [ts] exactly
    when every record is handled (its body returns, or raises
    [ValueError] or [JSONDecodeError] and the record is skipped) and [ts]
    are the tiers kept, in order; it raises [e] exactly when the records
    before some record are handled and that record's body raises [e],
    an exception other than these two ([KeyError], [TypeError],
    [IndexError], [OverflowError], ...), which escapes the loop. *)
Theorem tier_loop_except isf tvs i rest :
  (forall ts, tier_loop isf tvs i rest = Ok ts <->
     exists rs, tiers_handled isf tvs i rest rs /\ ts = omap id rs) /\
  (forall e, tier_loop isf tvs i rest = Exc e <->
     exists pre t post rs, rest = (pre ++ t :: post)%list /\ tiers_handled isf tvs i pre rs /\
       tier_body isf tvs (i + List.length pre) t = Exc e /\ e <> ValueError /\ e <> JSONDecodeError).
Proof. split; [apply tier_loop_Ok_iff | apply tier_loop_Exc_iff]. Qed.

Lemma tier_loop_except_witness :
  tier_loop false [ex_tier "abc" "10" "[[1, 2]]"; JObj []] 0 [ex_tier "abc" "10" "[[1, 2]]"; JObj []] = Exc KeyError.
Proof.
  apply (proj2 (proj2 (tier_loop_except _ _ _ _) KeyError)).
  exists [ex_tier "abc" "10" "[[1, 2]]"], (JObj []), [], [None].
  split; [reflexivity|]. split; [|split; [vm_compute; reflexivity | split; discriminate]].
  unfold tiers_handled. cbn. constructor; [|constructor]. right. split; [reflexivity|]. left. vm_compute. reflexivity.
Defined.

(** ** Unknown base identifiers and the key list *)

(** C21: a record naming a base identifier that is not a key of the group
    dictionary changes nothing and raises nothing, in each of the three
    enrichment stages (whatever else the record holds). *)
Theorem unknown_base_id_skipped poec_lang poec_data gs s item base ids :
  ~ In s (keys gs) ->
  (field item "id_base" = Ok (JStr s) -> parse_items_step poec_lang gs item = Ok gs) /\
  (field base "id_base" = Ok (JStr s) -> parse_bases_step poec_lang gs base = Ok gs) /\
  basemods_step poec_data gs (s, ids) = Ok gs.
Proof.
  intros Hn. split; [|split].
  - intros Hf. unfold parse_items_step. rewrite Hf. cbn [res_bind].
    rewrite group_mem_None by exact Hn. reflexivity.
  - intros Hf. unfold parse_bases_step. rewrite Hf. cbn [res_bind].
    rewrite group_mem_None by exact Hn. reflexivity.
  - simpl. rewrite (proj2 (assoc_lookup_None s gs) Hn). reflexivity.
Qed.

Lemma unknown_base_id_skipped_witness :
  (field (JObj [("id_base", JStr "9")]) "id_base" = Ok (JStr "9") ->
     parse_items_step JNull ex_groups (JObj [("id_base", JStr "9")]) = Ok ex_groups) /\
  (field (JObj [("id_base", JStr "9")]) "id_base" = Ok (JStr "9") ->
     parse_bases_step JNull ex_groups (JObj [("id_base", JStr "9")]) = Ok ex_groups) /\
  basemods_step JNull ex_groups ("9", JArr [JStr "100"]) = Ok ex_groups.
Proof. apply unknown_base_id_skipped. simpl. intros [H|[]]. discriminate H. Defined.

Lemma modifier_step_heads d b gs mid gs' :
  modifier_step d b gs mid = Ok gs' -> heads gs' = heads gs.
Proof.
  unfold modifier_step. intros H. res_inv.
  destruct x2 as [md|]; [|res_inv; subst; reflexivity].
  destruct (negb (truthy md)); [res_inv; subst; reflexivity|]. res_inv.
  repeat match type of H with
  | (if ?c then _ else _) = _ => destruct c
  end; res_inv; subst; try reflexivity; apply assoc_alter_proj; reflexivity.
Qed.

Lemma basemods_step_heads d gs e gs' :
  basemods_step d gs e = Ok gs' -> heads gs' = heads gs.
Proof.
  destruct e as [b ids]; simpl. intros H.
  destruct (assoc_lookup b gs); res_inv; subst; [|reflexivity].
  revert H. apply res_fold_preserve. apply modifier_step_heads.
Qed.

Lemma parse_modifiers_and_tiers_heads d gs gs' :
  parse_modifiers_and_tiers d gs = Ok gs' -> heads gs' = heads gs.
Proof.
  unfold parse_modifiers_and_tiers. intros H. res_inv.
  revert H. apply res_fold_preserve. apply basemods_step_heads.
Qed.

Lemma parse_modifiers_and_tiers_keys d gs gs' :
  parse_modifiers_and_tiers d gs = Ok gs' -> keys gs' = keys gs.
Proof. intros H. apply heads_keys. eapply parse_modifiers_and_tiers_heads; eassumption. Qed.

(** ** The modifier lookup and the tier tables *)

Lemma find_modifier_Some sq mid m :
  find_modifier sq mid = Ok (Some m) <->
  exists pre post i, sq = (pre ++ m :: post)%list
    /\ Forall (fun x => exists j, field x "id_modifier" = Ok j /\ py_eq j mid = false) pre
    /\ field m "id_modifier" = Ok i /\ py_eq i mid = true.
Proof.
  split.
  - induction sq as [|x sq IH]; simpl; [discriminate|].
    destruct (field x "id_modifier") as [j|] eqn:Hj; cbn [res_bind]; [|discriminate].
    destruct (py_eq j mid) eqn:He.
    + intros [= <-]. exists [], sq, j. auto.
    + intros H. destruct (IH H) as (pre & post & i & -> & Hpre & Hi & Hm).
      exists (x :: pre), post, i. split; [reflexivity|]. split; [constructor; eauto|]. auto.
  - intros (pre & post & i & -> & Hpre & Hi & Hm).
    induction Hpre as [|x pre (j & Hj & He) _ IH]; simpl.
    + rewrite Hi. cbn [res_bind]. now rewrite Hm.
    + rewrite Hj. cbn [res_bind]. now rewrite He.
Qed.

Lemma find_modifier_None sq mid :
  find_modifier sq mid = Ok None <->
  Forall (fun x => exists j, field x "id_modifier" = Ok j /\ py_eq j mid = false) sq.
Proof.
  induction sq as [|x sq IH]; simpl; [split; auto|].
  destruct (field x "id_modifier") as [j|] eqn:Hj; cbn [res_bind].
  - destruct (py_eq j mid) eqn:He.
    + split; [discriminate|]. intros Hf. inversion Hf as [|? ? (j' & Hj' & He') _]; subst. congruence.
    + rewrite IH. split; [intros; constructor; eauto | now inversion 1].
  - split; [discriminate|]. intros Hf. inversion Hf as [|? ? (j' & Hj' & _) _]; subst. congruence.
Qed.

(** The tier tables of other bases are not read: [tiers_loop] on the
    entries of [tiers[modifier_id]] only looks at those of its base. *)
Lemma tiers_loop_filter b es :
  tiers_loop b es = tiers_loop b (List.filter (fun e => String.eqb (fst e) b) es).
Proof.
  induction es as [|[bt tv] es IH]; [reflexivity|]. cbn [List.filter fst].
  destruct (String.eqb bt b) eqn:E; cbn [tiers_loop].
  - now rewrite IH.
  - unfold tiers_for_base at 1. rewrite E. cbn [res_bind]. rewrite IH.
    destruct (tiers_loop b (List.filter _ es)); reflexivity.
Qed.

(** C29: [find_modifier] is [next((m for m in seq if m["id_modifier"] ==
    modifier_id), None)]: it returns the first record whose id equals the
    modifier id, after records that all have a different id, and [None]
    when every record has an id and none equals it; a record without
    [id_modifier] before the match raises. *)
Theorem find_modifier_first sq mid :
  (forall m, find_modifier sq mid = Ok (Some m) <->
     exists pre post i, sq = (pre ++ m :: post)%list
       /\ Forall (fun x => exists j, field x "id_modifier" = Ok j /\ py_eq j mid = false) pre
       /\ field m "id_modifier" = Ok i /\ py_eq i mid = true)
  /\ (find_modifier sq mid = Ok None <->
      Forall (fun x => exists j, field x "id_modifier" = Ok j /\ py_eq j mid = false) sq).
Proof. split; [intros m; apply find_modifier_Some | apply find_modifier_None]. Qed.

Lemma find_modifier_first_witness :
  find_modifier [JObj [("id_modifier", JStr "4")]; JObj [("id_modifier", JStr "5"); ("affix", JStr "suffix")];
                 JObj [("id_modifier", JStr "5")]] (JStr "5")
  = Ok (Some (JObj [("id_modifier", JStr "5"); ("affix", JStr "suffix")])).
Proof.
  apply (proj1 (find_modifier_first _ _) _).
  exists [JObj [("id_modifier", JStr "4")]], [JObj [("id_modifier", JStr "5")]], (JStr "5").
  split; [reflexivity|]. split; [repeat constructor; eexists; split; reflexivity|].
  split; reflexivity.
Defined.

(** C30: the tiers of a modifier are read from the entries of
    [poec_data["tiers"][modifier_id]] whose base is the current base id
    only: the others are never inspected, so a malformed table of another
    base neither contributes nor raises. *)
Theorem tiers_restricted_to_base b es :
  tiers_loop b es = tiers_loop b (List.filter (fun e => String.eqb (fst e) b) es).
Proof. apply tiers_loop_filter. Qed.

(** *** Exact scaling of integral values *)

Lemma parse_value_scale z :
  Z.abs (60 * z) < 2 ^ 53 ->
  parse_value (JInt z) = Ok (60 * z) /\ parse_value (JFloat (b64_of_Z_raw z)) = Ok (60 * z).
Proof.
  intros Hz. unfold parse_value. cbn [py_float]. rewrite b64_of_Z_small by lia. cbn [res_bind].
  rewrite Z.mul_comm. split; apply b64_scale_int; lia.
Qed.

(** C36: the truncation of line 161 only hurts non-integral values:
    [int(float(value) * 60)] is exactly [60 * value] for every [int], and
    for every [float] holding an integer, while [60 * value] is below
    [2^53] in absolute value (the binary64 product is then exact). *)
Theorem parse_value_exact z :
  Z.abs (60 * z) < 2 ^ 53 ->
  parse_value (JInt z) = Ok (60 * z) /\ parse_value (JFloat (b64_of_Z_raw z)) = Ok (60 * z).
Proof. exact (parse_value_scale z). Qed.

Lemma parse_value_exact_witness :
  Z.abs (60 * 150119987579016) < 2 ^ 53
  /\ parse_value (JInt 150119987579016) = Ok 9007199254740960
  /\ parse_value (JFloat (b64_of_Z_raw 150119987579016)) = Ok 9007199254740960.
Proof.
  assert (H : Z.abs (60 * 150119987579016) < 2 ^ 53) by (vm_compute; reflexivity).
  split; [exact H | exact (parse_value_exact 150119987579016 H)].
Defined.
