(* ===== verification/Commute.v ===== *)
(** * The order of the enrichment stages

    Lines 200-202 run [parse_items], [parse_bases_and_groups] and
    [parse_modifiers_and_tiers] on the dictionary [base_groups], in this
    order.  Each loop decides what to do for a record from the record,
    the fetched documents and the keys of the dictionary alone
    ([group_mem], [base_id in base_groups]), keeps the keys, and applies
    to one group a function of its own: [add_item], [set_base_type] and
    [set_bgroup], [add_prefix] and [add_suffix].  These functions change
    disjoint fields, so any two of the stages commute: in the other order
    they give the same dictionary, and they succeed exactly when this
    order does.

    The stages are rewritten as the application ([alter_all]) of a list
    of effects, one [(key, function)] pair per change, computed from the
    keys ([items_effects], [bases_effects], [modifiers_effects]); the
    rewriting is checked against the stages' definitions
    ([parse_items_effects], ...).  The class [EffectStage] states this
    factorisation as the interface of a stage, and [StagesDisjoint] that
    two stages' effects commute; [stages_commute] is the general argument,
    proved against the classes, and the three stages are instances. *)

From S2P Require Import Prelude PyStr PyFloat PyValue JsonLoads BaseGroups Modifiers.
From Stdlib Require Import String.
Open Scope string_scope.

(** ** Effects on the groups *)

(** Apply [(key, f)] pairs in order, each to the group under its key. *)
Definition alter_all {V} (es : list (string * (V -> V))) (d : list (string * V)) : list (string * V) :=
  fold_left (fun d kf => assoc_alter (snd kf) (fst kf) d) es d.

(** Effects that commute where they meet. *)
Definition effects_commute {V} (es1 es2 : list (string * (V -> V))) : Prop :=
  forall kf1 kf2, In kf1 es1 -> In kf2 es2 -> fst kf1 = fst kf2 ->
  forall v, snd kf1 (snd kf2 v) = snd kf2 (snd kf1 v).

Abbreviation effect := (string * (BaseGroup -> BaseGroup))%type.

(** The effects of one record of each loop, computed from the keys. *)
Definition item_effects (l : json) (ks : list string) (item : json) : py (list effect) :=
  let* base_id := field item "id_base" in
  let* k := str_key base_id in
  match k with
  | Some s => if existsb (String.eqb s) ks then let* name := item_name l item in Ok [(s, add_item name)]
              else Ok []
  | None => Ok []
  end.

Definition base_effects (l : json) (ks : list string) (base : json) : py (list effect) :=
  let* base_id := field base "id_base" in
  let* k := str_key base_id in
  match k with
  | Some s => if existsb (String.eqb s) ks then
                let* '(bt, bg) := base_info l base in Ok [(s, set_base_type bt); (s, set_bgroup bg)]
              else Ok []
  | None => Ok []
  end.

Definition modifier_effects (poec_data : json) (base_id : string) (modifier_id : json) : py (list effect) :=
  let* mods := field poec_data "modifiers" in
  let* sqv := field mods "seq" in
  let* sq := py_iter sqv in
  let* found := find_modifier sq modifier_id in
  match found with
  | Some modifier_data =>
      if negb (truthy modifier_data) then Ok [] else
      let* modifier_name := field modifier_data "name_modifier" in
      let* affix_type := field modifier_data "affix" in
      let* mgs := mod_groups_of modifier_data in
      let* all_tiers := field poec_data "tiers" in
      let* tkvs := as_dict all_tiers in
      let* tiers_v := get_in tkvs modifier_id (JObj []) in
      let* entries := dict_items tiers_v in
      let* tier_list := tiers_loop base_id entries in
      let affix := {| description := modifier_name; mod_groups := mgs; tiers := tier_list |} in
      if py_eq affix_type (JStr "prefix") then Ok [(base_id, add_prefix affix)]
      else if py_eq affix_type (JStr "suffix") then Ok [(base_id, add_suffix affix)]
      else Ok []
  | None => Ok []
  end.

Definition basemods_effects (poec_data : json) (ks : list string) (entry : string * json) : py (list effect) :=
  let '(base_id, modifier_ids) := entry in
  if existsb (String.eqb base_id) ks then
    let* ids := py_iter modifier_ids in
    let* ess := res_map (modifier_effects poec_data base_id) ids in
    Ok (List.concat ess)
  else Ok [].

(** Each stage applies to the groups effects computed from their keys. *)
Definition items_effects (d l : json) (ks : list string) : py (list effect) :=
  let* xs := seq_of d "bitems" in let* ess := res_map (item_effects l ks) xs in Ok (List.concat ess).
Definition bases_effects (d l : json) (ks : list string) : py (list effect) :=
  let* xs := seq_of d "bases" in let* ess := res_map (base_effects l ks) xs in Ok (List.concat ess).
Definition modifiers_effects (d : json) (ks : list string) : py (list effect) :=
  let* basemods := field d "basemods" in
  let* entries := dict_items basemods in
  let* ess := res_map (basemods_effects d ks) entries in Ok (List.concat ess).

(** The functions each stage applies. *)
Definition items_kind (es : list effect) : Prop := Forall (fun e => exists n, snd e = add_item n) es.
Definition bases_kind (es : list effect) : Prop :=
  Forall (fun e => exists v, snd e = set_base_type v \/ snd e = set_bgroup v) es.
Definition modifiers_kind (es : list effect) : Prop :=
  Forall (fun e => exists a, snd e = add_prefix a \/ snd e = add_suffix a) es.

(** ** The interface of a stage

    What the commutation argument needs of a stage: it applies to the
    groups effects computed from their keys alone.  The three stages are
    instances; [stages_commute] is proved against the class. *)
Class EffectStage (S : Groups -> py Groups) := {
  stage_effects : list string -> py (list effect);
  stage_factor g : S g = let* es := stage_effects (keys g) in Ok (alter_all es g)
}.
Arguments stage_effects S {_} _.
Arguments stage_factor S {_} _.

(** Two stages whose effects, computed from the same keys, commute. *)
Class StagesDisjoint (S1 S2 : Groups -> py Groups) `{EffectStage S1} `{EffectStage S2} :=
  stages_disjoint ks es1 es2 :
    stage_effects S1 ks = Ok es1 -> stage_effects S2 ks = Ok es2 -> effects_commute es1 es2.

(** ** Example inputs *)

(** A data document with the item, base and modifier tables. *)
Definition ex_enrich_data : json :=
  match ex_items_data, ex_bases_data, ex_data with
  | JObj a, JObj b, JObj c => JObj (a ++ b ++ c)
  | _, _, _ => JNull
  end.

Definition ex_start : Groups :=
  match parse_base_groups ex_items_lang with Ok gs => gs | Exc _ => [] end.

Definition ex_enriched : Groups :=
  match parse_items ex_enrich_data ex_items_lang ex_start with
  | Ok g1 => match parse_bases_and_groups ex_enrich_data ex_items_lang g1 with Ok r => r | Exc _ => [] end
  | Exc _ => []
  end.

(** ** Lemmas *)

Section Effects.
Context {V : Type}.
Implicit Types (es : list (string * (V -> V))) (d : list (string * V)).

Lemma alter_all_cons kf es d : alter_all (kf :: es) d = alter_all es (assoc_alter (snd kf) (fst kf) d).
Proof. reflexivity. Qed.

Lemma alter_all_keys es d : map fst (alter_all es d) = map fst d.
Proof.
  revert d. induction es as [|[k f] es IH]; intros d; [reflexivity|].
  rewrite alter_all_cons, IH. apply assoc_alter_keys.
Qed.

Lemma alter_all_app es1 es2 d : alter_all (es1 ++ es2) d = alter_all es2 (alter_all es1 d).
Proof. apply fold_left_app. Qed.

Lemma assoc_alter_comm f g k k' (d : list (string * V)) :
  (k = k' -> forall v, f (g v) = g (f v)) ->
  assoc_alter f k (assoc_alter g k' d) = assoc_alter g k' (assoc_alter f k d).
Proof.
  intros Hfg. induction d as [|[k2 v2] d IH]; [reflexivity|]. cbn.
  destruct (String.eqb k' k2) eqn:E1, (String.eqb k k2) eqn:E2; cbn; rewrite ?E1, ?E2; try reflexivity.
  - apply String.eqb_eq in E1, E2. subst. now rewrite Hfg.
  - now rewrite IH.
Qed.

Lemma alter_one_comm k f es d :
  (forall kf, In kf es -> k = fst kf -> forall v, f (snd kf v) = snd kf (f v)) ->
  assoc_alter f k (alter_all es d) = alter_all es (assoc_alter f k d).
Proof.
  revert d. induction es as [|[k2 f2] es IH]; intros d H; [reflexivity|]. rewrite !alter_all_cons. cbn [fst snd].
  rewrite IH by (intros kf Hin; apply H; now right). f_equal.
  apply assoc_alter_comm. intros E. apply (H (k2, f2)); [now left | exact E].
Qed.

Lemma alter_all_comm es1 es2 d :
  effects_commute es1 es2 -> alter_all es1 (alter_all es2 d) = alter_all es2 (alter_all es1 d).
Proof.
  revert d. induction es1 as [|[k f] es1 IH]; intros d H; [reflexivity|]. rewrite !alter_all_cons. cbn [fst snd].
  rewrite alter_one_comm by (intros kf Hin E; apply (H (k, f) kf); [now left | exact Hin | exact E]).
  apply IH. intros kf1 kf2 H1 H2. apply H; [now right | exact H2].
Qed.

(** A loop whose body applies effects chosen from the keys applies them all. *)
Lemma res_fold_effects {A E} (step : list (string * V) -> A -> result E (list (string * V)))
    (eff : list string -> A -> result E (list (string * (V -> V)))) :
  (forall d x, step d x = let* es := eff (map fst d) x in Ok (alter_all es d)) ->
  forall xs d, res_fold step d xs
               = let* ess := res_map (eff (map fst d)) xs in Ok (alter_all (List.concat ess) d).
Proof.
  intros Hstep. induction xs as [|x xs IH]; intros d; [reflexivity|]. cbn [res_fold res_map].
  rewrite Hstep. destruct (eff (map fst d) x) as [es|e]; cbn [res_bind]; [|reflexivity].
  rewrite IH, alter_all_keys. destruct (res_map _ xs) as [ess|e]; cbn [res_bind List.concat]; [|reflexivity].
  now rewrite alter_all_app.
Qed.
End Effects.

Lemma group_mem_existsb gs v :
  group_mem gs v = let* k := str_key v in
                   Ok (match k with Some s => if existsb (String.eqb s) (keys gs) then Some s else None
                                  | None => None end).
Proof.
  unfold group_mem. destruct (str_key v) as [[s|]|]; cbn; try reflexivity. f_equal.
  destruct (assoc_lookup s gs) as [g|] eqn:E.
  - apply assoc_lookup_In in E. replace (existsb _ _) with true; [reflexivity|]. symmetry.
    apply existsb_exists. exists s. split; [|apply String.eqb_refl]. apply in_map_iff. now exists (s, g).
  - apply assoc_lookup_None in E. replace (existsb _ _) with false; [reflexivity|]. symmetry.
    apply not_true_iff_false. intros (s' & Hin & ->%String.eqb_eq)%existsb_exists. contradiction.
Qed.

(** Replay two chains of [let*] that start alike. *)
Ltac same_chain :=
  repeat (cbn [res_bind]; match goal with
  | |- res_bind ?m _ = _ => destruct m
  | |- match ?x with _ => _ end = _ => destruct x
  end); try reflexivity.

Lemma parse_items_step_effects l gs item :
  parse_items_step l gs item = let* es := item_effects l (keys gs) item in Ok (alter_all es gs).
Proof.
  unfold parse_items_step, item_effects, item_name. destruct (field item "id_base"); cbn [res_bind]; [|reflexivity].
  rewrite group_mem_existsb. destruct (str_key _) as [[s|]|]; cbn [res_bind]; try reflexivity.
  destruct (existsb _ _); [|reflexivity]. same_chain.
Qed.

Lemma parse_bases_step_effects l gs base :
  parse_bases_step l gs base = let* es := base_effects l (keys gs) base in Ok (alter_all es gs).
Proof.
  unfold parse_bases_step, base_effects, base_info. destruct (field base "id_base"); cbn [res_bind]; [|reflexivity].
  rewrite group_mem_existsb. destruct (str_key _) as [[s|]|]; cbn [res_bind]; try reflexivity.
  destruct (existsb _ _); [|reflexivity]. same_chain.
Qed.

Lemma modifier_step_effects d b gs mid :
  modifier_step d b gs mid = let* es := modifier_effects d b mid in Ok (alter_all es gs).
Proof.
  unfold modifier_step, modifier_effects. same_chain.
Qed.

Lemma existsb_keys gs s :
  existsb (String.eqb s) (keys gs) = match assoc_lookup s gs with Some _ => true | None => false end.
Proof.
  destruct (assoc_lookup s gs) as [g|] eqn:E.
  - apply assoc_lookup_In in E. apply existsb_exists. exists s. split; [|apply String.eqb_refl].
    apply in_map_iff. now exists (s, g).
  - apply assoc_lookup_None in E. apply not_true_iff_false.
    intros (s' & Hin & ->%String.eqb_eq)%existsb_exists. contradiction.
Qed.

Lemma basemods_step_effects d gs entry :
  basemods_step d gs entry = let* es := basemods_effects d (keys gs) entry in Ok (alter_all es gs).
Proof.
  destruct entry as [b mids]. cbn [basemods_step basemods_effects]. rewrite existsb_keys.
  destruct (assoc_lookup b gs); [|reflexivity]. destruct (py_iter mids) as [ids|e]; cbn [res_bind]; [|reflexivity].
  rewrite (res_fold_effects _ (fun _ => modifier_effects d b) (fun gs0 mid => modifier_step_effects d b gs0 mid)).
  destruct (res_map _ ids); reflexivity.
Qed.


Lemma parse_items_effects d l gs :
  parse_items d l gs = let* es := items_effects d l (keys gs) in Ok (alter_all es gs).
Proof.
  unfold parse_items, items_effects. destruct (seq_of d "bitems"); cbn [res_bind]; [|reflexivity].
  rewrite (res_fold_effects _ _ (parse_items_step_effects l)). destruct (res_map _ _); reflexivity.
Qed.

Lemma parse_bases_effects d l gs :
  parse_bases_and_groups d l gs = let* es := bases_effects d l (keys gs) in Ok (alter_all es gs).
Proof.
  unfold parse_bases_and_groups, bases_effects. destruct (seq_of d "bases"); cbn [res_bind]; [|reflexivity].
  rewrite (res_fold_effects _ _ (parse_bases_step_effects l)). destruct (res_map _ _); reflexivity.
Qed.

Lemma parse_modifiers_effects d gs :
  parse_modifiers_and_tiers d gs = let* es := modifiers_effects d (keys gs) in Ok (alter_all es gs).
Proof.
  unfold parse_modifiers_and_tiers, modifiers_effects.
  destruct (field d "basemods"); cbn [res_bind]; [|reflexivity].
  destruct (dict_items _); cbn [res_bind]; [|reflexivity].
  rewrite (res_fold_effects _ _ (basemods_step_effects d)). destruct (res_map _ _); reflexivity.
Qed.


Lemma Forall_concat_res {A B E} (f : A -> result E (list B)) (P : B -> Prop) xs ess :
  (forall x es, f x = Ok es -> Forall P es) -> res_map f xs = Ok ess -> Forall P (List.concat ess).
Proof.
  intros Hf H. assert (Hall : Forall (Forall P) ess)
    by (eapply res_map_Forall; [|exact H]; intros x es _ Hx; exact (Hf x es Hx)).
  apply Forall_forall. intros y (es & Hes & Hy)%in_concat.
  exact (proj1 (Forall_forall _ _) (Forall_In _ _ _ Hall Hes) y Hy).
Qed.

Lemma items_effects_kind d l ks es : items_effects d l ks = Ok es -> items_kind es.
Proof.
  unfold items_effects. intros H. res_inv. subst. eapply Forall_concat_res; [|eassumption].
  intros item es Hi. unfold item_effects in Hi. res_inv.
  destruct_match_in Hi; res_inv; subst; repeat constructor; eauto.
Qed.

Lemma bases_effects_kind d l ks es : bases_effects d l ks = Ok es -> bases_kind es.
Proof.
  unfold bases_effects. intros H. res_inv. subst. eapply Forall_concat_res; [|eassumption].
  intros base es Hb. unfold base_effects in Hb. res_inv.
  destruct_match_in Hb; res_inv; subst; repeat constructor; eauto.
Qed.

Lemma modifier_effects_kind d b mid es : modifier_effects d b mid = Ok es -> modifiers_kind es.
Proof.
  unfold modifier_effects. intros H. res_inv.
  destruct_match_in H; res_inv; try (destruct_match_in H; res_inv); subst; repeat constructor; eauto.
Qed.

Lemma modifiers_effects_kind d ks es : modifiers_effects d ks = Ok es -> modifiers_kind es.
Proof.
  unfold modifiers_effects. intros H. res_inv. subst. eapply Forall_concat_res; [|eassumption].
  intros [b mids] es Hm. cbn in Hm. destruct (existsb _ _); res_inv; subst; [|constructor].
  eapply Forall_concat_res; [|eassumption]. apply modifier_effects_kind.
Qed.

Ltac kinds_commute :=
  unfold items_kind, bases_kind, modifiers_kind in *; intros kf1 kf2 H1 H2 _ v;
  repeat match goal with
  | H : Forall _ ?es, Hin : In _ ?es |- _ => let Hx := fresh in pose proof (Forall_In _ _ _ H Hin) as Hx; cbv beta in Hx; clear Hin
  end;
  repeat match goal with H : exists _, _ |- _ => destruct H end;
  repeat match goal with H : _ \/ _ |- _ => destruct H end;
  repeat match goal with H : snd _ = _ |- _ => rewrite H end; reflexivity.

Lemma items_bases_commute es1 es2 : items_kind es1 -> bases_kind es2 -> effects_commute es1 es2.
Proof. intros Ha Hb. kinds_commute. Qed.
Lemma items_modifiers_commute es1 es2 : items_kind es1 -> modifiers_kind es2 -> effects_commute es1 es2.
Proof. intros Ha Hb. kinds_commute. Qed.
Lemma bases_modifiers_commute es1 es2 : bases_kind es1 -> modifiers_kind es2 -> effects_commute es1 es2.
Proof. intros Ha Hb. kinds_commute. Qed.

Lemma effects_commute_sym {V} (es1 es2 : list (string * (V -> V))) :
  effects_commute es1 es2 -> effects_commute es2 es1.
Proof. intros H kf1 kf2 H1 H2 E v. symmetry. apply H; auto. Qed.

#[export] Instance items_stage d l : EffectStage (parse_items d l) :=
  {| stage_effects := items_effects d l; stage_factor := parse_items_effects d l |}.
#[export] Instance bases_stage d l : EffectStage (parse_bases_and_groups d l) :=
  {| stage_effects := bases_effects d l; stage_factor := parse_bases_effects d l |}.
#[export] Instance modifiers_stage d : EffectStage (parse_modifiers_and_tiers d) :=
  {| stage_effects := modifiers_effects d; stage_factor := parse_modifiers_effects d |}.

Ltac unfold_stages :=
  cbn [stage_effects items_stage bases_stage modifiers_stage] in *.

#[export] Instance items_bases_disjoint d l : StagesDisjoint (parse_items d l) (parse_bases_and_groups d l).
Proof. intros ks es1 es2 H1 H2. unfold_stages. apply items_bases_commute; eauto using items_effects_kind, bases_effects_kind. Qed.
#[export] Instance items_modifiers_disjoint d l : StagesDisjoint (parse_items d l) (parse_modifiers_and_tiers d).
Proof. intros ks es1 es2 H1 H2. unfold_stages. apply items_modifiers_commute; eauto using items_effects_kind, modifiers_effects_kind. Qed.
#[export] Instance bases_modifiers_disjoint d l : StagesDisjoint (parse_bases_and_groups d l) (parse_modifiers_and_tiers d).
Proof. intros ks es1 es2 H1 H2. unfold_stages. apply bases_modifiers_commute; eauto using bases_effects_kind, modifiers_effects_kind. Qed.

Section Commuting.
Context (S1 S2 : Groups -> py Groups) `{!EffectStage S1, !EffectStage S2}.

(** Two stages that apply commuting effects computed from the keys commute. *)
Lemma stages_commute gs r :
  (forall es1 es2, stage_effects S1 (keys gs) = Ok es1 -> stage_effects S2 (keys gs) = Ok es2 ->
                   effects_commute es1 es2) ->
  (let* g := S1 gs in S2 g) = Ok r -> (let* g := S2 gs in S1 g) = Ok r.
Proof.
  intros Hc H. rewrite (stage_factor S1) in H.
  destruct (stage_effects S1 (keys gs)) as [es1|e] eqn:E1e; cbn [res_bind] in H; [|discriminate].
  rewrite (stage_factor S2) in H. unfold keys in H at 1. rewrite alter_all_keys in H. fold (keys gs) in H.
  destruct (stage_effects S2 (keys gs)) as [es2|e] eqn:E2e; cbn [res_bind] in H; [|discriminate].
  injection H as <-. rewrite (stage_factor S2), E2e. cbn [res_bind]. rewrite (stage_factor S1).
  unfold keys at 1. rewrite alter_all_keys. fold (keys gs).
  rewrite E1e. cbn [res_bind]. f_equal. apply alter_all_comm, Hc; reflexivity.
Qed.
End Commuting.

Lemma stages_commute_iff S1 S2 `{StagesDisjoint S1 S2} gs r :
  (let* g := S1 gs in S2 g) = Ok r <-> (let* g := S2 gs in S1 g) = Ok r.
Proof.
  split; [apply (stages_commute S1 S2) | apply (stages_commute S2 S1)].
  - intros es1 es2. apply stages_disjoint.
  - intros es2 es1 E2e E1e. apply effects_commute_sym. eapply stages_disjoint; eassumption.
Qed.

Lemma enrich_commute d l gs r :
  ((let* g := parse_items d l gs in parse_bases_and_groups d l g) = Ok r
   <-> (let* g := parse_bases_and_groups d l gs in parse_items d l g) = Ok r)
  /\ ((let* g := parse_items d l gs in parse_modifiers_and_tiers d g) = Ok r
      <-> (let* g := parse_modifiers_and_tiers d gs in parse_items d l g) = Ok r)
  /\ ((let* g := parse_bases_and_groups d l gs in parse_modifiers_and_tiers d g) = Ok r
      <-> (let* g := parse_modifiers_and_tiers d gs in parse_bases_and_groups d l g) = Ok r).
Proof. split; [|split]; eapply stages_commute_iff; typeclasses eauto. Qed.

(** C35: the enrichment stages of lines 200-202 commute pairwise: for
    any documents and dictionary, running two of them in the other order
    returns [r] exactly when this order returns [r]. *)
Theorem enrich_order_irrelevant d l gs r :
  ((let* g := parse_items d l gs in parse_bases_and_groups d l g) = Ok r
   <-> (let* g := parse_bases_and_groups d l gs in parse_items d l g) = Ok r)
  /\ ((let* g := parse_items d l gs in parse_modifiers_and_tiers d g) = Ok r
      <-> (let* g := parse_modifiers_and_tiers d gs in parse_items d l g) = Ok r)
  /\ ((let* g := parse_bases_and_groups d l gs in parse_modifiers_and_tiers d g) = Ok r
      <-> (let* g := parse_modifiers_and_tiers d gs in parse_bases_and_groups d l g) = Ok r).
Proof. exact (enrich_commute d l gs r). Qed.

Lemma enrich_order_irrelevant_witness :
  (let* g1 := parse_items ex_enrich_data ex_items_lang ex_start in
   parse_bases_and_groups ex_enrich_data ex_items_lang g1) = Ok ex_enriched
  /\ (let* g1 := parse_bases_and_groups ex_enrich_data ex_items_lang ex_start in
      parse_items ex_enrich_data ex_items_lang g1) = Ok ex_enriched.
Proof.
  assert (H : (let* g1 := parse_items ex_enrich_data ex_items_lang ex_start in
               parse_bases_and_groups ex_enrich_data ex_items_lang g1) = Ok ex_enriched)
    by (vm_compute; reflexivity).
  split; [exact H | exact (proj1 (proj1 (enrich_order_irrelevant _ _ _ _)) H)].
Defined.
