(* ===== verification/Percentages.v ===== *)
(** * [calculate_percentages]

    Lines 171-193 of [scrapper.py].  For every group the stage sums the
    weightings of all prefix tiers and of all suffix tiers (Python [int]s,
    [total_weight]), and writes on every tier

    - [affix_percent = round((w / total) * 100, 4) if total > 0 else 0],
      [total] the sum of the tier's own affix type;
    - [weight_percent], the same with the sum of both types.

    [w / total] is Python's true division of [int]s, [* 100] a binary64
    product and [round(., 4)] CPython's correctly rounded [round]; all are
    from [PyFloat] ([percent]).  The [else 0] branch stores the [int]
    [0]; the other branch stores a [float].

    The stage is the functional map [calculate_percentages] over the
    group dictionary: it rebuilds every tier with the two fields set,
    which is what the in-place assignments of lines 192-193 do to the
    tier dictionaries, none of which is shared.

    Theorems: the stage meets the relational specification
    [group_percents] (every tier's two fields are [percent] of its
    weighting in the totals of lines 173-179, nothing else changes, and
    it raises exactly when a percentage raises); it writes only the two
    percentage fields; under the
    weighting invariant the [else 0] branches are dead code, every tier
    receives two [float]s; a tier carrying the whole weight of its type
    gets exactly [100.0]. *)

From S2P Require Import Prelude PyStr PyFloat PyValue JsonLoads BaseGroups Modifiers.


Open Scope Z_scope.

(** [sum(tier["weighting"] for a in affixes for tier in a["tiers"])] *)
Definition total_weight (afs : list Affix) : Z :=
  sumZ (concat (map (fun a => map weighting (tiers a)) afs)).

(** [round((w / total) * 100, 4) if total > 0 else 0] *)
Definition percent (w total : Z) : py json :=
  if 0 <? total then
    let* x := b64_true_div w total in
    let* r := b64_round (b64_mul x (b64_of_Z_raw 100)) 4 in
    Ok (JFloat r)
  else Ok (JInt 0).

Definition with_percents (t : Tier) (ap wp : json) : Tier :=
  {| tier := tier t; ilvl := ilvl t; weighting := weighting t; values := values t;
     float := float t; affix_percent := Some ap; weight_percent := Some wp |}.

(** Lines 186-193 for one tier. *)
Definition set_percents (total base_total : Z) (t : Tier) : py Tier :=
  let* ap := percent (weighting t) total in
  let* wp := percent (weighting t) base_total in
  Ok (with_percents t ap wp).

Definition with_tiers (a : Affix) (ts : list Tier) : Affix :=
  {| description := description a; mod_groups := mod_groups a; tiers := ts |}.

(** Lines 185-193 for one affix. *)
Definition percent_affix (total base_total : Z) (a : Affix) : py Affix :=
  let* ts := res_map (set_percents total base_total) (tiers a) in
  Ok (with_tiers a ts).

Definition with_affixes (g : BaseGroup) (ps ss : list Affix) : BaseGroup :=
  {| base_group := base_group g; items := items g; prefixes := ps; suffixes := ss;
     base_type := base_type g; bgroup := bgroup g |}.

(** Lines 173-193 for one group. *)
Definition percent_group (g : BaseGroup) : py BaseGroup :=
  let total_prefix_weight := total_weight (prefixes g) in
  let total_suffix_weight := total_weight (suffixes g) in
  let total_base_weight := total_prefix_weight + total_suffix_weight in
  let* ps := res_map (percent_affix total_prefix_weight total_base_weight) (prefixes g) in
  let* ss := res_map (percent_affix total_suffix_weight total_base_weight) (suffixes g) in
  Ok (with_affixes g ps ss).

Definition calculate_percentages (gs : Groups) : py Groups :=
  res_map (fun '(k, g) => let* g' := percent_group g in Ok (k, g')) gs.

(** ** Specifications *)

(** A tier with its percentage fields cleared. *)
Definition strip_tier (t : Tier) : Tier :=
  {| tier := tier t; ilvl := ilvl t; weighting := weighting t; values := values t;
     float := float t; affix_percent := None; weight_percent := None |}.

Definition strip_affix (a : Affix) : Affix := with_tiers a (map strip_tier (tiers a)).

Definition strip_group (g : BaseGroup) : BaseGroup :=
  with_affixes g (map strip_affix (prefixes g)) (map strip_affix (suffixes g)).

Definition strip_groups (gs : Groups) : Groups := map (fun kv => (fst kv, strip_group (snd kv))) gs.

(** What lines 186-193 make of a tier when its affix type weighs [tot]
    and its group [bt]: the same tier, with [affix_percent] and
    [weight_percent] the percentages of its weighting in [tot] and [bt]. *)
Definition tier_percents (tot bt : Z) (t t' : Tier) : Prop :=
  strip_tier t' = strip_tier t /\
  exists ap wp, percent (weighting t) tot = Ok ap /\ percent (weighting t) bt = Ok wp /\
    affix_percent t' = Some ap /\ weight_percent t' = Some wp.

Definition affix_percents (tot bt : Z) (a a' : Affix) : Prop :=
  description a' = description a /\ mod_groups a' = mod_groups a /\
  Forall2 (tier_percents tot bt) (tiers a) (tiers a').

(** A group after lines 173-193: prefix tiers against the prefix total,
    suffix tiers against the suffix total, both against their sum. *)
Definition group_percents (g g' : BaseGroup) : Prop :=
  let tp := total_weight (prefixes g) in
  let ts := total_weight (suffixes g) in
  base_group g' = base_group g /\ items g' = items g /\ base_type g' = base_type g /\ bgroup g' = bgroup g /\
  Forall2 (affix_percents tp (tp + ts)) (prefixes g) (prefixes g') /\
  Forall2 (affix_percents ts (tp + ts)) (suffixes g) (suffixes g').

Definition is_JFloat (v : option json) : Prop := exists f, v = Some (JFloat f).

(** Every tier of every group carries two [float] percentages. *)
Definition float_percents (gs : Groups) : Prop :=
  Forall (fun kv => Forall (fun a => Forall (fun t => is_JFloat (affix_percent t) /\ is_JFloat (weight_percent t))
                                           (tiers a))
                           (prefixes (snd kv) ++ suffixes (snd kv))) gs.

(** A percentage as the spec bounds it: a [float] [r] with
    [0 <= r <= 100]. *)
Definition pct_ok (v : option json) : Prop :=
  exists r, v = Some (JFloat r) /\ b64_ge_Z r 0 = true /\ b64_le_Z r 100 = true.

Definition tiers_pct_ok (ts : list Tier) : Prop :=
  Forall (fun t => pct_ok (affix_percent t) /\ pct_ok (weight_percent t)) ts.

(** Every tier of every group carries two percentages in [[0, 100]]. *)
Definition percents_in_range (gs : Groups) : Prop :=
  Forall (fun kv => Forall (fun a => tiers_pct_ok (tiers a)) (prefixes (snd kv) ++ suffixes (snd kv))) gs.

Definition ex_percents : Groups :=
  match calculate_percentages ex_after with Ok gs => gs | Exc _ => [] end.

(** ** Lemmas *)

Lemma set_percents_strip tot bt t t' : set_percents tot bt t = Ok t' -> strip_tier t' = strip_tier t.
Proof. unfold set_percents. intros H. res_inv. subst. reflexivity. Qed.

Lemma percent_affix_strip tot bt a a' : percent_affix tot bt a = Ok a' -> strip_affix a' = strip_affix a.
Proof.
  unfold percent_affix. intros H. res_inv. subst. unfold strip_affix, with_tiers. simpl.
  erewrite res_map_preserve; [reflexivity | | eassumption].
  intros. eapply set_percents_strip; eassumption.
Qed.

Lemma percent_group_strip g g' : percent_group g = Ok g' -> strip_group g' = strip_group g.
Proof.
  unfold percent_group. intros H. res_inv. subst. unfold strip_group, with_affixes. simpl.
  assert (Hp : map strip_affix x = map strip_affix (prefixes g))
    by (eapply res_map_preserve; [intros; eapply percent_affix_strip; eassumption | eassumption]).
  assert (Hs : map strip_affix x0 = map strip_affix (suffixes g))
    by (eapply res_map_preserve; [intros; eapply percent_affix_strip; eassumption | eassumption]).
  rewrite Hp, Hs. reflexivity.
Qed.

Lemma percent_float w tot v : 0 < tot -> percent w tot = Ok v -> exists f, v = JFloat f.
Proof.
  unfold percent. intros Ht. rewrite (proj2 (Z.ltb_lt 0 tot) Ht). intros H. res_inv. eauto.
Qed.

Lemma total_weight_pos afs a t :
  affixes_ok afs -> In a afs -> In t (tiers a) -> 0 < total_weight afs.
Proof.
  intros Hok Ha Ht. unfold total_weight.
  assert (Hw : 1 < weighting t).
  { unfold affixes_ok, tiers_ok in Hok. rewrite Forall_forall in Hok.
    specialize (Hok a Ha). rewrite Forall_forall in Hok. exact (Hok t Ht). }
  assert (Hin : In (weighting t) (List.concat (map (fun a => map weighting (tiers a)) afs))).
  { apply in_concat. exists (map weighting (tiers a)). split; [apply (in_map (fun a => map weighting (tiers a))); exact Ha | apply in_map; exact Ht]. }
  assert (Hnn : Forall (fun y => 0 <= y) (List.concat (map (fun a => map weighting (tiers a)) afs))).
  { apply Forall_forall. intros y Hy. apply in_concat in Hy as (l & Hl & Hy).
    apply in_map_iff in Hl as (a' & <- & Ha'). apply in_map_iff in Hy as (t' & <- & Ht').
    unfold affixes_ok, tiers_ok in Hok. rewrite Forall_forall in Hok.
    specialize (Hok a' Ha'). rewrite Forall_forall in Hok. specialize (Hok t' Ht'). lia. }
  pose proof (sumZ_In_le _ _ Hnn Hin). lia.
Qed.

Lemma percent_affix_floats tot bt a a' :
  (tiers a <> [] -> 0 < tot /\ 0 < bt) -> percent_affix tot bt a = Ok a' ->
  Forall (fun t => is_JFloat (affix_percent t) /\ is_JFloat (weight_percent t)) (tiers a').
Proof.
  unfold percent_affix. intros Hpos H. res_inv. subst. simpl.
  pose proof (res_map_Forall2 _ _ _ Hx) as HF. clear Hx.
  apply Forall_forall. intros t' Ht'.
  destruct (Forall2_In_r _ _ _ _ HF Ht') as (t & Ht & Hs).
  destruct Hpos as [Htot Hbt]; [destruct (tiers a); [destruct Ht | discriminate]|].
  unfold set_percents in Hs. res_inv. subst. simpl.
  destruct (percent_float _ _ _ Htot Hx) as [f1 ->].
  destruct (percent_float _ _ _ Hbt Hx0) as [f2 ->].
  split; eexists; reflexivity.
Qed.

Lemma total_weight_nonneg afs : affixes_ok afs -> 0 <= total_weight afs.
Proof.
  intros Hok. apply sumZ_nonneg. apply Forall_forall. intros y Hy.
  apply in_concat in Hy as (l & Hl & Hy).
  apply in_map_iff in Hl as (a & <- & Ha). apply in_map_iff in Hy as (t & <- & Ht).
  unfold affixes_ok, tiers_ok in Hok. rewrite Forall_forall in Hok.
  specialize (Hok a Ha). rewrite Forall_forall in Hok. specialize (Hok t Ht). lia.
Qed.

Lemma percent_affixes_floats tot bt afs afs' :
  affixes_ok afs -> tot = total_weight afs -> total_weight afs <= bt ->
  res_map (percent_affix tot bt) afs = Ok afs' ->
  Forall (fun a => Forall (fun t => is_JFloat (affix_percent t) /\ is_JFloat (weight_percent t)) (tiers a)) afs'.
Proof.
  intros Hok -> Hbt H. pose proof (res_map_Forall2 _ _ _ H) as HF.
  apply Forall_forall. intros a' Ha'. destruct (Forall2_In_r _ _ _ _ HF Ha') as (a & Ha & Hp).
  eapply percent_affix_floats; [|exact Hp].
  intros Hne. destruct (tiers a) as [|t ts] eqn:E; [congruence|].
  assert (0 < total_weight afs) by (apply (total_weight_pos afs a t); [exact Hok | exact Ha | rewrite E; left; reflexivity]).
  lia.
Qed.

Lemma percent_group_floats g g' :
  group_ok g -> percent_group g = Ok g' ->
  Forall (fun a => Forall (fun t => is_JFloat (affix_percent t) /\ is_JFloat (weight_percent t)) (tiers a))
         (prefixes g' ++ suffixes g').
Proof.
  intros [Hp Hs] H. unfold percent_group in H. res_inv. subst. simpl.
  pose proof (total_weight_nonneg _ Hp). pose proof (total_weight_nonneg _ Hs).
  apply Forall_app. split.
  - apply (percent_affixes_floats (total_weight (prefixes g)) (total_weight (prefixes g) + total_weight (suffixes g)) (prefixes g));
      [exact Hp | reflexivity | lia | exact Hx].
  - apply (percent_affixes_floats (total_weight (suffixes g)) (total_weight (prefixes g) + total_weight (suffixes g)) (suffixes g));
      [exact Hs | reflexivity | lia | exact Hx0].
Qed.


(** *** Percentages between 0 and 100 *)

Lemma percent_range w tot :
  0 < tot -> 0 <= w <= tot ->
  exists r, percent w tot = Ok (JFloat r) /\ b64_ge_Z r 0 = true /\ b64_le_Z r 100 = true.
Proof.
  intros Ht Hw. unfold percent. rewrite (proj2 (Z.ltb_lt 0 tot) Ht).
  destruct (b64_true_div_unit w tot Hw Ht) as (x & -> & Hf & Hge & Hle). cbn [res_bind].
  destruct (b64_mul_100 x Hf Hge Hle) as (Hf' & Hge' & Hle').
  destruct (b64_round_100 _ Hf' Hge' Hle') as (z & -> & _ & Hz0 & Hz1). cbn [res_bind]. eauto.
Qed.

Lemma weighting_le_total afs a t :
  affixes_ok afs -> In a afs -> In t (tiers a) -> 1 < weighting t <= total_weight afs.
Proof.
  intros Hok Ha Ht. unfold affixes_ok, tiers_ok in Hok.
  pose proof (Forall_In _ _ _ (Forall_In _ _ _ Hok Ha) Ht) as Hw. cbv beta in Hw.
  split; [exact Hw|]. unfold total_weight. apply sumZ_In_le.
  - apply Forall_forall. intros y (l & Hl & Hy)%in_concat.
    apply in_map_iff in Hl as (a' & <- & Ha'). apply in_map_iff in Hy as (t' & <- & Ht').
    pose proof (Forall_In _ _ _ (Forall_In _ _ _ Hok Ha') Ht'). cbv beta in *. lia.
  - apply in_concat. exists (map weighting (tiers a)). split; [apply (in_map (fun a => map weighting (tiers a))); exact Ha | now apply in_map].
Qed.

Lemma set_percents_range tot bt t :
  1 < weighting t <= tot -> tot <= bt ->
  exists t', set_percents tot bt t = Ok t' /\ pct_ok (affix_percent t') /\ pct_ok (weight_percent t').
Proof.
  intros Hw Hb. destruct (percent_range (weighting t) tot ltac:(lia) ltac:(lia)) as (ap & Hap & Ha).
  destruct (percent_range (weighting t) bt ltac:(lia) ltac:(lia)) as (wp & Hwp & Hw').
  exists (with_percents t (JFloat ap) (JFloat wp)). unfold set_percents. rewrite Hap, Hwp.
  split; [reflexivity|]. split; eexists; split; [reflexivity | exact Ha | reflexivity | exact Hw'].
Qed.

Lemma percent_affixes_range afs bt :
  affixes_ok afs -> total_weight afs <= bt ->
  exists afs', res_map (percent_affix (total_weight afs) bt) afs = Ok afs' /\ Forall (fun a => tiers_pct_ok (tiers a)) afs'.
Proof.
  intros Hok Hbt. apply res_map_total. intros a Ha.
  destruct (res_map_total (set_percents (total_weight afs) bt) (fun t => pct_ok (affix_percent t) /\ pct_ok (weight_percent t)) (tiers a))
    as (ts & Hts & Hq).
  { intros t Ht. pose proof (weighting_le_total afs a t Hok Ha Ht).
    destruct (set_percents_range (total_weight afs) bt t ltac:(lia) Hbt) as (t' & ? & ? & ?). eauto. }
  exists (with_tiers a ts). unfold percent_affix. now rewrite Hts.
Qed.

Lemma percent_group_range g :
  group_ok g -> exists g', percent_group g = Ok g' /\ Forall (fun a => tiers_pct_ok (tiers a)) (prefixes g' ++ suffixes g').
Proof.
  intros [Hp Hs]. pose proof (total_weight_nonneg _ Hp). pose proof (total_weight_nonneg _ Hs).
  destruct (percent_affixes_range (prefixes g) (total_weight (prefixes g) + total_weight (suffixes g)) Hp ltac:(lia))
    as (ps & Hps & Qp).
  destruct (percent_affixes_range (suffixes g) (total_weight (prefixes g) + total_weight (suffixes g)) Hs ltac:(lia))
    as (ss & Hss & Qs).
  exists (with_affixes g ps ss). unfold percent_group. cbv zeta. rewrite Hps, Hss.
  split; [reflexivity | cbn; now apply Forall_app].
Qed.

Lemma calculate_percentages_range gs :
  groups_ok gs -> exists gs', calculate_percentages gs = Ok gs' /\ percents_in_range gs'.
Proof.
  intros Hok. unfold calculate_percentages, percents_in_range. apply res_map_total. intros [k g] Hin.
  destruct (percent_group_range g (Forall_In _ _ _ Hok Hin)) as (g' & Hg & Hq).
  exists (k, g'). cbn. now rewrite Hg.
Qed.

(** *** The stage against its specification *)

Lemma set_percents_spec tot bt t t' : set_percents tot bt t = Ok t' <-> tier_percents tot bt t t'.
Proof.
  unfold set_percents, tier_percents. split.
  - intros H. destruct (percent _ tot) as [ap|e] eqn:Ha; cbn [res_bind] in H; [|discriminate].
    destruct (percent _ bt) as [wp|e] eqn:Hw; cbn [res_bind] in H; [|discriminate].
    injection H as <-. split; [reflexivity|]. exists ap, wp. auto.
  - intros (Hs & ap & wp & -> & -> & Hap & Hwp). cbn [res_bind]. f_equal.
    destruct t, t'; cbn in *. injection Hs as -> -> -> -> ->. now subst.
Qed.

Lemma percent_affix_spec tot bt a a' : percent_affix tot bt a = Ok a' <-> affix_percents tot bt a a'.
Proof.
  assert (Hts : forall ts, res_map (set_percents tot bt) (tiers a) = Ok ts <-> Forall2 (tier_percents tot bt) (tiers a) ts)
    by (intros; apply res_map_spec, set_percents_spec).
  unfold percent_affix, affix_percents. split.
  - intros H. destruct (res_map _ _) as [ts|e] eqn:E; cbn [res_bind] in H; [|discriminate].
    injection H as <-. cbn. split; [reflexivity|]. split; [reflexivity|]. now apply Hts.
  - intros (Hd & Hm & Ht). rewrite (proj2 (Hts _) Ht). cbn [res_bind]. f_equal.
    destruct a, a'; cbn in *. now subst.
Qed.

Lemma percent_group_spec g g' : percent_group g = Ok g' <-> group_percents g g'.
Proof.
  unfold percent_group, group_percents. cbv zeta.
  rewrite <- !(res_map_spec _ _ _ _ (percent_affix_spec _ _)). split.
  - intros H. destruct (res_map _ (prefixes g)) as [ps|e] eqn:Ep; cbn [res_bind] in H; [|discriminate].
    destruct (res_map _ (suffixes g)) as [ss|e] eqn:Es; cbn [res_bind] in H; [|discriminate].
    injection H as <-. cbn. auto 8.
  - intros (Hb & Hi & Ht & Hg & -> & ->). cbn [res_bind]. f_equal.
    destruct g, g'; cbn in *. now subst.
Qed.

Lemma calculate_percentages_spec gs gs' :
  calculate_percentages gs = Ok gs' <->
  Forall2 (fun kg kg' => fst kg' = fst kg /\ group_percents (snd kg) (snd kg')) gs gs'.
Proof.
  unfold calculate_percentages. apply res_map_spec. intros [k g] [k' g']. cbn. split.
  - intros H. destruct (percent_group g) as [g1|e] eqn:E; cbn in H; [|discriminate].
    injection H as <- <-. split; [reflexivity|]. now apply percent_group_spec.
  - intros [-> Hg]. now rewrite (proj2 (percent_group_spec _ _) Hg).
Qed.

(** ** Properties of the stage *)

Lemma calculate_percentages_strip gs gs' :
  calculate_percentages gs = Ok gs' -> strip_groups gs' = strip_groups gs.
Proof.
  unfold calculate_percentages, strip_groups. intros H.
  eapply res_map_preserve; [|exact H].
  intros [k g] [k' g'] _ Hg. simpl in Hg.
  destruct (percent_group g) as [g1|e] eqn:E; simpl in Hg; [injection Hg as <- <- | discriminate].
  simpl. f_equal. eapply percent_group_strip; eassumption.
Qed.

Lemma calculate_percentages_float_percents gs gs' :
  groups_ok gs -> calculate_percentages gs = Ok gs' -> float_percents gs'.
Proof.
  unfold calculate_percentages, float_percents, groups_ok. intros Hok H.
  pose proof (res_map_Forall2 _ _ _ H) as HF.
  apply Forall_forall. intros [k' g'] Hin. destruct (Forall2_In_r _ _ _ _ HF Hin) as ([k g] & Hg & Hp).
  simpl in Hp. destruct (percent_group g) as [g1|e] eqn:E; simpl in Hp; [injection Hp as <- <- | discriminate].
  simpl. eapply percent_group_floats; [|eassumption].
  rewrite Forall_forall in Hok. exact (Hok (k, g) Hg).
Qed.

(** C16: [calculate_percentages] writes the two percentage fields and
    nothing else: with those fields cleared, the dictionary after the
    stage is the dictionary before it (same keys, groups, affixes, tiers,
    weightings and values, in the same order). *)
Theorem calculate_percentages_frame gs gs' :
  calculate_percentages gs = Ok gs' -> strip_groups gs' = strip_groups gs.
Proof. apply calculate_percentages_strip. Qed.

Lemma calculate_percentages_frame_witness : strip_groups ex_percents = strip_groups ex_after.
Proof. apply calculate_percentages_frame. vm_compute. reflexivity. Defined.

(** C10: when no tier has a weighting <= 1 (the invariant established by
    [parse_modifiers_and_tiers]), the [else 0] branches of lines 189-190
    are dead: every tier of the result carries a [float] [affix_percent]
    and a [float] [weight_percent]. *)
Theorem calculate_percentages_floats gs gs' :
  groups_ok gs -> calculate_percentages gs = Ok gs' -> float_percents gs'.
Proof. apply calculate_percentages_float_percents. Qed.

Lemma calculate_percentages_floats_witness : float_percents ex_percents.
Proof.
  apply (calculate_percentages_floats ex_after);
    [apply (parse_modifiers_and_tiers_ok ex_data ex_groups); [repeat constructor | vm_compute; reflexivity]
    | vm_compute; reflexivity].
Defined.

(** C20: a tier that carries the whole weight of its affix type gets an
    [affix_percent] of exactly [100.0]: [w / w] is exactly [1.0] in
    binary64 for every positive [w], and [round(1.0 * 100, 4)] is [100.0]. *)
Theorem percent_self w : 0 < w -> percent w w = Ok (JFloat (b64_of_Z_raw 100)).
Proof.
  intros Hw. unfold percent. rewrite (proj2 (Z.ltb_lt 0 w) Hw), b64_true_div_self by exact Hw.
  vm_compute. reflexivity.
Qed.

Lemma percent_self_witness : percent 10 10 = Ok (JFloat (b64_of_Z_raw 100)).
Proof. apply percent_self. lia. Defined.

(** C9: [calculate_percentages] meets its specification: it returns
    [gs'] exactly when [gs'] has the keys and groups of [gs] in order,
    each group with its fields kept and every prefix tier's
    [affix_percent] the percentage [percent] of its weighting in the
    total prefix weight, every suffix tier's in the total suffix weight,
    and every tier's [weight_percent] its percentage in their sum;
    nothing else of a tier changes.  It raises exactly when one of these
    percentages raises. *)
Theorem calculate_percentages_functional gs gs' :
  calculate_percentages gs = Ok gs' <->
  Forall2 (fun kg kg' => fst kg' = fst kg /\ group_percents (snd kg) (snd kg')) gs gs'.
Proof. exact (calculate_percentages_spec gs gs'). Qed.

(** C7: the percentages of lines 189-190 are floats between 0 and 100:
    for a tier weight [w] and a positive total [tot] with [0 <= w <= tot],
    [round((w / tot) * 100, 4)] is computed without an exception and
    gives a float [r] with [0 <= r <= 100] (each of the three binary64
    roundings stays below the representable bounds [1.0] and [100.0]). *)
Theorem percent_in_range w tot :
  0 < tot -> 0 <= w <= tot ->
  exists r, percent w tot = Ok (JFloat r) /\ b64_ge_Z r 0 = true /\ b64_le_Z r 100 = true.
Proof. exact (percent_range w tot). Qed.

Lemma percent_in_range_witness :
  exists r, percent 2 3 = Ok (JFloat r) /\ b64_ge_Z r 0 = true /\ b64_le_Z r 100 = true.
Proof. apply percent_in_range; lia. Defined.

(** C5: when no tier weighs 1 or less (the invariant
    [parse_modifiers_and_tiers] establishes), [calculate_percentages]
    never raises, and every tier of its result carries an
    [affix_percent] and a [weight_percent] that are floats between 0
    and 100. *)
Theorem calculate_percentages_in_range gs :
  groups_ok gs -> exists gs', calculate_percentages gs = Ok gs' /\ percents_in_range gs'.
Proof. exact (calculate_percentages_range gs). Qed.

Lemma calculate_percentages_in_range_witness :
  exists gs', calculate_percentages ex_after = Ok gs' /\ percents_in_range gs'.
Proof.
  apply calculate_percentages_in_range.
  apply (parse_modifiers_and_tiers_ok ex_data ex_groups); [repeat constructor | vm_compute; reflexivity].
Defined.
