(* ===== verification/Consolidate.v ===== *)
(** * [fetch_json], the output document and [consolidate_data]

    Lines 34-52 and 195-215 of [scrapper.py].

    - The network is the function [get] from a URL to the [Response]
      [requests.get(url, headers=...)] returns (the fixed headers select
      the response and are part of that function); [fetch_json] raises
      the [Exception] of line 43 ([FetchError url status]) when
      [response.ok] is false, else strips the body, removes the wrapper
      with [lstrip("poecd=")] / [lstrip("poecl=")] when the URL ends with
      the data / localisation suffix, strips again and decodes.
    - [output_document] is the value [{"base_groups": [...]}] that line
      208 writes, each group, affix and tier a [dict] with its keys in the
      order the program inserts them ([float] only when the values loop
      ran, [base_type] and [bgroup] only when a base record named the
      group).
    - [consolidate_groups] runs the two fetches and the five stages in the
      order of lines 196-203; [consolidate_data] adds the document.

    Not modelled here: the exceptions [requests] itself raises
    (connection errors); the request, the file and the final [print] are
    events in [Main], and the text [json.dump] writes is in [Dump].

    The section [GroupsAll] carries an invariant [P] of the affixes
    through every stage; [document_schema] is the shape of section 6 of
    the spec, with the keys the program may leave out.

    Theorems: the invariants of the output ([consolidate_invariants]: no
    tier of weighting <= 1, two [float] percentages on every tier;
    [consolidate_names]: the groups are the entries of
    [poec_lang["base"]] with their renamed names;
    [consolidate_tags_normalised]: every tag is lower-case and stripped),
    the shape of the document ([consolidate_data_schema]), the fetch
    error ([consolidate_fetch_error]) and the [lstrip] of the wrappers
    ([fetch_json_unwrap]).  The spec's end-to-end example
    ([ex_get], [ex_expected]) is the witness of these theorems. *)

From S2P Require Import Prelude PyStr PyFloat PyValue JsonLoads BaseGroups Modifiers Percentages.
From Stdlib Require Import Ascii String.

Open Scope string_scope.

(** ** Fetching *)

(** What [requests.get] returns: [response.ok], [response.status_code]
    and [response.text]. *)
Record Response := {
  ok : bool;
  status_code : Z;
  text : string
}.

Definition fetch_json (url : string) (response : Response) : py json :=
  if negb (ok response) then raise (FetchError url (status_code response)) else
  let raw_text := strip (text response) in
  let raw_text :=
    if endswith url "poec_data.json?v=1736871389" then strip (lstrip_chars "poecd=" raw_text)
    else if endswith url "poec_lang.us.json?v=1736871389" then strip (lstrip_chars "poecl=" raw_text)
    else raw_text in
  json_loads_str raw_text.

(** ** The output document *)

Definition minmax_json (p : json * json) : json := JObj [("Min", fst p); ("Max", snd p)].

Definition opt_field (k : string) (v : option json) : list (string * json) :=
  match v with Some x => [(k, x)] | None => [] end.

Definition tier_json (t : Tier) : json :=
  JObj ([("tier", JStr (tier t)); ("ilvl", JInt (ilvl t)); ("weighting", JInt (weighting t));
         ("values", JArr (map minmax_json (values t)))]
        ++ opt_field "float" (option_map JBool (float t))
        ++ opt_field "affix_percent" (affix_percent t)
        ++ opt_field "weight_percent" (weight_percent t))%list.

Definition affix_json (a : Affix) : json :=
  JObj [("description", description a); ("mod_groups", JArr (mod_groups a));
        ("tiers", JArr (map tier_json (tiers a)))].

Definition group_json (g : BaseGroup) : json :=
  JObj ([("base_group", base_group g); ("items", JArr (items g));
         ("prefixes", JArr (map affix_json (prefixes g)));
         ("suffixes", JArr (map affix_json (suffixes g)))]
        ++ opt_field "base_type" (base_type g) ++ opt_field "bgroup" (bgroup g))%list.

(** [{"base_groups": list(base_groups.values())}] *)
Definition output_document (gs : Groups) : json :=
  JObj [("base_groups", JArr (map (fun kv => group_json (snd kv)) gs))].

(** ** The pipeline *)

Definition poec_data_url : string :=
  "https://www.craftofexile.com/json/poe2/main/poec_data.json?v=1736871389".
Definition poec_lang_url : string :=
  "https://www.craftofexile.com/json/poe2/lang/poec_lang.us.json?v=1736871389".

(** Lines 199-203: the five stages on the two fetched documents. *)
Definition build_groups (poec_data poec_lang : json) : py Groups :=
  let* gs := parse_base_groups poec_lang in
  let* gs := parse_items poec_data poec_lang gs in
  let* gs := parse_bases_and_groups poec_data poec_lang gs in
  let* gs := parse_modifiers_and_tiers poec_data gs in
  calculate_percentages gs.

(** Lines 196-203. *)
Definition consolidate_groups (get : string -> Response) (data_url lang_url : string) : py Groups :=
  let* poec_data := fetch_json data_url (get data_url) in
  let* poec_lang := fetch_json lang_url (get lang_url) in
  build_groups poec_data poec_lang.

(** Lines 196-205: the document the script writes to [output_path]. *)
Definition consolidate_data (get : string -> Response) (data_url lang_url : string) : py json :=
  let* gs := consolidate_groups get data_url lang_url in
  Ok (output_document gs).

(** ** Example inputs *)

(** A [str] as a JSON string token (quotes and backslashes escaped). *)
Fixpoint escape (s : string) : string :=
  match s with
  | EmptyString => EmptyString
  | String c s' =>
      if Ascii.eqb c dquote || Ascii.eqb c bslash then String bslash (String c (escape s'))
      else String c (escape s')
  end.

(** JSON text for example payloads (strings, integers, lists and
    objects). *)
Fixpoint ex_text (v : json) : string :=
  match v with
  | JNull => "null"
  | JBool b => if b then "true" else "false"
  | JInt z => str_of_Z z
  | JFloat _ => "0.0"
  | JStr s => quoted (escape s)
  | JArr xs => "[" ++ (fix go xs := match xs with
                                   | [] => ""
                                   | [x] => ex_text x
                                   | x :: xs' => ex_text x ++ ", " ++ go xs'
                                   end) xs ++ "]"
  | JObj kvs => "{" ++ (fix go kvs := match kvs with
                                     | [] => ""
                                     | [(k, x)] => quoted k ++ ": " ++ ex_text x
                                     | (k, x) :: kvs' => quoted k ++ ": " ++ ex_text x ++ ", " ++ go kvs'
                                     end) kvs ++ "}"
  end.

(** The spec's synthetic pair of documents: one base, one item, one
    prefix modifier with tiers of weighting 10, 5 and 1. *)
Definition ex_lang : json := JObj [
  ("base", JObj [("1", JStr "Helmet (STR)")]);
  ("bitem", JObj [("10", JStr "Iron Hat")]);
  ("bgroup", JObj [("5", JStr "Armour")])].

Definition ex_full_data : json :=
  match ex_data with
  | JObj kvs => JObj ([("bitems", JObj [("seq", JArr [JObj [("id_base", JStr "1"); ("id_bitem", JStr "10")]])]);
                       ("bases", JObj [("seq", JArr [JObj [("id_base", JStr "1"); ("base_type", JStr "helmet");
                                                          ("id_bgroup", JStr "5")]])])] ++ kvs)%list
  | v => v
  end.

(** The service: both documents wrapped as the real endpoints wrap them. *)
Definition ex_get (url : string) : Response :=
  if String.eqb url poec_data_url then {| ok := true; status_code := 200; text := "poecd=" ++ ex_text ex_full_data |}
  else if String.eqb url poec_lang_url then {| ok := true; status_code := 200; text := " poecl=" ++ ex_text ex_lang ++ " " |}
  else {| ok := false; status_code := 404; text := "" |}.

(** A percentage as the float literal [q / 10^4] denotes. *)
Definition pct (q : Z) : json := JFloat (b64_of_decimal false q (-4)).

(** The document the spec's end-to-end example expects. *)
Definition ex_expected : json :=
  let t l il w lo hi p := JObj [("tier", JStr l); ("ilvl", JInt il); ("weighting", JInt w);
                               ("values", JArr [JObj [("Min", JInt lo); ("Max", JInt hi)]]);
                               ("float", JBool false); ("affix_percent", pct p); ("weight_percent", pct p)] in
  JObj [("base_groups", JArr [JObj [
    ("base_group", JStr "helmet_str_armour"); ("items", JArr [JStr "Iron Hat"]);
    ("prefixes", JArr [JObj [("description", JStr "+# to maximum Life"); ("mod_groups", JArr [JStr "life"]);
                             ("tiers", JArr [t "T3" 1 10 10 19 666667; t "T2" 11 5 20 29 333333])]]);
    ("suffixes", JArr []); ("base_type", JStr "helmet"); ("bgroup", JStr "Armour")]])].

(** ** The shape of the written document (section 6 of the spec, with the
    keys the program may leave out) *)

Definition minmax_schema (v : json) : Prop := exists mn mx, v = JObj [("Min", mn); ("Max", mx)].

Definition tier_schema (v : json) : Prop :=
  exists label il w vs fl ap wp,
    v = JObj ([("tier", JStr label); ("ilvl", JInt il); ("weighting", JInt w); ("values", JArr vs)]
              ++ opt_field "float" (option_map JBool fl)
              ++ [("affix_percent", JFloat ap); ("weight_percent", JFloat wp)])%list
    /\ (1 < w)%Z /\ Forall minmax_schema vs.

Definition affix_schema (v : json) : Prop :=
  exists d tags ts, v = JObj [("description", d); ("mod_groups", JArr tags); ("tiers", JArr ts)]
    /\ Forall (fun t => exists s, t = JStr s) tags /\ Forall tier_schema ts.

Definition group_schema (v : json) : Prop :=
  exists n its ps ss bt bg,
    v = JObj ([("base_group", n); ("items", JArr its); ("prefixes", JArr ps); ("suffixes", JArr ss)]
              ++ opt_field "base_type" bt ++ opt_field "bgroup" bg)%list
    /\ Forall affix_schema ps /\ Forall affix_schema ss.

Definition document_schema (v : json) : Prop :=
  exists gjs, v = JObj [("base_groups", JArr gjs)] /\ Forall group_schema gjs.

(** ** Lemmas *)

Section GroupsAll.
Variable P : Affix -> Prop.

Lemma fresh_groups_all gs k g :
  groups_all P gs -> prefixes g = [] -> suffixes g = [] -> groups_all P (assoc_set k g gs).
Proof.
  intros Hgs Hp Hs. apply (assoc_set_Forall (group_all P)); [|exact Hgs].
  unfold group_all. rewrite Hp, Hs. split; constructor.
Qed.

Lemma parse_base_groups_all lang gs : parse_base_groups lang = Ok gs -> groups_all P gs.
Proof.
  unfold parse_base_groups. intros H. res_inv. revert H.
  apply res_fold_invariant; [|constructor].
  intros s [k bn] s' Hs _ Hstep. unfold new_group in Hstep. res_inv. subst.
  apply fresh_groups_all; auto.
Qed.

Lemma parse_items_all d lang gs gs' : groups_all P gs -> parse_items d lang gs = Ok gs' -> groups_all P gs'.
Proof.
  unfold parse_items. intros Hgs H. res_inv. revert H.
  apply res_fold_invariant; [|exact Hgs].
  intros s item s' Hs _ Hstep. unfold parse_items_step in Hstep. res_inv.
  case_opt Hstep; res_inv; subst; [|exact Hs].
  apply (assoc_alter_Forall (group_all P)); [intros g Hg; exact Hg | exact Hs].
Qed.

Lemma parse_bases_and_groups_all d lang gs gs' :
  groups_all P gs -> parse_bases_and_groups d lang gs = Ok gs' -> groups_all P gs'.
Proof.
  unfold parse_bases_and_groups. intros Hgs H. res_inv. revert H.
  apply res_fold_invariant; [|exact Hgs].
  intros s base s' Hs _ Hstep. unfold parse_bases_step in Hstep. res_inv.
  case_opt Hstep; res_inv; subst; [|exact Hs].
  apply (assoc_alter_Forall (group_all P)); [intros g Hg; exact Hg|].
  apply (assoc_alter_Forall (group_all P)); [intros g Hg; exact Hg | exact Hs].
Qed.

(** [P] does not look at the percentages. *)
Hypothesis HS : forall a, P (strip_affix a) <-> P a.

Lemma groups_all_strip gs : groups_all P (strip_groups gs) <-> groups_all P gs.
Proof.
  unfold groups_all, strip_groups. rewrite Forall_map. apply Forall_iff. intros [k g]. simpl.
  unfold group_all, strip_group, with_affixes. simpl. rewrite !Forall_map.
  split; intros [Hp Hs]; split; (eapply Forall_impl; [|eassumption]); intros a; apply HS.
Qed.

(** Every stage keeps [P] of the affixes, when the modifier stage only
    builds affixes that satisfy it. *)
Lemma consolidate_groups_all get u1 u2 gs :
  (forall md b es name mgs ts, mod_groups_of md = Ok mgs -> tiers_loop b es = Ok ts ->
     P {| description := name; mod_groups := mgs; tiers := ts |}) ->
  consolidate_groups get u1 u2 = Ok gs -> groups_all P gs.
Proof.
  unfold consolidate_groups, build_groups. intros HP H. res_inv.
  apply groups_all_strip. rewrite (calculate_percentages_strip _ _ H). apply groups_all_strip.
  eapply parse_modifiers_and_tiers_all; [exact HP| |eassumption].
  eapply parse_bases_and_groups_all; [|eassumption].
  eapply parse_items_all; [|eassumption].
  eapply parse_base_groups_all; eassumption.
Qed.

End GroupsAll.

(** What reaches [calculate_percentages] satisfies the weighting
    invariant. *)
Lemma enriched_groups_ok d l gs0 gs1 gs2 gs3 :
  parse_base_groups l = Ok gs0 -> parse_items d l gs0 = Ok gs1 ->
  parse_bases_and_groups d l gs1 = Ok gs2 -> parse_modifiers_and_tiers d gs2 = Ok gs3 -> groups_ok gs3.
Proof.
  intros H0 H1 H2 H3. eapply parse_modifiers_and_tiers_ok; [|exact H3].
  eapply (parse_bases_and_groups_all (fun a => tiers_ok (tiers a))); [|exact H2].
  eapply (parse_items_all (fun a => tiers_ok (tiers a))); [|exact H1].
  eapply (parse_base_groups_all (fun a => tiers_ok (tiers a))); exact H0.
Qed.

Lemma consolidate_groups_range get u1 u2 gs :
  consolidate_groups get u1 u2 = Ok gs -> percents_in_range gs.
Proof.
  unfold consolidate_groups, build_groups. intros H. res_inv.
  destruct (calculate_percentages_range _ (enriched_groups_ok _ _ _ _ _ _ Hx1 Hx2 Hx3 Hx4)) as (gs' & Hc & Hr).
  congruence.
Qed.

Lemma consolidate_groups_ok get u1 u2 gs :
  consolidate_groups get u1 u2 = Ok gs -> groups_ok gs /\ float_percents gs.
Proof.
  intros H. split.
  - apply (consolidate_groups_all (fun a => tiers_ok (tiers a))) with get u1 u2; [|intros; eapply tiers_loop_ok; eassumption | exact H].
    intros a. unfold strip_affix, with_tiers, tiers_ok. simpl. now rewrite Forall_map.
  - unfold consolidate_groups, build_groups in H. res_inv.
    eapply calculate_percentages_float_percents; [|eassumption].
    eapply parse_modifiers_and_tiers_ok; [|eassumption].
    eapply (parse_bases_and_groups_all (fun a => tiers_ok (tiers a))); [|eassumption].
    eapply (parse_items_all (fun a => tiers_ok (tiers a))); [|eassumption].
    eapply (parse_base_groups_all (fun a => tiers_ok (tiers a))); eassumption.
Qed.

(** *** The schema *)

Lemma tier_json_schema t :
  (1 < weighting t)%Z -> is_JFloat (affix_percent t) -> is_JFloat (weight_percent t) ->
  tier_schema (tier_json t).
Proof.
  intros Hw [ap Ha] [wp Hp]. unfold tier_json. rewrite Ha, Hp.
  exists (tier t), (ilvl t), (weighting t), (map minmax_json (values t)), (float t), ap, wp.
  split; [reflexivity|]. split; [exact Hw|].
  apply Forall_forall. intros v Hv. apply in_map_iff in Hv as ([mn mx] & <- & _). now exists mn, mx.
Qed.

Lemma affix_json_schema a :
  tiers_ok (tiers a) -> affix_tags_ok a ->
  Forall (fun t => is_JFloat (affix_percent t) /\ is_JFloat (weight_percent t)) (tiers a) ->
  affix_schema (affix_json a).
Proof.
  intros Hw Htags Hp. exists (description a), (mod_groups a), (map tier_json (tiers a)).
  split; [reflexivity|]. split.
  - eapply Forall_impl; [|exact Htags]. intros v (s & -> & _). eauto.
  - apply Forall_map. unfold tiers_ok in Hw. rewrite Forall_forall in Hw, Hp |- *. intros t Ht.
    destruct (Hp t Ht). apply tier_json_schema; auto.
Qed.

Lemma affixes_json_schema afs :
  affixes_ok afs -> Forall affix_tags_ok afs ->
  Forall (fun a => Forall (fun t => is_JFloat (affix_percent t) /\ is_JFloat (weight_percent t)) (tiers a)) afs ->
  Forall affix_schema (map affix_json afs).
Proof.
  intros Hw Ht Hp. apply Forall_map. unfold affixes_ok in Hw. rewrite Forall_forall in Hw, Ht, Hp |- *.
  intros a Ha. apply affix_json_schema; auto.
Qed.

Lemma output_document_schema gs :
  groups_ok gs -> groups_all affix_tags_ok gs -> float_percents gs -> document_schema (output_document gs).
Proof.
  intros Hw Ht Hp. eexists. split; [reflexivity|]. apply Forall_map.
  unfold groups_ok, groups_all, float_percents in *. rewrite Forall_forall in Hw, Ht, Hp |- *.
  intros [k g] Hin. specialize (Hw _ Hin) as [Hwp Hws]. specialize (Ht _ Hin) as [Htp Hts].
  specialize (Hp _ Hin). simpl in *. apply Forall_app in Hp as [Hpp Hps].
  exists (base_group g), (items g), (map affix_json (prefixes g)), (map affix_json (suffixes g)),
    (base_type g), (bgroup g).
  split; [reflexivity|]. split; apply affixes_json_schema; assumption.
Qed.

Lemma consolidate_groups_tags get u1 u2 gs :
  consolidate_groups get u1 u2 = Ok gs -> groups_all affix_tags_ok gs.
Proof.
  apply consolidate_groups_all; [reflexivity|].
  intros. unfold affix_tags_ok. simpl. eapply mod_groups_of_ok; eassumption.
Qed.

Lemma fetch_json_dicts url resp v : fetch_json url resp = Ok v -> keys_distinct v = true.
Proof.
  unfold fetch_json. destruct (negb (ok resp)); [discriminate|].
  destruct (endswith url _); [|destruct (endswith url _)]; apply loads_keys_distinct.
Qed.

Lemma field_keys_distinct v name w :
  keys_distinct v = true -> field v name = Ok w -> keys_distinct w = true.
Proof.
  unfold field, getitem. destruct v as [| | | |s|xs|kvs]; cbn; intros Hk H; try discriminate H.
  destruct (assoc_lookup name kvs) as [x|] eqn:E; [injection H as <-|discriminate H].
  apply andb_true_iff in Hk as [_ Hk]. apply assoc_lookup_In in E.
  exact (proj1 (forallb_forall _ _) Hk _ E).
Qed.

Lemma parse_base_groups_heads lang kvs gs :
  field lang "base" = Ok (JObj kvs) -> List.NoDup (map fst kvs) ->
  parse_base_groups lang = Ok gs -> heads gs = map (fun kv => (fst kv, renamed (snd kv))) kvs.
Proof.
  intros Hb Hnd H. unfold parse_base_groups in H. rewrite Hb in H. cbn [res_bind dict_items as_dict] in H.
  destruct (parse_base_groups_loop kvs [] gs Hnd H) as (gs2 & -> & HF). simpl. unfold heads.
  clear H Hb Hnd.
  induction HF as [|[k n] [k' g] kvs gs2 [Hk [Hg _]] _ IH]; simpl in *; [reflexivity|].
  now rewrite Hk, Hg, IH.
Qed.

Lemma calculate_percentages_heads gs gs' : calculate_percentages gs = Ok gs' -> heads gs' = heads gs.
Proof.
  intros H. apply calculate_percentages_strip in H.
  apply (f_equal heads) in H. unfold heads, strip_groups in H. rewrite !map_map in H. exact H.
Qed.

(** The groups of a run are those of [poec_lang["base"]], named as
    [parse_base_groups] names them; the ids are distinct because the
    document is a decoded JSON text. *)
Lemma consolidate_groups_heads get u1 u2 lang kvs gs :
  fetch_json u2 (get u2) = Ok lang -> field lang "base" = Ok (JObj kvs) ->
  consolidate_groups get u1 u2 = Ok gs -> heads gs = map (fun kv => (fst kv, renamed (snd kv))) kvs.
Proof.
  intros Hf Hb H.
  assert (Hnd : List.NoDup (map fst kvs)).
  { pose proof (field_keys_distinct _ _ _ (fetch_json_dicts _ _ _ Hf) Hb) as Hk.
    apply andb_true_iff in Hk as [Hk _]. now apply nodup_keys_spec. }
  unfold consolidate_groups, build_groups in H. res_inv.
  rewrite Hf in Hx0. injection Hx0 as <-.
  rewrite (calculate_percentages_heads _ _ H), (parse_modifiers_and_tiers_heads _ _ _ Hx4).
  unfold parse_bases_and_groups in Hx3. res_inv.
  rewrite (res_fold_preserve heads _ _ _ _ (parse_bases_step_heads lang) Hx3).
  unfold parse_items in Hx2. res_inv.
  rewrite (res_fold_preserve heads _ _ _ _ (parse_items_step_heads lang) Hx2).
  eapply parse_base_groups_heads; eassumption.
Qed.

(** ** Properties of the program *)

(** The wrapper prefixes hold no whitespace and no character a JSON
    document can start with. *)
Lemma wrapper_chars p c :
  (p = "poecd=" \/ p = "poecl=") -> str_mem c p = true ->
  py_isspace c = false /\ json_start c = false.
Proof.
  intros Hp Hc. apply str_mem_In in Hc.
  destruct Hp as [-> | ->]; simpl in Hc; intuition (subst; split; reflexivity).
Qed.

(** Removing a wrapper with [lstrip] gives back any document that decodes. *)
Lemma unwrap_json p s v :
  (p = "poecd=" \/ p = "poecl=") -> json_loads_str (strip s) = Ok v ->
  json_loads_str (strip (lstrip_chars p (strip (p ++ s)%string))) = Ok v.
Proof.
  intros Hp Hv. rewrite strip_unwrap; [exact Hv| | |].
  - now destruct Hp as [-> | ->].
  - intros c Hc. exact (proj1 (wrapper_chars p c Hp Hc)).
  - intros c t Hs. destruct (str_mem c p) eqn:E; [|reflexivity].
    pose proof (json_loads_strip_head _ _ _ _ Hs Hv) as J.
    now rewrite (proj2 (wrapper_chars p c Hp E)) in J.
Qed.

(** C2: the invariants of the written data: no tier of weighting <= 1
    reaches the output, and every tier carries two [float] percentages. *)
Theorem consolidate_invariants get u1 u2 gs :
  consolidate_groups get u1 u2 = Ok gs -> groups_ok gs /\ float_percents gs.
Proof. apply consolidate_groups_ok. Qed.

Lemma consolidate_invariants_witness :
  groups_ok (match consolidate_groups ex_get poec_data_url poec_lang_url with Ok gs => gs | Exc _ => [] end) /\
  float_percents (match consolidate_groups ex_get poec_data_url poec_lang_url with Ok gs => gs | Exc _ => [] end).
Proof. apply (consolidate_invariants ex_get poec_data_url poec_lang_url). vm_compute. reflexivity. Defined.

(** C3: the percentages the program writes are floats between 0 and
    100: for any responses, every tier of the groups [consolidate_data]
    builds carries an [affix_percent] and a [weight_percent] [r] with
    [0 <= r <= 100]; the percentage stage never raises on what the
    earlier stages produce. *)
Theorem consolidate_percentages_range get u1 u2 gs :
  consolidate_groups get u1 u2 = Ok gs -> percents_in_range gs.
Proof. exact (consolidate_groups_range get u1 u2 gs). Qed.

Lemma consolidate_percentages_range_witness :
  percents_in_range (match consolidate_groups ex_get poec_data_url poec_lang_url with Ok gs => gs | Exc _ => [] end).
Proof. apply (consolidate_percentages_range ex_get poec_data_url poec_lang_url). vm_compute. reflexivity. Defined.

(** C15: the output has one group per entry of [poec_lang["base"]], in
    its order, and no other, each named by [custom_base_groups] or by the
    entry's name: an identifier that only the item, base or modifier
    tables mention never gets a group, and no later stage renames a
    group. *)
Theorem consolidate_names get u1 u2 lang kvs gs :
  fetch_json u2 (get u2) = Ok lang -> field lang "base" = Ok (JObj kvs) ->
  consolidate_groups get u1 u2 = Ok gs -> heads gs = map (fun kv => (fst kv, renamed (snd kv))) kvs.
Proof. apply consolidate_groups_heads. Qed.

Lemma consolidate_names_witness :
  heads (match consolidate_groups ex_get poec_data_url poec_lang_url with Ok gs => gs | Exc _ => [] end)
  = [("1", JStr "helmet_str_armour")].
Proof.
  apply (consolidate_names ex_get poec_data_url poec_lang_url ex_lang [("1", JStr "Helmet (STR)")]);
    [vm_compute; reflexivity | reflexivity | vm_compute; reflexivity].
Defined.

(** C22: a response that is not [ok] aborts the run with the URL and the
    status code; the data document is fetched first, so its failure is
    the one reported, whatever the localisation endpoint answers. *)
Theorem consolidate_fetch_error get u1 u2 :
  ok (get u1) = false ->
  consolidate_data get u1 u2 = raise (FetchError u1 (status_code (get u1))).
Proof. intros H. unfold consolidate_data, consolidate_groups, fetch_json. rewrite H. reflexivity. Qed.

Lemma consolidate_fetch_error_witness :
  consolidate_data ex_get "https://www.craftofexile.com/json/poe2/main/missing.json" poec_lang_url =
  raise (FetchError "https://www.craftofexile.com/json/poe2/main/missing.json" 404).
Proof. apply (consolidate_fetch_error ex_get). reflexivity. Defined.

(** C23: the wrappers are removed with [str.lstrip], which strips a set of
    characters and not a prefix; on every wrapped body whose content is a
    JSON document this is the removal of the literal prefix: the data and
    the localisation URLs both decode to the wrapped document. *)
Theorem fetch_json_unwrap st s v :
  json_loads_str (strip s) = Ok v ->
  fetch_json poec_data_url {| ok := true; status_code := st; text := ("poecd=" ++ s)%string |} = Ok v
  /\ fetch_json poec_lang_url {| ok := true; status_code := st; text := ("poecl=" ++ s)%string |} = Ok v.
Proof.
  intros Hv. unfold fetch_json. cbn [ok text negb].
  assert (E1 : endswith poec_data_url "poec_data.json?v=1736871389" = true) by reflexivity.
  assert (E2 : endswith poec_lang_url "poec_data.json?v=1736871389" = false) by reflexivity.
  assert (E3 : endswith poec_lang_url "poec_lang.us.json?v=1736871389" = true) by reflexivity.
  rewrite E1, E2, E3. split; apply unwrap_json; auto.
Qed.

Lemma fetch_json_unwrap_witness :
  json_loads_str (strip " [1, 2]  ") = Ok (JArr [JInt 1; JInt 2])
  /\ fetch_json poec_data_url {| ok := true; status_code := 200; text := ("poecd=" ++ " [1, 2]  ")%string |}
     = Ok (JArr [JInt 1; JInt 2])
  /\ fetch_json poec_lang_url {| ok := true; status_code := 200; text := ("poecl=" ++ " [1, 2]  ")%string |}
     = Ok (JArr [JInt 1; JInt 2]).
Proof.
  assert (H : json_loads_str (strip " [1, 2]  ") = Ok (JArr [JInt 1; JInt 2])) by (vm_compute; reflexivity).
  split; [exact H | apply fetch_json_unwrap; exact H].
Defined.

(** C28: every tag of an affix's [mod_groups] in the written data is a
    lower-case, stripped string, as line 89 normalises them; later stages
    never change a tag. *)
Theorem consolidate_tags_normalised get u1 u2 gs :
  consolidate_groups get u1 u2 = Ok gs -> groups_all affix_tags_ok gs.
Proof. apply consolidate_groups_tags. Qed.

Lemma consolidate_tags_normalised_witness :
  groups_all affix_tags_ok
    (match consolidate_groups ex_get poec_data_url poec_lang_url with Ok gs => gs | Exc _ => [] end).
Proof.
  apply (consolidate_tags_normalised ex_get poec_data_url poec_lang_url). vm_compute. reflexivity.
Defined.

(** C31: every document the program writes has the shape of section 6 of
    the spec: [{"base_groups": [...]}], each group an object with the keys
    [base_group], [items], [prefixes], [suffixes] in this order, followed
    by [base_type] and [bgroup] only when a base record set them; each
    affix with [description], [mod_groups] (strings) and [tiers]; each
    tier with [tier], [ilvl], [weighting] (an int above 1), [values] (Min/Max
    objects), [float] only when its value list was non-empty, and the two
    percentages as floats. *)
Theorem consolidate_data_schema get u1 u2 doc :
  consolidate_data get u1 u2 = Ok doc -> document_schema doc.
Proof.
  unfold consolidate_data. intros H. res_inv. subst.
  destruct (consolidate_groups_ok _ _ _ _ Hx) as [Hw Hp].
  apply output_document_schema; [exact Hw | eapply consolidate_groups_tags; exact Hx | exact Hp].
Qed.

Lemma consolidate_data_schema_witness :
  consolidate_data ex_get poec_data_url poec_lang_url = Ok ex_expected /\ document_schema ex_expected.
Proof.
  assert (H : consolidate_data ex_get poec_data_url poec_lang_url = Ok ex_expected) by (vm_compute; reflexivity).
  split; [exact H | exact (consolidate_data_schema _ _ _ _ H)].
Defined.
