(* ===== verification/PercentSum.v ===== *)
(** * The percentages of a group sum to 100

    Sections 3 and 8 of the spec ask that, in every group with a
    positive total weight, the [affix_percent]s of the prefix tiers sum
    to 100 "within rounding tolerance", likewise those of the suffix
    tiers; the [weight_percent]s of all the tiers of a group sum to 100
    the same way, which we prove as well.  The program
    computes each percentage as [round((w / total) * 100, 4)] in binary64
    (lines 189-190), so the sum is not exactly 100.

    [percent_error] bounds the error of one percentage by
    [percent_tolerance = 0.0000501]: the decimal rounding contributes at
    most [0.00005], the three binary64 roundings less than [10^-12]
    (their bounds are in [FloatError]).  Summing over the tiers
    ([percent_sum_error]), the sum of the [n] percentages of a group is
    within [n * 0.0000501] of [100] ([group_sums_close]), for every group
    [calculate_percentages] produces from groups of the invariant
    ([calculate_percentages_sums]) and so for every group the script
    writes ([consolidate_percent_sums]).  Values are rationals ([Q]):
    [pct_value] is the exact value of a stored percentage. *)

From S2P Require Import Prelude PyStr PyFloat FloatError PyValue JsonLoads BaseGroups Modifiers Percentages Consolidate.
From Stdlib Require Import QArith Qabs Qpower Lqa.

(** ** Sums of percentages *)

(** The exact value of a stored percentage (a [float]; [0] otherwise). *)
Definition pct_value (v : option json) : Q :=
  match v with Some (JFloat f) => b64_val f | _ => 0 end.

Definition Qsum (xs : list Q) : Q := fold_right Qplus 0 xs.

(** The tiers of a list of affixes, in order. *)
Definition affix_tiers (afs : list Affix) : list Tier := List.concat (map tiers afs).

Definition affix_percent_sum (afs : list Affix) : Q :=
  Qsum (map (fun t => pct_value (affix_percent t)) (affix_tiers afs)).

Definition weight_percent_sum (afs : list Affix) : Q :=
  Qsum (map (fun t => pct_value (weight_percent t)) (affix_tiers afs)).

(** The error bound of one percentage: [0.0000501]. *)
Definition percent_tolerance : Q := 501 # 10000000.

(** The sums of section 8 of the spec, for one group: the prefix
    [affix_percent]s and the suffix [affix_percent]s, and also all the
    [weight_percent]s, are each within [n * percent_tolerance] of [100],
    [n] the number of tiers summed, when there is a tier to sum. *)
Definition sums_close (g : BaseGroup) : Prop :=
  (affix_tiers (prefixes g) <> [] ->
     Qabs (affix_percent_sum (prefixes g) - 100) <= inject_Z (Z.of_nat (List.length (affix_tiers (prefixes g)))) * percent_tolerance) /\
  (affix_tiers (suffixes g) <> [] ->
     Qabs (affix_percent_sum (suffixes g) - 100) <= inject_Z (Z.of_nat (List.length (affix_tiers (suffixes g)))) * percent_tolerance) /\
  (affix_tiers (prefixes g ++ suffixes g) <> [] ->
     Qabs (weight_percent_sum (prefixes g ++ suffixes g) - 100)
       <= inject_Z (Z.of_nat (List.length (affix_tiers (prefixes g ++ suffixes g)))) * percent_tolerance).

(** Every group of [gs] satisfies [sums_close]. *)
Definition groups_sums_close (gs : Groups) : Prop := Forall (fun kv => sums_close (snd kv)) gs.

(** ** Lemmas *)

(** *** One percentage *)

Lemma percent_error_bound w tot r :
  (0 < tot)%Z -> (0 <= w <= tot)%Z -> percent w tot = Ok (JFloat r) ->
  100 * (w # Z.to_pos tot) - percent_tolerance <= b64_val r <= 100 * (w # Z.to_pos tot) + percent_tolerance.
Proof.
  intros Ht Hw H. unfold percent in H. rewrite (proj2 (Z.ltb_lt 0 tot) Ht) in H.
  destruct (b64_true_div_unit w tot Hw Ht) as (x & Hx & Hf & Hge & Hle). rewrite Hx in H. cbn [res_bind] in H.
  pose proof (b64_true_div_val w tot x Hw Ht Hx) as E1.
  pose proof (b64_mul_100_val x Hf Hge Hle) as E2.
  destruct (b64_mul_100 x Hf Hge Hle) as (Hf' & Hge' & Hle').
  destruct (b64_round (b64_mul x (b64_of_Z_raw 100)) 4) as [z|e] eqn:Hz; cbn [res_bind] in H; [|discriminate].
  injection H as ->. pose proof (b64_round_100_val _ _ Hf' Hge' Hle' Hz) as E3.
  assert (P50 : pow2 (-50) == 1 # 1125899906842624) by (setoid_rewrite (pow2_neg 50 ltac:(lia)); reflexivity).
  assert (P44 : pow2 (-44) == 1 # 17592186044416) by (setoid_rewrite (pow2_neg 44 ltac:(lia)); reflexivity).
  setoid_rewrite P50 in E1. setoid_rewrite P44 in E2. setoid_rewrite P44 in E3.
  unfold percent_tolerance. destruct E1, E2, E3. split; lra.
Qed.

(** *** Sums *)

Lemma Qsum_cons x xs : Qsum (x :: xs) = x + Qsum xs.
Proof. reflexivity. Qed.

Lemma Qmake_add a b p : (a # p) + (b # p) == ((a + b)%Z # p).
Proof. unfold Qeq, Qplus. cbn [Qnum Qden]. rewrite Pos2Z.inj_mul. nia. Qed.

Lemma affix_tiers_app afs1 afs2 : affix_tiers (afs1 ++ afs2) = (affix_tiers afs1 ++ affix_tiers afs2)%list.
Proof. unfold affix_tiers. now rewrite map_app, concat_app. Qed.

Lemma total_weight_tiers afs : total_weight afs = sumZ (map weighting (affix_tiers afs)).
Proof. unfold total_weight, affix_tiers. now rewrite concat_map, map_map. Qed.

Lemma affix_tiers_In afs t : In t (affix_tiers afs) -> exists a, In a afs /\ In t (tiers a).
Proof.
  unfold affix_tiers. intros (l & Hl & Ht)%in_concat. apply in_map_iff in Hl as (a & <- & Ha). eauto.
Qed.

Lemma affix_percents_tiers tot bt afs afs' :
  Forall2 (affix_percents tot bt) afs afs' -> Forall2 (tier_percents tot bt) (affix_tiers afs) (affix_tiers afs').
Proof.
  induction 1 as [|a a' afs afs' (_ & _ & Ht) _ IH]; [constructor|].
  unfold affix_tiers in *. cbn [map List.concat]. now apply Forall2_app.
Qed.

(** The percentages of the tiers [ts'] computed from the tiers [ts]
    against the total [tot] sum to [100 * sum(w) / tot] within
    [n * percent_tolerance]. *)
Lemma percent_sum_error (sel : Tier -> option json) tot ts ts' :
  (0 < tot)%Z ->
  Forall2 (fun t t' => (0 <= weighting t <= tot)%Z /\ exists p, percent (weighting t) tot = Ok p /\ sel t' = Some p) ts ts' ->
  100 * (sumZ (map weighting ts) # Z.to_pos tot) - inject_Z (Z.of_nat (List.length ts)) * percent_tolerance
  <= Qsum (map (fun t' => pct_value (sel t')) ts')
  <= 100 * (sumZ (map weighting ts) # Z.to_pos tot) + inject_Z (Z.of_nat (List.length ts)) * percent_tolerance.
Proof.
  intros Ht. induction 1 as [|t t' ts ts' (Hw & p & Hp & Hs) _ IH].
  - cbn [map Qsum fold_right sumZ List.length].
    assert (Z0 : 0 # Z.to_pos tot == 0) by reflexivity. setoid_rewrite Z0.
    unfold percent_tolerance, Qle. split; simpl; lia.
  - destruct (percent_range (weighting t) tot Ht Hw) as (r & Hr & _). rewrite Hr in Hp. injection Hp as <-.
    pose proof (percent_error_bound (weighting t) tot r Ht Hw Hr) as He.
    cbn [map]. rewrite Qsum_cons, Hs. cbn [pct_value].
    change (sumZ (weighting t :: map weighting ts)) with (weighting t + sumZ (map weighting ts))%Z.
    setoid_rewrite <- (Qmake_add (weighting t) (sumZ (map weighting ts)) (Z.to_pos tot)). cbn [List.length]. rewrite Nat2Z.inj_succ, <- Z.add_1_r, inject_Z_plus.
    change (inject_Z 1) with 1. unfold percent_tolerance in *. destruct IH, He. split; lra.
Qed.

Lemma Qabs_within x c e : c - e <= x <= c + e -> Qabs (x - c) <= e.
Proof. intros [H1 H2]. apply Qabs_Qle_condition. split; lra. Qed.

Lemma Qmake_self tot : (0 < tot)%Z -> (tot # Z.to_pos tot) == 1.
Proof. intros Ht. unfold Qeq. cbn [Qnum Qden]. rewrite Z2Pos.id by lia. lia. Qed.

(** The tiers of a list of affixes of the invariant all weigh at most
    their total, which is positive when there is a tier. *)
Lemma tiers_below_total afs t :
  affixes_ok afs -> In t (affix_tiers afs) -> (1 < weighting t <= total_weight afs)%Z.
Proof. intros Hok (a & Ha & Ht)%affix_tiers_In. exact (weighting_le_total afs a t Hok Ha Ht). Qed.

Lemma Forall2_weaken_In {A B} (R S : A -> B -> Prop) xs ys :
  (forall x y, In x xs -> R x y -> S x y) -> Forall2 R xs ys -> Forall2 S xs ys.
Proof.
  intros H HR. induction HR as [|x y xs ys Hxy _ IH]; constructor.
  - apply H; [left|]; auto.
  - apply IH. intros x' y' Hx'. apply H. now right.
Qed.

(** When the tiers of [afs] are the whole of the total [tot], their
    percentages against [tot] sum to [100] within the tolerance. *)
Lemma percent_sum_100 (sel : Tier -> option json) tot afs ts' :
  affixes_ok afs -> affix_tiers afs <> [] -> total_weight afs = tot ->
  Forall2 (fun t t' => exists p, percent (weighting t) tot = Ok p /\ sel t' = Some p) (affix_tiers afs) ts' ->
  Qabs (Qsum (map (fun t' => pct_value (sel t')) ts') - 100)
    <= inject_Z (Z.of_nat (List.length ts')) * percent_tolerance.
Proof.
  intros Hok Hne Htot H.
  assert (Ht : (0 < tot)%Z).
  { destruct (affix_tiers afs) as [|t l] eqn:E; [contradiction|].
    pose proof (tiers_below_total afs t Hok ltac:(rewrite E; now left)). lia. }
  rewrite <- (Forall2_length H).
  assert (H' : Forall2 (fun t t' => (0 <= weighting t <= tot)%Z /\ exists p, percent (weighting t) tot = Ok p /\ sel t' = Some p)
                 (affix_tiers afs) ts').
  { apply (Forall2_weaken_In _ _ _ _ (fun t t' Hin Hp => conj (proj1 (conj (tiers_below_total afs t Hok Hin) I)) Hp)) in H.
    refine (Forall2_weaken_In _ _ _ _ _ H). intros t t' _ [Hw Hp]. split; [lia|exact Hp]. }
  destruct (percent_sum_error sel tot _ _ Ht H') as [Hlo Hhi].
  rewrite <- total_weight_tiers, Htot in Hlo, Hhi. setoid_rewrite (Qmake_self tot Ht) in Hlo. setoid_rewrite (Qmake_self tot Ht) in Hhi.
  apply Qabs_within. split; lra.
Qed.

Lemma tier_percents_affix tot bt ts ts' :
  Forall2 (tier_percents tot bt) ts ts' ->
  Forall2 (fun t t' => exists p, percent (weighting t) tot = Ok p /\ affix_percent t' = Some p) ts ts'.
Proof. apply Forall2_weaken_In. intros t t' _ (_ & ap & wp & Ha & _ & Hs & _). eauto. Qed.

Lemma tier_percents_weight tot bt ts ts' :
  Forall2 (tier_percents tot bt) ts ts' ->
  Forall2 (fun t t' => exists p, percent (weighting t) bt = Ok p /\ weight_percent t' = Some p) ts ts'.
Proof. apply Forall2_weaken_In. intros t t' _ (_ & ap & wp & _ & Hw & _ & Hs). eauto. Qed.

(** A group of the invariant and its percentages as lines 173-193 set
    them: the sums of section 8 of the spec are close to [100]. *)
Lemma group_sums_close g g' : group_ok g -> group_percents g g' -> sums_close g'.
Proof.
  intros [Hp Hs] (_ & _ & _ & _ & Hap & Has).
  apply affix_percents_tiers in Hap, Has.
  pose proof (Forall2_length Hap) as Lp. pose proof (Forall2_length Has) as Ls.
  assert (Hne : forall A (l : list A) B (l' : list B), List.length l = List.length l' -> l' <> [] -> l <> []).
  { intros A l B l' E H ->. destruct l'; [contradiction|discriminate]. }
  split; [|split]; intros Hne'.
  - exact (percent_sum_100 _ _ _ _ Hp (Hne _ _ _ _ Lp Hne') eq_refl (tier_percents_affix _ _ _ _ Hap)).
  - exact (percent_sum_100 _ _ _ _ Hs (Hne _ _ _ _ Ls Hne') eq_refl (tier_percents_affix _ _ _ _ Has)).
  - rewrite affix_tiers_app in Hne' |- *. unfold weight_percent_sum. rewrite affix_tiers_app.
    apply (percent_sum_100 _ (total_weight (prefixes g) + total_weight (suffixes g)) (prefixes g ++ suffixes g)).
    + now apply Forall_app.
    + rewrite affix_tiers_app. eapply Hne; [|exact Hne']. rewrite !length_app. lia.
    + now rewrite total_weight_tiers, affix_tiers_app, map_app, sumZ_app, <- !total_weight_tiers.
    + rewrite affix_tiers_app. apply Forall2_app; eapply tier_percents_weight; eassumption.
Qed.

Lemma calculate_percentages_sums_close gs gs' :
  groups_ok gs -> calculate_percentages gs = Ok gs' -> groups_sums_close gs'.
Proof.
  intros Hok H2. apply calculate_percentages_spec in H2. unfold groups_sums_close.
  induction H2 as [|kg kg' gs gs' (_ & Hg) _ IH]; [constructor|].
  inversion Hok as [|? ? Hg0 Hok']; subst. constructor; [exact (group_sums_close _ _ Hg0 Hg)|exact (IH Hok')].
Qed.

(** ** Properties *)

(** C8: one percentage, [round((w / total) * 100, 4)] for [0 <= w <=
    total] and [total > 0] (lines 189-190), is computed without an
    exception and is a float within [0.0000501] of the exact
    [100 * w / total]: [0.00005] from the rounding to four decimals,
    less than [10^-12] from the three binary64 operations. *)
Theorem percent_error w tot :
  (0 < tot)%Z -> (0 <= w <= tot)%Z ->
  exists r, percent w tot = Ok (JFloat r) /\
    (100 * (w # Z.to_pos tot) - percent_tolerance <= b64_val r <= 100 * (w # Z.to_pos tot) + percent_tolerance).
Proof.
  intros Ht Hw. destruct (percent_range w tot Ht Hw) as (r & Hr & _).
  exists r. split; [exact Hr|exact (percent_error_bound w tot r Ht Hw Hr)].
Qed.

Lemma percent_error_witness :
  exists r, percent 2 3 = Ok (JFloat r) /\
    (100 * (2 # 3) - percent_tolerance <= b64_val r <= 100 * (2 # 3) + percent_tolerance).
Proof. apply (percent_error 2 3); lia. Defined.

(** C6: on groups of the invariant (no tier weighs 1 or less), the
    percentages [calculate_percentages] sets add up as section 8 of the
    spec asks, up to rounding: in every group the prefix
    [affix_percent]s, the suffix [affix_percent]s and all the
    [weight_percent]s each sum to [100] within [n * 0.0000501], [n] the
    number of tiers summed. *)
Theorem calculate_percentages_sums gs gs' :
  groups_ok gs -> calculate_percentages gs = Ok gs' -> groups_sums_close gs'.
Proof. exact (calculate_percentages_sums_close gs gs'). Qed.

Lemma calculate_percentages_sums_witness :
  groups_sums_close (match calculate_percentages ex_after with Ok gs => gs | Exc _ => [] end).
Proof.
  apply (calculate_percentages_sums ex_after).
  - apply (parse_modifiers_and_tiers_ok ex_data ex_groups); [repeat constructor | vm_compute; reflexivity].
  - vm_compute. reflexivity.
Defined.

(** C4: the groups the script writes (lines 196-203) satisfy the sums of
    section 8 of the spec within [n * 0.0000501] in every group, whatever
    the two fetched documents hold. *)
Theorem consolidate_percent_sums get u1 u2 gs :
  consolidate_groups get u1 u2 = Ok gs -> groups_sums_close gs.
Proof.
  unfold consolidate_groups, build_groups. intros H. res_inv.
  exact (calculate_percentages_sums_close _ _ (enriched_groups_ok _ _ _ _ _ _ Hx1 Hx2 Hx3 Hx4) H).
Qed.

Lemma consolidate_percent_sums_witness :
  groups_sums_close (match consolidate_groups ex_get poec_data_url poec_lang_url with Ok gs => gs | Exc _ => [] end).
Proof. apply (consolidate_percent_sums ex_get poec_data_url poec_lang_url). vm_compute. reflexivity. Defined.
