(* ===== verification/Dump.v ===== *)
(** * [json.dump(consolidated_data, file, indent=4, ensure_ascii=False)]

    Line 208 of [scrapper.py] writes the output document with the pure
    Python encoder of CPython's [json] module ([_make_iterencode], used
    whenever [indent] is set):

    - [None], [True], [False] are [null], [true], [false]; an [int] is
      its decimal [repr] ([str_of_Z]);
    - a [float] is [NaN], [Infinity], [-Infinity] or its [repr]
      ([floatstr]); [float_repr] is CPython's [float.__repr__]: the
      shortest decimal that reads back as the same double, the nearest
      one among those of that length ([_Py_dg_dtoa], mode 0), formatted
      by [format_float_short] with code ['r'] (positional notation for a
      decimal exponent in [-4, 16), exponential otherwise, [.0] added to
      an integral positional value);
    - a [str] is [py_encode_basestring]: quoted, with a backslash before
      a quote or a backslash, the escapes [\b \f \n \r \t] and [\u00XX]
      (lower-case hex) for the other characters below [0x20];
    - a non-empty [list] or [dict] opens its bracket, puts every element
      on a new line indented by four more spaces, separates the elements
      with [","], and closes on a new line at the outer indentation;
      a key is followed by [": "]; empty ones are [[]] and [{}].

    [float_repr] finds the shortest digits by trying 1 to 17 significant
    digits ([repr_search]); that a 17-digit decimal always reads back is
    a property of binary64 that this development does not prove, so the
    round trip is stated for the documents whose floats all print
    ([repr_found]), which evaluation decides. *)

From S2P Require Import Prelude PyStr PyFloat PyValue JsonLoads BaseGroups Modifiers Percentages Consolidate.
From Stdlib Require Import Ascii String DecimalString DecimalPos.

Open Scope string_scope.

(** ** Strings: [py_encode_basestring] *)

Definition hex_digit (n : nat) : ascii :=
  if (n <? 10)%nat then ascii_of_nat (48 + n) else ascii_of_nat (87 + n).

Definition escape_char (c : ascii) : string :=
  let n := nat_of_ascii c in
  if Ascii.eqb c dquote then String bslash (String dquote EmptyString)
  else if Ascii.eqb c bslash then String bslash (String bslash EmptyString)
  else if (n =? 8)%nat then String bslash "b"
  else if (n =? 12)%nat then String bslash "f"
  else if (n =? 10)%nat then String bslash "n"
  else if (n =? 13)%nat then String bslash "r"
  else if (n =? 9)%nat then String bslash "t"
  else if (n <? 32)%nat then
    String bslash ("u00" ++ String (hex_digit (n / 16)) (String (hex_digit (n mod 16)) EmptyString))
  else String c EmptyString.

Fixpoint escape_str (s : string) : string :=
  match s with
  | EmptyString => EmptyString
  | String c s' => escape_char c ++ escape_str s'
  end.

Definition py_encode_basestring (s : string) : string :=
  String dquote (escape_str s ++ String dquote EmptyString).

(** ** Floats: [float.__repr__] *)

(** [floor(log10(n))] for a positive [n]: its number of digits less one. *)
Definition zlog10 (n : Z) : Z := (Z.of_nat (String.length (str_of_Z n)) - 1)%Z.

(** [floor(log10(num / den))] for positive [num], [den]. *)
Definition dec_exp (num den : Z) : Z :=
  let t := (zlog10 num - zlog10 den)%Z in
  if (den * 10 ^ Z.max t 0 <=? num * 10 ^ Z.max (- t) 0)%Z then t else (t - 1)%Z.

(** [num / (den * 10^k)] rounded to nearest, ties to even. *)
Definition round_scaled (num den k : Z) : Z :=
  if (0 <=? k)%Z then rne_div num (den * 10 ^ k) else rne_div (num * 10 ^ (- k)) den.

Fixpoint zeros (n : nat) : string :=
  match n with O => EmptyString | S n' => String "0" (zeros n') end.

Fixpoint drop_zeros (l : list ascii) : list ascii :=
  match l with
  | c :: l' => if Ascii.eqb c "0" then drop_zeros l' else l
  | [] => []
  end.

(** The digits of [str(n)] without its trailing zeros. *)
Definition trim_zeros (s : string) : string :=
  string_of_list_ascii (rev (drop_zeros (rev (list_ascii_of_string s)))).

(** [format_float_short] with code ['r'] and [Py_DTSF_ADD_DOT_0], for the
    significant [digits] and the position [decpt] of the decimal point. *)
Definition format_short (neg : bool) (digits : string) (decpt : Z) : string :=
  let sign := if neg then "-" else EmptyString in
  let len := Z.of_nat (String.length digits) in
  if (decpt <=? -4)%Z || (16 <? decpt)%Z then
    let ex := (decpt - 1)%Z in
    let es := str_of_Z (Z.abs ex) in
    let mant := match digits with
                | String d rest => String d (if (1 <? len)%Z then "." ++ rest else EmptyString)
                | EmptyString => EmptyString
                end in
    sign ++ mant ++ "e" ++ (if (ex <? 0)%Z then "-" else "+")
         ++ (if (String.length es <? 2)%nat then "0" ++ es else es)
  else if (decpt <=? 0)%Z then sign ++ "0." ++ zeros (Z.to_nat (- decpt)) ++ digits
  else if (decpt <? len)%Z then
    sign ++ substring 0 (Z.to_nat decpt) digits ++ "."
         ++ substring (Z.to_nat decpt) (Z.to_nat (len - decpt)) digits
  else sign ++ digits ++ zeros (Z.to_nat (decpt - len)) ++ ".0".

(** The text of the decimal [n * 10^k], [n > 0]. *)
Definition decimal_text (neg : bool) (n k : Z) : string :=
  let s := str_of_Z n in
  format_short neg (trim_zeros s) (Z.of_nat (String.length s) + k).

Definition b64_same (x y : spec_float) : bool :=
  match x, y with
  | S754_zero s, S754_zero s' => Bool.eqb s s'
  | S754_infinity s, S754_infinity s' => Bool.eqb s s'
  | S754_nan, S754_nan => true
  | S754_finite s m e, S754_finite s' m' e' => Bool.eqb s s' && Pos.eqb m m' && Z.eqb e e'
  | _, _ => false
  end.

(** [t] is read back by [json.loads] (or [float()]) as the double [f]. *)
Definition reads_back (f : spec_float) (t : string) : bool :=
  match scan_number (list_ascii_of_string t) with
  | Some (JFloat g, []) => b64_same f g
  | _ => false
  end.

(** The shortest digits: for [d] significant digits the decimal nearest
    to [num / den], else its other neighbour, when one of them reads
    back. *)
Fixpoint repr_search (f : spec_float) (neg : bool) (num den e10 : Z) (d : nat) (fuel : nat)
    : option string :=
  match fuel with
  | O => None
  | S fuel' =>
      let k := (e10 - Z.of_nat d + 1)%Z in
      let n := round_scaled num den k in
      let cands := List.filter (fun t => reads_back f t)
                     (map (fun n' => decimal_text neg n' k)
                          (List.filter (fun n' => (0 <? n')%Z) [n; (n + 1)%Z; (n - 1)%Z])) in
      match cands with
      | t :: _ => Some t
      | [] => repr_search f neg num den e10 (S d) fuel'
      end
  end.

Definition repr_finite (f : spec_float) : option string :=
  match f with
  | S754_finite s m e =>
      let num := (Zpos m * 2 ^ Z.max e 0)%Z in
      let den := (2 ^ Z.max (- e) 0)%Z in
      repr_search f s num den (dec_exp num den) 1 17
  | _ => None
  end.

(** [repr(f)] *)
Definition float_repr (f : spec_float) : string :=
  match f with
  | S754_zero s => if s then "-0.0" else "0.0"
  | S754_infinity s => if s then "-inf" else "inf"
  | S754_nan => "nan"
  | S754_finite s m e =>
      match repr_finite f with
      | Some t => t
      | None =>
          let num := (Zpos m * 2 ^ Z.max e 0)%Z in
          let den := (2 ^ Z.max (- e) 0)%Z in
          let k := (dec_exp num den - 16)%Z in
          decimal_text s (round_scaled num den k) k
      end
  end.

Definition repr_found (f : spec_float) : bool :=
  match f with
  | S754_finite _ _ _ => match repr_finite f with Some _ => true | None => false end
  | _ => true
  end.

(** [floatstr] of [_make_iterencode], with [allow_nan=True]. *)
Definition floatstr (f : spec_float) : string :=
  match f with
  | S754_nan => "NaN"
  | S754_infinity false => "Infinity"
  | S754_infinity true => "-Infinity"
  | _ => float_repr f
  end.

(** ** The indented layout *)

Fixpoint spaces (n : nat) : string :=
  match n with O => EmptyString | S n' => String " " (spaces n') end.

(** ['\n' + ' ' * 4 * level] *)
Definition newline_indent (lvl : nat) : string := String (ascii_of_nat 10) (spaces (4 * lvl)).

Fixpoint dump_value (lvl : nat) (v : json) : string :=
  match v with
  | JNull => "null"
  | JBool b => if b then "true" else "false"
  | JInt z => str_of_Z z
  | JFloat f => floatstr f
  | JStr s => py_encode_basestring s
  | JArr [] => "[]"
  | JArr (x :: xs) =>
      "[" ++ newline_indent (S lvl) ++ dump_value (S lvl) x
      ++ String.concat EmptyString
           (map (fun y => "," ++ newline_indent (S lvl) ++ dump_value (S lvl) y) xs)
      ++ newline_indent lvl ++ "]"
  | JObj [] => "{}"
  | JObj ((k, x) :: kvs) =>
      "{" ++ newline_indent (S lvl) ++ py_encode_basestring k ++ ": " ++ dump_value (S lvl) x
      ++ String.concat EmptyString
           (map (fun kv => "," ++ newline_indent (S lvl) ++ py_encode_basestring (fst kv) ++ ": "
                           ++ dump_value (S lvl) (snd kv)) kvs)
      ++ newline_indent lvl ++ "}"
  end.

(** The text line 208 writes. *)
Definition json_dump (v : json) : string := dump_value 0 v.

(** ** For the round trip *)

(** What follows a value in the layout: a comma, a new line or nothing. *)
Definition after_value (rest : list ascii) : Prop :=
  match rest with [] => True | c :: _ => c = ","%char \/ c = ascii_of_nat 10 end.

(** Every float of [v] prints ([repr_found]). *)
Fixpoint floats_print (v : json) : bool :=
  match v with
  | JFloat f => repr_found f
  | JArr xs => forallb floats_print xs
  | JObj kvs => forallb (fun kv => floats_print (snd kv)) kvs
  | _ => true
  end.

(** The text of [v] at level [lvl], followed by what may follow it, is
    decoded back to [v] with the fuel [json_loads] gives. *)
Definition decodes_back (lvl : nat) (v : json) : Prop :=
  forall rest n, after_value rest ->
  (4 * List.length (list_ascii_of_string (dump_value lvl v) ++ rest) + 4 <= n)%nat ->
  decode_value n (list_ascii_of_string (dump_value lvl v) ++ rest) = Some (v, rest).

(** The text after the first element of a non-empty list at level [lvl]:
    the other elements, each after [","] and a new line, then the closing
    bracket on its own line, then [rest]. *)
Definition elems_tail (lvl : nat) (rest : list ascii) (xs : list json) : list ascii :=
  flat_map (fun y => list_ascii_of_string ("," ++ newline_indent (S lvl) ++ dump_value (S lvl) y)) xs
  ++ list_ascii_of_string (newline_indent lvl) ++ "]"%char :: rest.

(** The same after the first member of a non-empty dict. *)
Definition members_tail (lvl : nat) (rest : list ascii) (kvs : list (string * json)) : list ascii :=
  flat_map (fun kv => list_ascii_of_string ("," ++ newline_indent (S lvl) ++ py_encode_basestring (fst kv)
                                            ++ ": " ++ dump_value (S lvl) (snd kv))) kvs
  ++ list_ascii_of_string (newline_indent lvl) ++ "}"%char :: rest.

(** A document with a nested dict, escapes, a float, an int, empty
    containers, a boolean and [None]. *)
Definition ex_doc : json :=
  JObj [("1", JObj [("name", JStr (String "q"%char (String dquote (String "\"%char (String (ascii_of_nat 10) EmptyString)))));
                    ("tiers", JArr [JFloat (b64_of_decimal false 6667 (-2)); JInt (-3); JArr []; JObj []]);
                    ("ok", JBool true); ("none", JNull)])].

(** A text with a repeated key: [{"a": 1, "c": [], "a": {"b": 3}}] in
    the indented layout. *)
Definition ex_dups : list (string * json) :=
  [("a", JInt 1); ("c", JArr []); ("a", JObj [("b", JInt 3)])].

(** ** Objects with repeated keys *)

(** The dict [json.loads] builds from the members of an object, one
    [d[key] = value] after the other (CPython's [dict] of the pairs). *)
Definition dict_of_pairs {V} (kvs : list (string * V)) : list (string * V) :=
  fold_left (fun d kv => assoc_set (fst kv) (snd kv) d) kvs [].

(** The keys [ks] in the order of their first occurrence, leaving out
    those already [seen]. *)
Fixpoint first_keys (seen : list string) (ks : list string) : list string :=
  match ks with
  | [] => []
  | k :: ks' => if existsb (String.eqb k) seen then first_keys seen ks'
                else k :: first_keys (seen ++ [k]) ks'
  end.

(** ** Lemmas *)

(** *** Strings read back *)

Lemma scan_escape_char c acc r :
  scan_string acc (list_ascii_of_string (escape_char c) ++ r) = scan_string (c :: acc) r.
Proof. destruct c as [[] [] [] [] [] [] [] []]; reflexivity. Qed.

Lemma scan_escape_str s acc r :
  scan_string acc (list_ascii_of_string (escape_str s) ++ r)
  = scan_string (rev (list_ascii_of_string s) ++ acc) r.
Proof.
  revert acc. induction s as [|c s IH]; intros acc; [reflexivity|]. simpl.
  rewrite list_ascii_of_string_app, <- app_assoc, scan_escape_char, IH.
  now rewrite <- app_assoc.
Qed.

Lemma scan_encoded s r :
  scan_string [] (list_ascii_of_string (escape_str s ++ String dquote EmptyString) ++ r) = Some (s, r).
Proof.
  rewrite list_ascii_of_string_app, <- app_assoc, scan_escape_str, app_nil_r. simpl.
  now rewrite rev_involutive, string_of_list_ascii_of_string.
Qed.

(** *** Numbers read back *)

Lemma after_value_num_stop rest : after_value rest -> num_stop rest.
Proof. destruct rest as [|c r]; simpl; [auto|]. intros [-> | ->]; repeat split; discriminate. Qed.

Lemma plain_digits_uint u a k :
  exists k', plain_digits (Zpos a) k (list_ascii_of_string (NilEmpty.string_of_uint u))
             = (Zpos (Pos.of_uint_acc u a), k', []).
Proof.
  revert a k. induction u as [|u IH|u IH|u IH|u IH|u IH|u IH|u IH|u IH|u IH|u IH];
    intros a k; simpl; [eauto|..].
  all: match goal with |- exists k', plain_digits ?x _ _ = (Zpos (Pos.of_uint_acc _ ?b), _, _) =>
         replace x with (Zpos b) by (unfold digit_val, code; simpl; lia); apply IH end.
Qed.

(** The decimal digits of a positive number do not start with [0]. *)
Lemma to_uint_lead p : match Pos.to_uint p with Decimal.D0 _ | Decimal.Nil => False | _ => True end.
Proof.
  pose proof (Unsigned.to_of (Pos.to_uint p)) as H. rewrite Unsigned.of_to in H. simpl in H.
  destruct (Pos.to_uint p) as [|u| | | | | | | | |] eqn:E; try exact I.
  - exact (Unsigned.to_uint_nonnil p E).
  - rewrite DecimalFacts.unorm_D0 in H.
    destruct u as [|u'| | | | | | | | |] eqn:Eu;
      [apply (Unsigned.to_uint_nonzero p); rewrite E; exact H|..].
    all: pose proof (DecimalFacts.nb_digits_unorm u ltac:(subst u; discriminate)) as L;
      subst u; rewrite <- H in L; simpl in L; lia.
Qed.

Lemma scan_uint p :
  scan_sign (list_ascii_of_string (NilZero.string_of_uint (Pos.to_uint p)))
  = (false, list_ascii_of_string (NilZero.string_of_uint (Pos.to_uint p)))
  /\ scan_int (list_ascii_of_string (NilZero.string_of_uint (Pos.to_uint p))) = Some (Zpos p, []).
Proof.
  pose proof (to_uint_lead p) as L. pose proof (Unsigned.of_to p) as V.
  destruct (Pos.to_uint p) as [|u|u|u|u|u|u|u|u|u|u]; try contradiction; split; try reflexivity.
  all: unfold scan_int; simpl in V |- *.
  all: match goal with V : N.pos (Pos.of_uint_acc ?u ?a) = _ |- context [plain_digits ?x ?k _] =>
         replace x with (Zpos a) by (unfold digit_val, code; simpl; lia);
         destruct (plain_digits_uint u a k) as [k' ->] end.
  all: now injection V as ->.
Qed.

Lemma scan_number_str_of_Z z : scan_number (list_ascii_of_string (str_of_Z z)) = Some (JInt z, []).
Proof.
  destruct z as [|p|p]; [reflexivity| |].
  - unfold str_of_Z, scan_number. simpl Z.to_int. cbn [NilZero.string_of_int].
    destruct (scan_uint p) as [-> ->]. reflexivity.
  - unfold str_of_Z, scan_number. simpl Z.to_int. cbn [NilZero.string_of_int list_ascii_of_string].
    unfold scan_sign at 1. simpl hd_is. cbv iota beta.
    destruct (scan_uint p) as [_ ->]. reflexivity.
Qed.

Lemma b64_same_eq x y : b64_same x y = true -> x = y.
Proof.
  destruct x, y; simpl; try discriminate; intros H; try reflexivity;
    try (apply Bool.eqb_prop in H; now subst).
  apply andb_true_iff in H as [H H3]. apply andb_true_iff in H as [H1 H2].
  apply Bool.eqb_prop in H1. apply Pos.eqb_eq in H2. apply Z.eqb_eq in H3. now subst.
Qed.

Lemma repr_search_reads f neg num den e10 d fuel t :
  repr_search f neg num den e10 d fuel = Some t -> reads_back f t = true.
Proof.
  revert d. induction fuel as [|fuel IH]; intros d; simpl; [discriminate|].
  match goal with |- context [match ?l with _ => _ end] => destruct l as [|t' ts] eqn:F end;
    [apply IH|].
  intros [= <-]. match type of F with List.filter ?p ?l = _ =>
    assert (Hin : In t' (List.filter p l)) by (rewrite F; left; reflexivity) end.
  apply filter_In in Hin as [_ Hin]. exact Hin.
Qed.

(** A float that prints is read back from its text. *)
Lemma scan_number_floatstr f :
  repr_found f = true -> b64_finite f = true ->
  scan_number (list_ascii_of_string (floatstr f)) = Some (JFloat f, []).
Proof.
  destruct f as [s|s| |s m e]; intros Hr Hf; try discriminate Hf; [destruct s; reflexivity|].
  unfold repr_found in Hr.
  destruct (repr_finite (S754_finite s m e)) as [t|] eqn:R; [|discriminate].
  unfold floatstr, float_repr. rewrite R.
  unfold repr_finite in R. apply repr_search_reads in R. unfold reads_back in R.
  destruct (scan_number (list_ascii_of_string t)) as [[[] [|? ?]]|]; try discriminate.
  now apply b64_same_eq in R as ->.
Qed.

(** *** Scalars read back *)

Lemma decode_value_number n cs r : scan_number cs = Some r -> decode_value (S (S n)) cs = Some r.
Proof.
  destruct cs as [|c cs]; [discriminate|]. intros H.
  pose proof (scan_number_head _ _ _ H) as Hh.
  cbn [decode_value decode_token].
  destruct (Ascii.eqb_spec c dquote) as [->|_]; [discriminate Hh|].
  destruct (hd_is "{" (c :: cs)) eqn:E1; [apply hd_is_head in E1; subst; discriminate Hh|].
  destruct (hd_is "[" (c :: cs)) eqn:E2; [apply hd_is_head in E2; subst; discriminate Hh|].
  destruct (starts_with "null" (c :: cs)) eqn:E3; [apply starts_with_head in E3; subst; discriminate Hh|].
  destruct (starts_with "true" (c :: cs)) eqn:E4; [apply starts_with_head in E4; subst; discriminate Hh|].
  destruct (starts_with "false" (c :: cs)) eqn:E5; [apply starts_with_head in E5; subst; discriminate Hh|].
  now rewrite H.
Qed.

Lemma decode_number_text t v rest n :
  scan_number (list_ascii_of_string t) = Some (v, []) -> after_value rest ->
  decode_value (S (S n)) (list_ascii_of_string t ++ rest) = Some (v, rest).
Proof.
  intros Ht Ha. apply decode_value_number.
  rewrite (scan_number_app rest (after_value_num_stop _ Ha)), Ht. reflexivity.
Qed.

Lemma decodes_back_scalar lvl v :
  match v with JArr _ | JObj _ => False | JFloat f => repr_found f = true | _ => True end ->
  decodes_back lvl v.
Proof.
  intros Hv rest n Ha Hn. destruct n as [|[|n]]; [lia|lia|].
  destruct v as [|b|z|f|s| |]; try contradiction.
  - reflexivity.
  - destruct b; reflexivity.
  - apply decode_number_text; [apply scan_number_str_of_Z | exact Ha].
  - destruct f as [s|s| |s m e]; try (destruct s; reflexivity); try reflexivity.
    all: apply decode_number_text; [apply scan_number_floatstr; [exact Hv | reflexivity] | exact Ha].
  - cbn [dump_value py_encode_basestring list_ascii_of_string app decode_value].
    rewrite Ascii.eqb_refl, scan_encoded. reflexivity.
Qed.


(** *** The layout as a list of characters *)

Lemma append_empty_r s : (s ++ EmptyString)%string = s.
Proof. induction s as [|c s IH]; [reflexivity|]. change (String c (s ++ EmptyString) = String c s). now rewrite IH. Qed.
Lemma list_of_concat_map {A} (f : A -> string) l :
  list_ascii_of_string (String.concat EmptyString (map f l))
  = flat_map (fun a => list_ascii_of_string (f a)) l.
Proof.
  induction l as [|a l IH]; [reflexivity|].
  destruct l as [|b l].
  - change (String.concat EmptyString (map f [a])) with (f a). simpl. now rewrite app_nil_r.
  - change (String.concat EmptyString (map f (a :: b :: l)))
      with (f a ++ EmptyString ++ String.concat EmptyString (map f (b :: l)))%string.
    rewrite list_ascii_of_string_app. change (EmptyString ++ ?x)%string with x. rewrite IH. reflexivity.
Qed.
Lemma dump_arr_text lvl x xs :
  list_ascii_of_string (dump_value lvl (JArr (x :: xs)))
  = "["%char :: list_ascii_of_string (newline_indent (S lvl))
      ++ list_ascii_of_string (dump_value (S lvl) x)
      ++ flat_map (fun y => list_ascii_of_string ("," ++ newline_indent (S lvl) ++ dump_value (S lvl) y)) xs
      ++ list_ascii_of_string (newline_indent lvl) ++ ["]"%char].
Proof. cbn [dump_value]. now rewrite !list_ascii_of_string_app, list_of_concat_map. Qed.

Lemma dump_obj_text lvl k x kvs :
  list_ascii_of_string (dump_value lvl (JObj ((k, x) :: kvs)))
  = "{"%char :: list_ascii_of_string (newline_indent (S lvl))
      ++ list_ascii_of_string (py_encode_basestring k) ++ [":"%char; " "%char]
      ++ list_ascii_of_string (dump_value (S lvl) x)
      ++ flat_map (fun kv => list_ascii_of_string ("," ++ newline_indent (S lvl) ++ py_encode_basestring (fst kv)
                                                   ++ ": " ++ dump_value (S lvl) (snd kv))) kvs
      ++ list_ascii_of_string (newline_indent lvl) ++ ["}"%char].
Proof. cbn [dump_value]. now rewrite !list_ascii_of_string_app, list_of_concat_map. Qed.

Lemma skip_ws_spaces k cs : skip_ws (list_ascii_of_string (spaces k) ++ cs) = skip_ws cs.
Proof. induction k as [|k IH]; simpl; auto. Qed.

Lemma skip_ws_newline_indent lvl cs :
  skip_ws (list_ascii_of_string (newline_indent lvl) ++ cs) = skip_ws cs.
Proof. unfold newline_indent. simpl list_ascii_of_string. simpl app. apply skip_ws_spaces. Qed.

Lemma json_start_not_ws c : json_start c = true -> is_json_ws c = false.
Proof. intros H. destruct c as [[] [] [] [] [] [] [] []]; try discriminate H; reflexivity. Qed.

Lemma decode_value_nil n : decode_value n [] = None.
Proof. now destruct n. Qed.

(** A text that decodes starts with a character that is not whitespace. *)
Lemma decodes_back_head lvl v :
  decodes_back lvl v ->
  exists c t, list_ascii_of_string (dump_value lvl v) = c :: t /\ is_json_ws c = false.
Proof.
  intros H. specialize (H [] _ I (le_n _)).
  destruct (list_ascii_of_string (dump_value lvl v)) as [|c t]; [now rewrite decode_value_nil in H|].
  exists c, t. split; [reflexivity|]. apply json_start_not_ws. eapply decode_value_head; exact H.
Qed.

Lemma skip_ws_dump lvl v r :
  decodes_back lvl v ->
  skip_ws (list_ascii_of_string (dump_value lvl v) ++ r)%list = (list_ascii_of_string (dump_value lvl v) ++ r)%list.
Proof. intros H. destruct (decodes_back_head _ _ H) as (c & t & -> & Hc). simpl. now rewrite Hc. Qed.

(** *** Containers read back *)

Lemma decodes_back_start lvl v :
  decodes_back lvl v ->
  exists c t, list_ascii_of_string (dump_value lvl v) = c :: t /\ json_start c = true.
Proof.
  intros H. specialize (H [] _ I (le_n _)).
  destruct (list_ascii_of_string (dump_value lvl v)) as [|c t]; [now rewrite decode_value_nil in H|].
  exists c, t. split; [reflexivity|]. eapply decode_value_head; exact H.
Qed.

Lemma hd_is_dump lvl v c r :
  decodes_back lvl v -> json_start c = false ->
  hd_is c (list_ascii_of_string (dump_value lvl v) ++ r)%list = None.
Proof.
  intros H Hc. destruct (decodes_back_start _ _ H) as (d & t & -> & Hd). simpl.
  destruct (Ascii.eqb_spec d c) as [->|]; congruence.
Qed.

Lemma elems_tail_cons lvl rest y ys :
  elems_tail lvl rest (y :: ys)
  = ","%char :: list_ascii_of_string (newline_indent (S lvl))
      ++ list_ascii_of_string (dump_value (S lvl) y) ++ elems_tail lvl rest ys.
Proof. unfold elems_tail. cbn [flat_map]. rewrite !list_ascii_of_string_app. simpl. now rewrite <- !app_assoc. Qed.

Lemma after_value_newline lvl r : after_value (list_ascii_of_string (newline_indent lvl) ++ r)%list.
Proof. right. reflexivity. Qed.

Lemma after_value_elems_tail lvl rest xs : after_value (elems_tail lvl rest xs).
Proof. destruct xs as [|y ys]; [apply after_value_newline | rewrite elems_tail_cons; now left]. Qed.

Lemma hd_skip_comma t : hd_is ","%char (skip_ws (","%char :: t)) = Some t.
Proof. reflexivity. Qed.

Lemma decode_elems_dump lvl rest x xs acc m :
  Forall (decodes_back (S lvl)) (x :: xs) ->
  (4 * List.length (list_ascii_of_string (dump_value (S lvl) x) ++ elems_tail lvl rest xs) + 5 <= m)%nat ->
  decode_elems m acc (list_ascii_of_string (dump_value (S lvl) x) ++ elems_tail lvl rest xs)
  = Some (JArr (rev acc ++ x :: xs), rest).
Proof.
  revert x acc m. induction xs as [|y ys IH]; intros x acc m Hf Hm;
    apply Forall_cons_iff in Hf as [Hx Hxs]; destruct m as [|m]; [lia| |lia|];
    cbn [decode_elems]; rewrite Hx by (apply after_value_elems_tail || lia).
  - unfold elems_tail. cbn [flat_map app]. rewrite skip_ws_newline_indent. reflexivity.
  - rewrite elems_tail_cons, hd_skip_comma, skip_ws_newline_indent, skip_ws_dump by (inversion Hxs; assumption).
    rewrite IH; [simpl; now rewrite <- app_assoc | exact Hxs |].
    rewrite elems_tail_cons in Hm. len_simpl. lia.
Qed.

Lemma members_tail_cons lvl rest k x kvs :
  members_tail lvl rest ((k, x) :: kvs)
  = ","%char :: list_ascii_of_string (newline_indent (S lvl))
      ++ list_ascii_of_string (py_encode_basestring k) ++ ":"%char :: " "%char
      :: list_ascii_of_string (dump_value (S lvl) x) ++ members_tail lvl rest kvs.
Proof. unfold members_tail. cbn [flat_map]. rewrite !list_ascii_of_string_app. cbn [list_ascii_of_string app]. now rewrite <- !app_assoc. Qed.

Lemma after_value_members_tail lvl rest kvs : after_value (members_tail lvl rest kvs).
Proof. destruct kvs as [|[k x] kvs]; [apply after_value_newline | rewrite members_tail_cons; left; reflexivity]. Qed.

Lemma skip_ws_encoded k r :
  skip_ws (list_ascii_of_string (py_encode_basestring k) ++ r) = (list_ascii_of_string (py_encode_basestring k) ++ r)%list.
Proof. reflexivity. Qed.

Lemma decode_member_dump lvl k x tl f :
  decodes_back (S lvl) x -> after_value tl ->
  (4 * List.length (list_ascii_of_string (dump_value (S lvl) x) ++ tl) + 4 <= f)%nat ->
  forall acc,
  decode_members (S f) acc (list_ascii_of_string (py_encode_basestring k) ++ ":"%char :: " "%char
                            :: list_ascii_of_string (dump_value (S lvl) x) ++ tl)
  = match hd_is "," (skip_ws tl) with
    | Some r4 => decode_members f (assoc_set k x acc) (skip_ws r4)
    | None => match hd_is "}" (skip_ws tl) with Some r4 => Some (JObj (assoc_set k x acc), r4) | None => None end
    end.
Proof.
  intros Hx Ha Hf acc.
  cbn [decode_members py_encode_basestring list_ascii_of_string app]. rewrite Ascii.eqb_refl. cbn [negb].
  rewrite scan_encoded. change (skip_ws (":"%char :: ?t)) with (":"%char :: t).
  change (hd_is ":"%char (":"%char :: ?t)) with (Some t). change (skip_ws (" "%char :: ?t)) with (skip_ws t).
  cbv iota beta. change (skip_ws (" "%char :: ?t)) with (skip_ws t).
  rewrite skip_ws_dump, Hx by assumption. reflexivity.
Qed.

Lemma NoDup_keys_new {V} (acc : list (string * V)) k v kvs :
  List.NoDup (map fst (acc ++ (k, v) :: kvs)) -> ~ In k (map fst acc).
Proof.
  rewrite map_app. intros H Hin. apply NoDup_remove_2 in H. apply H, in_or_app. now left.
Qed.

(** The members are read one after the other into the dict, each
    [assoc_set] replacing the value of a key already there. *)
Lemma decode_members_dump_fold lvl rest k x kvs acc m :
  Forall (fun kv => decodes_back (S lvl) (snd kv)) ((k, x) :: kvs) ->
  (4 * List.length (list_ascii_of_string (py_encode_basestring k) ++ ":"%char :: " "%char
                    :: list_ascii_of_string (dump_value (S lvl) x) ++ members_tail lvl rest kvs) + 5 <= m)%nat ->
  decode_members m acc (list_ascii_of_string (py_encode_basestring k) ++ ":"%char :: " "%char
                        :: list_ascii_of_string (dump_value (S lvl) x) ++ members_tail lvl rest kvs)
  = Some (JObj (fold_left (fun d kv => assoc_set (fst kv) (snd kv) d) ((k, x) :: kvs) acc), rest).
Proof.
  revert k x acc m. induction kvs as [|[k' x'] kvs IH]; intros k x acc m Hf Hm;
    apply Forall_cons_iff in Hf as [Hx Hxs]; destruct m as [|m]; [lia| |lia|];
    rewrite decode_member_dump by (exact Hx || apply after_value_members_tail || (len_simpl; lia)).
  - unfold members_tail. cbn [flat_map app]. rewrite skip_ws_newline_indent. reflexivity.
  - rewrite members_tail_cons, hd_skip_comma, skip_ws_newline_indent, skip_ws_encoded.
    rewrite IH; [reflexivity | exact Hxs |]. rewrite members_tail_cons in Hm. len_simpl. lia.
Qed.

Lemma fold_assoc_set_new {V} (kvs acc : list (string * V)) :
  List.NoDup (map fst (acc ++ kvs)%list) -> fold_left (fun d kv => assoc_set (fst kv) (snd kv) d) kvs acc = (acc ++ kvs)%list.
Proof.
  revert acc. induction kvs as [|[k v] kvs IH]; intros acc Hnd; cbn [fold_left fst snd]; [now rewrite app_nil_r|].
  rewrite assoc_set_new by (eapply NoDup_keys_new; exact Hnd).
  rewrite IH by now rewrite <- app_assoc. now rewrite <- app_assoc.
Qed.

Lemma decode_members_dump lvl rest k x kvs acc m :
  Forall (fun kv => decodes_back (S lvl) (snd kv)) ((k, x) :: kvs) ->
  List.NoDup (map fst (acc ++ (k, x) :: kvs)) ->
  (4 * List.length (list_ascii_of_string (py_encode_basestring k) ++ ":"%char :: " "%char
                    :: list_ascii_of_string (dump_value (S lvl) x) ++ members_tail lvl rest kvs) + 5 <= m)%nat ->
  decode_members m acc (list_ascii_of_string (py_encode_basestring k) ++ ":"%char :: " "%char
                        :: list_ascii_of_string (dump_value (S lvl) x) ++ members_tail lvl rest kvs)
  = Some (JObj (acc ++ (k, x) :: kvs), rest).
Proof. intros Hf Hnd Hm. rewrite decode_members_dump_fold by assumption. now rewrite fold_assoc_set_new. Qed.

(** *** Lists and dicts read back *)

Lemma decode_open_bracket n t :
  decode_value (S (S n)) ("["%char :: t)
  = match hd_is "]" (skip_ws t) with Some r => Some (JArr [], r) | None => decode_elems n [] (skip_ws t) end.
Proof. reflexivity. Qed.

Lemma decode_open_brace n t :
  decode_value (S (S n)) ("{"%char :: t)
  = match hd_is "}" (skip_ws t) with Some r => Some (JObj [], r) | None => decode_members n [] (skip_ws t) end.
Proof. reflexivity. Qed.

Lemma dump_arr_rest lvl x xs rest :
  (list_ascii_of_string (dump_value lvl (JArr (x :: xs))) ++ rest)%list
  = "["%char :: list_ascii_of_string (newline_indent (S lvl))
      ++ list_ascii_of_string (dump_value (S lvl) x) ++ elems_tail lvl rest xs.
Proof. rewrite dump_arr_text. unfold elems_tail. cbn [app]. now rewrite <- !app_assoc. Qed.

Lemma dump_obj_rest lvl k x kvs rest :
  (list_ascii_of_string (dump_value lvl (JObj ((k, x) :: kvs))) ++ rest)%list
  = "{"%char :: list_ascii_of_string (newline_indent (S lvl))
      ++ list_ascii_of_string (py_encode_basestring k) ++ ":"%char :: " "%char
      :: list_ascii_of_string (dump_value (S lvl) x) ++ members_tail lvl rest kvs.
Proof. rewrite dump_obj_text. unfold members_tail. cbn [app]. rewrite <- !app_assoc. cbn [app]. now rewrite <- !app_assoc. Qed.

Lemma hd_is_encoded k r : hd_is "}" (list_ascii_of_string (py_encode_basestring k) ++ r) = None.
Proof. reflexivity. Qed.

Lemma decodes_back_arr lvl xs : Forall (decodes_back (S lvl)) xs -> decodes_back lvl (JArr xs).
Proof.
  intros Hf rest n Ha Hn. destruct xs as [|x xs]; destruct n as [|[|n]]; try lia; [reflexivity|].
  rewrite dump_arr_rest in Hn |- *. rewrite decode_open_bracket, skip_ws_newline_indent.
  pose proof (Forall_inv Hf) as Hx.
  rewrite skip_ws_dump, hd_is_dump by (assumption || reflexivity).
  rewrite decode_elems_dump; [reflexivity | exact Hf | len_simpl; lia].
Qed.

Lemma decodes_back_obj lvl kvs :
  Forall (fun kv => decodes_back (S lvl) (snd kv)) kvs -> List.NoDup (map fst kvs) ->
  decodes_back lvl (JObj kvs).
Proof.
  intros Hf Hnd rest n Ha Hn. destruct kvs as [|[k x] kvs]; destruct n as [|[|n]]; try lia; [reflexivity|].
  rewrite dump_obj_rest in Hn |- *. rewrite decode_open_brace, skip_ws_newline_indent, skip_ws_encoded, hd_is_encoded.
  apply (decode_members_dump lvl rest k x kvs [] n); [exact Hf | exact Hnd | len_simpl; lia].
Qed.

(** *** The round trip *)

(** Every value whose dicts have distinct keys and whose floats print is
    read back from its text at any level. *)
Lemma dump_decodes_back v :
  keys_distinct v = true -> floats_print v = true -> forall lvl, decodes_back lvl v.
Proof.
  induction v as [| | | f | | xs IH | kvs IH] using json_ind; intros Hk Hp lvl;
    try (apply decodes_back_scalar; exact I); cbn [keys_distinct floats_print] in Hk, Hp.
  - now apply decodes_back_scalar.
  - apply decodes_back_arr. rewrite forallb_forall in Hk, Hp. rewrite Forall_forall in IH |- *.
    intros y Hy. apply IH; auto.
  - apply andb_prop in Hk as [Hnd Hk]. rewrite forallb_forall in Hk, Hp.
    apply decodes_back_obj; [|now apply nodup_keys_spec].
    rewrite Forall_forall in IH |- *. intros kv Hkv. apply IH; auto.
Qed.

Lemma dump_loads v :
  keys_distinct v = true -> floats_print v = true -> json_loads_str (json_dump v) = Ok v.
Proof.
  intros Hk Hp. pose proof (dump_decodes_back v Hk Hp 0) as H.
  unfold json_loads_str, json_dump. rewrite <- (app_nil_r (list_ascii_of_string (dump_value 0 v))).
  rewrite skip_ws_dump, H by (exact H || exact I || lia). reflexivity.
Qed.

(** *** Repeated keys *)

Lemma decodes_obj_fold lvl kvs rest n :
  Forall (fun kv => decodes_back (S lvl) (snd kv)) kvs -> after_value rest ->
  (4 * List.length (list_ascii_of_string (dump_value lvl (JObj kvs)) ++ rest) + 4 <= n)%nat ->
  decode_value n (list_ascii_of_string (dump_value lvl (JObj kvs)) ++ rest) = Some (JObj (dict_of_pairs kvs), rest).
Proof.
  intros Hf Ha Hn. destruct kvs as [|[k x] kvs]; destruct n as [|[|n]]; try lia; [reflexivity|].
  rewrite dump_obj_rest in Hn |- *. rewrite decode_open_brace, skip_ws_newline_indent, skip_ws_encoded, hd_is_encoded.
  apply (decode_members_dump_fold lvl rest k x kvs [] n); [exact Hf | len_simpl; lia].
Qed.

Section DictOfPairs.
Context {V : Type}.
Implicit Types (kvs acc : list (string * V)).

Lemma fold_assoc_set_lookup k kvs acc :
  assoc_lookup k (fold_left (fun d kv => assoc_set (fst kv) (snd kv) d) kvs acc)
  = match assoc_lookup k (rev kvs) with Some v => Some v | None => assoc_lookup k acc end.
Proof.
  revert acc. induction kvs as [|[k' v] kvs IH]; intros acc; [reflexivity|].
  cbn [fold_left rev fst snd]. rewrite IH, assoc_lookup_app.
  destruct (assoc_lookup k (rev kvs)); [reflexivity|]. cbn.
  destruct (String.eqb_spec k k') as [->|Hne]; [apply assoc_lookup_set_eq | now apply assoc_lookup_set_ne].
Qed.

Lemma fold_assoc_set_keys kvs acc :
  map fst (fold_left (fun d kv => assoc_set (fst kv) (snd kv) d) kvs acc)
  = (map fst acc ++ first_keys (map fst acc) (map fst kvs))%list.
Proof.
  revert acc. induction kvs as [|[k v] kvs IH]; intros acc; cbn [fold_left map first_keys fst snd];
    [now rewrite app_nil_r|]. rewrite IH.
  destruct (existsb (String.eqb k) (map fst acc)) eqn:E.
  - apply existsb_eqb_In in E. now rewrite assoc_set_keys_in by exact E.
  - assert (Hn : ~ In k (map fst acc)) by (rewrite <- existsb_eqb_In; congruence).
    rewrite assoc_set_keys_new by exact Hn. now rewrite <- app_assoc.
Qed.
End DictOfPairs.

Lemma dict_of_pairs_lookup {V} k (kvs : list (string * V)) :
  assoc_lookup k (dict_of_pairs kvs) = assoc_lookup k (rev kvs).
Proof. unfold dict_of_pairs. rewrite fold_assoc_set_lookup. now destruct (assoc_lookup k (rev kvs)). Qed.

Lemma dict_of_pairs_keys {V} (kvs : list (string * V)) : map fst (dict_of_pairs kvs) = first_keys [] (map fst kvs).
Proof. unfold dict_of_pairs. now rewrite fold_assoc_set_keys. Qed.

(** [json.loads] of an object whose members may repeat a key. *)
Lemma loads_repeated_keys kvs :
  Forall (fun kv => keys_distinct (snd kv) = true /\ floats_print (snd kv) = true) kvs ->
  json_loads_str (json_dump (JObj kvs)) = Ok (JObj (dict_of_pairs kvs)).
Proof.
  intros Hf. unfold json_loads_str, json_dump. rewrite <- (app_nil_r (list_ascii_of_string (dump_value 0 (JObj kvs)))).
  assert (Hd : Forall (fun kv => decodes_back 1 (snd kv)) kvs)
    by (eapply Forall_impl; [|exact Hf]; intros kv [Hk Hp]; now apply dump_decodes_back).
  destruct kvs as [|[k x] kvs]; [reflexivity|].
  assert (Hs : forall r, skip_ws (list_ascii_of_string (dump_value 0 (JObj ((k, x) :: kvs))) ++ r)%list
                         = (list_ascii_of_string (dump_value 0 (JObj ((k, x) :: kvs))) ++ r)%list)
    by (intros r; rewrite dump_obj_rest; reflexivity).
  rewrite Hs, (decodes_obj_fold 0 _ [] _ Hd I) by lia. reflexivity.
Qed.

(** C32: the document line 208 writes loads back: [json.loads] of the
    text [json.dump] writes for [v] (indent 4) is [v] itself, for every
    value whose dicts have distinct keys and whose floats print. *)
Theorem json_dump_loads v :
  keys_distinct v = true -> floats_print v = true -> json_loads_str (json_dump v) = Ok v.
Proof. exact (dump_loads v). Qed.


Lemma json_dump_loads_witness :
  keys_distinct ex_doc = true /\ floats_print ex_doc = true /\ json_loads_str (json_dump ex_doc) = Ok ex_doc.
Proof.
  assert (Hk : keys_distinct ex_doc = true) by (vm_compute; reflexivity).
  assert (Hp : floats_print ex_doc = true) by (vm_compute; reflexivity).
  split; [exact Hk | split; [exact Hp | apply (json_dump_loads ex_doc Hk Hp)]].
Defined.

(** C27: [json.loads] builds an object's dict as CPython does, by
    assigning the members in order: when a key is repeated, the dict has
    the key once, at the position of its first occurrence, with the value
    of its last occurrence.  Stated for every object text in the
    indented layout of [json.dump] whose values read back. *)
Theorem json_loads_repeated_keys kvs :
  Forall (fun kv => keys_distinct (snd kv) = true /\ floats_print (snd kv) = true) kvs ->
  exists d, json_loads_str (json_dump (JObj kvs)) = Ok (JObj d) /\
    map fst d = first_keys [] (map fst kvs) /\
    (forall k, assoc_lookup k d = assoc_lookup k (rev kvs)).
Proof.
  intros Hf. exists (dict_of_pairs kvs). split; [exact (loads_repeated_keys kvs Hf)|].
  split; [apply dict_of_pairs_keys | intros k; apply dict_of_pairs_lookup].
Qed.

Lemma json_loads_repeated_keys_witness :
  exists d, json_loads_str (json_dump (JObj ex_dups)) = Ok (JObj d) /\
    map fst d = ["a"; "c"] /\ assoc_lookup "a" d = Some (JObj [("b", JInt 3)]).
Proof.
  destruct (json_loads_repeated_keys ex_dups) as (d & Hd & Hk & Hl);
    [repeat constructor|].
  exists d. split; [exact Hd|]. split; [exact Hk | exact (Hl "a")].
Defined.
