(* ===== verification/Document.v ===== *)
(** * The written document is a tree of dictionaries

    [json.loads] reads every object of a text into a [dict], so a
    document with a repeated key does not read back as itself.  This
    file shows that the document [consolidate_data] writes has distinct
    keys in every object, at any depth: every value it stores is either
    built by the program ([str], [int], [float], [bool], the group, affix
    and tier dictionaries with their fixed keys) or read out of a fetched
    document, which [json.loads] made a tree of dictionaries
    ([JsonLoads.loads_keys_distinct]).  With [Dump.dump_loads] this gives
    the round trip of the output file.

    [group_kd], [affix_kd] and [tier_kd] state it of the records the
    stages build; each stage of [build_groups] keeps [groups_kd]. *)

From S2P Require Import Prelude PyStr PyFloat PyValue JsonLoads BaseGroups Modifiers Percentages Consolidate Dump.
From Stdlib Require Import Ascii String.
Open Scope string_scope.

(** ** Dictionaries with distinct keys, at any depth *)

(** [v] is made of dictionaries. *)
Definition kd (v : json) : Prop := keys_distinct v = true.
Definition opt_kd (v : option json) : Prop := match v with Some x => kd x | None => True end.

(** The values stored in a tier, an affix and a group. *)
Definition tier_kd (t : Tier) : Prop :=
  Forall (fun p => kd (fst p) /\ kd (snd p)) (values t)
  /\ opt_kd (affix_percent t) /\ opt_kd (weight_percent t).
Definition affix_kd (a : Affix) : Prop :=
  kd (description a) /\ Forall kd (mod_groups a) /\ Forall tier_kd (tiers a).
Definition group_kd (g : BaseGroup) : Prop :=
  kd (base_group g) /\ Forall kd (items g) /\ Forall affix_kd (prefixes g)
  /\ Forall affix_kd (suffixes g) /\ opt_kd (base_type g) /\ opt_kd (bgroup g).
Definition groups_kd (gs : Groups) : Prop := Forall (fun kv => group_kd (snd kv)) gs.

(** ** Lemmas *)

Lemma kd_arr xs : kd (JArr xs) <-> Forall kd xs.
Proof. unfold kd. cbn [keys_distinct]. now rewrite forallb_forall, Forall_forall. Qed.

Lemma kd_obj_vals kvs : kd (JObj kvs) -> Forall (fun kv => kd (snd kv)) kvs.
Proof.
  unfold kd. cbn [keys_distinct]. intros [_ H]%andb_prop. apply Forall_forall.
  now apply forallb_forall.
Qed.

Lemma kd_obj_In kvs k x : kd (JObj kvs) -> In (k, x) kvs -> kd x.
Proof. intros Hv Hin. apply kd_obj_vals in Hv. rewrite Forall_forall in Hv. exact (Hv (k, x) Hin). Qed.

Lemma kd_obj kvs : List.NoDup (map fst kvs) -> Forall (fun kv => kd (snd kv)) kvs -> kd (JObj kvs).
Proof.
  intros Hn Hf. unfold kd. cbn [keys_distinct]. apply andb_true_intro. split; [now apply nodup_keys_spec|].
  apply forallb_forall, Forall_forall, Hf.
Qed.

Lemma str_chars_kd s : Forall kd (str_chars s).
Proof. apply Forall_forall. unfold str_chars. intros x (c & <- & _)%in_map_iff. reflexivity. Qed.

Lemma getitem_kd v k x : kd v -> getitem v k = Ok x -> kd x.
Proof.
  intros Hv H. destruct v as [| | | | s | xs | kvs]; cbn [getitem] in H; res_inv.
  - destruct (nth_error (str_chars s) _) eqn:E; [|discriminate]. res_inv. subst.
    eapply Forall_forall; [apply str_chars_kd | eapply nth_error_In; eauto].
  - destruct (nth_error xs _) eqn:E; [|discriminate]. res_inv. subst.
    eapply Forall_forall; [apply kd_arr, Hv | eapply nth_error_In; eauto].
  - destruct_match_in H; try discriminate. res_inv. subst.
    eapply kd_obj_In; [exact Hv | apply assoc_lookup_In; eassumption].
Qed.

(** *** Values read out of a dictionary tree *)

Lemma field_kd v k x : kd v -> field v k = Ok x -> kd x.
Proof. apply getitem_kd. Qed.

Lemma as_dict_kd v kvs : kd v -> as_dict v = Ok kvs -> Forall (fun kv => kd (snd kv)) kvs.
Proof. destruct v; cbn; intros Hv H; res_inv. subst. now apply kd_obj_vals. Qed.

Lemma get_in_kd kvs k d x :
  Forall (fun kv => kd (snd kv)) kvs -> kd d -> get_in kvs k d = Ok x -> kd x.
Proof.
  unfold get_in. intros Hf Hd H. res_inv. destruct_match_in H; res_inv; subst; try exact Hd.
  rewrite Forall_forall in Hf. apply (Hf (s, x)), assoc_lookup_In; assumption.
Qed.

Lemma py_iter_kd v xs : kd v -> py_iter v = Ok xs -> Forall kd xs.
Proof.
  destruct v; cbn; intros Hv H; res_inv; subst.
  - apply str_chars_kd.
  - now apply kd_arr.
  - apply Forall_forall. intros x (kv & <- & _)%in_map_iff. reflexivity.
Qed.

Lemma setitem_list_kd v i x v' : kd v -> kd x -> setitem_list v i x = Ok v' -> kd v'.
Proof.
  destruct v; cbn [setitem_list]; intros Hv Hx H; res_inv. destruct (i <? _)%nat; res_inv; subst.
  apply kd_arr. apply kd_arr in Hv. now apply Forall_insert.
Qed.

Lemma json_loads_kd v x : json_loads v = Ok x -> kd x.
Proof. destruct v; cbn; intros H; res_inv. eapply loads_keys_distinct; eassumption. Qed.

Lemma seq_of_kd d name xs : kd d -> seq_of d name = Ok xs -> Forall kd xs.
Proof. unfold seq_of. intros Hd H. res_inv. eauto using py_iter_kd, field_kd. Qed.



Lemma kd_JInt z : kd (JInt z).
Proof. reflexivity. Qed.
Lemma kd_JStr s : kd (JStr s).
Proof. reflexivity. Qed.
Lemma kd_JFloat f : kd (JFloat f).
Proof. reflexivity. Qed.

(** Forward: every value read out of a [kd] value is [kd]. *)
Ltac kd_fwd :=
  repeat match goal with
  | H : getitem ?v _ = Ok ?x, Hv : kd ?v |- _ =>
      lazymatch goal with _ : kd x |- _ => fail | _ => pose proof (getitem_kd _ _ _ Hv H) end
  | H : field ?v _ = Ok ?x, Hv : kd ?v |- _ =>
      lazymatch goal with _ : kd x |- _ => fail | _ => pose proof (field_kd _ _ _ Hv H) end
  | H : setitem_list ?v _ (JInt _) = Ok ?x, Hv : kd ?v |- _ =>
      lazymatch goal with _ : kd x |- _ => fail | _ => pose proof (setitem_list_kd _ _ _ _ Hv (kd_JInt _) H) end
  | H : json_loads _ = Ok ?x |- _ =>
      lazymatch goal with _ : kd x |- _ => fail | _ => pose proof (json_loads_kd _ _ H) end
  | H : as_dict ?v = Ok ?kvs, Hv : kd ?v, Hg : get_in ?kvs _ (JStr _) = Ok ?x |- _ =>
      lazymatch goal with _ : kd x |- _ => fail
      | _ => pose proof (get_in_kd _ _ _ _ (as_dict_kd _ _ Hv H) (kd_JStr _) Hg) end
  end.

(** *** The stages store only such values *)

Lemma tier_value_kd b value mn mx f :
  kd value -> tier_value b value = Ok (mn, mx, f) -> kd mn /\ kd mx.
Proof.
  unfold tier_value. intros Hv H.
  destruct (is_list value), b; res_inv; subst; kd_fwd; auto using kd_JInt.
Qed.

Lemma values_loop_kd b nv vals fl :
  kd nv -> values_loop b nv = Ok (vals, fl) -> Forall (fun p => kd (fst p) /\ kd (snd p)) vals.
Proof.
  unfold values_loop. intros Hv H. destruct nv; res_inv; subst; try constructor.
  apply Forall_map. revert Hx. apply res_map_Forall. intros value [[mn mx] f] Hin Hval.
  apply kd_arr in Hv. rewrite Forall_forall in Hv. exact (tier_value_kd _ _ _ _ _ (Hv _ Hin) Hval).
Qed.

Lemma tier_body_kd b tv i tier t : tier_body b tv i tier = Ok (Some t) -> tier_kd t.
Proof.
  unfold tier_body. intros H. res_inv. kd_fwd.
  destruct (1 <? _)%Z; res_inv; [|discriminate]. subst t.
  split; [eapply values_loop_kd; eassumption | split; exact I].
Qed.


Lemma tier_loop_kd b tv i rest ts : tier_loop b tv i rest = Ok ts -> Forall tier_kd ts.
Proof.
  revert i ts. induction rest as [|tier rest IH]; intros i ts H; cbn [tier_loop] in H; res_inv; subst; [constructor|].
  destruct x as [t|]; [|eauto]. constructor; [|eauto].
  eapply tier_body_kd, catch_value_Some; eassumption.
Qed.

Lemma tiers_loop_kd b es ts : tiers_loop b es = Ok ts -> Forall tier_kd ts.
Proof.
  revert ts. induction es as [|[bt tv] es IH]; intros ts H; cbn [tiers_loop] in H; res_inv; subst; [constructor|].
  apply Forall_app. split; [|eauto].
  unfold tiers_for_base in Hx. destruct (String.eqb bt b); res_inv; [|subst; constructor].
  eapply tier_loop_kd; eassumption.
Qed.

Lemma find_modifier_kd sq mid m : Forall kd sq -> find_modifier sq mid = Ok (Some m) -> kd m.
Proof.
  induction sq as [|x sq IH]; cbn [find_modifier]; intros Hf H; res_inv; [discriminate|].
  inversion Hf; subst. destruct (py_eq _ mid); res_inv; subst; auto.
Qed.

Lemma mod_groups_of_kd md mgs : mod_groups_of md = Ok mgs -> Forall kd mgs.
Proof.
  intros H. eapply Forall_impl; [|exact (mod_groups_of_ok _ _ H)].
  intros v (s & -> & _). reflexivity.
Qed.


Lemma add_prefix_kd a g : affix_kd a -> group_kd g -> group_kd (add_prefix a g).
Proof. intros Ha (H1 & H2 & H3 & H4 & H5 & H6). repeat split; cbn; auto. apply Forall_app; auto. Qed.
Lemma add_suffix_kd a g : affix_kd a -> group_kd g -> group_kd (add_suffix a g).
Proof. intros Ha (H1 & H2 & H3 & H4 & H5 & H6). repeat split; cbn; auto. apply Forall_app; auto. Qed.
Lemma add_item_kd v g : kd v -> group_kd g -> group_kd (add_item v g).
Proof. intros Hv (H1 & H2 & H3 & H4 & H5 & H6). repeat split; cbn; auto. apply Forall_app; auto. Qed.
Lemma set_base_type_kd v g : kd v -> group_kd g -> group_kd (set_base_type v g).
Proof. intros Hv (H1 & H2 & H3 & H4 & H5 & H6). repeat split; cbn; auto. Qed.
Lemma set_bgroup_kd v g : kd v -> group_kd g -> group_kd (set_bgroup v g).
Proof. intros Hv (H1 & H2 & H3 & H4 & H5 & H6). repeat split; cbn; auto. Qed.

Lemma modifier_step_kd d b gs mid gs' :
  kd d -> groups_kd gs -> modifier_step d b gs mid = Ok gs' -> groups_kd gs'.
Proof.
  unfold modifier_step. intros Hd Hg H. res_inv. kd_fwd.
  destruct x2 as [md|]; [|res_inv; now subst].
  assert (Hmd : kd md) by (eapply find_modifier_kd; [eapply py_iter_kd|]; eassumption).
  destruct (negb (truthy md)); res_inv; [now subst|]. kd_fwd.
  assert (Ha : affix_kd {| description := x2; mod_groups := x4; tiers := x9 |}).
  { repeat split; cbn; [assumption | eapply mod_groups_of_kd | eapply tiers_loop_kd]; eassumption. }
  destruct (py_eq x3 _); [|destruct (py_eq x3 _)]; res_inv; subst; try assumption;
    apply assoc_alter_Forall; auto using add_prefix_kd, add_suffix_kd.
Qed.

Lemma parse_modifiers_and_tiers_kd d gs gs' :
  kd d -> groups_kd gs -> parse_modifiers_and_tiers d gs = Ok gs' -> groups_kd gs'.
Proof.
  unfold parse_modifiers_and_tiers. intros Hd Hg H. res_inv. revert H.
  apply res_fold_invariant; [|exact Hg]. intros s [b mids] s' Hs _ Hstep.
  cbn in Hstep. destruct (assoc_lookup b s); res_inv; [|now subst].
  revert Hstep. apply res_fold_invariant; [|exact Hs]. eauto using modifier_step_kd.
Qed.

Lemma rename_base_kd v v' : kd v -> rename_base v = Ok v' -> kd v'.
Proof.
  unfold rename_base. intros Hv H. res_inv. destruct_match_in H; res_inv; subst; auto using kd_JStr.
Qed.

Lemma parse_base_groups_kd l gs : kd l -> parse_base_groups l = Ok gs -> groups_kd gs.
Proof.
  unfold parse_base_groups. intros Hl H. res_inv. kd_fwd.
  pose proof (as_dict_kd _ _ ltac:(eassumption) Hx0) as He. revert H.
  apply res_fold_invariant; [|constructor]. intros s [k bn] s' Hs Hin Hstep.
  unfold new_group in Hstep. res_inv. subst. apply assoc_set_Forall; [|exact Hs].
  repeat split; cbn; auto. eapply rename_base_kd; [exact (Forall_In _ _ _ He Hin) | eassumption].
Qed.

Lemma parse_items_kd d l gs gs' :
  kd l -> groups_kd gs -> parse_items d l gs = Ok gs' -> groups_kd gs'.
Proof.
  unfold parse_items. intros Hl Hg H. res_inv. revert H.
  apply res_fold_invariant; [|exact Hg]. intros s item s' Hs _ Hstep.
  unfold parse_items_step in Hstep. res_inv. case_opt Hstep; res_inv; subst; [|exact Hs]. kd_fwd.
  apply assoc_alter_Forall; [|exact Hs]. intros g. now apply add_item_kd.
Qed.

Lemma parse_bases_and_groups_kd d l gs gs' :
  kd d -> kd l -> groups_kd gs -> parse_bases_and_groups d l gs = Ok gs' -> groups_kd gs'.
Proof.
  unfold parse_bases_and_groups. intros Hd Hl Hg H. res_inv.
  pose proof (seq_of_kd _ _ _ Hd Hx) as Hxs. revert H.
  apply res_fold_invariant; [|exact Hg]. intros s base s' Hs Hin Hstep.
  pose proof (Forall_In _ _ _ Hxs Hin) as Hb.
  unfold parse_bases_step in Hstep. res_inv. case_opt Hstep; res_inv; subst; [|exact Hs]. kd_fwd.
  apply assoc_alter_Forall; [intros g; now apply set_bgroup_kd|].
  apply assoc_alter_Forall; [intros g; now apply set_base_type_kd | exact Hs].
Qed.

Lemma percent_kd w tot v : percent w tot = Ok v -> kd v.
Proof. unfold percent. destruct (0 <? tot)%Z; intros H; res_inv; subst; reflexivity. Qed.

Lemma percent_affix_kd tot bt a a' : affix_kd a -> percent_affix tot bt a = Ok a' -> affix_kd a'.
Proof.
  unfold percent_affix. intros (Hd & Hm & Ht) H. res_inv. subst. repeat split; cbn; auto.
  revert Hx. apply res_map_Forall. intros t t' Hin Hs. unfold set_percents in Hs. res_inv. subst.
  destruct (Forall_In _ _ _ Ht Hin) as (Hv & _ & _).
  repeat split; cbn; eauto using percent_kd.
Qed.

Lemma calculate_percentages_kd gs gs' : groups_kd gs -> calculate_percentages gs = Ok gs' -> groups_kd gs'.
Proof.
  unfold calculate_percentages. intros Hg. apply res_map_Forall. intros [k g] kv Hin H.
  res_inv. subst. cbn. unfold percent_group in Hx. res_inv. subst.
  destruct (Forall_In _ _ _ Hg Hin) as (H1 & H2 & H3 & H4 & H5 & H6).
  repeat split; cbn; auto.
  - revert Hx0. apply res_map_Forall. intros a a' Ha. apply percent_affix_kd, (Forall_In _ _ _ H3 Ha).
  - revert Hx1. apply res_map_Forall. intros a a' Ha. apply percent_affix_kd, (Forall_In _ _ _ H4 Ha).
Qed.

Lemma build_groups_kd d l gs : kd d -> kd l -> build_groups d l = Ok gs -> groups_kd gs.
Proof.
  unfold build_groups. intros Hd Hl H. res_inv.
  eapply calculate_percentages_kd; [|exact H].
  eapply parse_modifiers_and_tiers_kd; [exact Hd| |eassumption].
  eapply parse_bases_and_groups_kd; [exact Hd | exact Hl | |eassumption].
  eapply parse_items_kd; [exact Hl | |eassumption].
  eapply parse_base_groups_kd; eassumption.
Qed.

Lemma consolidate_groups_kd get u1 u2 gs : consolidate_groups get u1 u2 = Ok gs -> groups_kd gs.
Proof.
  unfold consolidate_groups. intros H. res_inv.
  eapply build_groups_kd; [eapply fetch_json_dicts, Hx | eapply fetch_json_dicts, Hx0 | exact H].
Qed.

(** *** The document *)
Lemma opt_field_kd k v : opt_kd v -> Forall (fun kv => kd (snd kv)) (opt_field k v).
Proof. destruct v; cbn; auto. Qed.

(** Split a [Forall] over the fields of a dictionary literal. *)
Ltac kd_fields :=
  repeat match goal with
  | |- Forall _ (_ ++ _) => apply Forall_app; split
  | |- Forall _ (_ :: _) => apply List.Forall_cons
  | |- Forall _ [] => apply List.Forall_nil
  | |- Forall _ (opt_field _ _) => apply opt_field_kd
  end; cbn [snd].

Lemma tier_json_kd t : tier_kd t -> kd (tier_json t).
Proof.
  intros (Hv & Ha & Hw). unfold tier_json. apply kd_obj.
  - apply nodup_keys_spec. destruct (float t), (affix_percent t), (weight_percent t); reflexivity.
  - kd_fields; auto using kd_JStr, kd_JInt.
    apply kd_arr, Forall_map. eapply Forall_impl; [|exact Hv]. intros [mn mx] [H1 H2].
    apply kd_obj; [apply nodup_keys_spec; reflexivity | kd_fields; assumption].
    destruct (float t); [reflexivity | exact I].
Qed.

Lemma affix_json_kd a : affix_kd a -> kd (affix_json a).
Proof.
  intros (Hd & Hm & Ht). apply kd_obj; [apply nodup_keys_spec; reflexivity|].
  kd_fields; [exact Hd | now apply kd_arr | apply kd_arr, Forall_map].
  eapply Forall_impl; [|exact Ht]. exact tier_json_kd.
Qed.

Lemma group_json_kd g : group_kd g -> kd (group_json g).
Proof.
  intros (H1 & H2 & H3 & H4 & H5 & H6). unfold group_json. apply kd_obj.
  - apply nodup_keys_spec. destruct (base_type g), (bgroup g); reflexivity.
  - kd_fields; auto; apply kd_arr; [exact H2 | |]; apply Forall_map.
    + eapply Forall_impl; [|exact H3]. exact affix_json_kd.
    + eapply Forall_impl; [|exact H4]. exact affix_json_kd.
Qed.

Lemma output_document_kd gs : groups_kd gs -> kd (output_document gs).
Proof.
  intros Hg. apply kd_obj; [apply nodup_keys_spec; reflexivity|].
  kd_fields. apply kd_arr, Forall_map. eapply Forall_impl; [|exact Hg]. intros kv. apply group_json_kd.
Qed.

Lemma consolidate_data_kd get u1 u2 doc : consolidate_data get u1 u2 = Ok doc -> kd doc.
Proof.
  unfold consolidate_data. intros H. res_inv. subst.
  eapply output_document_kd, consolidate_groups_kd; eassumption.
Qed.

(** *** The written file reads back *)

Lemma document_loads get u1 u2 doc :
  consolidate_data get u1 u2 = Ok doc -> floats_print doc = true ->
  json_loads_str (json_dump doc) = Ok doc.
Proof. intros H Hp. apply dump_loads; [exact (consolidate_data_kd _ _ _ _ H) | exact Hp]. Qed.

