(* ===== verification/Main.v ===== *)
(** * The script: HTTP requests, the output file and the console

    [consolidate_data] (lines 195-210) and the module-level lines 212-214
    as an interaction tree ([ITree]): the effects of the program are
    events, [HttpGet] for [requests.get] in [fetch_json] (line 40, with
    the headers of lines 35-39), [WriteFile] for the [open(output_path,
    "w")] and [json.dump] of lines 207-208, [PrintLine] for the [print]
    of line 210.  The pure computation between the events is the one of
    the other files: [Consolidate.fetch_json] on the response,
    [Consolidate.build_groups], [Consolidate.output_document] and
    [Dump.json_dump].  An exception ends the function at once, so the
    rest of the tree is skipped ([py_then]).

    The handler [h_io] interprets the events in a [World]: the responses
    the server gives for each URL, the files on disk as an association
    list from path to content ([open(..., "w")] replaces the content),
    and the trace of the actions performed, in order.  [run] is ITree's
    [interp_state] with this handler; the theorems compare runs up to
    [eutt] ([≈]). *)

From S2P Require Import Prelude PyStr PyFloat PyValue JsonLoads BaseGroups Modifiers Percentages Consolidate Dump Document.
From Stdlib Require Import Ascii String.
From ITree Require Import ITree ITreeFacts Events.State Events.StateFacts.
Open Scope string_scope.

(** ** Events and the world *)

(** Lines 35-39: the request headers of [fetch_json]. *)
Definition fetch_headers : list (string * string) :=
  let q := String dquote EmptyString in
  [("sec-ch-ua", q ++ "Not A(Brand" ++ q ++ ";v=" ++ q ++ "8" ++ q ++ ", " ++ q ++ "Chromium" ++ q
                 ++ ";v=" ++ q ++ "132" ++ q ++ ", " ++ q ++ "Google Chrome" ++ q ++ ";v=" ++ q ++ "132" ++ q);
   ("sec-ch-ua-mobile", "?0");
   ("sec-ch-ua-platform", q ++ "Windows" ++ q)].

(** What the program asks of its environment. *)
Variant ioE : Type -> Type :=
  | HttpGet (url : string) (headers : list (string * string)) : ioE Response
  | WriteFile (path text : string) : ioE unit
  | PrintLine (msg : string) : ioE unit.

(** The actions, as an observer of the environment records them. *)
Inductive act :=
  | AGet (url : string)
  | AWrite (path : string)
  | APrint (msg : string).

Record World := mkWorld {
  responses : string -> Response;
  files : list (string * string);
  trace : list act
}.

Definition h_io : ioE ~> Monads.stateT World (itree void1) :=
  fun _ e w =>
    match e with
    | HttpGet u _ => Ret (mkWorld (responses w) (files w) (trace w ++ [AGet u])%list, responses w u)
    | WriteFile p t => Ret (mkWorld (responses w) (assoc_set p t (files w)) (trace w ++ [AWrite p])%list, tt)
    | PrintLine m => Ret (mkWorld (responses w) (files w) (trace w ++ [APrint m])%list, tt)
    end.

(** ** The program *)

(** The statements after a call that may raise run only when it returns. *)
Definition py_then {A B} (m : itree ioE (py A)) (k : A -> itree ioE (py B)) : itree ioE (py B) :=
  ITree.bind m (fun r => match r with Ok a => k a | Exc e => Ret (Exc e) end).

(** Lines 34-52: the request, then the pure rest of [fetch_json]. *)
Definition fetch_json_io (url : string) : itree ioE (py json) :=
  ITree.bind (ITree.trigger (HttpGet url fetch_headers)) (fun response => Ret (fetch_json url response)).

(** Line 210. *)
Definition saved_message (output_path : string) : string :=
  "Consolidated JSON saved to " ++ output_path.

(** Lines 195-210. *)
Definition consolidate_data_io (poec_data_url poec_lang_url output_path : string) : itree ioE (py unit) :=
  py_then (fetch_json_io poec_data_url) (fun poec_data =>
  py_then (fetch_json_io poec_lang_url) (fun poec_lang =>
  py_then (Ret (build_groups poec_data poec_lang)) (fun base_groups =>
  let consolidated_data := output_document base_groups in
  ITree.bind (ITree.trigger (WriteFile output_path (json_dump consolidated_data))) (fun _ =>
  ITree.bind (ITree.trigger (PrintLine (saved_message output_path))) (fun _ =>
  Ret (Ok tt)))))).

(** Line 214. *)
Definition output_path : string := "poe.json".

(** Lines 212-215: the module-level call. *)
Definition main : itree ioE (py unit) := consolidate_data_io poec_data_url poec_lang_url output_path.

Definition run {R} (t : itree ioE R) (w : World) : itree void1 (World * R) := interp_state h_io t w.

(** The outcome of a run, computed from the pure model: the world after
    it and what [consolidate_data] returns (or raises). *)
Definition consolidate_outcome (w : World) (u1 u2 p : string) : World * py unit :=
  let g := responses w in
  let t1 := (trace w ++ [AGet u1])%list in
  match fetch_json u1 (g u1) with
  | Exc e => (mkWorld g (files w) t1, Exc e)
  | Ok d =>
      match fetch_json u2 (g u2) with
      | Exc e => (mkWorld g (files w) (t1 ++ [AGet u2])%list, Exc e)
      | Ok l =>
          match build_groups d l with
          | Exc e => (mkWorld g (files w) (t1 ++ [AGet u2])%list, Exc e)
          | Ok gs => (mkWorld g (assoc_set p (json_dump (output_document gs)) (files w))
                              (t1 ++ [AGet u2; AWrite p; APrint (saved_message p)])%list, Ok tt)
          end
      end
  end.

(** A world whose server answers as in the spec's example. *)
Definition ex_world : World := mkWorld ex_get [] [].

(** ** Lemmas *)

Lemma interp_fetch {R} u (k : py json -> itree ioE R) w :
  interp_state h_io (ITree.bind (fetch_json_io u) k) w
  ≈ interp_state h_io (k (fetch_json u (responses w u)))
                 (mkWorld (responses w) (files w) (trace w ++ [AGet u])%list).
Proof.
  unfold fetch_json_io. rewrite bind_bind, interp_state_bind, interp_state_trigger. cbn.
  rewrite bind_ret_l. cbn. now rewrite bind_ret_l.
Qed.

Lemma interp_write {R} p t (k : unit -> itree ioE R) w :
  interp_state h_io (ITree.bind (ITree.trigger (WriteFile p t)) k) w
  ≈ interp_state h_io (k tt) (mkWorld (responses w) (assoc_set p t (files w)) (trace w ++ [AWrite p])%list).
Proof. rewrite interp_state_bind, interp_state_trigger. cbn. now rewrite bind_ret_l. Qed.

Lemma interp_print {R} m (k : unit -> itree ioE R) w :
  interp_state h_io (ITree.bind (ITree.trigger (PrintLine m)) k) w
  ≈ interp_state h_io (k tt) (mkWorld (responses w) (files w) (trace w ++ [APrint m])%list).
Proof. rewrite interp_state_bind, interp_state_trigger. cbn. now rewrite bind_ret_l. Qed.

(** Every run ends, in the outcome the pure model computes. *)
Lemma run_consolidate w u1 u2 p :
  run (consolidate_data_io u1 u2 p) w ≈ Ret (consolidate_outcome w u1 u2 p).
Proof.
  unfold run, consolidate_data_io, consolidate_outcome, py_then.
  rewrite interp_fetch. cbn [responses files trace].
  destruct (fetch_json u1 (responses w u1)) as [d|e]; [|now rewrite interp_state_ret].
  rewrite interp_fetch. cbn [responses files trace].
  destruct (fetch_json u2 (responses w u2)) as [l|e]; [|now rewrite interp_state_ret].
  rewrite interp_state_bind, interp_state_ret, bind_ret_l. cbn.
  destruct (build_groups d l) as [gs|e]; [|now rewrite interp_state_ret].
  rewrite interp_write, interp_print, interp_state_ret. cbn. now rewrite <- !app_assoc.
Qed.

(** The outcome, read against [consolidate_data]: the answer is its
    result, the server is unchanged, and the file and the trace are
    those of a success or of a failure. *)
Lemma consolidate_outcome_spec w u1 u2 p :
  let o := consolidate_outcome w u1 u2 p in
  snd o = match consolidate_data (responses w) u1 u2 with Ok _ => Ok tt | Exc e => Exc e end
  /\ responses (fst o) = responses w
  /\ match consolidate_data (responses w) u1 u2 with
     | Ok doc => files (fst o) = assoc_set p (json_dump doc) (files w)
                 /\ trace (fst o) = (trace w ++ [AGet u1; AGet u2; AWrite p; APrint (saved_message p)])%list
     | Exc _ => files (fst o) = files w
                /\ (trace (fst o) = (trace w ++ [AGet u1])%list \/ trace (fst o) = (trace w ++ [AGet u1; AGet u2])%list)
     end.
Proof.
  unfold consolidate_outcome, consolidate_data, consolidate_groups.
  destruct (fetch_json u1 _) as [d|e]; cbn; [|auto].
  destruct (fetch_json u2 _) as [l|e]; cbn; [|rewrite <- app_assoc; auto].
  destruct (build_groups d l) as [gs|e]; cbn; rewrite <- app_assoc; auto.
Qed.

Lemma run_outcome w u1 u2 p :
  run (consolidate_data_io u1 u2 p) w
  ≈ Ret (fst (consolidate_outcome w u1 u2 p), snd (consolidate_outcome w u1 u2 p)).
Proof. rewrite run_consolidate. now destruct (consolidate_outcome w u1 u2 p). Qed.

(** C33: the script's effects agree with the pure model: every run of
    [consolidate_data] ends, returns what the pure [consolidate_data]
    returns (or raises what it raises), and its effects are in order:
    on success both requests, the data document first, then the write
    of [json.dump] of the document to [output_path], then the message;
    on failure the requests made up to the failure and nothing else, no
    file created or truncated and nothing printed. *)
Theorem consolidate_data_io_correct w u1 u2 p :
  exists w', run (consolidate_data_io u1 u2 p) w
             ≈ Ret (w', match consolidate_data (responses w) u1 u2 with Ok _ => Ok tt | Exc e => Exc e end)
  /\ responses w' = responses w
  /\ match consolidate_data (responses w) u1 u2 with
     | Ok doc => files w' = assoc_set p (json_dump doc) (files w)
                 /\ trace w' = (trace w ++ [AGet u1; AGet u2; AWrite p; APrint (saved_message p)])%list
     | Exc _ => files w' = files w
                /\ (trace w' = (trace w ++ [AGet u1])%list \/ trace w' = (trace w ++ [AGet u1; AGet u2])%list)
     end.
Proof.
  destruct (consolidate_outcome_spec w u1 u2 p) as (Hr & Hs & Hf).
  exists (fst (consolidate_outcome w u1 u2 p)). rewrite run_outcome, Hr. split; [reflexivity | exact (conj Hs Hf)].
Qed.

(** C34: the script reaches its end and leaves a file that reads back:
    when the server's answers make [consolidate_data] return a document
    whose floats print, running the module writes [poe.json], and
    [json.loads] of its content is that document. *)
Theorem main_output_loads w doc :
  consolidate_data (responses w) poec_data_url poec_lang_url = Ok doc -> floats_print doc = true ->
  exists w' text, run main w ≈ Ret (w', Ok tt)
  /\ assoc_lookup output_path (files w') = Some text /\ json_loads_str text = Ok doc.
Proof.
  intros Hd Hp. destruct (consolidate_outcome_spec w poec_data_url poec_lang_url output_path) as (Hr & _ & Hf).
  rewrite Hd in Hr, Hf. destruct Hf as [Hf _].
  exists (fst (consolidate_outcome w poec_data_url poec_lang_url output_path)), (json_dump doc).
  unfold main. rewrite run_outcome, Hr, Hf, assoc_lookup_set_eq.
  split; [reflexivity | split; [reflexivity | exact (document_loads _ _ _ _ Hd Hp)]].
Qed.

Lemma main_output_loads_witness :
  consolidate_data (responses ex_world) poec_data_url poec_lang_url = Ok ex_expected
  /\ floats_print ex_expected = true
  /\ exists w' text, run main ex_world ≈ Ret (w', Ok tt)
     /\ assoc_lookup output_path (files w') = Some text /\ json_loads_str text = Ok ex_expected.
Proof.
  assert (Hd : consolidate_data (responses ex_world) poec_data_url poec_lang_url = Ok ex_expected)
    by (vm_compute; reflexivity).
  assert (Hp : floats_print ex_expected = true) by (vm_compute; reflexivity).
  split; [exact Hd | split; [exact Hp | exact (main_output_loads ex_world ex_expected Hd Hp)]].
Defined.
